(* ===== verification/_CoqProject ===== *)
-Q . S2P
Prelude.v
GoStrings.v
Json.v
JsonTheorems.v
Messages.v
MessageTheorems.v
Prog.v
Lib.v
ApiTypes.v
Sha256.v
Image.v
Compat.v
Config.v
Toml.v
K8s.v
StatefulSet.v
Proxy.v
Go.v
Client.v
Auth.v
Controller.v
RollingRestart.v
Resources.v
RollingRestartProofs.v
Demo.v
Webhook.v
AuthTheorems.v
ScaleDown.v
Members.v
Reconcile.v
S3.v
Backup.v
Restore.v
ScaleDownProofs.v
ReconcileProofs.v
ScaleDownTheorems.v
ScaleDownLiveness.v
MembersTheorems.v
RollingRestartSafety.v
RollingRestartTheorems.v
RolloutLiveness.v
ReconcileTheorems.v
PanicFreedom.v
PassLiveness.v
Isolation.v
Permissions.v
PermissionTheorems.v
Entry.v
EntryTheorems.v
Settled.v
Tokens.v
WebhookTheorems.v
RestoreTheorems.v
BackupTheorems.v
RestoreLiveness.v
CompatTheorems.v
ConfigTheorems.v
ResourceTheorems.v
Converged.v
Conflicts.v
Memory.v
MemoryProofs.v
Copying.v
DeepCopy.v
DeepCopyTheorems.v
Slots.v
Lasting.v
