(* ===== verification/Prelude.v ===== *)
(** A verification library for hyperbytedb-operator, the Kubernetes operator of the
    HyperbyteDB time-series database.

    * The program

    The operator is three controllers and a webhook over three custom resources:
    [HyperbytedbCluster], [HyperbytedbBackup] and [HyperbytedbRestore].  A controller
    is a function [Reconcile] that is called again and again for one object; a call
    (a pass) reads and writes objects of the API server, talks HTTP to the database
    nodes and to the proxies in front of them, and returns when to be called next.

    - The cluster controller (internal/controller/hyperbytedbcluster_controller.go)
      owns a StatefulSet of database pods and its Services, Secrets, configuration,
      disruption budget, autoscaler and proxy.  It decommissions nodes before it
      shrinks the StatefulSet, replaces pods one at a time behind the proxy when the
      template changes, adds new nodes to the Raft membership, and reports the state.
    - The backup controller (hyperbytedbbackup_controller.go) turns a backup into a
      Job or CronJob that copies the volume of one pod to S3; the restore controller
      (hyperbytedbrestore_controller.go) stops the pods, runs one Job per volume that
      copies it back, and starts the pods again.
    - cmd/main.go reads the command line, and sets up the manager, the three controllers
      and the webhook.
    - The packages under internal/hyperbytedb compute the objects: the rendered
      config.toml and its hash, the pod template, the proxy, which features a database
      version has, and the HTTP client.  api/v1alpha1 holds the types and the webhook
      that fills in defaults and rejects invalid clusters.

    The controllers share the StatefulSet: the cluster controller writes its replicas
    from the spec, the restore controller sets them to zero and back ([Conflicts.v] shows
    what comes of it).

    * The model

    Code is translated function by function under its Go name; a function that is
    split here has its parts next to it, and every definition says in the manifest
    which lines it translates.  Go integers are [Z], with the wrap-around written out
    ([int32], [int64], [uint64] below) where an operation can leave the width; Go
    strings are byte strings; a pointer is an [option], a struct a record, a map a
    [gmap].  Log output is left out.

    What the code does not compute is a call: an API server request, an HTTP request,
    the clock, randomness, an event.  [Prog.v] gives programs over calls: a tree of
    calls and, for each answer, a continuation.  Nothing is assumed of the answers, so
    a theorem about the executions [exec p t o] of a program - its trace [t] of calls
    with their answers and its outcome [o], a value or a run-time panic - holds for
    every API server, every cluster, and every interleaving with other writers; a theorem
    that needs something of the answers says so (the liveness theorems do).
    Programs are inductive, so every pass ends after finitely many calls; there is no
    fuel in the controllers.  (In [GoStrings.v] and [Sha256.v] three loops over a
    string or a message carry its length as fuel, which bounds their iterations.)

    Third-party packages are the class [Lib] of [Lib.v]; [LibLaws] states what is
    relied on, and [Demo.v] has an instance that satisfies it.  Kubernetes itself is
    not modelled: the objects of [K8s.v] are data.

    * The files

    Foundations: [Prelude.v] (this file: integers, tactics), [GoStrings.v] (strings,
    strconv, fmt), [Json.v] (encoding/json: scanner, decoder, printer), [Prog.v]
    (programs and their logic), [Lib.v] (third-party packages), [K8s.v] (Kubernetes
    objects), [Go.v] (calls, errors, the monads), [Sha256.v], [Demo.v] (a concrete
    library and world for the witnesses).

    Data and pure functions: [ApiTypes.v] (api/v1alpha1/*_types.go), [Webhook.v]
    (hyperbytedbcluster_webhook.go), [Image.v] (labels.go, image.go and the names),
    [Compat.v] (compat.go), [Config.v] (configmap.go), [StatefulSet.v]
    (statefulset.go, service.go, servicemonitor.go), [Proxy.v] (proxy.go), [S3.v]
    (s3_transfer.go).

    [Messages.v] has the messages of client.go with their JSON names.

    Effects: [Client.v] (client.go and the token transport of auth.go), [Auth.v]
    (auth.go, tls.go), and for the cluster controller [Controller.v] (what its steps
    share), [Resources.v] (the objects it keeps), [RollingRestart.v], [ScaleDown.v]
    (with pvc.go), [Members.v] (member.go, membership, replication, failover) and
    [Reconcile.v] (the steps of a pass in order); [Backup.v] and [Restore.v].

    The process: [Permissions.v] (the RBAC markers and [SetupWithManager] of the three
    controllers) and [Entry.v] (cmd/main.go: flags, options, the order of the start).

    Memory: [Memory.v] (pointers, slices and maps in a heap, and the statements of the
    generated functions), [DeepCopy.v] (zz_generated.deepcopy.go).  Everywhere else an
    object is a value: a controller works on the copy the client made for it, and
    [DeepCopyTheorems.v] is why nobody else sees what it does to it.

    * The theorems

    Each file of properties comes with lemmas in a [Proofs] or [Safety] file where
    they are many, and every property with a hypothesis has a witness: the same
    statement at a concrete world of [Demo.v].

    - [ReconcileTheorems.v]: whole passes.  The StatefulSet never shrinks before the
      nodes that leave have evacuated and left the Raft voters; the configuration is
      current before a pod can restart for it; what a pass does when the cluster is
      paused or being deleted; that errors are reported; the final status.
      [PanicFreedom.v]: a pass returns.  [PassLiveness.v]: a pass that returns without an
      error asks to be called again.
    - [Converged.v]: a pass that comes to its end has brought every object to what the
      spec asks for.  [Settled.v]: an object so left is not written again; the class
      [Maintains] states what each step promises, its instances are the steps.
      [Lasting.v], on [Slots.v] (one object under the calls of a run): what a completed
      pass brought about outlasts any number of later passes, whatever fails in them.
    - [ScaleDownTheorems.v]: the departure plan against its specification, the gate,
      one node at a time, the pods and volumes a scale-down deletes.
      [ScaleDownLiveness.v]: nodes that do as they are told get a scale-down of [k] nodes
      through the gate in [k + 1] passes.
    - [RollingRestartTheorems.v]: a pass refines an abstract machine; ordinals are
      released highest first, each excluded from the proxies and drained before, and
      ready and included again before the next; the partition.  [RolloutLiveness.v]: [3 n]
      passes complete a helped restart of [n] pods.
    - [MembersTheorems.v]: member statuses, cluster state, failover, membership,
      replication.
    - [ResourceTheorems.v], [CompatTheorems.v], [AuthTheorems.v], [WebhookTheorems.v]:
      the objects and how they fit together, versions and capabilities, the Secrets,
      defaulting and validation.
    - [BackupTheorems.v], [RestoreTheorems.v]: backups follow their Jobs; restores
      refine a phase machine, write volumes only while no pod is ready, complete only
      after every Job did.
      Stops, granted requests and succeeded Jobs complete one: [RestoreLiveness.v].
    - [Isolation.v]: the three controllers stay in the namespace of their object and
      own what they create.  [Tokens.v]: which HTTP requests carry the token.
      [PermissionTheorems.v]: every call they make is one their role permits.
      [Conflicts.v]: the cluster controller undoes the scaling of a restore; a cluster
      named after another's proxy shares a Service with it.
    - [DeepCopyTheorems.v], on [MemoryProofs.v] (the heap) and [Copying.v] (each statement
      copies): the deep copies copy everything and share nothing.
    - [EntryTheorems.v]: the command line reads back, and the start follows its plan.
    - [ConfigTheorems.v] with [Toml.v]: a reader of the configuration file gets back
      the settings, key by key.  [JsonTheorems.v], [MessageTheorems.v]: requests read
      back as they were meant, and what is decoded is of the types of the structs.

    * Not modelled

    The registration of the kinds in the scheme, the logger and the flags third-party
    packages add (a parameter of [Entry.main]), manifests, end-to-end tests and scripts.
    Version ordering, the API server, the transport of HTTP, certificate generation, the
    copy functions of the types of other modules and what the shell makes of the
    generated scripts are third-party behaviour: answers of calls, or fields of [Lib] and
    of [Foreign].  Of encoding/json one case is left out, the reuse of a slice's spare
    capacity when a key occurs three times in one object.  [SetControllerReference] is
    taken to succeed (it fails only for objects of another owner or scope, which the
    operator does not build). *)
From stdpp Require Export base gmap strings list pretty fin_maps.
From stdpp Require Import options.
From Stdlib Require Export Ascii.

#[export] Set Warnings "-clear-no-such-hyp".

(** ** Machine integers

    Go's fixed-width integers are [Z] with the wrap-around written out at the
    operations that can leave the width. *)

Definition wrap (w : Z) (z : Z) : Z := ((z + 2 ^ (w - 1)) `mod` 2 ^ w - 2 ^ (w - 1))%Z.
Definition int32 (z : Z) : Z := wrap 32 z.
Definition int64 (z : Z) : Z := wrap 64 z.
Definition uint64 (z : Z) : Z := (z `mod` 2 ^ 64)%Z.

Definition in_int32 (z : Z) : Prop := (- 2 ^ 31 <= z < 2 ^ 31)%Z.
Definition in_int64 (z : Z) : Prop := (- 2 ^ 63 <= z < 2 ^ 63)%Z.

#[export] Instance in_int32_dec z : Decision (in_int32 z).
Proof. unfold in_int32. apply _. Defined.

Lemma int32_id z : in_int32 z → int32 z = z.
Proof. unfold in_int32, int32, wrap. intros. rewrite Z.mod_small; lia. Qed.

Lemma int32_range z : in_int32 (int32 z).
Proof.
  unfold in_int32, int32, wrap.
  pose proof (Z.mod_pos_bound (z + 2 ^ (32 - 1)) (2 ^ 32)). lia.
Qed.

Lemma int64_id z : in_int64 z → int64 z = z.
Proof. unfold in_int64, int64, wrap. intros. rewrite Z.mod_small; lia. Qed.

Lemma uint64_id z : (0 <= z < 2 ^ 64)%Z → uint64 z = z.
Proof. unfold uint64. intros. by rewrite Z.mod_small. Qed.

(** ** Automation *)

(** Boolean tests in the context become the propositions they decide. *)
Ltac bools :=
  repeat match goal with
  | Hb : _ && _ = true |- _ => apply andb_true_iff in Hb as [? ?]
  | Hb : _ || _ = false |- _ => apply orb_false_iff in Hb as [? ?]
  | Hb : negb _ = true |- _ => apply negb_true_iff in Hb
  | Hb : negb _ = false |- _ => apply negb_false_iff in Hb
  | Hb : bool_decide _ = true |- _ => apply bool_decide_eq_true in Hb
  | Hb : bool_decide _ = false |- _ => apply bool_decide_eq_false in Hb
  | Hb : String.eqb _ _ = true |- _ => apply String.eqb_eq in Hb
  | Hb : String.eqb _ _ = false |- _ => apply String.eqb_neq in Hb
  | Hb : Z.eqb _ _ = true |- _ => apply Z.eqb_eq in Hb
  | Hb : Z.eqb _ _ = false |- _ => apply Z.eqb_neq in Hb
  end.
