(* ===== verification/GoStrings.v ===== *)
(** The functions of Go's [strings], [strconv] and [fmt] packages the operator
    uses, on Rocq byte strings, with the lemmas the components share. *)

From S2P Require Import Prelude.
#[local] Open Scope string_scope.

(** ** [strconv.Itoa], [%d], [%t] *)

Definition Itoa (z : Z) : string := pretty z.
Definition fmt_bool (b : bool) : string := if b then "true" else "false".

#[export] Instance Itoa_inj : Inj (=) (=) Itoa.
Proof. unfold Itoa. apply _. Qed.

(** ** Prefixes and suffixes *)

Fixpoint strip_prefix (p s : string) : option string :=
  match p, s with
  | EmptyString, _ => Some s
  | String a p', String b s' => if Ascii.eqb a b then strip_prefix p' s' else None
  | String _ _, EmptyString => None
  end.

Definition HasPrefix (s p : string) : bool := bool_decide (is_Some (strip_prefix p s)).
Definition TrimPrefix (s p : string) : string := default s (strip_prefix p s).

(** [TrimSuffix s suf]: the tail that equals [suf], when there is one, is cut. *)
Fixpoint TrimSuffix (s suf : string) : string :=
  if String.eqb s suf then ""
  else match s with
       | EmptyString => ""
       | String c s' => String c (TrimSuffix s' suf)
       end.

(** ** Searching *)

Fixpoint Contains (s sub : string) : bool :=
  HasPrefix s sub ||
  match s with EmptyString => false | String _ s' => Contains s' sub end.

(** Position of the first and of the last byte [c]; -1 when there is none. *)
Fixpoint IndexByte (s : string) (c : ascii) : Z :=
  match s with
  | EmptyString => -1
  | String a s' =>
      if Ascii.eqb a c then 0
      else let i := IndexByte s' c in if bool_decide (i < 0)%Z then -1 else (i + 1)%Z
  end.

Fixpoint LastIndexByte (s : string) (c : ascii) : Z :=
  match s with
  | EmptyString => -1
  | String a s' =>
      let i := LastIndexByte s' c in
      if bool_decide (0 <= i)%Z then (i + 1)%Z
      else if Ascii.eqb a c then 0 else -1
  end.

(** Slices [s[:n]] and [s[n:]]. *)
Definition slice_to (s : string) (n : Z) : string := String.substring 0 (Z.to_nat n) s.
Definition slice_from (s : string) (n : Z) : string :=
  String.substring (Z.to_nat n) (String.length s - Z.to_nat n) s.

(** ** Trimming *)

(** [strings.Trim(s, string(c))] for a single byte [c]. *)
Fixpoint TrimLeftByte (s : string) (c : ascii) : string :=
  match s with
  | String a s' => if Ascii.eqb a c then TrimLeftByte s' c else s
  | EmptyString => ""
  end.

Fixpoint TrimRightByte (s : string) (c : ascii) : string :=
  match s with
  | EmptyString => ""
  | String a s' =>
      let r := TrimRightByte s' c in
      if Ascii.eqb a c && String.eqb r "" then "" else String a r
  end.

Definition TrimByte (s : string) (c : ascii) : string := TrimRightByte (TrimLeftByte s c) c.

Definition bytes (l : list nat) : string :=
  foldr (λ n s, String (ascii_of_nat n) s) "" l.

(** The UTF-8 encodings of the runes [unicode.IsSpace] accepts. *)
Definition space_runes : list string :=
  bytes <$>
    [[9]; [10]; [11]; [12]; [13]; [32]; [194; 133]; [194; 160]; [225; 154; 128];
     [226; 128; 128]; [226; 128; 129]; [226; 128; 130]; [226; 128; 131]; [226; 128; 132];
     [226; 128; 133]; [226; 128; 134]; [226; 128; 135]; [226; 128; 136]; [226; 128; 137];
     [226; 128; 138]; [226; 128; 168]; [226; 128; 169]; [226; 128; 175]; [226; 129; 159];
     [227; 128; 128]].

(** The rest of [s] after a leading white-space rune. *)
Definition strip_space (s : string) : option string :=
  head (omap (λ p, strip_prefix p s) space_runes).

Fixpoint trim_left_fuel (fuel : nat) (s : string) : string :=
  match fuel with
  | O => s
  | S n => match strip_space s with Some s' => trim_left_fuel n s' | None => s end
  end.

Definition TrimLeftSpace (s : string) : string := trim_left_fuel (String.length s) s.

(** All of [s] is white-space runes. *)
Definition all_space (s : string) : bool := String.eqb (TrimLeftSpace s) "".

(** A white-space rune starts no other rune, so the runes at the end of a string
    that are white space are the longest tail that is all white space. *)
Fixpoint TrimRightSpace (s : string) : string :=
  if all_space s then ""
  else match s with EmptyString => "" | String a s' => String a (TrimRightSpace s') end.

Definition TrimSpace (s : string) : string := TrimRightSpace (TrimLeftSpace s).

(** [strings.Join] is [String.concat sep l]. *)
Definition Join (l : list string) (sep : string) : string := String.concat sep l.

(** [%x] of bytes given as numbers below 256. *)
Definition hex_digit (n : Z) : ascii :=
  ascii_of_nat (Z.to_nat (if bool_decide (n < 10)%Z then 48 + n else 87 + n)).
Definition hex_byte (n : Z) : string :=
  String (hex_digit (n / 16)) (String (hex_digit (n mod 16)) "").
Definition hex (l : list Z) : string := String.concat "" (hex_byte <$> l).

(** The line feed of a Go string literal. *)
Definition nl : string := String (ascii_of_nat 10) "".
Definition dq : string := String (ascii_of_nat 34) "".

(** ** Lemmas *)

Lemma string_app_cons x a b : String x a +:+ b = String x (a +:+ b).
Proof. done. Qed.

Lemma string_app_nil b : "" +:+ b = b.
Proof. done. Qed.

Lemma string_app_assoc (a b c : string) : (a +:+ b) +:+ c = a +:+ (b +:+ c).
Proof.
  induction a as [|x a IH]; [done|]. by rewrite !string_app_cons, IH.
Qed.

Lemma string_app_nil_r (a : string) : a +:+ "" = a.
Proof. induction a as [|x a IH]; [done|]. by rewrite string_app_cons, IH. Qed.

Lemma string_length_app (a b : string) :
  String.length (a +:+ b) = (String.length a + String.length b)%nat.
Proof. induction a as [|x a IH]; [done|]. rewrite string_app_cons. simpl. by rewrite IH. Qed.

Create Rewrite HintDb gostr.
#[export] Hint Rewrite string_app_cons string_app_nil string_app_nil_r string_app_assoc
  string_length_app : gostr.
Ltac gostr := autorewrite with gostr in *; simpl in *.

Lemma strip_prefix_app p s : strip_prefix p (p +:+ s) = Some s.
Proof. induction p as [|c p IH]; [done|]. gostr. by rewrite Ascii.eqb_refl. Qed.

Lemma strip_prefix_Some p s r : strip_prefix p s = Some r ↔ s = p +:+ r.
Proof.
  split; [|intros ->; apply strip_prefix_app].
  revert s. induction p as [|c p IH]; intros s; simpl; [by intros [= ->]|].
  destruct s as [|a s]; [done|]. destruct (Ascii.eqb_spec c a) as [->|]; [|done].
  intros H. gostr. by rewrite (IH s H).
Qed.

Lemma HasPrefix_spec s p : HasPrefix s p = true ↔ ∃ r, s = p +:+ r.
Proof.
  unfold HasPrefix. rewrite bool_decide_eq_true. unfold is_Some.
  by setoid_rewrite strip_prefix_Some.
Qed.

Lemma Contains_spec s sub : Contains s sub = true ↔ ∃ a b, s = a +:+ sub +:+ b.
Proof.
  induction s as [|c s IH]; simpl; rewrite orb_true_iff, HasPrefix_spec.
  - split.
    + intros [[r Hr]|]; [|done]. by exists "", r.
    + intros ([|] & b & H); gostr; [|done]. left. by exists b.
  - rewrite IH. split.
    + intros [[r Hr]|(a & b & ->)]; [by exists "", r|by exists (String c a), b].
    + intros ([|a0 a] & b & H); gostr; [left; by exists b|].
      simplify_eq. right. by exists a, b.
Qed.

Lemma Contains_app_l s t sub : Contains s sub = true → Contains (s +:+ t) sub = true.
Proof.
  rewrite !Contains_spec. intros (a & b & ->). exists a, (b +:+ t). by gostr.
Qed.

Lemma Contains_app_r s t sub : Contains t sub = true → Contains (s +:+ t) sub = true.
Proof.
  rewrite !Contains_spec. intros (a & b & ->). exists (s +:+ a), b. by gostr.
Qed.

Lemma LastIndexByte_lower s c : (-1 <= LastIndexByte s c)%Z.
Proof.
  induction s as [|a s IH]; simpl; [done|].
  case_bool_decide; [lia|]. destruct (Ascii.eqb a c); lia.
Qed.

Lemma LastIndexByte_app s t c :
  LastIndexByte (s +:+ t) c =
    if bool_decide (0 <= LastIndexByte t c)%Z
    then (Z.of_nat (String.length s) + LastIndexByte t c)%Z
    else LastIndexByte s c.
Proof.
  pose proof (LastIndexByte_lower t c).
  induction s as [|a s IH]; gostr.
  - case_bool_decide; lia.
  - rewrite IH. repeat case_bool_decide; try lia; done.
Qed.

Lemma Contains_byte s c : Contains s (String c "") = bool_decide (0 <= LastIndexByte s c)%Z.
Proof.
  induction s as [|a s IH]; [done|]. simpl. rewrite IH. unfold HasPrefix. simpl.
  rewrite (Ascii.eqb_sym c a). destruct (Ascii.eqb_spec a c) as [->|Hne].
  - rewrite (bool_decide_true (is_Some _)) by eauto.
    repeat case_bool_decide; try done; lia.
  - rewrite (bool_decide_false (is_Some None)) by (by intros [? ?]). simpl.
    repeat case_bool_decide; try done; lia.
Qed.
