(* ===== verification/Json.v ===== *)
(** Go's [encoding/json]: the scanner as a machine that reads one byte at a time,
    [Unmarshal] into Go variables, and the text [Marshal] produces.

    The machine keeps the stack of open arrays and objects and what it is in the
    middle of, like the step functions of Go's scanner, so reading is structural
    in the input and needs no fuel.  Text between quotes is collected as it stands
    and unquoted when the string ends, as Go does.  [JsonTheorems.v] shows that what
    is printed reads back.

    Decoding follows Go where the text is not of the variable's type: the variable
    keeps its value, decoding goes on, and an error is returned at the end.  (Not
    modelled: the elements an array finds in the spare capacity of a slice when the
    same key occurs three times in one object.) *)

From S2P Require Import Prelude GoStrings.
#[local] Open Scope string_scope.
#[local] Arguments Ascii.eqb : simpl never.

#[local] Unset Elimination Schemes.
(** A number is kept as its literal: each Go type reads it in its own way. *)
Inductive json :=
  | JNull
  | JBool (b : bool)
  | JNumber (literal : string)
  | JString (s : string)
  | JArray (l : list json)
  | JObject (l : list (string * json)).
#[local] Set Elimination Schemes.

Section Induction.
Variable Q : json → Prop.
Hypothesis (QNull : Q JNull) (QBool : ∀ b, Q (JBool b)) (QNumber : ∀ lit, Q (JNumber lit))
  (QString : ∀ s, Q (JString s)) (QArray : ∀ l, Forall Q l → Q (JArray l))
  (QObject : ∀ l, Forall (λ kv, Q kv.2) l → Q (JObject l)).

Fixpoint json_ind (v : json) : Q v :=
  match v with
  | JNull => QNull
  | JBool b => QBool b
  | JNumber lit => QNumber lit
  | JString s => QString s
  | JArray l =>
      QArray l ((fix go l : Forall Q l :=
        match l with [] => Forall_nil_2 _ | x :: l' => Forall_cons_2 _ x l' (json_ind x) (go l') end) l)
  | JObject l =>
      QObject l ((fix go l : Forall (λ kv, Q kv.2) l :=
        match l with
        | [] => Forall_nil_2 _
        | kv :: l' => Forall_cons_2 _ kv l' (json_ind kv.2) (go l')
        end) l)
  end.
End Induction.

(** ** Bytes *)

Definition quote : ascii := ascii_of_nat 34.
Definition backslash : ascii := ascii_of_nat 92.
Definition code (a : ascii) : N := N_of_ascii a.
Definition between (lo hi : N) (a : ascii) : bool := (lo <=? code a)%N && (code a <=? hi)%N.

(** The space characters of JSON. *)
Definition isSpace (a : ascii) : bool :=
  (code a =? 32)%N || (code a =? 9)%N || (code a =? 10)%N || (code a =? 13)%N.
Definition isDigit (a : ascii) : bool := between 48 57 a.
Definition control (a : ascii) : bool := (code a <? 32)%N.

Definition hex_value (a : ascii) : option N :=
  if isDigit a then Some (code a - 48)%N
  else if between 97 102 a then Some (code a - 87)%N
  else if between 65 70 a then Some (code a - 55)%N
  else None.
Definition isHex (a : ascii) : bool := bool_decide (is_Some (hex_value a)).

(** ** UTF-8 *)

(** Continuation bytes. *)
Definition cont (a : ascii) : bool := between 128 191 a.

(** [utf8.DecodeRune] on a string whose first byte is not ASCII: the number of bytes
    of the rune it starts with, 0 when the encoding is invalid. *)
Definition rune_width (a : ascii) (s : string) : nat :=
  if between 194 223 a then
    match s with String b _ => if cont b then 2 else 0 | _ => 0 end
  else if between 224 239 a then
    match s with
    | String b (String c _) =>
        if (if (code a =? 224)%N then between 160 191 b
            else if (code a =? 237)%N then between 128 159 b else cont b) && cont c
        then 3 else 0
    | _ => 0
    end
  else if between 240 244 a then
    match s with
    | String b (String c (String d _)) =>
        if (if (code a =? 240)%N then between 144 191 b
            else if (code a =? 244)%N then between 128 143 b else cont b) && cont c && cont d
        then 4 else 0
    | _ => 0
    end
  else 0.

(** [utf8.EncodeRune] of a code point that is not a surrogate. *)
Definition byte_of (n : N) : ascii := ascii_of_N n.
Definition encode_rune (r : N) : string :=
  if (r <? 128)%N then String (byte_of r) ""
  else if (r <? 2048)%N then
    String (byte_of (192 + r / 64)) (String (byte_of (128 + r mod 64)) "")
  else if (r <? 65536)%N then
    String (byte_of (224 + r / 4096)) (String (byte_of (128 + (r / 64) mod 64))
      (String (byte_of (128 + r mod 64)) ""))
  else
    String (byte_of (240 + r / 262144)) (String (byte_of (128 + (r / 4096) mod 64))
      (String (byte_of (128 + (r / 64) mod 64)) (String (byte_of (128 + r mod 64)) ""))).

(** U+FFFD, which stands for what is not a rune. *)
Definition ReplacementChar : string := encode_rune 65533.

(** ** Strings *)

(** [getu4]: the value of four hexadecimal digits. *)
Definition hex4 (a b c d : ascii) : N :=
  let h x := default 0%N (hex_value x) in (4096 * h a + 256 * h b + 16 * h c + h d)%N.

Definition high_surrogate (r : N) : bool := (55296 <=? r)%N && (r <? 56320)%N.
Definition low_surrogate (r : N) : bool := (56320 <=? r)%N && (r <? 57344)%N.
(** [utf16.DecodeRune] *)
Definition utf16_decode (r r1 : N) : N := ((r - 55296) * 1024 + (r1 - 56320) + 65536)%N.

(** The character of a one-letter escape. *)
Definition escaped (e : ascii) : ascii :=
  if (code e =? 98)%N then byte_of 8
  else if (code e =? 102)%N then byte_of 12
  else if (code e =? 110)%N then byte_of 10
  else if (code e =? 114)%N then byte_of 13
  else if (code e =? 116)%N then byte_of 9
  else e.

(** [unquoteBytes]: the string a literal stands for, given the text between the
    quotes, in which the scanner has checked the escapes. *)
Fixpoint unquote (s : string) : string :=
  match s with
  | EmptyString => ""
  | String a s1 =>
      if Ascii.eqb a backslash then
        match s1 with
        | EmptyString => ""
        | String e s2 =>
            if Ascii.eqb e "u" then
              match s2 with
              | String h1 (String h2 (String h3 (String h4 s6))) =>
                  let r := hex4 h1 h2 h3 h4 in
                  if high_surrogate r then
                    match s6 with
                    | String b (String u (String l1 (String l2 (String l3 (String l4 s12))))) =>
                        if Ascii.eqb b backslash && Ascii.eqb u "u" &&
                           low_surrogate (hex4 l1 l2 l3 l4)
                        then encode_rune (utf16_decode r (hex4 l1 l2 l3 l4)) +:+ unquote s12
                        else ReplacementChar +:+ unquote s6
                    | _ => ReplacementChar +:+ unquote s6
                    end
                  else if low_surrogate r then ReplacementChar +:+ unquote s6
                  else encode_rune r +:+ unquote s6
              | _ => ""
              end
            else String (escaped e) (unquote s2)
        end
      else if (code a <? 128)%N then String a (unquote s1)
      else match rune_width a s1, s1 with
           | 2, String b s2 => String a (String b (unquote s2))
           | 3, String b (String c s3) => String a (String b (String c (unquote s3)))
           | 4, String b (String c (String d s4)) =>
               String a (String b (String c (String d (unquote s4))))
           | _, _ => ReplacementChar +:+ unquote s1
           end
  end.

(** ** The scanner *)

(** Inside a number: after the sign, a leading zero, digits, the point, digits of the
    fraction, the letter of the exponent, its sign, its digits. *)
Inductive num := NNeg | NZero | NInt | NDot | NFrac | NExp | NExpSign | NExpInt.

Definition num_start (a : ascii) : option num :=
  if Ascii.eqb a "-" then Some NNeg
  else if Ascii.eqb a "0" then Some NZero
  else if isDigit a then Some NInt else None.

Definition exponent (a : ascii) : bool := Ascii.eqb a "e" || Ascii.eqb a "E".

Definition num_step (n : num) (a : ascii) : option num :=
  match n with
  | NNeg => if Ascii.eqb a "0" then Some NZero else if isDigit a then Some NInt else None
  | NZero => if Ascii.eqb a "." then Some NDot else if exponent a then Some NExp else None
  | NInt =>
      if isDigit a then Some NInt
      else if Ascii.eqb a "." then Some NDot else if exponent a then Some NExp else None
  | NDot => if isDigit a then Some NFrac else None
  | NFrac => if isDigit a then Some NFrac else if exponent a then Some NExp else None
  | NExp =>
      if Ascii.eqb a "+" || Ascii.eqb a "-" then Some NExpSign
      else if isDigit a then Some NExpInt else None
  | NExpSign | NExpInt => if isDigit a then Some NExpInt else None
  end.

(** The states in which a number may end. *)
Definition num_end (n : num) : bool :=
  match n with NZero | NInt | NFrac | NExpInt => true | _ => false end.

(** Inside a string: plain text, after a backslash, with hexadecimal digits to come. *)
Inductive esc := EPlain | EBackslash | EHex (n : nat).

Definition esc_step (e : esc) (a : ascii) : option esc :=
  match e with
  | EPlain =>
      if Ascii.eqb a backslash then Some EBackslash
      else if control a then None else Some EPlain
  | EBackslash =>
      if Ascii.eqb a "u" then Some (EHex 4)
      else if existsb (Ascii.eqb a) [quote; backslash; "/"; "b"; "f"; "n"; "r"; "t"]%char
      then Some EPlain else None
  | EHex n =>
      if isHex a then Some (match n with S (S m) => EHex (S m) | _ => EPlain end) else None
  end.

(** An open array, an open object between its members, an open object whose member of
    the given key is being read; the values so far in reverse. *)
Inductive frame :=
  | FArray (l : list json)
  | FObject (l : list (string * json))
  | FMember (key : string) (l : list (string * json)).

Inductive mode :=
  (** a value is next; [first]: or the end of the array just opened *)
  | MValue (first : bool)
  (** a key is next; [first]: or the end of the object just opened *)
  | MKey (first : bool)
  | MColon
  (** a comma or the end of the array or object *)
  | MNext
  (** the rest of [true], [false] or [null] *)
  | MLiteral (rest : string) (v : json)
  | MNumber (n : num) (text : list ascii)
  | MString (key : bool) (e : esc) (text : list ascii)
  (** a value that is no part of another is complete *)
  | MDone (v : json).

Record scanner := mkScanner { sc_mode : mode; sc_stack : list frame }.

Definition text_of (rev_text : list ascii) : string := String.string_of_list_ascii (rev rev_text).

(** [stateEndValue]: the value [v] is complete. *)
Definition end_value (v : json) (st : list frame) : option scanner :=
  match st with
  | [] => Some (mkScanner (MDone v) [])
  | FArray l :: st' => Some (mkScanner MNext (FArray (v :: l) :: st'))
  | FMember k l :: st' => Some (mkScanner MNext (FObject ((k, v) :: l) :: st'))
  | FObject _ :: _ => None
  end.

Definition end_array (st : list frame) : option scanner :=
  match st with FArray l :: st' => end_value (JArray (rev l)) st' | _ => None end.
Definition end_object (st : list frame) : option scanner :=
  match st with FObject l :: st' => end_value (JObject (rev l)) st' | _ => None end.

(** [pushParseState]: at most [maxNestingDepth] values may be open. *)
Definition maxNestingDepth : Z := 10000.
Definition push (f : frame) (m : mode) (st : list frame) : option scanner :=
  if (Z.of_nat (length (f :: st)) <=? maxNestingDepth)%Z
  then Some (mkScanner m (f :: st)) else None.

(** [stateBeginValue] *)
Definition begin_value (a : ascii) (st : list frame) : option scanner :=
  if Ascii.eqb a "{" then push (FObject []) (MKey true) st
  else if Ascii.eqb a "[" then push (FArray []) (MValue true) st
  else if Ascii.eqb a quote then Some (mkScanner (MString false EPlain []) st)
  else if Ascii.eqb a "t" then Some (mkScanner (MLiteral "rue" (JBool true)) st)
  else if Ascii.eqb a "f" then Some (mkScanner (MLiteral "alse" (JBool false)) st)
  else if Ascii.eqb a "n" then Some (mkScanner (MLiteral "ull" JNull) st)
  else (λ n, mkScanner (MNumber n [a]) st) <$> num_start a.

(** The end of a string: a value, or the key of the member that follows. *)
Definition end_string (key : bool) (raw_text : string) (st : list frame) : option scanner :=
  if key then
    match st with
    | FObject l :: st' => Some (mkScanner MColon (FMember (unquote raw_text) l :: st'))
    | _ => None
    end
  else end_value (JString (unquote raw_text)) st.

(** One byte; a number ends before this ([settle]). *)
Definition step (a : ascii) (sc : scanner) : option scanner :=
  let st := sc_stack sc in
  match sc_mode sc with
  | MValue first =>
      if isSpace a then Some sc
      else if first && Ascii.eqb a "]" then end_array st
      else begin_value a st
  | MKey first =>
      if isSpace a then Some sc
      else if first && Ascii.eqb a "}" then end_object st
      else if Ascii.eqb a quote then Some (mkScanner (MString true EPlain []) st)
      else None
  | MColon =>
      if isSpace a then Some sc
      else if Ascii.eqb a ":" then Some (mkScanner (MValue false) st) else None
  | MNext =>
      if isSpace a then Some sc
      else match st with
           | FArray _ :: _ =>
               if Ascii.eqb a "," then Some (mkScanner (MValue false) st)
               else if Ascii.eqb a "]" then end_array st else None
           | FObject _ :: _ =>
               if Ascii.eqb a "," then Some (mkScanner (MKey false) st)
               else if Ascii.eqb a "}" then end_object st else None
           | _ => None
           end
  | MLiteral (String b rest) v =>
      if Ascii.eqb a b then
        if String.eqb rest "" then end_value v st else Some (mkScanner (MLiteral rest v) st)
      else None
  | MLiteral EmptyString _ => None
  | MNumber n text => (λ n', mkScanner (MNumber n' (a :: text)) st) <$> num_step n a
  | MString key EPlain text =>
      if Ascii.eqb a quote then end_string key (text_of text) st
      else (λ e, mkScanner (MString key e (a :: text)) st) <$> esc_step EPlain a
  | MString key e text =>
      (λ e', mkScanner (MString key e' (a :: text)) st) <$> esc_step e a
  | MDone _ => None
  end.

(** The first byte that does not continue a number ends it. *)
Definition settle (a : ascii) (sc : scanner) : option scanner :=
  match sc_mode sc with
  | MNumber n text =>
      match num_step n a with
      | Some _ => Some sc
      | None => if num_end n then end_value (JNumber (text_of text)) (sc_stack sc) else None
      end
  | _ => Some sc
  end.

(** Reads the first value of [s]; returns it with the rest of the text.  At the end
    of the text a number may still end, as before a space. *)
Fixpoint scan (s : string) (sc : scanner) : option (json * string) :=
  match sc_mode sc with
  | MDone v => Some (v, s)
  | _ =>
      match s with
      | EmptyString =>
          sc' ← settle " " sc;
          match sc_mode sc' with MDone v => Some (v, "") | _ => None end
      | String a s' =>
          sc' ← settle a sc;
          match sc_mode sc' with
          | MDone v => Some (v, s)
          | _ => sc'' ← step a sc'; scan s' sc''
          end
      end
  end.

Definition start : scanner := mkScanner (MValue false) [].

(** The first value of the text, and what follows it. *)
Definition read_json (s : string) : option (json * string) := scan s start.

Fixpoint blank (s : string) : bool :=
  match s with EmptyString => true | String a s' => isSpace a && blank s' end.

(** ** Decoding into Go variables *)

(** The value of the variable afterwards, and whether there was no type error. *)
Definition decoder (A : Type) : Type := json → A → A * bool.

Definition digit_value (a : ascii) : option Z :=
  if isDigit a then Some (Z.of_N (code a - 48)) else None.

(** [strconv.ParseUint(s, 10, 64)], without its range check. *)
Fixpoint digits_value (acc : Z) (s : string) : option Z :=
  match s with
  | EmptyString => Some acc
  | String a s' => d ← digit_value a; digits_value (acc * 10 + d)%Z s'
  end.
Definition parse_uint (s : string) : option Z :=
  if String.eqb s "" then None else digits_value 0 s.
(** [strconv.ParseInt(s, 10, 64)], without its range check. *)
Definition parse_int (s : string) : option Z :=
  match s with
  | String a s' => if Ascii.eqb a "-" then Z.opp <$> parse_uint s' else parse_uint s
  | EmptyString => None
  end.

Definition dec_number (p : string → option Z) (lo hi : Z) : decoder Z := λ v old,
  match v with
  | JNull => (old, true)
  | JNumber lit =>
      match p lit with
      | Some z => if (lo <=? z)%Z && (z <? hi)%Z then (z, true) else (old, false)
      | None => (old, false)
      end
  | _ => (old, false)
  end.
(** [int] and [int64] (the platforms are 64-bit), [uint64], [uint32]. *)
Definition dec_int : decoder Z := dec_number parse_int (- 2 ^ 63) (2 ^ 63).
Definition dec_uint64 : decoder Z := dec_number parse_uint 0 (2 ^ 64).
Definition dec_uint32 : decoder Z := dec_number parse_uint 0 (2 ^ 32).

Definition dec_bool : decoder bool := λ v old,
  match v with JNull => (old, true) | JBool b => (b, true) | _ => (old, false) end.
Definition dec_string : decoder string := λ v old,
  match v with JNull => (old, true) | JString s => (s, true) | _ => (old, false) end.

(** A pointer is set to nil by null and allocated for everything else. *)
Definition dec_pointer {A} (zero : A) (d : decoder A) : decoder (option A) := λ v old,
  match v with
  | JNull => (None, true)
  | _ => let '(a, ok) := d v (default zero old) in (Some a, ok)
  end.

(** A slice: the elements it had are decoded into. *)
Fixpoint dec_elements {A} (zero : A) (d : decoder A) (vs : list json) (old : list A)
    : list A * bool :=
  match vs with
  | [] => ([], true)
  | v :: vs' =>
      let '(a, ok) := d v (default zero (head old)) in
      let '(l, oks) := dec_elements zero d vs' (tail old) in
      (a :: l, ok && oks)
  end.
Definition dec_slice {A} (zero : A) (d : decoder A) : decoder (list A) := λ v old,
  match v with
  | JNull => ([], true)
  | JArray vs => dec_elements zero d vs old
  | _ => (old, false)
  end.

(** [foldName], on names whose runes fold to ASCII: U+017F folds to S and U+212A to K. *)
Definition upper (a : ascii) : ascii := if between 97 122 a then byte_of (code a - 32) else a.
Fixpoint foldName (s : string) : string :=
  match s with
  | EmptyString => ""
  | String a s1 =>
      match s1 with
      | String b s2 =>
          if (code a =? 197)%N && (code b =? 191)%N then String "S" (foldName s2)
          else match s2 with
               | String c s3 =>
                   if (code a =? 226)%N && (code b =? 132)%N && (code c =? 170)%N
                   then String "K" (foldName s3)
                   else String (upper a) (foldName s1)
               | EmptyString => String (upper a) (foldName s1)
               end
      | EmptyString => String (upper a) ""
      end
  end.

(** A field of a struct: its JSON name, and how a value is decoded into it. *)
Record field A := mkField { fd_name : string; fd_dec : decoder A }.
Arguments mkField {_} _ _.
Arguments fd_name {_} _.
Arguments fd_dec {_} _ _ _.

(** The field [name : B] with its getter and setter. *)
Definition field_of {A B} (name : string) (get : A → B) (set : B → A → A) (d : decoder B)
    : field A :=
  mkField name (λ v a, let '(b, ok) := d v (get a) in (set b a, ok)).

(** The field of a key: by its exact name, or else by its folded name. *)
Definition find_field {A} (fs : list (field A)) (key : string) : option (field A) :=
  match List.find (λ f, String.eqb (fd_name f) key) fs with
  | Some f => Some f
  | None => List.find (λ f, String.eqb (foldName (fd_name f)) (foldName key)) fs
  end.

(** A struct: the members in order, unknown keys skipped. *)
Definition dec_struct {A} (fs : list (field A)) : decoder A := λ v old,
  match v with
  | JNull => (old, true)
  | JObject kvs =>
      foldl (λ '(a, ok) '(k, v),
        match find_field fs k with
        | Some f => let '(a', ok') := fd_dec f v a in (a', ok && ok')
        | None => (a, ok)
        end) (old, true) kvs
  | _ => (old, false)
  end.

(** [json.NewDecoder(r).Decode(&x)] with [x] holding [zero]: the variable afterwards,
    and whether the error is nil.  Text after the first value is not read. *)
Definition Decode {A} (d : decoder A) (zero : A) (s : string) : A * bool :=
  match read_json s with Some (v, _) => d v zero | None => (zero, false) end.

(** [json.Unmarshal(s, &x)]: only space may follow the value. *)
Definition Unmarshal {A} (d : decoder A) (zero : A) (s : string) : A * bool :=
  match read_json s with
  | Some (v, rest) => if blank rest then d v zero else (zero, false)
  | None => (zero, false)
  end.

(** The variable, when the error is nil. *)
Definition decoded {A} (r : A * bool) : option A := if r.2 then Some r.1 else None.

(** ** Encoding *)

Definition hex_char (n : N) : ascii := hex_digit (Z.of_N n).
Definition u00 (a : ascii) : string :=
  "\u00" +:+ String (hex_char (code a / 16)) (String (hex_char (code a mod 16)) "").

(** An ASCII character in a string ([appendString], which escapes HTML). *)
Definition quote_ascii (a : ascii) : string :=
  if Ascii.eqb a quote || Ascii.eqb a backslash then String backslash (String a "")
  else if (code a =? 8)%N then "\b"
  else if (code a =? 12)%N then "\f"
  else if (code a =? 10)%N then "\n"
  else if (code a =? 13)%N then "\r"
  else if (code a =? 9)%N then "\t"
  else if control a || Ascii.eqb a "<" || Ascii.eqb a ">" || Ascii.eqb a "&" then u00 a
  else String a "".

(** U+2028 and U+2029 are escaped, other runes stand for themselves. *)
Definition quote_three (a b c : ascii) : string :=
  if (code a =? 226)%N && (code b =? 128)%N && (code c =? 168)%N then "\u2028"
  else if (code a =? 226)%N && (code b =? 128)%N && (code c =? 169)%N then "\u2029"
  else String a (String b (String c "")).

Fixpoint quote_text (s : string) : string :=
  match s with
  | EmptyString => ""
  | String a s1 =>
      if (code a <? 128)%N then quote_ascii a +:+ quote_text s1
      else match rune_width a s1, s1 with
           | 2, String b s2 => String a (String b (quote_text s2))
           | 3, String b (String c s3) => quote_three a b c +:+ quote_text s3
           | 4, String b (String c (String d s4)) =>
               String a (String b (String c (String d (quote_text s4))))
           | _, _ => "\ufffd" +:+ quote_text s1
           end
  end.

Definition quoted_string (s : string) : string :=
  String quote (quote_text s +:+ String quote "").

Fixpoint sep_by (l : list string) : string :=
  match l with
  | [] => ""
  | [s] => s
  | s :: l' => s +:+ "," +:+ sep_by l'
  end.

Fixpoint print (v : json) : string :=
  match v with
  | JNull => "null"
  | JBool b => if b then "true" else "false"
  | JNumber lit => lit
  | JString s => quoted_string s
  | JArray l => "[" +:+ sep_by (map print l) +:+ "]"
  | JObject l =>
      "{" +:+ sep_by (map (λ kv, quoted_string kv.1 +:+ ":" +:+ print kv.2) l) +:+ "}"
  end.
