(* ===== verification/JsonTheorems.v ===== *)
(** What [Json.print] writes, [Json.read_json] reads: strings, numbers and values. *)

From S2P Require Import Prelude GoStrings Json.
#[local] Open Scope string_scope.
#[local] Arguments Ascii.eqb : simpl never.

(** A property of a byte that holds of all 256. *)
Ltac each_byte a := destruct a as [[] [] [] [] [] [] [] []].

(** ** Valid UTF-8 *)

Inductive utf8 : string → Prop :=
  | utf8_nil : utf8 ""
  | utf8_one a s : (code a <? 128)%N = true → utf8 s → utf8 (String a s)
  | utf8_two a b s :
      (code a <? 128)%N = false → rune_width a (String b "") = 2 → utf8 s →
      utf8 (String a (String b s))
  | utf8_three a b c s :
      (code a <? 128)%N = false → rune_width a (String b (String c "")) = 3 → utf8 s →
      utf8 (String a (String b (String c s)))
  | utf8_four a b c d s :
      (code a <? 128)%N = false → rune_width a (String b (String c (String d ""))) = 4 → utf8 s →
      utf8 (String a (String b (String c (String d s)))).

Fixpoint ascii_only (s : string) : bool :=
  match s with EmptyString => true | String a s' => (code a <? 128)%N && ascii_only s' end.
Lemma ascii_utf8 s : ascii_only s = true → utf8 s.
Proof. induction s as [|a s IH]; simpl; intros Ha; constructor; bools; auto. Qed.

Lemma string_app_inj_l (a b c : string) : a +:+ b = a +:+ c → b = c.
Proof. induction a as [|x a IH]; [done|]. rewrite !string_app_cons. intros [= ?]. auto. Qed.

(** The width of a rune is found in its bytes. *)
Lemma rune_width_two a b s : rune_width a (String b "") = 2 → rune_width a (String b s) = 2.
Proof. unfold rune_width. repeat case_match; done. Qed.
Lemma rune_width_three a b c s :
  rune_width a (String b (String c "")) = 3 → rune_width a (String b (String c s)) = 3.
Proof. unfold rune_width. repeat case_match; simplify_eq; done. Qed.
Lemma rune_width_four a b c d s :
  rune_width a (String b (String c (String d ""))) = 4 →
  rune_width a (String b (String c (String d s))) = 4.
Proof. unfold rune_width. repeat case_match; simplify_eq; done. Qed.

Lemma ascii_of_backslash a : (code a <? 128)%N = false → Ascii.eqb a backslash = false.
Proof. by each_byte a. Qed.

(** ** Strings *)

Lemma unquote_ascii a t :
  (code a <? 128)%N = true → unquote (quote_ascii a +:+ t) = String a (unquote t).
Proof. each_byte a; intros Ha; first [discriminate Ha|reflexivity]. Qed.

Lemma unquote_two a b t :
  (code a <? 128)%N = false → rune_width a (String b "") = 2 →
  unquote (String a (String b t)) = String a (String b (unquote t)).
Proof.
  intros Ha Hw. simpl. by rewrite ascii_of_backslash, Ha, (rune_width_two _ _ t Hw).
Qed.
Lemma unquote_three a b c t :
  (code a <? 128)%N = false → rune_width a (String b (String c "")) = 3 →
  unquote (quote_three a b c +:+ t) = String a (String b (String c (unquote t))).
Proof.
  intros Ha Hw. unfold quote_three.
  assert (unquote (String a (String b (String c "")) +:+ t) =
    String a (String b (String c (unquote t)))) as Hplain.
  { rewrite !string_app_cons, string_app_nil. simpl.
    by rewrite ascii_of_backslash, Ha, (rune_width_three _ _ _ t Hw). }
  assert (∀ x n, (code x =? n)%N = true → x = ascii_of_N n) as Hcode.
  { intros x n <-%N.eqb_eq. symmetry. apply ascii_N_embedding. }
  repeat match goal with |- context [if ?x then _ else _] => destruct x eqn:? end; [..|done].
  all: bools; repeat match goal with Hx : (code _ =? _)%N = true |- _ => apply Hcode in Hx end; by subst.
Qed.
Lemma unquote_four a b c d t :
  (code a <? 128)%N = false → rune_width a (String b (String c (String d ""))) = 4 →
  unquote (String a (String b (String c (String d t)))) =
    String a (String b (String c (String d (unquote t)))).
Proof.
  intros Ha Hw. simpl. by rewrite ascii_of_backslash, Ha, (rune_width_four _ _ _ _ t Hw).
Qed.

(** The equations of [quote_text] on the runes of a valid string. *)
Lemma quote_text_one a s :
  (code a <? 128)%N = true → quote_text (String a s) = quote_ascii a +:+ quote_text s.
Proof. intros Ha. simpl. by rewrite Ha. Qed.
Lemma quote_text_two a b s :
  (code a <? 128)%N = false → rune_width a (String b "") = 2 →
  quote_text (String a (String b s)) = String a (String b (quote_text s)).
Proof. intros Ha Hw. simpl. by rewrite Ha, (rune_width_two _ _ s Hw). Qed.
Lemma quote_text_three a b c s :
  (code a <? 128)%N = false → rune_width a (String b (String c "")) = 3 →
  quote_text (String a (String b (String c s))) = quote_three a b c +:+ quote_text s.
Proof. intros Ha Hw. simpl. by rewrite Ha, (rune_width_three _ _ _ s Hw). Qed.
Lemma quote_text_four a b c d s :
  (code a <? 128)%N = false → rune_width a (String b (String c (String d ""))) = 4 →
  quote_text (String a (String b (String c (String d s)))) =
    String a (String b (String c (String d (quote_text s)))).
Proof. intros Ha Hw. simpl. by rewrite Ha, (rune_width_four _ _ _ _ s Hw). Qed.

Lemma unquote_quote s : utf8 s → unquote (quote_text s) = s.
Proof.
  induction 1 as [|a s Ha _ IH|a b s Ha Hw _ IH|a b c s Ha Hw _ IH|a b c d s Ha Hw _ IH]; [done|..].
  - by rewrite quote_text_one, unquote_ascii, IH.
  - by rewrite quote_text_two, unquote_two, IH.
  - by rewrite quote_text_three, unquote_three, IH.
  - by rewrite quote_text_four, unquote_four, IH.
Qed.

(** The scanner's way through the text of a string. *)
Fixpoint esc_run (e : esc) (s : string) : option esc :=
  match s with
  | EmptyString => Some e
  | String a s' =>
      match e with
      | EPlain => if Ascii.eqb a quote then None else e' ← esc_step e a; esc_run e' s'
      | _ => e' ← esc_step e a; esc_run e' s'
      end
  end.

Lemma esc_run_app e s t : esc_run e (s +:+ t) = (e' ← esc_run e s; esc_run e' t).
Proof.
  revert e. induction s as [|a s IH]; intros e; [done|]. rewrite string_app_cons. simpl.
  destruct e; [destruct (Ascii.eqb a quote); [done|]|..]; destruct (esc_step _ a); simpl; auto.
Qed.

Lemma esc_run_high a s : (code a <? 128)%N = false → esc_run EPlain (String a s) = esc_run EPlain s.
Proof. each_byte a; intros Ha; first [discriminate Ha|reflexivity]. Qed.
Lemma esc_run_ascii a : (code a <? 128)%N = true → esc_run EPlain (quote_ascii a) = Some EPlain.
Proof. each_byte a; intros Ha; first [discriminate Ha|reflexivity]. Qed.

Lemma cont_high a : cont a = true → (code a <? 128)%N = false.
Proof. unfold cont, between. rewrite andb_true_iff, !N.leb_le, N.ltb_ge. lia. Qed.
Lemma between_high lo hi a : (128 <=? lo)%N = true → between lo hi a = true → (code a <? 128)%N = false.
Proof. unfold between. rewrite andb_true_iff, !N.leb_le, N.ltb_ge. lia. Qed.

(** The bytes of a rune after the first are not ASCII. *)
Lemma rune_tail a s n : rune_width a s = S n →
  ∃ t u, s = t +:+ u ∧ String.length t = n ∧ esc_run EPlain t = Some EPlain.
Proof.
  unfold rune_width. intros Hw. repeat case_match; simplify_eq; bools.
  all: repeat match goal with
  | Hx : cont _ = true |- _ => apply cont_high in Hx
  | Hx : between _ _ _ = true |- _ => apply between_high in Hx; [|reflexivity]
  end.
  all: match goal with
  | |- ∃ t u, String ?b (String ?c (String ?d ?s)) = _ ∧ _ = 3 ∧ _ =>
      exists (String b (String c (String d ""))), s
  | |- ∃ t u, String ?b (String ?c ?s) = _ ∧ _ = 2 ∧ _ => exists (String b (String c "")), s
  | |- ∃ t u, String ?b ?s = _ ∧ _ = 1 ∧ _ => exists (String b ""), s
  end.
  all: rewrite !string_app_cons, string_app_nil; split_and!; [done..|].
  all: by rewrite !esc_run_high by done.
Qed.

Lemma rune_tail_run a t n :
  (code a <? 128)%N = false → rune_width a t = S n → String.length t = n →
  esc_run EPlain (String a t) = Some EPlain.
Proof.
  intros Ha Hw Hl. destruct (rune_tail a t n Hw) as (t1 & u & -> & Ht & Hr).
  assert (u = "") as -> by (rewrite string_length_app in Hl; destruct u; simpl in *; [done|lia]).
  rewrite string_app_nil_r. by rewrite esc_run_high.
Qed.

Lemma esc_run_three a b c :
  (code a <? 128)%N = false → rune_width a (String b (String c "")) = 3 →
  esc_run EPlain (quote_three a b c) = Some EPlain.
Proof.
  intros Ha Hw. unfold quote_three. destruct (_ && _); [done|]. destruct (_ && _); [done|].
  by eapply rune_tail_run.
Qed.

Lemma esc_run_quote s : utf8 s → esc_run EPlain (quote_text s) = Some EPlain.
Proof.
  induction 1 as [|a s Ha _ IH|a b s Ha Hw _ IH|a b c s Ha Hw _ IH|a b c d s Ha Hw _ IH]; [done|..].
  - rewrite quote_text_one, esc_run_app, esc_run_ascii by done. done.
  - rewrite quote_text_two by done.
    change (String a (String b (quote_text s))) with (String a (String b "") +:+ quote_text s).
    by rewrite esc_run_app, (rune_tail_run a (String b "") 1).
  - rewrite quote_text_three, esc_run_app, esc_run_three by done. done.
  - rewrite quote_text_four by done.
    change (String a (String b (String c (String d (quote_text s)))))
      with (String a (String b (String c (String d ""))) +:+ quote_text s).
    by rewrite esc_run_app, (rune_tail_run a (String b (String c (String d ""))) 3).
Qed.

(** ** The scanner *)

Definition busy (sc : scanner) : bool :=
  match sc_mode sc with MDone _ | MNumber _ _ => false | _ => true end.

Lemma scan_step a s sc : busy sc = true → scan (String a s) sc = (sc' ← step a sc; scan s sc').
Proof.
  destruct sc as [m st]. unfold busy. simpl. unfold settle. simpl.
  by destruct m; intros; simplify_eq.
Qed.

Lemma scan_done s v : scan s (mkScanner (MDone v) []) = Some (v, s).
Proof. by destruct s. Qed.

(** The text of a string, up to the closing quote. *)
Lemma scan_text key st t : ∀ e text e' s,
  esc_run e t = Some e' →
  scan (t +:+ s) (mkScanner (MString key e text) st) =
    scan s (mkScanner (MString key e' (rev_append (String.list_ascii_of_string t) text)) st).
Proof.
  induction t as [|a t IH]; intros e text e' s Hr; simpl in Hr; [by simplify_eq|].
  rewrite string_app_cons, scan_step by done.
  assert (∃ e1, step a (mkScanner (MString key e text) st) =
      Some (mkScanner (MString key e1 (a :: text)) st) ∧ esc_run e1 t = Some e') as (e1 & -> & Hr').
  { unfold step. cbn [sc_mode sc_stack]. destruct e; [destruct (Ascii.eqb a quote); [done|]|..].
    all: destruct (esc_step _ a) as [e1|]; simplify_eq/=; eauto. }
  simpl. by apply IH.
Qed.

Lemma text_of_rev_append t : text_of (rev_append (String.list_ascii_of_string t) []) = t.
Proof.
  unfold text_of. rewrite rev_append_rev, app_nil_r, rev_involutive.
  apply String.string_of_list_ascii_of_string.
Qed.

Lemma scan_string key t st s :
  esc_run EPlain t = Some EPlain →
  scan (t +:+ String quote s) (mkScanner (MString key EPlain []) st) =
    (sc ← end_string key t st; scan s sc).
Proof.
  intros Hr. rewrite (scan_text _ _ _ _ _ _ _ Hr), scan_step by done. simpl.
  unfold step; simpl. by rewrite text_of_rev_append.
Qed.

(** ** Numbers *)

Fixpoint num_run (n : num) (s : string) : option num :=
  match s with EmptyString => Some n | String a s' => n' ← num_step n a; num_run n' s' end.

(** The literals of the grammar. *)
Definition literal (s : string) : bool :=
  match s with
  | EmptyString => false
  | String a s' =>
      match num_start a ≫= λ n, num_run n s' with Some n => num_end n | None => false end
  end.

(** What follows does not continue a number. *)
Definition ends_number (s : string) : Prop :=
  match s with EmptyString => True | String a _ => ∀ n, num_step n a = None end.

Lemma num_space n : num_step n " " = None.
Proof. by destruct n. Qed.

(** The byte that ends a number is read in the state after it; the text may end there
    when the number is the whole value. *)
Definition after (v : json) (st : list frame) (s : string) : option (json * string) :=
  sc ← end_value v st; scan s sc.

Lemma end_value_mode v st sc : end_value v st = Some sc →
  match sc_mode sc with MDone v' => st = [] | MNext => True | _ => False end.
Proof. destruct st as [|[] ?]; intros; simplify_eq/=; done. Qed.

Lemma scan_number_end n text st s :
  num_end n = true → ends_number s →
  scan s (mkScanner (MNumber n text) st) = after (JNumber (text_of text)) st s.
Proof.
  intros Hn Hs. unfold after. destruct s as [|a s]; simpl in Hs.
  - simpl. unfold settle. simpl. rewrite num_space, Hn.
    destruct (end_value _ st) as [sc|] eqn:He; [|done]. apply end_value_mode in He. simpl.
    destruct (sc_mode sc) eqn:Hm; try done; destruct sc; simpl in *; subst; done.
  - cbn [scan sc_mode]. unfold settle. cbn [sc_mode]. rewrite Hs, Hn. cbn [sc_stack].
    destruct (end_value _ st) as [[m st']|] eqn:He; [|done]. apply end_value_mode in He.
    cbn in He |- *. by destruct m.
Qed.

Lemma scan_digits st t : ∀ n text n' s,
  num_run n t = Some n' →
  scan (t +:+ s) (mkScanner (MNumber n text) st) =
    scan s (mkScanner (MNumber n' (rev_append (String.list_ascii_of_string t) text)) st).
Proof.
  induction t as [|a t IH]; intros n text n' s Hr; simpl in Hr; [by simplify_eq|].
  destruct (num_step n a) as [n1|] eqn:Hn; [|done]. rewrite string_app_cons.
  cbn [scan sc_mode]. unfold settle. cbn [sc_mode]. rewrite Hn. simpl.
  unfold step. simpl. rewrite Hn. simpl. by apply IH.
Qed.

Lemma begin_number a n first st :
  num_start a = Some n →
  step a (mkScanner (MValue first) st) = Some (mkScanner (MNumber n [a]) st).
Proof. each_byte a; intros Hn; vm_compute in Hn; simplify_eq; destruct first; reflexivity. Qed.

Lemma scan_number lit first st s :
  literal lit = true → ends_number s →
  scan (lit +:+ s) (mkScanner (MValue first) st) = after (JNumber lit) st s.
Proof.
  intros Hl Hs. destruct lit as [|a t]; [done|]. simpl in Hl.
  destruct (num_start a) as [n|] eqn:Ha; simpl in Hl; [|done].
  destruct (num_run n t) as [n'|] eqn:Hr; [|done].
  rewrite string_app_cons, scan_step by done. rewrite (begin_number _ _ _ _ Ha). simpl.
  rewrite (scan_digits _ _ _ _ _ _ Hr), scan_number_end by done. f_equal. f_equal.
  rewrite <-(text_of_rev_append (String a t)). done.
Qed.

(** ** Values *)

Fixpoint height (v : json) : Z :=
  match v with
  | JArray l => 1 + foldr (λ x, Z.max (height x)) 0 l
  | JObject l => 1 + foldr (λ kv, Z.max (height kv.2)) 0 l
  | _ => 0
  end%Z.

(** The literals are numbers, the strings and keys valid UTF-8. *)
Fixpoint wf (v : json) : Prop :=
  match v with
  | JNumber lit => literal lit = true
  | JString s => utf8 s
  | JArray l => foldr (λ x, and (wf x)) True l
  | JObject l => foldr (λ kv, and (utf8 kv.1 ∧ wf kv.2)) True l
  | _ => True
  end.

(** [v] may be followed by [s]. *)
Definition followed (v : json) (s : string) : Prop :=
  match v with JNumber _ => ends_number s | _ => True end.

Lemma followed_byte v a s : existsb (Ascii.eqb a) [","; "]"; "}"]%char = true → followed v (String a s).
Proof.
  intros Ha. destruct v; try done. intros n. simpl in Ha.
  rewrite !orb_true_iff, !Ascii.eqb_eq in Ha. by destruct Ha as [->|[->|[->|]]], n.
Qed.

Definition scans (v : json) : Prop := ∀ first st s,
  wf v → (height v + Z.of_nat (length st) <= maxNestingDepth)%Z → followed v s →
  scan (print v +:+ s) (mkScanner (MValue first) st) = after v st s.

(** The literals [true], [false] and [null]. *)
Lemma scan_literal rest : ∀ v st s, rest ≠ "" →
  scan (rest +:+ s) (mkScanner (MLiteral rest v) st) = after v st s.
Proof.
  induction rest as [|a rest IH]; intros v st s Hne; [done|].
  rewrite string_app_cons, scan_step by done. unfold step. cbn [sc_mode sc_stack].
  rewrite Ascii.eqb_refl. destruct (String.eqb_spec rest "") as [->|Hr]; [done|]. simpl. by apply IH.
Qed.

Lemma push_ok f m st :
  (1 + Z.of_nat (length st) <= maxNestingDepth)%Z → push f m st = Some (mkScanner m (f :: st)).
Proof.
  intros Hl. unfold push. cbn [length]. rewrite Nat2Z.inj_succ.
  rewrite (proj2 (Z.leb_le _ _)); [done|lia].
Qed.

Lemma sep_by_cons x y l : sep_by (x :: y :: l) = x +:+ "," +:+ sep_by (y :: l).
Proof. done. Qed.

(** The elements of an array after the first, and its end. *)
Lemma scan_elements l : ∀ x l0 st s,
  Forall scans (x :: l) → foldr (λ x, and (wf x)) True (x :: l) →
  (foldr (λ x, Z.max (height x)) 0 (x :: l) + Z.of_nat (S (length st)) <= maxNestingDepth)%Z →
  ∀ first,
  scan (sep_by (map print (x :: l)) +:+ String "]" s) (mkScanner (MValue first) (FArray l0 :: st)) =
    after (JArray (rev l0 ++ x :: l)) st s.
Proof.
  induction l as [|y l IH]; intros x l0 st s Hx%Forall_cons [Hw Hwl] Hh first; destruct Hx as [Hx Hl].
  - cbn [map sep_by]. simpl in Hh. rewrite Hx; [|done|cbn [length]; lia|by apply followed_byte].
    unfold after at 1. cbn [end_value mbind option_bind]. rewrite scan_step by done.
    unfold step. cbn [sc_mode sc_stack]. change (isSpace "]") with false.
    change (Ascii.eqb "]" ",") with false. change (Ascii.eqb "]" "]") with true. cbn iota.
    unfold end_array. by replace (rev l0 ++ [x])%list with (rev (x :: l0)).
  - rewrite !map_cons, sep_by_cons, <-map_cons, !string_app_assoc. cbn [foldr] in Hh.
    rewrite Hx; [|done|cbn [length]; lia|by apply followed_byte].
    unfold after at 1. cbn [end_value mbind option_bind]. rewrite string_app_cons, string_app_nil.
    rewrite scan_step by done. unfold step at 1. cbn [sc_mode sc_stack].
    change (isSpace ",") with false. change (Ascii.eqb "," ",") with true. cbn iota.
    cbn [mbind option_bind]. rewrite IH; [|done|done|cbn [foldr] in *; lia].
    cbn [rev]. by rewrite <-app_assoc.
Qed.

(** A member of an object: its key, the colon and its value. *)
Lemma scan_member kv first l0 st s :
  scans kv.2 → utf8 kv.1 → wf kv.2 →
  (height kv.2 + Z.of_nat (S (length st)) <= maxNestingDepth)%Z → followed kv.2 s →
  scan ((quoted_string kv.1 +:+ ":" +:+ print kv.2) +:+ s) (mkScanner (MKey first) (FObject l0 :: st)) =
    scan s (mkScanner MNext (FObject (kv :: l0) :: st)).
Proof.
  destruct kv as [k v]. simpl. intros Hv Hk Hw Hh Hf. unfold quoted_string. autorewrite with gostr.
  unfold step at 1. cbn [sc_mode sc_stack]. change (isSpace quote) with false.
  change (Ascii.eqb quote "}") with false. change (Ascii.eqb quote quote) with true.
  rewrite andb_false_r. cbn [mbind option_bind].
  rewrite scan_string by by apply esc_run_quote. cbn [end_string mbind option_bind].
  rewrite unquote_quote by done. rewrite scan_step by done. unfold step at 1. cbn [sc_mode sc_stack].
  change (isSpace ":") with false. change (Ascii.eqb ":" ":") with true. cbn [mbind option_bind].
  rewrite Hv by done. done.
Qed.

Lemma scan_members l : ∀ x l0 st s,
  Forall (λ kv, scans kv.2) (x :: l) → foldr (λ kv, and (utf8 kv.1 ∧ wf kv.2)) True (x :: l) →
  (foldr (λ kv, Z.max (height kv.2)) 0 (x :: l) + Z.of_nat (S (length st)) <= maxNestingDepth)%Z →
  ∀ first,
  scan (sep_by (map (λ kv, quoted_string kv.1 +:+ ":" +:+ print kv.2) (x :: l)) +:+ String "}" s)
    (mkScanner (MKey first) (FObject l0 :: st)) =
    after (JObject (rev l0 ++ x :: l)) st s.
Proof.
  set (member := λ kv : string * json, quoted_string kv.1 +:+ ":" +:+ print kv.2).
  induction l as [|y l IH]; intros x l0 st s Hx%Forall_cons [[Hu Hw] Hwl] Hh first; destruct Hx as [Hx Hl].
  - cbn [map sep_by]. simpl in Hh. unfold member.
    rewrite scan_member; [|done|done|done|cbn [length]; lia|by apply followed_byte].
    rewrite scan_step by done. unfold step. cbn [sc_mode sc_stack]. change (isSpace "}") with false.
    change (Ascii.eqb "}" ",") with false. change (Ascii.eqb "}" "}") with true. cbn iota.
    unfold end_object. by replace (rev l0 ++ [x])%list with (rev (x :: l0)).
  - rewrite !map_cons, sep_by_cons, <-map_cons, (string_app_assoc (member x)). cbn [foldr] in Hh. unfold member at 1.
    rewrite scan_member; [|done|done|done|cbn [length]; lia|by apply followed_byte].
    rewrite !string_app_cons, string_app_nil.
    rewrite scan_step by done. unfold step at 1. cbn [sc_mode sc_stack].
    change (isSpace ",") with false. change (Ascii.eqb "," ",") with true. cbn iota.
    cbn [mbind option_bind]. rewrite IH; [|done|done|cbn [foldr] in *; lia].
    cbn [rev]. by rewrite <-app_assoc.
Qed.

Lemma scan_begin a s first st sc :
  step a (mkScanner (MValue first) st) = Some sc →
  scan (String a s) (mkScanner (MValue first) st) = scan s sc.
Proof. intros Hs. rewrite scan_step by done. by rewrite Hs. Qed.

Lemma max_nonneg {A} (f : A → Z) l : (0 <= foldr (λ x, Z.max (f x)) 0 l)%Z.
Proof. induction l; simpl; lia. Qed.

Lemma scan_print v : scans v.
Proof.
  induction v as [|b|lit|t|l IH|l IH] using json_ind; intros first st s Hw Hh Hf.
  - change (print JNull +:+ s) with (String "n" ("ull" +:+ s)).
    rewrite (scan_begin _ _ _ _ (mkScanner (MLiteral "ull" JNull) st)) by by destruct first.
    by apply scan_literal.
  - destruct b.
    + change (print (JBool true) +:+ s) with (String "t" ("rue" +:+ s)).
      rewrite (scan_begin _ _ _ _ (mkScanner (MLiteral "rue" (JBool true)) st)) by by destruct first.
      by apply scan_literal.
    + change (print (JBool false) +:+ s) with (String "f" ("alse" +:+ s)).
      rewrite (scan_begin _ _ _ _ (mkScanner (MLiteral "alse" (JBool false)) st)) by by destruct first.
      by apply scan_literal.
  - by apply scan_number.
  - cbn [print]. unfold quoted_string. rewrite string_app_cons, string_app_assoc.
    rewrite (scan_begin _ _ _ _ (mkScanner (MString false EPlain []) st)) by by destruct first.
    rewrite string_app_cons, string_app_nil, scan_string by by apply esc_run_quote.
    cbn [end_string]. by rewrite unquote_quote.
  - cbn [print height] in *. rewrite !string_app_assoc, !string_app_cons, !string_app_nil.
    pose proof (max_nonneg height l).
    rewrite (scan_begin _ _ _ _ (mkScanner (MValue true) (FArray [] :: st))).
    2: { rewrite <-push_ok by lia. by destruct first. }
    destruct l as [|x l]; [by rewrite string_app_nil, scan_step by done|].
    rewrite scan_elements; [done|done|done|]. rewrite Nat2Z.inj_succ. lia.
  - cbn [print height] in *. rewrite !string_app_assoc, !string_app_cons, !string_app_nil.
    pose proof (max_nonneg (λ kv, height kv.2) l).
    rewrite (scan_begin _ _ _ _ (mkScanner (MKey true) (FObject [] :: st))).
    2: { rewrite <-push_ok by lia. by destruct first. }
    destruct l as [|x l]; [by rewrite string_app_nil, scan_step by done|].
    rewrite scan_members; [done|done|done|]. rewrite Nat2Z.inj_succ. lia.
Qed.

(** Reading what was printed gives the value back, and leaves what follows. *)
Lemma read_print v s :
  wf v → (height v <= maxNestingDepth)%Z → followed v s → read_json (print v +:+ s) = Some (v, s).
Proof.
  intros Hw Hh Hf. unfold read_json, start. rewrite scan_print; [|done|simpl; lia|done].
  unfold after. simpl. apply scan_done.
Qed.

(** ** Integers *)

Lemma pretty_char_value d : (d < 10)%N → digit_value (pretty_N_char d) = Some (Z.of_N d).
Proof.
  intros Hd. assert (d = 0 ∨ d = 1 ∨ d = 2 ∨ d = 3 ∨ d = 4 ∨ d = 5 ∨ d = 6 ∨ d = 7 ∨ d = 8 ∨ d = 9)%N
    as H10 by lia. by destruct_or? H10; subst.
Qed.

Lemma digits_value_pretty x s : digits_value 0 (pretty_N_go x s) = digits_value (Z.of_N x) s.
Proof.
  revert s. induction (N.lt_wf_0 x) as [x _ IH]; intros s.
  destruct (decide (x = 0)%N) as [->|Hx]; [by rewrite pretty_N_go_0|].
  rewrite pretty_N_go_step by lia. rewrite IH by (apply N.div_lt; lia). cbn [digits_value].
  rewrite (pretty_char_value (x mod 10)) by (apply N.mod_lt; lia). cbn [mbind option_bind].
  f_equal. pose proof (N.div_mod x 10). lia.
Qed.

Lemma digit_continues d : (d < 10)%N → num_step NInt (pretty_N_char d) = Some NInt.
Proof.
  intros Hd. assert (d = 0 ∨ d = 1 ∨ d = 2 ∨ d = 3 ∨ d = 4 ∨ d = 5 ∨ d = 6 ∨ d = 7 ∨ d = 8 ∨ d = 9)%N
    as H10 by lia. by destruct_or? H10; subst.
Qed.

(** The text of a positive number: a digit that is not zero, and digits. *)
Lemma pretty_shape x s : (0 < x)%N → ∃ d t, (0 < d < 10)%N ∧
  pretty_N_go x s = String (pretty_N_char d) t ∧
  (num_run NInt s = Some NInt → num_run NInt t = Some NInt).
Proof.
  revert s. induction (N.lt_wf_0 x) as [x _ IH]; intros s Hx. rewrite pretty_N_go_step by lia.
  pose proof (N.div_mod x 10). assert (x mod 10 < 10)%N by (apply N.mod_lt; lia).
  destruct (decide (x / 10 = 0)%N) as [Hz|Hz].
  - rewrite Hz, pretty_N_go_0. exists (x mod 10)%N, s. split; [lia|done].
  - assert (x / 10 < x)%N as Hlt by (apply N.div_lt; lia).
    destruct (IH (x / 10)%N Hlt (String (pretty_N_char (x mod 10)) s))
      as (d & t & ? & -> & Ht); [lia|]. exists d, t. split; [done|]. split; [done|].
    intros Hs. apply Ht. cbn [num_run]. by rewrite digit_continues by lia.
Qed.

Lemma digit_start d : (0 < d < 10)%N →
  num_start (pretty_N_char d) = Some NInt ∧ num_step NNeg (pretty_N_char d) = Some NInt ∧
  Ascii.eqb (pretty_N_char d) "-" = false.
Proof.
  intros Hd. assert (d = 1 ∨ d = 2 ∨ d = 3 ∨ d = 4 ∨ d = 5 ∨ d = 6 ∨ d = 7 ∨ d = 8 ∨ d = 9)%N
    as H9 by lia. by destruct_or? H9; subst.
Qed.

Lemma pretty_pos_go p : pretty (N.pos p) = pretty_N_go (N.pos p) "".
Proof. done. Qed.

Lemma literal_Itoa z : literal (Itoa z) = true.
Proof.
  destruct z as [|p|p]; [done|..]; destruct (pretty_shape (N.pos p) "") as (d & t & Hd & Hp & Ht);
    [done| |done|]; specialize (Ht eq_refl); destruct (digit_start d Hd) as (Hs & Hn & _);
    rewrite <-pretty_pos_go in Hp.
  - change (Itoa (Z.pos p)) with (pretty (N.pos p)). rewrite Hp. unfold literal. rewrite Hs.
    cbn [mbind option_bind]. by rewrite Ht.
  - change (literal (Itoa (Z.neg p))) with
      (match num_run NNeg (pretty (N.pos p)) with Some n => num_end n | None => false end).
    rewrite Hp. cbn [num_run]. rewrite Hn. cbn [mbind option_bind]. by rewrite Ht.
Qed.

Lemma parse_uint_pos p : parse_uint (Itoa (Z.pos p)) = Some (Z.pos p).
Proof.
  destruct (pretty_shape (N.pos p) "") as (d & t & _ & Hp & _); [done|].
  rewrite <-pretty_pos_go in Hp. change (Itoa (Z.pos p)) with (pretty (N.pos p)).
  unfold parse_uint. rewrite Hp. change (String.eqb (String (pretty_N_char d) t) "") with false.
  cbv iota. rewrite <-Hp, pretty_pos_go, digits_value_pretty. done.
Qed.
Lemma parse_uint_Itoa z : (0 <= z)%Z → parse_uint (Itoa z) = Some z.
Proof. destruct z as [|p|p]; [done| |lia]. intros _. apply parse_uint_pos. Qed.

Lemma parse_int_Itoa z : parse_int (Itoa z) = Some z.
Proof.
  destruct z as [|p|p]; [done|..].
  - pose proof (parse_uint_pos p) as Hu. destruct (pretty_shape (N.pos p) "") as (d & t & Hd & Hp & _);
      [done|]. rewrite <-pretty_pos_go in Hp. change (Itoa (Z.pos p)) with (pretty (N.pos p)) in *.
    unfold parse_int. rewrite Hp in *. by rewrite (proj2 (proj2 (digit_start d Hd))).
  - change (parse_int (Itoa (Z.neg p))) with (Z.opp <$> parse_uint (Itoa (Z.pos p))).
    by rewrite parse_uint_pos.
Qed.

(** ** What decoding keeps

    Every number a variable of a Go integer type ends with is of its width, whatever
    the text. *)

Definition keeps {A} (ok : A → Prop) (d : decoder A) : Prop := ∀ v old, ok old → ok (d v old).1.

Lemma keeps_number p lo hi : keeps (λ z, lo <= z < hi)%Z (dec_number p lo hi).
Proof.
  intros v old Hold. unfold dec_number. destruct v; try done. destruct (p _); [|done].
  destruct (_ && _) eqn:Hb; [|done]. bools. simpl. lia.
Qed.
Lemma keeps_True {A} (d : decoder A) : keeps (λ _, True) d.
Proof. done. Qed.
Lemma keeps_pointer {A} ok (zero : A) d : ok zero → keeps ok d →
  keeps (λ o, ∀ a, o = Some a → ok a) (dec_pointer zero d).
Proof.
  intros Hz Hd v old Hold. unfold dec_pointer.
  assert (ok (default zero old)) as Ho by (destruct old; simpl; auto).
  destruct v; [done|..]; match goal with |- context [d ?v ?o] => specialize (Hd v o Ho) end;
    destruct (d _ _); intros ? [= <-]; done.
Qed.
Lemma keeps_slice {A} ok (zero : A) d : ok zero → keeps ok d → keeps (Forall ok) (dec_slice zero d).
Proof.
  intros Hz Hd v old Hold. destruct v as [| | | |l|]; try done. simpl.
  revert old Hold. induction l as [|x l IH]; intros old Hold; [by constructor|]. simpl.
  assert (ok (default zero (head old)) ∧ Forall ok (tail old)) as [Ho Ht]
    by (destruct Hold; simpl; auto).
  specialize (Hd x _ Ho). specialize (IH _ Ht).
  destruct (d x _), (dec_elements zero d l _). by constructor.
Qed.
Lemma keeps_struct {A} ok (fs : list (field A)) :
  Forall (λ f, keeps ok (fd_dec f)) fs → keeps ok (dec_struct fs).
Proof.
  intros Hfs v old Hold. destruct v as [| | | | |l]; try done. simpl.
  generalize true. revert old Hold. induction l as [|[k v] l IH]; intros old Hold b; [done|]. simpl.
  destruct (find_field fs k) as [f|] eqn:Hf; [|by apply IH].
  assert (f ∈ fs) as Hin.
  { unfold find_field in Hf. repeat case_match; simplify_eq;
      match goal with Hx : List.find _ _ = Some f |- _ => apply find_some in Hx as [Hx _] end;
      by apply list_elem_of_In. }
  rewrite Forall_forall in Hfs. specialize (Hfs f Hin v old Hold). destruct (fd_dec f v old).
  by apply IH.
Qed.
Lemma keeps_field {A B} (ok : A → Prop) (okb : B → Prop) name get set (d : decoder B) :
  keeps okb d → (∀ a, ok a → okb (get a)) → (∀ a b, ok a → okb b → ok (set b a)) →
  keeps ok (fd_dec (field_of name get set d)).
Proof.
  intros Hd Hg Hs v old Hold. simpl. specialize (Hd v (get old) (Hg _ Hold)).
  destruct (d v (get old)). by apply Hs.
Qed.
Lemma keeps_Decode {A} ok (zero : A) d s : ok zero → keeps ok d → ok (Decode d zero s).1.
Proof. intros Hz Hd. unfold Decode. destruct (read_json s) as [[v ?]|]; [by apply Hd|done]. Qed.
Lemma keeps_Unmarshal {A} ok (zero : A) d s : ok zero → keeps ok d → ok (Unmarshal d zero s).1.
Proof.
  intros Hz Hd. unfold Unmarshal. destruct (read_json s) as [[v rest]|]; [|done].
  destruct (blank rest); [by apply Hd|done].
Qed.
