(* ===== verification/Messages.v ===== *)
(** The messages of the database's cluster API and of the proxy's admin API
    (internal/hyperbytedb/client.go): the structs with their JSON names, decoded with
    the rules of [Json.v], and the request bodies. *)

From S2P Require Import Prelude GoStrings Json.
#[local] Open Scope string_scope.

(** ** Responses *)

Record ClusterMetrics := mkClusterMetrics {
  cm_Mode : string; cm_NodeAddr : string; cm_NodeID : Z; cm_Peers : list string;
  cm_PeerCount : Z }.
Definition zero_ClusterMetrics : ClusterMetrics := mkClusterMetrics "" "" 0 [] 0.
Definition dec_ClusterMetrics : decoder ClusterMetrics := dec_struct
  [field_of "mode" cm_Mode
     (λ x r, mkClusterMetrics x (cm_NodeAddr r) (cm_NodeID r) (cm_Peers r) (cm_PeerCount r)) dec_string;
   field_of "node_addr" cm_NodeAddr
     (λ x r, mkClusterMetrics (cm_Mode r) x (cm_NodeID r) (cm_Peers r) (cm_PeerCount r)) dec_string;
   field_of "node_id" cm_NodeID
     (λ x r, mkClusterMetrics (cm_Mode r) (cm_NodeAddr r) x (cm_Peers r) (cm_PeerCount r)) dec_int;
   field_of "peers" cm_Peers
     (λ x r, mkClusterMetrics (cm_Mode r) (cm_NodeAddr r) (cm_NodeID r) x (cm_PeerCount r))
     (dec_slice "" dec_string);
   field_of "peer_count" cm_PeerCount
     (λ x r, mkClusterMetrics (cm_Mode r) (cm_NodeAddr r) (cm_NodeID r) (cm_Peers r) x) dec_int].

Record NodeInfo := mkNodeInfo {
  ni_NodeID : Z; ni_Addr : string; ni_State : string; ni_Self : bool; ni_LastHeartbeat : Z }.
Definition zero_NodeInfo : NodeInfo := mkNodeInfo 0 "" "" false 0.
Definition dec_NodeInfo : decoder NodeInfo := dec_struct
  [field_of "node_id" ni_NodeID
     (λ x r, mkNodeInfo x (ni_Addr r) (ni_State r) (ni_Self r) (ni_LastHeartbeat r)) dec_int;
   field_of "addr" ni_Addr
     (λ x r, mkNodeInfo (ni_NodeID r) x (ni_State r) (ni_Self r) (ni_LastHeartbeat r)) dec_string;
   field_of "state" ni_State
     (λ x r, mkNodeInfo (ni_NodeID r) (ni_Addr r) x (ni_Self r) (ni_LastHeartbeat r)) dec_string;
   field_of "self" ni_Self
     (λ x r, mkNodeInfo (ni_NodeID r) (ni_Addr r) (ni_State r) x (ni_LastHeartbeat r)) dec_bool;
   field_of "last_heartbeat" ni_LastHeartbeat
     (λ x r, mkNodeInfo (ni_NodeID r) (ni_Addr r) (ni_State r) (ni_Self r) x) dec_int].

Record HealthStatus := mkHealthStatus {
  hs_Status : string; hs_Message : string; hs_NodeID : Z; hs_State : string }.
Definition zero_HealthStatus : HealthStatus := mkHealthStatus "" "" 0 "".
Definition dec_HealthStatus : decoder HealthStatus := dec_struct
  [field_of "status" hs_Status
     (λ x r, mkHealthStatus x (hs_Message r) (hs_NodeID r) (hs_State r)) dec_string;
   field_of "message" hs_Message
     (λ x r, mkHealthStatus (hs_Status r) x (hs_NodeID r) (hs_State r)) dec_string;
   field_of "node_id" hs_NodeID
     (λ x r, mkHealthStatus (hs_Status r) (hs_Message r) x (hs_State r)) dec_int;
   field_of "state" hs_State
     (λ x r, mkHealthStatus (hs_Status r) (hs_Message r) (hs_NodeID r) x) dec_string].

(** The list [clusterNodesResponse] wraps. *)
Definition dec_clusterNodesResponse : decoder (list NodeInfo) := dec_struct
  [field_of "nodes" (λ r, r) (λ x _, x) (dec_slice zero_NodeInfo dec_NodeInfo)].

Record ParquetFileManifest := mkParquetFileManifest {
  pf_Path : string; pf_SizeBytes : Z; pf_OriginNodeID : option Z; pf_MinTime : Z;
  pf_MaxTime : Z; pf_Checksum : Z }.
Definition zero_ParquetFileManifest : ParquetFileManifest := mkParquetFileManifest "" 0 None 0 0 0.
Definition dec_ParquetFileManifest : decoder ParquetFileManifest := dec_struct
  [field_of "path" pf_Path
     (λ x r, mkParquetFileManifest x (pf_SizeBytes r) (pf_OriginNodeID r) (pf_MinTime r)
       (pf_MaxTime r) (pf_Checksum r)) dec_string;
   field_of "size_bytes" pf_SizeBytes
     (λ x r, mkParquetFileManifest (pf_Path r) x (pf_OriginNodeID r) (pf_MinTime r)
       (pf_MaxTime r) (pf_Checksum r)) dec_int;
   field_of "origin_node_id" pf_OriginNodeID
     (λ x r, mkParquetFileManifest (pf_Path r) (pf_SizeBytes r) x (pf_MinTime r)
       (pf_MaxTime r) (pf_Checksum r)) (dec_pointer 0%Z dec_uint64);
   field_of "min_time" pf_MinTime
     (λ x r, mkParquetFileManifest (pf_Path r) (pf_SizeBytes r) (pf_OriginNodeID r) x
       (pf_MaxTime r) (pf_Checksum r)) dec_int;
   field_of "max_time" pf_MaxTime
     (λ x r, mkParquetFileManifest (pf_Path r) (pf_SizeBytes r) (pf_OriginNodeID r) (pf_MinTime r)
       x (pf_Checksum r)) dec_int;
   field_of "checksum" pf_Checksum
     (λ x r, mkParquetFileManifest (pf_Path r) (pf_SizeBytes r) (pf_OriginNodeID r) (pf_MinTime r)
       (pf_MaxTime r) x) dec_uint32].

Record MeasurementManifest := mkMeasurementManifest {
  mm_Name : string; mm_RP : string; mm_ParquetFiles : list ParquetFileManifest }.
Definition zero_MeasurementManifest : MeasurementManifest := mkMeasurementManifest "" "" [].
Definition dec_MeasurementManifest : decoder MeasurementManifest := dec_struct
  [field_of "name" mm_Name
     (λ x r, mkMeasurementManifest x (mm_RP r) (mm_ParquetFiles r)) dec_string;
   field_of "rp" mm_RP
     (λ x r, mkMeasurementManifest (mm_Name r) x (mm_ParquetFiles r)) dec_string;
   field_of "parquet_files" mm_ParquetFiles
     (λ x r, mkMeasurementManifest (mm_Name r) (mm_RP r) x)
     (dec_slice zero_ParquetFileManifest dec_ParquetFileManifest)].

Record DatabaseManifest := mkDatabaseManifest {
  dm_Name : string; dm_Measurements : list MeasurementManifest }.
Definition zero_DatabaseManifest : DatabaseManifest := mkDatabaseManifest "" [].
Definition dec_DatabaseManifest : decoder DatabaseManifest := dec_struct
  [field_of "name" dm_Name (λ x r, mkDatabaseManifest x (dm_Measurements r)) dec_string;
   field_of "measurements" dm_Measurements (λ x r, mkDatabaseManifest (dm_Name r) x)
     (dec_slice zero_MeasurementManifest dec_MeasurementManifest)].

Record SyncManifest := mkSyncManifest {
  sm_NodeID : Z; sm_WALLastSeq : Z; sm_Databases : list DatabaseManifest }.
Definition zero_SyncManifest : SyncManifest := mkSyncManifest 0 0 [].
Definition dec_SyncManifest : decoder SyncManifest := dec_struct
  [field_of "node_id" sm_NodeID (λ x r, mkSyncManifest x (sm_WALLastSeq r) (sm_Databases r)) dec_int;
   field_of "wal_last_seq" sm_WALLastSeq
     (λ x r, mkSyncManifest (sm_NodeID r) x (sm_Databases r)) dec_int;
   field_of "databases" sm_Databases (λ x r, mkSyncManifest (sm_NodeID r) (sm_WALLastSeq r) x)
     (dec_slice zero_DatabaseManifest dec_DatabaseManifest)].

Record LeaderInfo := mkLeaderInfo {
  li_LeaderID : option Z; li_LeaderAddr : option string; li_ThisNodeID : Z;
  li_IsLeader : bool; li_Term : Z }.
Definition zero_LeaderInfo : LeaderInfo := mkLeaderInfo None None 0 false 0.
Definition dec_LeaderInfo : decoder LeaderInfo := dec_struct
  [field_of "leader_id" li_LeaderID
     (λ x r, mkLeaderInfo x (li_LeaderAddr r) (li_ThisNodeID r) (li_IsLeader r) (li_Term r))
     (dec_pointer 0%Z dec_uint64);
   field_of "leader_addr" li_LeaderAddr
     (λ x r, mkLeaderInfo (li_LeaderID r) x (li_ThisNodeID r) (li_IsLeader r) (li_Term r))
     (dec_pointer "" dec_string);
   field_of "this_node_id" li_ThisNodeID
     (λ x r, mkLeaderInfo (li_LeaderID r) (li_LeaderAddr r) x (li_IsLeader r) (li_Term r)) dec_uint64;
   field_of "is_leader" li_IsLeader
     (λ x r, mkLeaderInfo (li_LeaderID r) (li_LeaderAddr r) (li_ThisNodeID r) x (li_Term r)) dec_bool;
   field_of "term" li_Term
     (λ x r, mkLeaderInfo (li_LeaderID r) (li_LeaderAddr r) (li_ThisNodeID r) (li_IsLeader r) x)
     dec_uint64].

Record AddNodeResponse := mkAddNodeResponse {
  an_NodeID : Z; an_Addr : string; an_AddedAsLearner : bool; an_PromotedToVoter : bool;
  an_LeaderID : option Z }.
Definition zero_AddNodeResponse : AddNodeResponse := mkAddNodeResponse 0 "" false false None.
Definition dec_AddNodeResponse : decoder AddNodeResponse := dec_struct
  [field_of "node_id" an_NodeID
     (λ x r, mkAddNodeResponse x (an_Addr r) (an_AddedAsLearner r) (an_PromotedToVoter r)
       (an_LeaderID r)) dec_uint64;
   field_of "addr" an_Addr
     (λ x r, mkAddNodeResponse (an_NodeID r) x (an_AddedAsLearner r) (an_PromotedToVoter r)
       (an_LeaderID r)) dec_string;
   field_of "added_as_learner" an_AddedAsLearner
     (λ x r, mkAddNodeResponse (an_NodeID r) (an_Addr r) x (an_PromotedToVoter r)
       (an_LeaderID r)) dec_bool;
   field_of "promoted_to_voter" an_PromotedToVoter
     (λ x r, mkAddNodeResponse (an_NodeID r) (an_Addr r) (an_AddedAsLearner r) x
       (an_LeaderID r)) dec_bool;
   field_of "leader_id" an_LeaderID
     (λ x r, mkAddNodeResponse (an_NodeID r) (an_Addr r) (an_AddedAsLearner r)
       (an_PromotedToVoter r) x) (dec_pointer 0%Z dec_uint64)].

Record RemoveNodeResponse := mkRemoveNodeResponse {
  rn_NodeID : Z; rn_RemovedFromVoter : bool; rn_LeaderID : option Z;
  rn_RemainingVoters : list Z }.
Definition zero_RemoveNodeResponse : RemoveNodeResponse := mkRemoveNodeResponse 0 false None [].
Definition dec_RemoveNodeResponse : decoder RemoveNodeResponse := dec_struct
  [field_of "node_id" rn_NodeID
     (λ x r, mkRemoveNodeResponse x (rn_RemovedFromVoter r) (rn_LeaderID r) (rn_RemainingVoters r))
     dec_uint64;
   field_of "removed_from_voters" rn_RemovedFromVoter
     (λ x r, mkRemoveNodeResponse (rn_NodeID r) x (rn_LeaderID r) (rn_RemainingVoters r)) dec_bool;
   field_of "leader_id" rn_LeaderID
     (λ x r, mkRemoveNodeResponse (rn_NodeID r) (rn_RemovedFromVoter r) x (rn_RemainingVoters r))
     (dec_pointer 0%Z dec_uint64);
   field_of "remaining_voters" rn_RemainingVoters
     (λ x r, mkRemoveNodeResponse (rn_NodeID r) (rn_RemovedFromVoter r) (rn_LeaderID r) x)
     (dec_slice 0%Z dec_uint64)].

(** [errResp] of [AddClusterNode] and [RemoveClusterNode]. *)
Record errResp := mkErrResp { er_Error : string; er_LeaderID : option Z }.
Definition dec_errResp : decoder errResp := dec_struct
  [field_of "error" er_Error (λ x r, mkErrResp x (er_LeaderID r)) dec_string;
   field_of "leader_id" er_LeaderID (λ x r, mkErrResp (er_Error r) x) (dec_pointer 0%Z dec_uint64)].

Record ProxyBackendStatus := mkProxyBackendStatus {
  pb_Addr : string; pb_Port : Z; pb_Health : string; pb_Excluded : bool; pb_Inflight : Z;
  pb_ConsecutiveFailures : Z }.
Definition zero_ProxyBackendStatus : ProxyBackendStatus := mkProxyBackendStatus "" 0 "" false 0 0.
Definition dec_ProxyBackendStatus : decoder ProxyBackendStatus := dec_struct
  [field_of "addr" pb_Addr
     (λ x r, mkProxyBackendStatus x (pb_Port r) (pb_Health r) (pb_Excluded r) (pb_Inflight r)
       (pb_ConsecutiveFailures r)) dec_string;
   field_of "port" pb_Port
     (λ x r, mkProxyBackendStatus (pb_Addr r) x (pb_Health r) (pb_Excluded r) (pb_Inflight r)
       (pb_ConsecutiveFailures r)) dec_int;
   field_of "health" pb_Health
     (λ x r, mkProxyBackendStatus (pb_Addr r) (pb_Port r) x (pb_Excluded r) (pb_Inflight r)
       (pb_ConsecutiveFailures r)) dec_string;
   field_of "excluded" pb_Excluded
     (λ x r, mkProxyBackendStatus (pb_Addr r) (pb_Port r) (pb_Health r) x (pb_Inflight r)
       (pb_ConsecutiveFailures r)) dec_bool;
   field_of "inflight" pb_Inflight
     (λ x r, mkProxyBackendStatus (pb_Addr r) (pb_Port r) (pb_Health r) (pb_Excluded r) x
       (pb_ConsecutiveFailures r)) dec_int;
   field_of "consecutive_failures" pb_ConsecutiveFailures
     (λ x r, mkProxyBackendStatus (pb_Addr r) (pb_Port r) (pb_Health r) (pb_Excluded r)
       (pb_Inflight r) x) dec_int].

(** What each call decodes from a body: the value, or [None] for an error. *)
Definition json_metrics (body : string) : option ClusterMetrics :=
  decoded (Decode dec_ClusterMetrics zero_ClusterMetrics body).
Definition json_nodes (body : string) : option (list NodeInfo) :=
  decoded (Decode dec_clusterNodesResponse [] body).
Definition json_HealthStatus (body : string) : HealthStatus * bool :=
  Unmarshal dec_HealthStatus zero_HealthStatus body.
Definition json_SyncManifest (body : string) : option SyncManifest :=
  decoded (Decode dec_SyncManifest zero_SyncManifest body).
Definition json_LeaderInfo (body : string) : option LeaderInfo :=
  decoded (Decode dec_LeaderInfo zero_LeaderInfo body).
Definition json_AddNodeResponse (body : string) : option AddNodeResponse :=
  decoded (Decode dec_AddNodeResponse zero_AddNodeResponse body).
Definition json_RemoveNodeResponse (body : string) : option RemoveNodeResponse :=
  decoded (Decode dec_RemoveNodeResponse zero_RemoveNodeResponse body).
Definition json_pool (body : string) : option (list ProxyBackendStatus) :=
  decoded (Decode (dec_slice zero_ProxyBackendStatus dec_ProxyBackendStatus) [] body).
(** The error of [Decode] is dropped: what it has decoded by then is used. *)
Definition json_error_leader_id (body : string) : option Z :=
  er_LeaderID (Decode dec_errResp (mkErrResp "" None) body).1.

(** ** Requests *)

(** The value given to [json.Marshal] for the request body. *)
Inductive ReqBody :=
  | NoBody
  | JoinBody (nodeID : Z) (addr : string)
  | AddNodeBody (nodeID : Z) (addr : string) (promote : bool)
  | NodeIDBody (nodeID : Z).

Definition json_int (z : Z) : json := JNumber (Itoa z).

(** [joinRequest], [addNodeRequest], [removeNodeRequest] and [leaveRequest]; no value
    for a request without a body. *)
Definition body_json (b : ReqBody) : option json :=
  match b with
  | NoBody => None
  | JoinBody id addr => Some (JObject [("node_id", json_int id); ("addr", JString addr)])
  | AddNodeBody id addr promote =>
      Some (JObject [("node_id", json_int id); ("addr", JString addr); ("promote", JBool promote)])
  | NodeIDBody id => Some (JObject [("node_id", json_int id)])
  end.

(** The text on the wire. *)
Definition Marshal (b : ReqBody) : string := default "" (print <$> body_json b).
