(* ===== verification/MessageTheorems.v ===== *)
(** The messages of the cluster API: what the client sends reads back, and what it
    decodes is of the types of its structs. *)

From S2P Require Import Prelude GoStrings Json JsonTheorems Messages.
#[local] Open Scope string_scope.
#[local] Arguments Ascii.eqb : simpl never.
#[local] Arguments print : simpl never.
#[local] Arguments Decode : simpl never.

Definition in_uint64 (z : Z) : Prop := (0 <= z < 2 ^ 64)%Z.
Definition in_uint32 (z : Z) : Prop := (0 <= z < 2 ^ 32)%Z.

(** ** Requests *)

(** The structs of the request bodies, as their reader decodes them. *)
Record joinRequest := mkJoinRequest { jr_NodeID : option Z; jr_Addr : string }.
Definition dec_joinRequest : decoder joinRequest := dec_struct
  [field_of "node_id" jr_NodeID (λ x r, mkJoinRequest x (jr_Addr r)) (dec_pointer 0%Z dec_int);
   field_of "addr" jr_Addr (λ x r, mkJoinRequest (jr_NodeID r) x) dec_string].

Record addNodeRequest := mkAddNodeRequest {
  ar_NodeID : Z; ar_Addr : string; ar_Promote : bool }.
Definition dec_addNodeRequest : decoder addNodeRequest := dec_struct
  [field_of "node_id" ar_NodeID (λ x r, mkAddNodeRequest x (ar_Addr r) (ar_Promote r)) dec_uint64;
   field_of "addr" ar_Addr (λ x r, mkAddNodeRequest (ar_NodeID r) x (ar_Promote r)) dec_string;
   field_of "promote" ar_Promote (λ x r, mkAddNodeRequest (ar_NodeID r) (ar_Addr r) x) dec_bool].

(** [removeNodeRequest] and [leaveRequest] *)
Definition dec_nodeIDRequest : decoder Z := dec_struct
  [field_of "node_id" (λ r, r) (λ x _, x) dec_uint64].

(** The values a body can be sent with. *)
Definition body_ok (b : ReqBody) : Prop :=
  match b with
  | NoBody => True
  | JoinBody id addr => in_int64 id ∧ utf8 addr
  | AddNodeBody id addr _ => in_uint64 id ∧ utf8 addr
  | NodeIDBody id => in_uint64 id
  end.

(** The text [t] decodes to the values of the body [b], without an error. *)
Definition decodes_to (t : string) (b : ReqBody) : Prop :=
  match b with
  | NoBody => t = ""
  | JoinBody id addr =>
      Decode dec_joinRequest (mkJoinRequest None "") t = (mkJoinRequest (Some id) addr, true)
  | AddNodeBody id addr promote =>
      Decode dec_addNodeRequest (mkAddNodeRequest 0 "" false) t =
        (mkAddNodeRequest id addr promote, true)
  | NodeIDBody id => Decode dec_nodeIDRequest 0%Z t = (id, true)
  end.

Lemma dec_int_json z old : in_int64 z → dec_int (json_int z) old = (z, true).
Proof.
  unfold in_int64, dec_int, dec_number, json_int. intros Hz. rewrite parse_int_Itoa.
  by rewrite (proj2 (Z.leb_le _ _)), (proj2 (Z.ltb_lt _ _)) by lia.
Qed.
Lemma dec_uint64_json z old : in_uint64 z → dec_uint64 (json_int z) old = (z, true).
Proof.
  unfold in_uint64, dec_uint64, dec_number, json_int. intros Hz. rewrite parse_uint_Itoa by lia.
  by rewrite (proj2 (Z.leb_le _ _)), (proj2 (Z.ltb_lt _ _)) by lia.
Qed.

Lemma Decode_print {A} (d : decoder A) zero v :
  wf v → (height v <= maxNestingDepth)%Z → followed v "" → Decode d zero (print v) = d v zero.
Proof.
  intros Hw Hh Hf. unfold Decode. rewrite <-(string_app_nil_r (print v)). by rewrite read_print.
Qed.

(** A message is a flat object: its texts are well formed. *)
Ltac message :=
  unfold maxNestingDepth; cbn; unfold json_int; cbn [wf]; rewrite ?literal_Itoa;
  repeat split; done || lia || by apply ascii_utf8.

(** C26: a request body reads back: the text the client marshals for a request to join a
    node, to add, to remove or to leave one is JSON, and decodes into the struct it was
    made from with the same identifier, address and promotion, whatever characters the
    address has. *)
Theorem requests_read_back b : body_ok b → decodes_to (Marshal b) b.
Proof.
  unfold Marshal. destruct b as [|id addr|id addr promote|id]; [done|..]; simpl.
  - intros [Hi Ha]. rewrite Decode_print by message.
    lazy -[dec_int json_int]. by rewrite dec_int_json.
  - intros [Hi Ha]. rewrite Decode_print by message.
    lazy -[dec_uint64 json_int]. by rewrite dec_uint64_json.
  - intros Hi. rewrite Decode_print by message.
    lazy -[dec_uint64 json_int]. by rewrite dec_uint64_json.
Qed.

Lemma requests_read_back_witness :
  Marshal (AddNodeBody 3 "db-2.db-headless.ns.svc:8086" true) =
    "{" +:+ dq +:+ "node_id" +:+ dq +:+ ":3," +:+ dq +:+ "addr" +:+ dq +:+ ":" +:+ dq +:+
    "db-2.db-headless.ns.svc:8086" +:+ dq +:+ "," +:+ dq +:+ "promote" +:+ dq +:+ ":true}" ∧
  decodes_to (Marshal (AddNodeBody 3 "db-2.db-headless.ns.svc:8086" true))
    (AddNodeBody 3 "db-2.db-headless.ns.svc:8086" true).
Proof.
  split; [vm_compute; reflexivity|]. apply requests_read_back.
  split; [unfold in_uint64; lia|apply ascii_utf8; reflexivity].
Defined.

(** ** Responses *)

Definition node_typed (n : NodeInfo) : Prop := in_int64 (ni_NodeID n) ∧ in_int64 (ni_LastHeartbeat n).
Definition health_typed (h : HealthStatus) : Prop := in_int64 (hs_NodeID h).
Definition metrics_typed (m : ClusterMetrics) : Prop :=
  in_int64 (cm_NodeID m) ∧ in_int64 (cm_PeerCount m).
Definition file_typed (f : ParquetFileManifest) : Prop :=
  in_int64 (pf_SizeBytes f) ∧ (∀ id, pf_OriginNodeID f = Some id → in_uint64 id) ∧
  in_int64 (pf_MinTime f) ∧ in_int64 (pf_MaxTime f) ∧ in_uint32 (pf_Checksum f).
Definition manifest_typed (m : SyncManifest) : Prop :=
  in_int64 (sm_NodeID m) ∧ in_int64 (sm_WALLastSeq m) ∧
  Forall (λ d, Forall (λ ms, Forall file_typed (mm_ParquetFiles ms)) (dm_Measurements d))
    (sm_Databases m).
Definition leader_typed (l : LeaderInfo) : Prop :=
  (∀ id, li_LeaderID l = Some id → in_uint64 id) ∧ in_uint64 (li_ThisNodeID l) ∧
  in_uint64 (li_Term l).
Definition added_typed (a : AddNodeResponse) : Prop :=
  in_uint64 (an_NodeID a) ∧ ∀ id, an_LeaderID a = Some id → in_uint64 id.
Definition removed_typed (r : RemoveNodeResponse) : Prop :=
  in_uint64 (rn_NodeID r) ∧ (∀ id, rn_LeaderID r = Some id → in_uint64 id) ∧
  Forall in_uint64 (rn_RemainingVoters r).
Definition backend_typed (b : ProxyBackendStatus) : Prop :=
  in_int64 (pb_Port b) ∧ in_int64 (pb_Inflight b) ∧ in_int64 (pb_ConsecutiveFailures b).

Lemma keeps_int : keeps in_int64 dec_int.
Proof. apply keeps_number. Qed.
Lemma keeps_uint64 : keeps in_uint64 dec_uint64.
Proof. apply keeps_number. Qed.
Lemma keeps_uint32 : keeps in_uint32 dec_uint32.
Proof. apply keeps_number. Qed.
Lemma keeps_id : keeps (λ o, ∀ id, o = Some id → in_uint64 id) (dec_pointer 0%Z dec_uint64).
Proof. apply (keeps_pointer in_uint64); [unfold in_uint64; lia|apply keeps_uint64]. Qed.

(** Every field of a struct: the type of its own value, or none that matters. *)
Ltac typed_fields_with tac :=
  apply keeps_struct; repeat apply Forall_cons_2; [..|apply Forall_nil_2];
  first [ eapply keeps_field; [apply keeps_int|intros; tauto|];
          intros a b; unfold in_int64, in_uint64 in *; cbn; tauto
        | eapply keeps_field; [apply keeps_uint64|intros; tauto|]; intros a b; cbn; tauto
        | eapply keeps_field; [apply keeps_uint32|intros; tauto|]; intros a b; cbn; tauto
        | eapply keeps_field; [apply keeps_id|intros; tauto|]; intros a b; cbn; tauto
        | eapply keeps_field; [apply keeps_True|done|]; intros a b; cbn; tauto
        | eapply keeps_field; [tac|cbn; tauto|cbn; tauto] ].
Ltac typed_fields := typed_fields_with ltac:(fail).

Lemma zero_typed : in_int64 0 ∧ in_uint64 0 ∧ in_uint32 0.
Proof. unfold in_int64, in_uint64, in_uint32. lia. Qed.

Lemma node_keeps : keeps node_typed dec_NodeInfo.
Proof. unfold node_typed, dec_NodeInfo. typed_fields. Qed.
Lemma health_keeps : keeps health_typed dec_HealthStatus.
Proof. unfold health_typed, dec_HealthStatus. typed_fields. Qed.
Lemma metrics_keeps : keeps metrics_typed dec_ClusterMetrics.
Proof. unfold metrics_typed, dec_ClusterMetrics. typed_fields. Qed.
Lemma file_keeps : keeps file_typed dec_ParquetFileManifest.
Proof. unfold file_typed, dec_ParquetFileManifest. typed_fields. Qed.
Lemma leader_keeps : keeps leader_typed dec_LeaderInfo.
Proof. unfold leader_typed, dec_LeaderInfo. typed_fields. Qed.
Lemma added_keeps : keeps added_typed dec_AddNodeResponse.
Proof. unfold added_typed, dec_AddNodeResponse. typed_fields. Qed.
Lemma backend_keeps : keeps backend_typed dec_ProxyBackendStatus.
Proof. unfold backend_typed, dec_ProxyBackendStatus. typed_fields. Qed.

Lemma nodes_keeps : keeps (Forall node_typed) dec_clusterNodesResponse.
Proof.
  apply keeps_struct, Forall_cons_2; [|by apply Forall_nil_2]. eapply keeps_field; [|done..].
  apply keeps_slice; [apply (conj (proj1 zero_typed) (proj1 zero_typed))|apply node_keeps].
Qed.
Lemma zero_file : file_typed zero_ParquetFileManifest.
Proof. destruct zero_typed as (? & ? & ?). by repeat split. Qed.
Lemma measurement_keeps :
  keeps (λ ms, Forall file_typed (mm_ParquetFiles ms)) dec_MeasurementManifest.
Proof.
  unfold dec_MeasurementManifest.
  typed_fields_with ltac:(apply keeps_slice; [apply zero_file|apply file_keeps]).
Qed.
Lemma database_keeps :
  keeps (λ d, Forall (λ ms, Forall file_typed (mm_ParquetFiles ms)) (dm_Measurements d))
    dec_DatabaseManifest.
Proof.
  unfold dec_DatabaseManifest.
  typed_fields_with ltac:(refine (keeps_slice _ _ _ _ measurement_keeps); apply Forall_nil_2).
Qed.
Lemma manifest_keeps : keeps manifest_typed dec_SyncManifest.
Proof.
  unfold manifest_typed, dec_SyncManifest.
  typed_fields_with ltac:(refine (keeps_slice _ _ _ _ database_keeps); apply Forall_nil_2).
Qed.
Lemma removed_keeps : keeps removed_typed dec_RemoveNodeResponse.
Proof.
  unfold removed_typed, dec_RemoveNodeResponse.
  typed_fields_with ltac:(refine (keeps_slice _ _ _ _ keeps_uint64); apply zero_typed).
Qed.
Lemma pool_keeps :
  keeps (Forall backend_typed) (dec_slice zero_ProxyBackendStatus dec_ProxyBackendStatus).
Proof.
  destruct zero_typed as (? & _). apply keeps_slice; [by repeat split|apply backend_keeps].
Qed.

Lemma decoded_typed {A} (ok : A → Prop) d zero body a :
  ok zero → keeps ok d → decoded (Decode d zero body) = Some a → ok a.
Proof.
  intros Hz Hd. unfold decoded. pose proof (keeps_Decode ok zero d body Hz Hd).
  destruct (_.2); [|done]. by intros [= <-].
Qed.


(** A leader's answer, with a term of the greatest value. *)
Definition leader_text : string :=
  print (JObject [("leader_id", json_int 1); ("Term", json_int (2 ^ 64 - 1)); ("extra", JArray [])]).

