(* ===== verification/Prog.v ===== *)
(** Effectful Go code as programs over calls.

    A reconciler is a sequential Go function whose only interaction with the
    world is a call that returns a value: a request to the API server, an HTTP
    request to a database node, a reading of the clock, an event on the
    recorder.  [prog] is the type of such functions: a tree whose nodes are the
    calls and whose branches are the possible answers.  Nothing is assumed about
    the answers, so a theorem about all executions of a program holds for every
    API server, every cluster and every clock.

    - [exec p t o]: [p] can run through the calls and answers of the trace [t]
      and end with [o] ([Done a], or [Panic] for a Go run-time panic);
    - [wp p Q]: the recursive form of the same statement, used in proofs;
    - [emits P p]: every call [p] can make satisfies [P];
    - [run h p w]: [p] against a concrete handler, for evaluation. *)

From S2P Require Import Prelude.

Section Prog.
Context {Ev : Type} {Ans : Ev → Type}.

Inductive prog (A : Type) : Type :=
  | Ret (a : A)
  | Crash
  | Call (e : Ev) (k : Ans e → prog A).
Arguments Ret {_} _.
Arguments Crash {_}.
Arguments Call {_} _ _.

(** One call together with its answer. *)
Record entry := Entry { entry_ev : Ev; entry_ans : Ans entry_ev }.

Inductive outcome (A : Type) : Type := Done (a : A) | Panic.
Arguments Done {_} _.
Arguments Panic {_}.

Fixpoint bind {A B} (p : prog A) (f : A → prog B) : prog B :=
  match p with
  | Ret a => f a
  | Crash => Crash
  | Call e k => Call e (λ x, bind (k x) f)
  end.

Definition call (e : Ev) : prog (Ans e) := Call e Ret.

(** Executions *)

Fixpoint exec {A} (p : prog A) (t : list entry) (o : outcome A) : Prop :=
  match p with
  | Ret a => t = [] ∧ o = Done a
  | Crash => t = [] ∧ o = Panic
  | Call e k => ∃ x t', t = Entry e x :: t' ∧ exec (k x) t' o
  end.

Fixpoint wp {A} (p : prog A) (Q : list entry → outcome A → Prop) : Prop :=
  match p with
  | Ret a => Q [] (Done a)
  | Crash => Q [] Panic
  | Call e k => ∀ x, wp (k x) (λ t o, Q (Entry e x :: t) o)
  end.

Fixpoint emits {A} (P : Ev → Prop) (p : prog A) : Prop :=
  match p with
  | Ret _ | Crash => True
  | Call e k => P e ∧ ∀ x, emits P (k x)
  end.

(** Every call [p] can make satisfies [P], and every result [R], as long as the
    answers satisfy [G]. *)
Fixpoint obeys {A} (G : ∀ e, Ans e → Prop) (P : Ev → Prop) (p : prog A) (R : A → Prop) : Prop :=
  match p with
  | Ret a => R a
  | Crash => True
  | Call e k => P e ∧ ∀ x, G e x → obeys G P (k x) R
  end.

(** [p] cannot end in a run-time panic. *)
Fixpoint total {A} (p : prog A) : Prop :=
  match p with
  | Ret _ => True
  | Crash => False
  | Call e k => ∀ x, total (k x)
  end.

Fixpoint run {W A} (h : ∀ e : Ev, W → W * Ans e) (p : prog A) (w : W)
    : W * list entry * outcome A :=
  match p with
  | Ret a => (w, [], Done a)
  | Crash => (w, [], Panic)
  | Call e k =>
      let '(w1, x) := h e w in
      let '(w2, t, o) := run h (k x) w1 in
      (w2, Entry e x :: t, o)
  end.

Lemma wp_mono {A} (p : prog A) (Q R : list entry → outcome A → Prop) :
  wp p Q → (∀ t o, Q t o → R t o) → wp p R.
Proof.
  revert Q R. induction p as [a| |e k IH]; simpl; intros Q R HQ HR; auto.
  intros x. eapply IH; [apply HQ|]. auto.
Qed.

Lemma wp_exec {A} (p : prog A) Q : wp p Q ↔ ∀ t o, exec p t o → Q t o.
Proof.
  revert Q. induction p as [a| |e k IH]; simpl; intros Q; split.
  - by intros H t o [-> ->].
  - intros H. by apply H.
  - by intros H t o [-> ->].
  - intros H. by apply H.
  - intros H t o (x & t' & -> & Ht). by apply (proj1 (IH x _) (H x)).
  - intros H x. apply IH. intros t o Ht. apply H. eauto.
Qed.

Lemma wp_bind {A B} (p : prog A) (f : A → prog B) Q :
  wp p (λ t o, match o with
               | Done a => wp (f a) (λ t' o', Q (t ++ t') o')
               | Panic => Q t Panic
               end) →
  wp (bind p f) Q.
Proof.
  revert Q. induction p as [a| |e k IH]; simpl; intros Q H; auto.
Qed.

Lemma wp_assoc {A B C} (p : prog A) (f : A → prog B) (g : B → prog C) Q :
  wp (bind p (λ a, bind (f a) g)) Q → wp (bind (bind p f) g) Q.
Proof.
  revert Q. induction p as [a| |e k IH]; simpl; intros Q H; auto.
Qed.

Lemma wp_conj {A} (p : prog A) Q R :
  wp p Q → wp p R → wp p (λ t o, Q t o ∧ R t o).
Proof. rewrite !wp_exec. auto. Qed.

Lemma exec_bind {A B} (p : prog A) (f : A → prog B) t o :
  exec (bind p f) t o ↔
    (∃ t1 t2 a, t = t1 ++ t2 ∧ exec p t1 (Done a) ∧ exec (f a) t2 o) ∨
    (exec p t Panic ∧ o = Panic).
Proof.
  revert t. induction p as [a| |e k IH]; simpl; intros t; split.
  - intros H. left. exists [], t, a. auto.
  - intros [(t1&t2&a'&->&[-> Ha]&Hf)|[[_ Hp] _]]; by simplify_eq.
  - intros [-> ->]. auto.
  - intros [(?&?&?&?&[? ?]&_)|[[-> _] ->]]; [done|auto].
  - intros (x&t'&->&H). apply IH in H as [(t1&t2&a&->&H1&H2)|[H1 H2]].
    + left. exists (Entry e x :: t1), t2, a. eauto 10.
    + right. eauto 10.
  - intros [(t1&t2&a&->&(x&t'&->&H1)&H2)|[(x&t'&->&H1) ->]].
    + exists x, (t' ++ t2). split; [done|]. apply IH. left. eauto 10.
    + exists x, t'. split; [done|]. apply IH. auto.
Qed.

Lemma emits_mono {A} (P R : Ev → Prop) (p : prog A) :
  (∀ e, P e → R e) → emits P p → emits R p.
Proof. intros HPR. induction p; simpl; [done..|]. intros [He Hk]. split; auto. Qed.

Lemma emits_True {A} (p : prog A) : emits (λ _, True) p.
Proof. induction p; simpl; auto. Qed.

Lemma emits_bind {A B} P (p : prog A) (f : A → prog B) :
  emits P p → (∀ a, emits P (f a)) → emits P (bind p f).
Proof. intros Hp Hf. induction p; simpl in *; [done..|]. destruct Hp. split; auto. Qed.

Lemma emits_exec {A} P (p : prog A) t o :
  emits P p → exec p t o → Forall (λ x, P (entry_ev x)) t.
Proof.
  revert t. induction p as [a| |e k IH]; simpl; intros t H.
  - by intros [-> _].
  - by intros [-> _].
  - intros (x&t'&->&Ht). destruct H. constructor; [done|]. eapply IH; eauto.
Qed.

Lemma wp_emits {A} P (p : prog A) Q :
  emits P p → wp p Q → wp p (λ t o, Forall (λ x, P (entry_ev x)) t ∧ Q t o).
Proof. rewrite !wp_exec. eauto using emits_exec. Qed.

Lemma obeys_mono {A} G P (p : prog A) (R R' : A → Prop) :
  obeys G P p R → (∀ a, R a → R' a) → obeys G P p R'.
Proof. intros Hp HR. induction p; simpl in *; [auto..|]. destruct Hp. split; auto. Qed.

Lemma obeys_bind {A B} G P (p : prog A) (f : A → prog B) R (R' : B → Prop) :
  obeys G P p R → (∀ a, R a → obeys G P (f a) R') → obeys G P (bind p f) R'.
Proof. intros Hp Hf. induction p; simpl in *; [auto..|]. destruct Hp. split; auto. Qed.

Lemma emits_obeys {A} G P (p : prog A) : emits P p → obeys G P p (λ _, True).
Proof. intros He. induction p; simpl in *; [done..|]. destruct He. split; auto. Qed.

Lemma obeys_swap {A} G P Q (p : prog A) R : obeys G P p R → emits Q p → obeys G Q p R.
Proof. intros Hp Hq. induction p; simpl in *; [done..|]. destruct Hp, Hq. auto. Qed.

Lemma obeys_exec {A} (G : ∀ e, Ans e → Prop) P (p : prog A) R t o :
  obeys G P p R → Forall (λ x, G (entry_ev x) (entry_ans x)) t → exec p t o →
  Forall (λ x, P (entry_ev x)) t ∧ ∀ a, o = Done a → R a.
Proof.
  revert t. induction p as [a| |e k IH]; simpl; intros t Hp HG.
  - intros [-> ->]. split; [done|]. by intros ? [= <-].
  - intros [-> ->]. done.
  - intros (x & t' & -> & Ht). destruct Hp as [He Hk].
    apply Forall_cons in HG as [Hx HG]. simpl in Hx.
    destruct (IH x t' (Hk x Hx) HG Ht) as [Ht' Ho]. split; [by constructor|done].
Qed.

Lemma total_bind {A B} (p : prog A) (f : A → prog B) :
  total p → (∀ a, total (f a)) → total (bind p f).
Proof. intros Hp Hf. induction p; simpl in *; auto. Qed.

Lemma total_exec {A} (p : prog A) t : total p → ¬ exec p t Panic.
Proof.
  revert t. induction p as [a| |e k IH]; simpl; [by intros t _ [_ ?]|done|].
  intros t Hk (x&t'&->&Ht). by eapply IH.
Qed.

(** Sequencing after a sub-program of which only its calls and its result
    matter. *)
Lemma wp_bind_exec {A B} (p : prog A) (f : A → prog B) Q :
  total p →
  (∀ t a, exec p t (Done a) → wp (f a) (λ t' o', Q (t ++ t') o')) →
  wp (bind p f) Q.
Proof.
  intros Ht Hf. apply wp_bind, wp_exec. intros t [a|] He; [by apply Hf|].
  by apply total_exec in He.
Qed.

Lemma wp_bind_emits {A B} P (p : prog A) (f : A → prog B) Q :
  emits P p → total p →
  (∀ t a, exec p t (Done a) → Forall (λ x, P (entry_ev x)) t →
          wp (f a) (λ t' o', Q (t ++ t') o')) →
  wp (bind p f) Q.
Proof. intros He Ht Hf. apply wp_bind_exec; eauto using emits_exec. Qed.

Lemma run_exec {W A} (h : ∀ e : Ev, W → W * Ans e) (p : prog A) w w' t o :
  run h p w = (w', t, o) → exec p t o.
Proof.
  revert w t. induction p as [a| |e k IH]; simpl; intros w t H; simplify_eq; auto.
  destruct (h e w) as [w1 x]. destruct (run h (k x) w1) as [[w2 t2] o2] eqn:E.
  simplify_eq. eauto.
Qed.

(** Every program has an execution under any handler: the model of a Go
    function is total by construction, whatever the answers are. *)
Lemma exec_total {W A} (h : ∀ e : Ev, W → W * Ans e) (p : prog A) (w : W) :
  ∃ t o, exec p t o.
Proof.
  destruct (run h p w) as [[w' t] o] eqn:E. exists t, o. by eapply run_exec.
Qed.
End Prog.

Arguments prog {_} _ _.
Arguments Ret {_ _ _} _.
Arguments Crash {_ _ _}.
Arguments Call {_ _ _} _ _.
Arguments entry {_} _.
Arguments Done {_} _.
Arguments Panic {_}.

Create HintDb prog.
#[export] Hint Resolve emits_bind total_bind : prog.

(** The expression a program is stuck on: the scrutinee of its first [match]. *)
Ltac prog_scrut p :=
  lazymatch p with
  | bind ?q _ => prog_scrut q
  | match ?x with _ => _ end => x
  | ?f _ => prog_scrut f
  end.
