(* ===== verification/Lib.v ===== *)
(** The third-party Go packages the operator calls, as an interface.

    [Lib] collects the operations of code that is not in the repository:
    Masterminds/semver (versions), apimachinery's condition and finalizer
    helpers, and [resource.Quantity].  Definitions take a [Lib] as an implicit
    argument.  [LibLaws] states the documented behaviour the code relies on;
    [Demo.v] shows that a concrete library satisfies it. *)

From S2P Require Import Prelude.

(** A value of a Kubernetes API type the operator only copies from the custom
    resource into the objects it builds (a toleration, a resource list, an
    additional volume, ...), carried as its serialised form. *)
Record raw := Raw { raw_repr : string }.
#[export] Instance raw_eq_dec : EqDecision raw.
Proof. solve_decision. Defined.
#[export] Instance raw_inhabited : Inhabited raw := populate (Raw "").

(** [time.Time] is [Z]: nanoseconds since Go's zero time, so that the zero value
    is 0. *)
Definition Time : Type := Z.

(** ** metav1.Condition *)

Inductive ConditionStatus := ConditionTrue | ConditionFalse | ConditionUnknown.
#[export] Instance ConditionStatus_eq_dec : EqDecision ConditionStatus.
Proof. solve_decision. Defined.

Record Condition := mkCondition {
  cond_Type : string;
  cond_Status : ConditionStatus;
  cond_Reason : string;
  cond_Message : string;
  cond_LastTransitionTime : Time;
  cond_ObservedGeneration : Z }.

Definition find_condition (cs : list Condition) (ty : string) : option Condition :=
  list_find (λ c, cond_Type c = ty) cs ≫= λ p, Some p.2.

Class Lib := {
  (* github.com/Masterminds/semver/v3 *)
  Version : Type;
  semver_NewVersion : string → option Version;
  semver_Compare : Version → Version → Z;
  semver_Original : Version → string;
  (* k8s.io/apimachinery/pkg/api/meta; the first argument is the time of the call *)
  SetStatusCondition : Time → list Condition → Condition → list Condition;
  RemoveStatusCondition : list Condition → string → list Condition;
  (* sigs.k8s.io/controller-runtime/pkg/controller/controllerutil *)
  ContainsFinalizer : list string → string → bool;
  AddFinalizer : list string → string → list string;
  RemoveFinalizer : list string → string → list string;
  (* k8s.io/apimachinery/pkg/api/resource *)
  Quantity : Type;
  Quantity_IsZero : Quantity → bool;
  Quantity_MustParse : string → Quantity }.

(** The documented behaviour the theorems use. *)
Class LibLaws (L : Lib) := {
  semver_compare_refl v : semver_Compare v v = 0%Z;
  semver_compare_antisym v w : semver_Compare w v = (- semver_Compare v w)%Z;
  semver_compare_trans u v w :
    (semver_Compare u v <= 0)%Z → (semver_Compare v w <= 0)%Z → (semver_Compare u w <= 0)%Z;
  semver_original s v : semver_NewVersion s = Some v → semver_Original v = s;
  set_condition_same now cs c :
    find_condition (SetStatusCondition now cs c) (cond_Type c) ≫= (λ c', Some (cond_Status c'))
      = Some (cond_Status c);
  set_condition_reason now cs c :
    find_condition (SetStatusCondition now cs c) (cond_Type c) ≫= (λ c', Some (cond_Reason c'))
      = Some (cond_Reason c);
  set_condition_other now cs c ty :
    ty ≠ cond_Type c →
    find_condition (SetStatusCondition now cs c) ty = find_condition cs ty;
  finalizer_added fs f : ContainsFinalizer (AddFinalizer fs f) f = true;
  finalizer_removed fs f : ContainsFinalizer (RemoveFinalizer fs f) f = false }.
