(* ===== verification/ApiTypes.v ===== *)
(** The custom resources (api/v1alpha1): [HyperbytedbCluster],
    [HyperbytedbBackup] and [HyperbytedbRestore], field by field.

    A Go pointer field is an [option]; an integer field is a [Z] (where an operation
    can leave the width of the Go type it wraps, [int32] and the like); a value the
    operator only copies is a [raw].  Field
    names keep the Go name behind a prefix for the struct. *)

From S2P Require Import Prelude Lib.

(** ** Metadata *)

Record ObjectMeta := mkMeta {
  om_Name : string;
  om_Namespace : string;
  om_Labels : gmap string string;
  om_Annotations : gmap string string;
  om_Finalizers : list string;
  om_DeletionTimestamp : option Time;
  om_Generation : Z;
  om_Owner : option string }.

(** A key of a nil or non-nil Go string map: the empty string when absent. *)
Definition map_get (m : gmap string string) (k : string) : string := default "" (m !! k).

(** ** Cluster spec *)

Record CertManagerIssuerRef := mkIssuerRef { ref_Name : string; ref_Kind : string; ref_Group : string }.

Record TLSSpec := mkTLSSpec {
  tls_Enabled : bool; tls_SecretName : string;
  tls_CertManagerIssuerRef : option CertManagerIssuerRef }.

Record ServerSpec := mkServerSpec {
  srv_Port : Z;
  srv_MaxBodySizeBytes : Z;
  srv_RequestTimeoutSecs : Z;
  srv_QueryTimeoutSecs : Z;
  srv_MaxConcurrentQueries : Z;
  srv_TLS : option TLSSpec }.

Record PersistentVolumeClaimSpec `{Lib} := mkPVCSpec {
  pvc_StorageClassName : option string;
  pvc_Size : Quantity }.

Record StorageSpec `{Lib} := mkStorageSpec {
  sto_VolumeClaimTemplate : option PersistentVolumeClaimSpec;
  sto_WALFormat : string }.

Record FlushSpec := mkFlushSpec {
  fl_IntervalSecs : Z;
  fl_MaxPointsPerBatch : Z;
  fl_WALBatchSize : Z;
  fl_WALBatchDelayUs : Z;
  fl_ArrowWALEnabled : option bool }.

Record ChDBSpec := mkChDBSpec {
  ch_SessionDataPath : string; ch_PoolSize : Z; ch_QueryPoolSize : Z; ch_WritePoolSize : Z }.

Record AuthSpec := mkAuthSpec { auth_Enabled : bool; auth_CredentialsSecretName : string }.

Record LoggingSpec := mkLoggingSpec { log_Level : string; log_Format : string }.

(** [intstr.IntOrString] *)
Inductive IntOrString := IntVal (z : Z) | StrVal (s : string).

Record SyncQuorumSpec := mkSyncQuorumSpec { sq_MinAcks : option IntOrString }.

Record ReplicationSpec := mkReplicationSpec {
  repl_Mode : string; repl_AckTimeoutMs : Z; repl_SyncQuorum : option SyncQuorumSpec }.

Record ClusterTuningSpec := mkClusterTuningSpec {
  ct_HeartbeatIntervalSecs : Z;
  ct_HeartbeatMissThreshold : Z;
  ct_ReplicationMaxRetries : Z;
  ct_RaftHeartbeatIntervalMs : Z;
  ct_RaftElectionTimeoutMs : Z;
  ct_RaftSnapshotThreshold : Z;
  ct_ReplicationQueueDepth : Z;
  ct_ReplicationMaxInflightBatches : Z;
  ct_ReplicationMaxCoalesceBodyBytes : Z;
  ct_ReplicateReceiverQueueDepth : Z;
  ct_ReplicationTruncateStalePeerMultiplier : Z;
  ct_Replication : option ReplicationSpec;
  ct_TLS : option TLSSpec;
  ct_DrainWaitSecs : Z }.

Record ShardingSpec := mkShardingSpec {
  sh_Enabled : bool;
  sh_ReplicationFactor : Z;
  sh_RegionSplitSeries : Z;
  sh_RegionMaxSeries : Z;
  sh_RegionMergeSeries : Z;
  sh_SplitMergeIntervalSecs : Z;
  sh_ScheduleLimit : Z;
  sh_HeartbeatIntervalSecs : Z;
  sh_BootstrapTimeoutMs : Z;
  sh_PrimaryFailoverAfterSecs : Z;
  sh_ScatterPeerTimeoutMs : Z;
  sh_ScatterMaxPeerAttempts : Z;
  sh_AddPeerProposalsEnabled : option bool;
  sh_RemovePeerProposalsEnabled : option bool;
  sh_LoadSplitQpsThreshold : option Z;
  sh_MaxRegionsPerMeasurement : Z }.

Record CardinalitySpec := mkCardinalitySpec {
  car_MaxTagValuesPerMeasurement : Z; car_MaxMeasurementsPerDatabase : Z }.

Record StatementSummarySpec := mkStatementSummarySpec {
  ss_Enabled : option bool; ss_MaxEntries : Z }.

Record HintedHandoffSpec := mkHintedHandoffSpec {
  hh_Enabled : option bool; hh_MaxHintsPerPeer : Z; hh_MaxHintAgeSecs : Z }.

Record RateLimitSpec := mkRateLimitSpec {
  rl_Enabled : option bool; rl_MaxRequestsPerSecond : Z }.

Record RetentionSpec := mkRetentionSpec { ret_Enabled : option bool; ret_Interval : string }.

Record MonitoringSpec := mkMonitoringSpec { mon_Enabled : bool; mon_ServiceMonitor : bool }.

Record AutoscalingSpec := mkAutoscalingSpec {
  as_Enabled : bool; as_MinReplicas : Z; as_MaxReplicas : Z;
  as_TargetCPUUtilizationPercentage : Z }.

Record FailoverSpec := mkFailoverSpec {
  fo_Enabled : bool; fo_MaxFailoverCount : Z; fo_FailoverTimeoutSecs : Z }.

Record ProxySpec := mkProxySpec {
  px_Enabled : bool;
  px_Image : string;
  px_ImagePullPolicy : string;
  px_ImagePullSecrets : list string;
  px_Replicas : option Z;
  px_Port : Z;
  px_HealthPath : string;
  px_HoldTimeoutSecs : Z;
  px_MaxRetries : Z;
  px_ShutdownGraceSecs : Z;
  px_RequestTimeoutSecs : Z;
  px_Resources : raw;
  px_ServiceType : string;
  px_NodePort : Z;
  px_PodAnnotations : gmap string string;
  px_PodLabels : gmap string string }.

Record HyperbytedbClusterSpec `{Lib} := mkSpec {
  sp_Replicas : option Z;
  sp_Image : string;
  sp_Version : string;
  sp_ImagePullPolicy : string;
  sp_ImagePullSecrets : list string;
  sp_Paused : bool;
  sp_Server : ServerSpec;
  sp_Storage : StorageSpec;
  sp_Flush : FlushSpec;
  sp_ChDB : ChDBSpec;
  sp_Auth : AuthSpec;
  sp_Logging : LoggingSpec;
  sp_Resources : raw;
  sp_Cluster : ClusterTuningSpec;
  sp_Sharding : option ShardingSpec;
  sp_Cardinality : CardinalitySpec;
  sp_StatementSummary : StatementSummarySpec;
  sp_HintedHandoff : HintedHandoffSpec;
  sp_RateLimit : RateLimitSpec;
  sp_Retention : RetentionSpec;
  sp_Monitoring : MonitoringSpec;
  sp_Autoscaling : option AutoscalingSpec;
  sp_Failover : option FailoverSpec;
  sp_Proxy : option ProxySpec;
  sp_PodAnnotations : gmap string string;
  sp_PodLabels : gmap string string;
  sp_Affinity : option raw;
  sp_TopologySpreadConstraints : list raw;
  sp_Tolerations : list raw;
  sp_AdditionalVolumes : list raw;
  sp_AdditionalVolumeMounts : list raw }.

(** ** Cluster status *)

Inductive ClusterPhase :=
  | ClusterPhaseNone      (* the empty string: not set yet *)
  | ClusterPhasePending | ClusterPhaseInitializing | ClusterPhaseRunning
  | ClusterPhaseScaling | ClusterPhaseUpgrading | ClusterPhaseFailed.

Inductive RollingRestartPhase :=
  | RollingRestartExcluding | RollingRestartDraining | RollingRestartWaitingReady
  | RollingRestartIncluding | RollingRestartCompleted
  | RollingRestartOther (s : string).   (* any other string: the field is not an enum *)

#[export] Instance ClusterPhase_eq_dec : EqDecision ClusterPhase.
Proof. solve_decision. Defined.
#[export] Instance RollingRestartPhase_eq_dec : EqDecision RollingRestartPhase.
Proof. solve_decision. Defined.

Record RollingRestartState := mkRR {
  rr_CurrentOrdinal : Z;
  rr_TotalOrdinals : Z;
  rr_Phase : RollingRestartPhase;
  rr_PhaseStartedAt : Time;
  rr_OldPodIP : string;
  rr_ExcludeConfirmed : bool }.

Record MemberStatus := mkMember {
  ms_Name : string;
  ms_NodeID : Z;
  ms_PodName : string;
  ms_State : string;
  ms_Health : bool;
  ms_WALSequence : Z;
  ms_ParquetFiles : Z;
  ms_PeerCount : Z;
  ms_LastTransitionTime : Time }.

Record HyperbytedbClusterStatus := mkStatus {
  st_Phase : ClusterPhase;
  st_Replicas : Z;
  st_ReadyReplicas : Z;
  st_ClusterState : string;
  st_ReplicationState : string;
  st_Members : list MemberStatus;
  st_FailoverCount : Z;
  st_ConfigHash : string;
  st_RollingRestart : option RollingRestartState;
  st_Conditions : list Condition }.

Record HyperbytedbCluster `{Lib} := mkCluster {
  cl_Meta : ObjectMeta;
  cl_Spec : HyperbytedbClusterSpec;
  cl_Status : HyperbytedbClusterStatus }.

Arguments mkPVCSpec {_} _ _.
Arguments mkStorageSpec {_} _ _.
Arguments mkSpec {_}.
Arguments mkCluster {_} _ _ _.

Section Cluster.
Context `{Lib}.
Implicit Types c : HyperbytedbCluster.

Definition cl_Name c : string := om_Name (cl_Meta c).
Definition cl_Namespace c : string := om_Namespace (cl_Meta c).
Definition cl_annotation c (k : string) : string := map_get (om_Annotations (cl_Meta c)) k.

(** [replicas := int32(1); if Spec.Replicas != nil { replicas = *Spec.Replicas }],
    the idiom every component starts with. *)
Definition spec_replicas c : Z := default 1%Z (sp_Replicas (cl_Spec c)).

(** Field updates of the status and of the metadata. *)

Definition with_status c (s : HyperbytedbClusterStatus) : HyperbytedbCluster :=
  mkCluster (cl_Meta c) (cl_Spec c) s.
Definition with_meta c (m : ObjectMeta) : HyperbytedbCluster :=
  mkCluster m (cl_Spec c) (cl_Status c).
Definition with_spec c (s : HyperbytedbClusterSpec) : HyperbytedbCluster :=
  mkCluster (cl_Meta c) s (cl_Status c).
End Cluster.

Definition set_finalizers (m : ObjectMeta) (f : list string) : ObjectMeta :=
  mkMeta (om_Name m) (om_Namespace m) (om_Labels m) (om_Annotations m) f
    (om_DeletionTimestamp m) (om_Generation m) (om_Owner m).

Definition set_owner (m : ObjectMeta) (o : string) : ObjectMeta :=
  mkMeta (om_Name m) (om_Namespace m) (om_Labels m) (om_Annotations m) (om_Finalizers m)
    (om_DeletionTimestamp m) (om_Generation m) (Some o).

(** One setter per status field the controllers assign. *)

Section StatusSetters.
Implicit Types s : HyperbytedbClusterStatus.

Definition set_phase s p := mkStatus p (st_Replicas s) (st_ReadyReplicas s)
  (st_ClusterState s) (st_ReplicationState s) (st_Members s) (st_FailoverCount s)
  (st_ConfigHash s) (st_RollingRestart s) (st_Conditions s).
Definition set_counts s r rr h := mkStatus (st_Phase s) r rr
  (st_ClusterState s) (st_ReplicationState s) (st_Members s) (st_FailoverCount s)
  h (st_RollingRestart s) (st_Conditions s).
Definition set_members s ms state := mkStatus (st_Phase s) (st_Replicas s)
  (st_ReadyReplicas s) state (st_ReplicationState s) ms (st_FailoverCount s)
  (st_ConfigHash s) (st_RollingRestart s) (st_Conditions s).
Definition set_replication s r := mkStatus (st_Phase s) (st_Replicas s)
  (st_ReadyReplicas s) (st_ClusterState s) r (st_Members s) (st_FailoverCount s)
  (st_ConfigHash s) (st_RollingRestart s) (st_Conditions s).
Definition set_failovers s n := mkStatus (st_Phase s) (st_Replicas s)
  (st_ReadyReplicas s) (st_ClusterState s) (st_ReplicationState s) (st_Members s) n
  (st_ConfigHash s) (st_RollingRestart s) (st_Conditions s).
Definition set_rolling s r := mkStatus (st_Phase s) (st_Replicas s)
  (st_ReadyReplicas s) (st_ClusterState s) (st_ReplicationState s) (st_Members s)
  (st_FailoverCount s) (st_ConfigHash s) r (st_Conditions s).
Definition set_conditions s cs := mkStatus (st_Phase s) (st_Replicas s)
  (st_ReadyReplicas s) (st_ClusterState s) (st_ReplicationState s) (st_Members s)
  (st_FailoverCount s) (st_ConfigHash s) (st_RollingRestart s) cs.
End StatusSetters.

(** ** Backups and restores *)

Record S3BackupSpec := mkS3 {
  s3_Bucket : string; s3_Prefix : string; s3_Region : string; s3_Endpoint : string;
  s3_CredentialsSecretName : string }.

Record HyperbytedbBackupSpec := mkBackupSpec {
  bs_ClusterName : string; bs_Schedule : string; bs_DestinationS3 : S3BackupSpec;
  bs_RetentionDays : Z; bs_Databases : list string }.

Inductive BackupPhase :=
  | BackupPhaseNone | BackupPhasePending | BackupPhaseRunning | BackupPhaseCompleted
  | BackupPhaseFailed.

Record HyperbytedbBackupStatus := mkBackupStatus {
  bst_Phase : BackupPhase;
  bst_StartTime : option Time;
  bst_CompletionTime : option Time;
  bst_BackupSize : string;
  bst_BackupPath : string;
  bst_LastCleanupTime : option Time;
  bst_Conditions : list Condition }.

Record HyperbytedbBackup := mkBackup {
  bk_Meta : ObjectMeta; bk_Spec : HyperbytedbBackupSpec; bk_Status : HyperbytedbBackupStatus }.

Record HyperbytedbRestoreSpec := mkRestoreSpec {
  rs_ClusterName : string; rs_BackupName : string; rs_SourceS3 : option S3BackupSpec;
  rs_RestoreTimestamp : option Time }.

Inductive RestorePhase :=
  | RestorePhaseNone | RestorePhasePending | RestorePhaseScaleDown | RestorePhaseRestoring
  | RestorePhaseCompleted | RestorePhaseFailed.

#[export] Instance BackupPhase_eq_dec : EqDecision BackupPhase.
Proof. solve_decision. Defined.
#[export] Instance RestorePhase_eq_dec : EqDecision RestorePhase.
Proof. solve_decision. Defined.

Record HyperbytedbRestoreStatus := mkRestoreStatus {
  rst_Phase : RestorePhase;
  rst_StartTime : option Time;
  rst_CompletionTime : option Time;
  rst_RestoredPVCs : Z;
  rst_Conditions : list Condition }.

Record HyperbytedbRestore := mkRestore {
  re_Meta : ObjectMeta; re_Spec : HyperbytedbRestoreSpec; re_Status : HyperbytedbRestoreStatus }.
