(* ===== verification/Sha256.v ===== *)
(** SHA-256, as [crypto/sha256.Sum256] computes it on a byte string (FIPS 180-4):
    the configuration hash of configmap.go is its first eight bytes in
    hexadecimal.  The function is executable; [sha256_abc] and
    [sha256_empty] are the test vectors of the standard. *)

From S2P Require Import Prelude GoStrings.
#[local] Open Scope Z_scope.

Definition w32 (z : Z) : Z := Z.land z 4294967295.
Definition add32 (a b : Z) : Z := w32 (a + b).
Definition rotr (n x : Z) : Z := w32 (Z.lor (Z.shiftr x n) (Z.shiftl x (32 - n))).
Definition not32 (x : Z) : Z := Z.lxor x 4294967295.

Definition Ch (x y z : Z) : Z := Z.lxor (Z.land x y) (Z.land (not32 x) z).
Definition Maj (x y z : Z) : Z := Z.lxor (Z.lxor (Z.land x y) (Z.land x z)) (Z.land y z).
Definition Sigma0 (x : Z) : Z := Z.lxor (Z.lxor (rotr 2 x) (rotr 13 x)) (rotr 22 x).
Definition Sigma1 (x : Z) : Z := Z.lxor (Z.lxor (rotr 6 x) (rotr 11 x)) (rotr 25 x).
Definition sigma0 (x : Z) : Z := Z.lxor (Z.lxor (rotr 7 x) (rotr 18 x)) (Z.shiftr x 3).
Definition sigma1 (x : Z) : Z := Z.lxor (Z.lxor (rotr 17 x) (rotr 19 x)) (Z.shiftr x 10).

Definition round_constants : list Z :=
  [
   1116352408; 1899447441; 3049323471; 3921009573; 961987163; 1508970993; 2453635748; 2870763221;
   3624381080; 310598401; 607225278; 1426881987; 1925078388; 2162078206; 2614888103; 3248222580;
   3835390401; 4022224774; 264347078; 604807628; 770255983; 1249150122; 1555081692; 1996064986;
   2554220882; 2821834349; 2952996808; 3210313671; 3336571891; 3584528711; 113926993; 338241895;
   666307205; 773529912; 1294757372; 1396182291; 1695183700; 1986661051; 2177026350; 2456956037;
   2730485921; 2820302411; 3259730800; 3345764771; 3516065817; 3600352804; 4094571909; 275423344;
   430227734; 506948616; 659060556; 883997877; 958139571; 1322822218; 1537002063; 1747873779;
   1955562222; 2024104815; 2227730452; 2361852424; 2428436474; 2756734187; 3204031479; 3329325298].

Definition initial_state : list Z :=
  [
   1779033703; 3144134277; 1013904242; 2773480762; 1359893119; 2600822924; 528734635; 1541459225].

(** Bytes as numbers, most significant byte of a word first. *)
Definition string_bytes (s : string) : list Z :=
  (λ a, Z.of_nat (nat_of_ascii a)) <$> String.list_ascii_of_string s.

Fixpoint be_bytes (n : nat) (z : Z) : list Z :=
  match n with
  | O => []
  | S n' => (Z.shiftr z (8 * Z.of_nat n')) mod 256 :: be_bytes n' z
  end.

Definition pad (m : list Z) : list Z :=
  let len := Z.of_nat (length m) in
  m ++ [128] ++ replicate (Z.to_nat ((55 - len) mod 64)) 0 ++ be_bytes 8 (8 * len).

Fixpoint words (fuel : nat) (m : list Z) : list Z :=
  match fuel, m with
  | S n, a :: b :: c :: d :: m' =>
      (Z.shiftl a 24 + Z.shiftl b 16 + Z.shiftl c 8 + d) :: words n m'
  | _, _ => []
  end.

(** The message schedule, kept in reverse so that the last 16 words are at its
    head: [W_t = sigma1 W_(t-2) + W_(t-7) + sigma0 W_(t-15) + W_(t-16)]. *)
Fixpoint extend (n : nat) (w : list Z) : list Z :=
  match n with
  | O => w
  | S n' =>
      extend n'
        (add32 (add32 (sigma1 (nth 1 w 0)) (nth 6 w 0))
               (add32 (sigma0 (nth 14 w 0)) (nth 15 w 0)) :: w)
  end.

Definition schedule (block : list Z) : list Z := reverse (extend 48 (reverse block)).

Definition round (st : list Z) (kw : Z * Z) : list Z :=
  match st with
  | [a; b; c; d; e; f; g; h] =>
      let t1 := add32 (add32 (add32 h (Sigma1 e)) (add32 (Ch e f g) kw.1)) kw.2 in
      let t2 := add32 (Sigma0 a) (Maj a b c) in
      [add32 t1 t2; a; b; c; add32 d t1; e; f; g]
  | _ => st
  end.

Definition compress (st : list Z) (block : list Z) : list Z :=
  zip_with add32 st (foldl round st (zip round_constants (schedule block))).

Fixpoint blocks (fuel : nat) (ws : list Z) : list (list Z) :=
  match fuel with
  | O => []
  | S n => match ws with [] => [] | _ => take 16 ws :: blocks n (drop 16 ws) end
  end.

Definition sha256 (s : string) : list Z :=
  let m := pad (string_bytes s) in
  let ws := words (length m) m in
  concat (be_bytes 4 <$> foldl compress initial_state (blocks (length ws) ws)).

Lemma sha256_empty :
  hex (sha256 "") = "e3b0c44298fc1c149afbf4c8996fb92427ae41e4649b934ca495991b7852b855"%string.
Proof. vm_compute. reflexivity. Qed.

Lemma sha256_abc :
  hex (sha256 "abc") = "ba7816bf8f01cfea414140de5dae2223b00361a396177a9cb410ff61f20015ad"%string.
Proof. vm_compute. reflexivity. Qed.

(** The digest has 32 bytes. *)

Lemma round_length st kw : length st = 8%nat → length (round st kw) = 8%nat.
Proof. intros. by do 9 (destruct st; simplify_eq/=). Qed.

Lemma compress_length st block : length st = 8%nat → length (compress st block) = 8%nat.
Proof.
  intros Hst. unfold compress. rewrite length_zip_with.
  assert (∀ l s, length s = 8%nat → length (foldl round s l) = 8%nat) as Hf.
  { induction l; intros s Hs; simpl; auto using round_length. }
  rewrite Hf by done. lia.
Qed.

Lemma sha256_length s : length (sha256 s) = 32%nat.
Proof.
  unfold sha256. generalize (blocks (length (words (length (pad (string_bytes s)))
    (pad (string_bytes s)))) (words (length (pad (string_bytes s))) (pad (string_bytes s)))).
  intros bs. assert (length (foldl compress initial_state bs) = 8%nat) as Hl.
  { assert (length initial_state = 8%nat) as Hi by done. revert Hi. generalize initial_state.
    induction bs; intros st Hst; simpl; auto using compress_length. }
  revert Hl. generalize (foldl compress initial_state bs). intros l Hl.
  by do 9 (destruct l; simplify_eq/=).
Qed.
