(* ===== verification/Image.v ===== *)
(** Names, labels and container images (internal/hyperbytedb/labels.go,
    image.go and the name helpers of service.go, statefulset.go, configmap.go,
    proxy.go, auth.go, tls.go). *)

From S2P Require Import Prelude GoStrings Lib ApiTypes.
#[local] Open Scope string_scope.

Section Names.
Context `{Lib}.
Implicit Types c : HyperbytedbCluster.

Definition CommonLabels c : gmap string string :=
  {[ "app.kubernetes.io/name" := "hyperbytedb";
     "app.kubernetes.io/instance" := cl_Name c;
     "app.kubernetes.io/managed-by" := "hyperbytedb-operator" ]}.

Definition StatefulSetName c : string := cl_Name c.
Definition HeadlessServiceName c : string := cl_Name c +:+ "-headless".
Definition ClientServiceName c : string := cl_Name c.
Definition ConfigMapName c : string := cl_Name c +:+ "-config".
Definition ProxyDeploymentName c : string := cl_Name c +:+ "-proxy".
Definition ProxyServiceName c : string := cl_Name c +:+ "-proxy".

Definition AuthSecretName c : string :=
  let n := auth_CredentialsSecretName (sp_Auth (cl_Spec c)) in
  if String.eqb n "" then cl_Name c +:+ "-auth" else n.

Definition TLSSecretName c : string :=
  match srv_TLS (sp_Server (cl_Spec c)) with
  | Some tls =>
      if String.eqb (tls_SecretName tls) "" then cl_Name c +:+ "-tls" else tls_SecretName tls
  | None => cl_Name c +:+ "-tls"
  end.

(** [cluster.Spec.Server.TLS != nil && cluster.Spec.Server.TLS.Enabled] *)
Definition tls_enabled c : bool :=
  match srv_TLS (sp_Server (cl_Spec c)) with Some tls => tls_Enabled tls | None => false end.

(** [fmt.Sprintf("%s-%d", stsName, i)] *)
Definition pod_name c (i : Z) : string := StatefulSetName c +:+ "-" +:+ Itoa i.

(** [fmt.Sprintf("%s-%d.%s.%s.svc.cluster.local", ...)] *)
Definition pod_host c (i : Z) : string :=
  pod_name c i +:+ "." +:+ HeadlessServiceName c +:+ "." +:+ cl_Namespace c
    +:+ ".svc.cluster.local".

Definition ServerPort c : Z :=
  let p := srv_Port (sp_Server (cl_Spec c)) in
  if bool_decide (0 < p)%Z then p else 8086.

Definition ControlPort c : Z := int32 (ServerPort c + 1).
End Names.

(** ** Images *)

Definition defaultHyperbytedbRepo : string := "hyperbytedb".
Definition defaultProxyRepo : string := "ghcr.io/hyperbyte-cloud/hyperbytedb-proxy".
Definition defaultImageTag : string := "latest".

Definition NormalizeVersionTag (version : string) : string :=
  let v := TrimSpace version in
  if String.eqb v "" then defaultImageTag else TrimPrefix v "v".

Definition resolveComponentImage (imageField version defaultRepo : string) : string :=
  let tag := if String.eqb version "" then defaultImageTag else NormalizeVersionTag version in
  let img := TrimSpace imageField in
  if String.eqb img "" then defaultRepo +:+ ":" +:+ tag
  else if Contains img ":" then img
  else img +:+ ":" +:+ tag.

Definition imageTag (image : string) : string :=
  let image := TrimSpace image in
  let at_ := IndexByte image "@" in
  let image := if bool_decide (0 <= at_)%Z then slice_to image at_ else image in
  let slash := LastIndexByte image "/" in
  let colon := LastIndexByte image ":" in
  if bool_decide (colon <= slash)%Z then "" else slice_from image (colon + 1).

Section Image.
Context `{Lib}.
Implicit Types c : HyperbytedbCluster.

Definition ResolveHyperbytedbImage c : string :=
  resolveComponentImage (sp_Image (cl_Spec c)) (sp_Version (cl_Spec c)) defaultHyperbytedbRepo.

Definition ResolveProxyImage c : string :=
  let repoOverride := match sp_Proxy (cl_Spec c) with Some p => px_Image p | None => "" end in
  resolveComponentImage repoOverride (sp_Version (cl_Spec c)) defaultProxyRepo.
End Image.
