(* ===== verification/Compat.v ===== *)
(** The compatibility matrix (internal/hyperbytedb/compat.go): which
    HyperbyteDB version a cluster is rendered for and what that version has. *)

From S2P Require Import Prelude GoStrings Lib ApiTypes Image.
#[local] Open Scope string_scope.

Definition DatabaseVersionAnnotation : string := "hyperbytedb.hyperbyte.cloud/database-version".
Definition LatestDatabaseVersion : string := "0.9.3-beta".
Definition OldestDatabaseVersion : string := "0.8.0".

Inductive Capability :=
  | CapabilitySplitChdbPools
  | CapabilityAutoQueryPool
  | CapabilitySharding
  | CapabilityControlListener
  | CapabilityEvacuateTogether
  | CapabilityClusterAuth
  | CapabilityProxyAdminListener.

#[export] Instance Capability_eq_dec : EqDecision Capability.
Proof. solve_decision. Defined.

Definition capability_string (cap : Capability) : string :=
  match cap with
  | CapabilitySplitChdbPools => "split-chdb-pools"
  | CapabilityAutoQueryPool => "auto-query-pool"
  | CapabilitySharding => "sharding"
  | CapabilityControlListener => "control-listener"
  | CapabilityEvacuateTogether => "evacuate-together"
  | CapabilityClusterAuth => "cluster-auth"
  | CapabilityProxyAdminListener => "proxy-admin-listener"
  end.

Record CompatibilityEntry := mkEntry { ce_Capability : Capability; ce_Since : string }.

Definition version090Beta : string := "0.9.0-beta".

(** The matrix; the human-readable [Without] column is left out. *)
Definition CompatibilityMatrix : list CompatibilityEntry :=
  [ mkEntry CapabilitySplitChdbPools version090Beta;
    mkEntry CapabilityAutoQueryPool version090Beta;
    mkEntry CapabilitySharding version090Beta;
    mkEntry CapabilityControlListener version090Beta;
    mkEntry CapabilityEvacuateTogether version090Beta;
    mkEntry CapabilityClusterAuth "0.9.1-beta";
    mkEntry CapabilityProxyAdminListener version090Beta ].

(** [DatabaseVersion.Source] *)
Inductive VersionSource := SourceAnnotation | SourceSpecVersion | SourceImageTag | sourceAssumed.

#[export] Instance VersionSource_eq_dec : EqDecision VersionSource.
Proof. solve_decision. Defined.

Definition source_string (s : VersionSource) : string :=
  match s with
  | SourceAnnotation => "annotation"
  | SourceSpecVersion => "spec.version"
  | SourceImageTag => "image tag"
  | sourceAssumed => "assumed"
  end.

Section Compat.
Context `{Lib}.
Implicit Types c : HyperbytedbCluster.

(** [parseDatabaseVersion] yields a nil version when the string is not one;
    [dv_Version] keeps that [option], because the fall-back on
    [LatestDatabaseVersion] ignores the flag. *)
Record DatabaseVersion := mkDV {
  dv_Version : option Version; dv_Source : VersionSource; dv_Raw : string }.

Definition parseDatabaseVersion (r : string) : option Version :=
  semver_NewVersion (TrimPrefix (TrimSpace r) "v").

Definition candidates c : list (VersionSource * string) :=
  [ (SourceAnnotation, cl_annotation c DatabaseVersionAnnotation);
    (SourceSpecVersion, sp_Version (cl_Spec c));
    (SourceImageTag, imageTag (ResolveHyperbytedbImage c)) ].

Fixpoint first_version (l : list (VersionSource * string)) : option DatabaseVersion :=
  match l with
  | [] => None
  | (source, r) :: l' =>
      if String.eqb r "" then first_version l'
      else match parseDatabaseVersion r with
           | Some v => Some (mkDV (Some v) source r)
           | None => first_version l'
           end
  end.

Definition ResolveDatabaseVersion c : DatabaseVersion :=
  match first_version (candidates c) with
  | Some d => d
  | None => mkDV (parseDatabaseVersion LatestDatabaseVersion) sourceAssumed
              LatestDatabaseVersion
  end.

Definition ResolveProxyVersion c : option Version :=
  match parseDatabaseVersion (imageTag (ResolveProxyImage c)) with
  | Some v => Some v
  | None => dv_Version (ResolveDatabaseVersion c)
  end.

(** [v.Compare(since) >= 0] for the first row of the capability. A nil [v]
    would be dereferenced; [ResolveDatabaseVersion_correct] shows it is not nil. *)
Definition versionSupports (v : option Version) (cap : Capability) : bool :=
  match list_find (λ e, ce_Capability e = cap) CompatibilityMatrix with
  | Some (_, e) =>
      match parseDatabaseVersion (ce_Since e), v with
      | Some since, Some v => bool_decide (0 <= semver_Compare v since)%Z
      | _, _ => false
      end
  | None => false
  end.

Definition ProxySupports c (cap : Capability) : bool :=
  versionSupports (ResolveProxyVersion c) cap.
Definition Supports c (cap : Capability) : bool :=
  versionSupports (dv_Version (ResolveDatabaseVersion c)) cap.

Definition missing_capabilities (v : option Version) : list string :=
  capability_string <$>
    filter (λ cap, versionSupports v cap = false) (ce_Capability <$> CompatibilityMatrix).

Definition compare_with (v : option Version) (s : string) : Z :=
  match v, semver_NewVersion s with
  | Some v, Some w => semver_Compare v w
  | _, _ => 0
  end.

Definition version_string (d : DatabaseVersion) : string :=
  match dv_Version d with Some v => semver_Original v | None => "" end.

Definition CompatibilitySummary c : string * string :=
  let dv := ResolveDatabaseVersion c in
  let missing := missing_capabilities (dv_Version dv) in
  let reason :=
    if decide (dv_Source dv = sourceAssumed) then "Assumed"
    else if bool_decide (compare_with (dv_Version dv) OldestDatabaseVersion < 0)%Z
    then "OlderThanSupported"
    else if bool_decide (0 < compare_with (dv_Version dv) LatestDatabaseVersion)%Z
    then "NewerThanKnown"
    else "Supported" in
  let message := "HyperbyteDB " +:+ version_string dv +:+ " (from "
                   +:+ source_string (dv_Source dv) +:+ ")" in
  let message :=
    if decide (dv_Source dv = sourceAssumed)
    then message +:+ "; set " +:+ DatabaseVersionAnnotation
           +:+ " or a version image tag to pin it"
    else message in
  let message :=
    match missing with
    | [] => message
    | _ => message +:+ "; not rendered for this version: " +:+ Join missing ", "
    end in
  (reason, message).
End Compat.

(** The behaviour of semver on the versions the operator itself names. *)
Class KnownVersions (L : Lib) := {
  known_latest : is_Some (semver_NewVersion LatestDatabaseVersion);
  known_oldest : is_Some (semver_NewVersion OldestDatabaseVersion);
  known_since e : e ∈ CompatibilityMatrix → is_Some (semver_NewVersion (ce_Since e)) }.
