(* ===== verification/Config.v ===== *)
(** The database configuration file (internal/hyperbytedb/configmap.go) and the
    feature gates it shares with the pod template (service.go, auth.go,
    statefulset.go).

    A Go writer appends to a [strings.Builder]; its model returns the text it
    appends, so that [renderConfigTOMLWithClusterEnabled] is the concatenation of
    the sections in the code's order. *)

From S2P Require Import Prelude GoStrings Lib ApiTypes Image Compat Sha256.
#[local] Open Scope string_scope.

(** ** Pieces of text *)

Definition cat (l : list string) : string := foldr String.append "" l.

Definition kv (key value : string) : string := cat [key; " = "; value; nl].
Definition kv_int (key : string) (z : Z) : string := kv key (Itoa z).
Definition kv_bool (key : string) (b : bool) : string := kv key (fmt_bool b).
Definition kv_str (key s : string) : string := kv key (cat [dq; s; dq]).
Definition header (name : string) : string := cat [nl; "["; name; "]"; nl].

(** [if x > 0 { fmt.Fprintf(b, "key = %d\n", x) }] *)
Definition kv_pos (key : string) (x : Z) : string :=
  if bool_decide (0 < x)%Z then kv_int key x else "".
(** [v := d; if x > 0 { v = x }] *)
Definition pos_or (x d : Z) : Z := if bool_decide (0 < x)%Z then x else d.
(** [v := d; if s != "" { v = s }] *)
Definition str_or (s d : string) : string := if String.eqb s "" then d else s.

Definition defaultChdbSessionPath : string := "/var/lib/hyperbytedb/chdb".
Definition defaultWalDir : string := "/var/lib/hyperbytedb/wal".
Definition defaultMetaDir : string := "/var/lib/hyperbytedb/meta".
Definition defaultRaftDir : string := "/var/lib/hyperbytedb/raft".
Definition defaultReplLogDir : string := "/var/lib/hyperbytedb/replication_log".
Definition defaultLogLevel : string := "info".
Definition annotationTrue : string := "true".

Section Gates.
Context `{Lib}.
Implicit Types c : HyperbytedbCluster.

Definition clusterMetadataEnabled c : bool :=
  if bool_decide (1 < spec_replicas c)%Z then true
  else match sp_Sharding (cl_Spec c) with Some s => sh_Enabled s | None => false end.

Definition ControlListenerAnnotation : string := "hyperbytedb.hyperbyte.cloud/control-listener".
Definition ControlListenerEnabled c (clusterEnabled : bool) : bool :=
  clusterEnabled && String.eqb (cl_annotation c ControlListenerAnnotation) annotationTrue
    && Supports c CapabilityControlListener.

Definition ClusterAuthEnabled c : bool :=
  auth_Enabled (sp_Auth (cl_Spec c)) && Supports c CapabilityClusterAuth.

Definition EvacuateTogetherAnnotation : string := "hyperbytedb.hyperbyte.cloud/evacuate-together".
Definition EvacuateTogether c : bool :=
  String.eqb (cl_annotation c EvacuateTogetherAnnotation) annotationTrue
    && Supports c CapabilityEvacuateTogether.
End Gates.

Section Render.
Context `{Lib}.
Implicit Types (c : HyperbytedbCluster) (spec : HyperbytedbClusterSpec).

Definition writeServerSection spec : string :=
  let s := sp_Server spec in
  cat [ "[server]"; nl;
        kv_str "bind_address" "0.0.0.0";
        kv_int "port" (pos_or (srv_Port s) 8086);
        kv_pos "max_body_size_bytes" (srv_MaxBodySizeBytes s);
        kv_pos "request_timeout_secs" (srv_RequestTimeoutSecs s);
        kv_pos "query_timeout_secs" (srv_QueryTimeoutSecs s);
        kv_pos "max_concurrent_queries" (srv_MaxConcurrentQueries s);
        if match srv_TLS s with Some t => tls_Enabled t | None => false end
        then cat [ kv_bool "tls_enabled" true;
                   kv_str "tls_cert_path" "/etc/hyperbytedb/tls/tls.crt";
                   kv_str "tls_key_path" "/etc/hyperbytedb/tls/tls.key" ]
        else "" ].

Definition writeStorageSection spec : string :=
  cat [ header "storage";
        kv_str "wal_dir" defaultWalDir;
        kv_str "meta_dir" defaultMetaDir;
        kv_str "wal_format" (str_or (sto_WALFormat (sp_Storage spec)) "bincode") ].

Definition writeFlushSection spec : string :=
  let f := sp_Flush spec in
  cat [ header "flush";
        kv_int "interval_secs" (pos_or (fl_IntervalSecs f) 10);
        kv_int "max_points_per_batch" (pos_or (fl_MaxPointsPerBatch f) 50000);
        kv_pos "wal_batch_size" (fl_WALBatchSize f);
        kv_pos "wal_batch_delay_us" (fl_WALBatchDelayUs f);
        kv_bool "arrow_wal_enabled" (default true (fl_ArrowWALEnabled f)) ].

Definition writeChdbSection c : string :=
  let ch := sp_ChDB (cl_Spec c) in
  cat [ header "chdb";
        kv_str "session_data_path" (str_or (ch_SessionDataPath ch) defaultChdbSessionPath);
        if negb (Supports c CapabilitySplitChdbPools)
        then
          let pool := ch_PoolSize ch in
          let pool := if bool_decide (pool <= 0)%Z then ch_QueryPoolSize ch else pool in
          let pool := if bool_decide (pool <= 0)%Z then 1%Z else pool in
          kv_int "pool_size" pool
        else
          cat [ kv_pos "query_pool_size" (ch_QueryPoolSize ch);
                kv_pos "write_pool_size" (ch_WritePoolSize ch);
                if bool_decide (ch_QueryPoolSize ch <= 0)%Z
                   && bool_decide (ch_WritePoolSize ch <= 0)%Z
                then if bool_decide (0 < ch_PoolSize ch)%Z
                     then kv_int "pool_size" (ch_PoolSize ch)
                     else if Supports c CapabilityAutoQueryPool
                     then kv_int "write_pool_size" 1
                     else kv_int "pool_size" 1
                else "" ] ].

Definition writeAuthSection spec : string :=
  cat [ header "auth"; kv_bool "enabled" (auth_Enabled (sp_Auth spec)) ].

Definition writeCardinalitySection spec : string :=
  let k := sp_Cardinality spec in
  cat [ header "cardinality";
        kv_int "max_tag_values_per_measurement"
          (pos_or (car_MaxTagValuesPerMeasurement k) 100000);
        kv_int "max_measurements_per_database"
          (pos_or (car_MaxMeasurementsPerDatabase k) 10000) ].

Definition writeLoggingSection spec : string :=
  cat [ header "logging";
        kv_str "level" (str_or (log_Level (sp_Logging spec)) defaultLogLevel);
        kv_str "format" (str_or (log_Format (sp_Logging spec)) "text") ].

Definition writeStatementSummarySection spec : string :=
  let s := sp_StatementSummary spec in
  cat [ header "statement_summary";
        kv_bool "enabled" (default true (ss_Enabled s));
        kv_int "max_entries" (pos_or (ss_MaxEntries s) 1000) ].

Definition writeHintedHandoffSection spec : string :=
  let h := sp_HintedHandoff spec in
  cat [ header "hinted_handoff";
        kv_bool "enabled" (default true (hh_Enabled h));
        kv_int "max_hints_per_peer" (pos_or (hh_MaxHintsPerPeer h) 100000);
        kv_int "max_hint_age_secs" (pos_or (hh_MaxHintAgeSecs h) 3600) ].

Definition writeRateLimitSection spec : string :=
  let r := sp_RateLimit spec in
  if bool_decide (rl_Enabled r = None) && bool_decide (rl_MaxRequestsPerSecond r = 0%Z)
  then ""
  else cat [ header "rate_limit";
             match rl_Enabled r with Some b => kv_bool "enabled" b | None => "" end;
             kv_pos "max_requests_per_second" (rl_MaxRequestsPerSecond r) ].

Definition writeRetentionSection spec : string :=
  let r := sp_Retention spec in
  cat [ header "retention";
        kv_bool "enabled" (default true (ret_Enabled r));
        kv_str "interval" (str_or (ret_Interval r) "12h") ].

Definition writeMinAcks (v : IntOrString) : string :=
  match v with
  | IntVal z => kv_int "min_acks" z
  | StrVal s => kv_str "min_acks" s
  end.

Definition writeReplicationSubsections (repl : option ReplicationSpec) : string :=
  match repl with
  | None => ""
  | Some r =>
      cat [ header "cluster.replication";
            kv_str "mode" (str_or (repl_Mode r) "async");
            kv_pos "ack_timeout_ms" (repl_AckTimeoutMs r);
            match repl_SyncQuorum r ≫= sq_MinAcks with
            | Some v => cat [ header "cluster.replication.sync_quorum"; writeMinAcks v ]
            | None => ""
            end ]
  end.

Definition writeClusterSection c (clusterEnabled : bool) : string :=
  let t := sp_Cluster (cl_Spec c) in
  cat [ header "cluster";
        kv_bool "enabled" clusterEnabled;
        kv_str "peers" "";
        kv_str "replication_log_dir" defaultReplLogDir;
        kv_str "raft_dir" defaultRaftDir;
        if ControlListenerEnabled c clusterEnabled
        then kv_int "control_port" (ControlPort c) else "";
        kv_int "heartbeat_interval_secs" (pos_or (ct_HeartbeatIntervalSecs t) 2);
        kv_int "heartbeat_miss_threshold" (pos_or (ct_HeartbeatMissThreshold t) 5);
        kv_int "replication_max_retries" (pos_or (ct_ReplicationMaxRetries t) 5);
        kv_int "replication_queue_depth" (pos_or (ct_ReplicationQueueDepth t) 8192);
        kv_int "replication_max_inflight_batches"
          (pos_or (ct_ReplicationMaxInflightBatches t) 8);
        kv_int "replication_max_coalesce_body_bytes"
          (pos_or (ct_ReplicationMaxCoalesceBodyBytes t) (8 * 1024 * 1024));
        kv_int "replicate_receiver_queue_depth"
          (pos_or (ct_ReplicateReceiverQueueDepth t) 1024);
        kv_int "replication_truncate_stale_peer_multiplier"
          (pos_or (ct_ReplicationTruncateStalePeerMultiplier t) 2);
        kv_pos "raft_heartbeat_interval_ms" (ct_RaftHeartbeatIntervalMs t);
        kv_pos "raft_election_timeout_ms" (ct_RaftElectionTimeoutMs t);
        kv_pos "raft_snapshot_threshold" (ct_RaftSnapshotThreshold t);
        writeReplicationSubsections (ct_Replication t) ].

Definition writeShardingSection c : string :=
  match sp_Sharding (cl_Spec c) with
  | None => ""
  | Some s =>
      if negb (Supports c CapabilitySharding) then ""
      else
        cat [ header "sharding";
              kv_bool "enabled" (sh_Enabled s);
              kv_pos "replication_factor" (sh_ReplicationFactor s);
              kv_pos "region_split_series" (sh_RegionSplitSeries s);
              kv_pos "region_max_series" (sh_RegionMaxSeries s);
              kv_pos "region_merge_series" (sh_RegionMergeSeries s);
              kv_pos "split_merge_interval_secs" (sh_SplitMergeIntervalSecs s);
              kv_pos "schedule_limit" (sh_ScheduleLimit s);
              kv_pos "heartbeat_interval_secs" (sh_HeartbeatIntervalSecs s);
              kv_pos "bootstrap_timeout_ms" (sh_BootstrapTimeoutMs s);
              kv_pos "primary_failover_after_secs" (sh_PrimaryFailoverAfterSecs s);
              match sh_AddPeerProposalsEnabled s with
              | Some b => kv_bool "add_peer_proposals_enabled" b | None => "" end;
              match sh_RemovePeerProposalsEnabled s with
              | Some b => kv_bool "remove_peer_proposals_enabled" b | None => "" end;
              kv_pos "scatter_peer_timeout_ms" (sh_ScatterPeerTimeoutMs s);
              kv_pos "scatter_max_peer_attempts" (sh_ScatterMaxPeerAttempts s);
              match sh_LoadSplitQpsThreshold s with
              | Some z => kv_int "load_split_qps_threshold" z | None => "" end;
              kv_pos "max_regions_per_measurement" (sh_MaxRegionsPerMeasurement s) ]
  end.

Definition renderConfigTOMLWithClusterEnabled c (clusterEnabled : bool) : string :=
  let spec := cl_Spec c in
  cat [ writeServerSection spec;
        writeStorageSection spec;
        writeFlushSection spec;
        writeChdbSection c;
        writeAuthSection spec;
        writeCardinalitySection spec;
        writeLoggingSection spec;
        writeStatementSummarySection spec;
        writeHintedHandoffSection spec;
        writeRateLimitSection spec;
        writeRetentionSection spec;
        writeClusterSection c clusterEnabled;
        writeShardingSection c ].

Definition renderConfigTOML c : string :=
  renderConfigTOMLWithClusterEnabled c (clusterMetadataEnabled c).
End Render.

(** ** The configuration hash *)

Section Hash.
Context `{Lib}.
Implicit Types c : HyperbytedbCluster.

(** [fmt.Sprintf("%x", h[:8])] of the file rendered with clustering off. *)
Definition ConfigHash c : string :=
  hex (take 8 (sha256 (renderConfigTOMLWithClusterEnabled c false))).

Lemma ConfigHash_nonempty c : ConfigHash c ≠ "".
Proof.
  unfold ConfigHash. pose proof (sha256_length (renderConfigTOMLWithClusterEnabled c false)) as Hl.
  destruct (sha256 _) as [|b [|b' l]]; simplify_eq/=. intros He. discriminate.
Qed.
End Hash.
