(* ===== verification/Toml.v ===== *)
(** A reader for the part of TOML the configuration file uses, and the relation
    between what a writer of [Config.v] prints and what the reader gets back.

    [read_lines] goes over the lines of a file: blank, [[section]], or [key = value]
    with a in_quotes or a bare value.  [prints cur text cur' es ks]: read in section
    [cur], [text] yields the entries [es] and leaves the reader in [cur'], and the
    keys of [es] are some of [ks], in that order.  [tabled cur text cur' tbl] says the
    same of a table, which gives each key the value it should have, if any. *)

From S2P Require Import Prelude GoStrings Lib ApiTypes Image Compat Config.
#[local] Open Scope string_scope.
#[local] Arguments Ascii.eqb : simpl never.

(** ** The reader *)

Definition lf : ascii := ascii_of_nat 10.
Definition quote : ascii := ascii_of_nat 34.
Definition backslash : ascii := ascii_of_nat 92.

Fixpoint all_chars (p : ascii → bool) (s : string) : bool :=
  match s with "" => true | String a s' => p a && all_chars p s' end.

(** A string that can be written between quotes as it is. *)
Definition plain (s : string) : bool :=
  all_chars (λ a, negb (Ascii.eqb a lf || Ascii.eqb a quote || Ascii.eqb a backslash)) s.
Definition one_line (s : string) : bool := all_chars (λ a, negb (Ascii.eqb a lf)) s.

Fixpoint split_lines (s : string) : list string :=
  match s with
  | "" => [""]
  | String a s' =>
      if Ascii.eqb a lf then "" :: split_lines s'
      else match split_lines s' with
           | [] => [String a ""]
           | l :: rest => String a l :: rest
           end
  end.

(** The text up to the last character, which has to be [c]. *)
Fixpoint before_last (c : ascii) (s : string) : option string :=
  match s with
  | "" => None
  | String a "" => if Ascii.eqb a c then Some "" else None
  | String a s' => String a <$> before_last c s'
  end.

Inductive value := Quoted (s : string) | Bare (s : string).

Definition read_value (s : string) : option value :=
  match s with
  | String a s' =>
      if Ascii.eqb a quote then
        inner ← before_last quote s';
        if plain inner then Some (Quoted inner) else None
      else Some (Bare s)
  | "" => None
  end.

(** The text before and after the first [" = "]. *)
Fixpoint cut_assign (s : string) : option (string * string) :=
  match strip_prefix " = " s with
  | Some v => Some ("", v)
  | None =>
      match s with
      | "" => None
      | String a s' => '(k, v) ← cut_assign s'; Some (String a k, v)
      end
  end.

Abbreviation key := (string * string)%type.
Abbreviation setting := (key * value)%type.

Fixpoint read_lines (section : string) (ls : list string) : option (list setting) :=
  match ls with
  | [] => Some []
  | "" :: rest => read_lines section rest
  | String a l :: rest =>
      if Ascii.eqb a "[" then
        name ← before_last "]" l;
        read_lines name rest
      else
        '(k, text) ← cut_assign (String a l);
        v ← read_value text;
        es ← read_lines section rest;
        Some (((section, k), v) :: es)
  end.

Definition read_toml (text : string) : option (list setting) := read_lines "" (split_lines text).

(** What a file says about a key. *)
Definition lookup_setting (es : list setting) (section k : string) : option value :=
  snd <$> (snd <$> list_find (λ e, e.1 = (section, k)) es).

(** ** Lines *)

Lemma split_lines_app l t : one_line l = true →
  split_lines (l +:+ nl +:+ t) = l :: split_lines t.
Proof.
  unfold one_line. induction l as [|a l IH]; intros Hl; [done|]. simpl in Hl. bools.
  rewrite string_app_cons. cbn [split_lines]. rewrite IH by done.
  by match goal with Ha : Ascii.eqb a lf = false |- _ => rewrite Ha end.
Qed.

Lemma all_chars_app p s t : all_chars p (s +:+ t) = all_chars p s && all_chars p t.
Proof. induction s as [|a s IH]; [done|]. rewrite string_app_cons. simpl. by rewrite IH, andb_assoc. Qed.

Lemma one_line_app s t : one_line (s +:+ t) = one_line s && one_line t.
Proof. apply all_chars_app. Qed.

Lemma all_chars_mono (p q : ascii → bool) s :
  (∀ a, p a = true → q a = true) → all_chars p s = true → all_chars q s = true.
Proof. intros Hpq. induction s as [|a s IH]; simpl; [done|]. intros [??]%andb_true_iff. by rewrite Hpq, IH. Qed.

Lemma plain_one_line s : plain s = true → one_line s = true.
Proof. apply all_chars_mono. intros a. by destruct (Ascii.eqb a lf). Qed.

Lemma before_last_app c s : before_last c (s +:+ String c "") = Some s.
Proof.
  induction s as [|a s IH]; [simpl; by rewrite Ascii.eqb_refl|].
  rewrite string_app_cons. cbn [before_last]. rewrite IH. by destruct s.
Qed.

(** *** Numbers *)

Definition digit (a : ascii) : bool :=
  existsb (Ascii.eqb a) ["0"; "1"; "2"; "3"; "4"; "5"; "6"; "7"; "8"; "9"]%char.

Lemma pretty_N_go_digits x s : all_chars digit s = true → all_chars digit (pretty_N_go x s) = true.
Proof.
  revert s. induction (N.lt_wf_0 x) as [x _ IH]; intros s Hs.
  destruct (decide (x = 0)%N) as [->|Hx]; [by rewrite pretty_N_go_0|].
  rewrite pretty_N_go_step by lia. apply IH; [apply N.div_lt; lia|].
  simpl. rewrite Hs, andb_true_r. unfold pretty_N_char. by repeat case_match.
Qed.

Lemma pretty_N_digits (x : N) : all_chars digit (pretty x) = true.
Proof. unfold pretty, pretty_N. case_decide; [done|]. by apply pretty_N_go_digits. Qed.

Definition number_char (a : ascii) : bool := digit a || Ascii.eqb a "-".

Lemma Itoa_chars z : all_chars number_char (Itoa z) = true.
Proof.
  assert (∀ x, all_chars number_char (pretty (N.pos x)) = true) as Hp.
  { intros x. eapply all_chars_mono; [|apply pretty_N_digits]. intros a Ha.
    unfold number_char. by rewrite Ha. }
  unfold Itoa. destruct z as [|x|x]; [done|exact (Hp x)|]. exact (Hp x).
Qed.

Lemma pretty_N_go_nonempty x s : s ≠ "" → pretty_N_go x s ≠ "".
Proof.
  revert s. induction (N.lt_wf_0 x) as [x _ IH]; intros s Hs.
  destruct (decide (x = 0)%N) as [->|Hx]; [by rewrite pretty_N_go_0|].
  rewrite pretty_N_go_step by lia. apply IH; [apply N.div_lt; lia|done].
Qed.

Lemma Itoa_nonempty z : Itoa z ≠ "".
Proof.
  assert (∀ x, pretty (N.pos x) ≠ "") as Hp.
  { intros x. unfold pretty, pretty_N. rewrite decide_False by done.
    rewrite pretty_N_go_step by done. by apply pretty_N_go_nonempty. }
  unfold Itoa. destruct z as [|x|x]; [done|exact (Hp x)|done].
Qed.

Lemma number_char_spec a : number_char a = true →
  Ascii.eqb a lf = false ∧ Ascii.eqb a quote = false.
Proof.
  unfold number_char, digit. simpl. rewrite !orb_true_iff, !Ascii.eqb_eq.
  intros Ha. destruct_or?; subst; done.
Qed.

Lemma Itoa_one_line z : one_line (Itoa z) = true.
Proof.
  eapply all_chars_mono; [|apply Itoa_chars]. intros a [-> _]%number_char_spec. done.
Qed.
Lemma read_Itoa z : read_value (Itoa z) = Some (Bare (Itoa z)).
Proof.
  pose proof (Itoa_chars z) as Hc. pose proof (Itoa_nonempty z).
  destruct (Itoa z) as [|a s]; [done|]. simpl in *. bools.
  match goal with Ha : number_char a = true |- _ => by apply number_char_spec in Ha as [_ ->] end.
Qed.
Lemma read_quoted s : plain s = true → read_value (dq +:+ s +:+ dq) = Some (Quoted s).
Proof.
  intros Hs. unfold dq. rewrite string_app_cons, string_app_nil. unfold read_value.
  change (Ascii.eqb (ascii_of_nat 34) quote) with true. cbv iota.
  change (String (ascii_of_nat 34) "") with (String quote "").
  rewrite before_last_app. simpl. by rewrite Hs.
Qed.

(** *** Assignments *)

(** A key the writers use: letters and underscores. *)
Definition good_key (k : string) : bool :=
  negb (String.eqb k "") &&
  all_chars (λ a, negb (Ascii.eqb a lf || Ascii.eqb a " " || Ascii.eqb a "[")) k.

Lemma cut_assign_app k v :
  all_chars (λ a, negb (Ascii.eqb a " ")) k = true →
  cut_assign (k +:+ " = " +:+ v) = Some (k, v).
Proof.
  induction k as [|a k IH]; intros Hk; [done|]. simpl in Hk. bools.
  rewrite string_app_cons. cbn [cut_assign strip_prefix].
  rewrite Ascii.eqb_sym. match goal with Ha : Ascii.eqb a " " = false |- _ => rewrite Ha end.
  by rewrite IH.
Qed.

Lemma good_key_spec k : good_key k = true →
  all_chars (λ a, negb (Ascii.eqb a " ")) k = true ∧ one_line k = true ∧
  ∃ a k', k = String a k' ∧ Ascii.eqb a "[" = false.
Proof.
  unfold good_key. intros [Hne Hk]%andb_true_iff. split_and!.
  - eapply all_chars_mono; [|exact Hk]. intros b. simpl. by destruct (Ascii.eqb b " "), (Ascii.eqb b lf).
  - eapply all_chars_mono; [|exact Hk]. intros b. simpl. by destruct (Ascii.eqb b lf).
  - destruct k as [|a k]; [done|]. exists a, k. split; [done|]. simpl in Hk.
    by destruct (Ascii.eqb a "["), (Ascii.eqb a " "), (Ascii.eqb a lf).
Qed.

Lemma read_assign section k text v rest :
  good_key k = true → read_value text = Some v →
  read_lines section ((k +:+ " = " +:+ text) :: rest) =
    es ← read_lines section rest; Some (((section, k), v) :: es).
Proof.
  intros (Hk & _ & a & k' & -> & Ha)%good_key_spec Hv.
  rewrite string_app_cons. cbn [read_lines]. rewrite Ha.
  rewrite <- string_app_cons, cut_assign_app by done. simpl. by rewrite Hv.
Qed.

(** ** What the writers print *)

(** [keys] are some of [static], in that order. *)
Definition prints (cur text cur' : string) (es : list setting) (static : list key) : Prop :=
  (∀ rest, read_lines cur (split_lines (text +:+ rest)) =
     es' ← read_lines cur' (split_lines rest); Some (es ++ es')%list) ∧
  es.*1 `sublist_of` static.

Lemma prints_nil cur : prints cur "" cur [] [].
Proof.
  split; [|done]. intros rest. rewrite string_app_nil. by destruct (read_lines _ _).
Qed.

Lemma prints_nothing cur static : prints cur "" cur [] static.
Proof. split; [apply prints_nil|]. apply sublist_nil_l. Qed.

Lemma prints_app cur t1 c1 e1 s1 t2 c2 e2 s2 :
  prints cur t1 c1 e1 s1 → prints c1 t2 c2 e2 s2 → prints cur (t1 +:+ t2) c2 (e1 ++ e2) (s1 ++ s2).
Proof.
  intros [H1 Hs1] [H2 Hs2]. split; [|rewrite fmap_app; by apply sublist_app].
  intros rest. rewrite string_app_assoc, H1, H2. destruct (read_lines _ _); [|done]. simpl.
  by rewrite (assoc_L (++)).
Qed.

Lemma prints_cat_nil cur : prints cur (cat []) cur [] [].
Proof. apply prints_nil. Qed.
Lemma prints_cat cur t l c1 e1 s1 c2 e2 s2 :
  prints cur t c1 e1 s1 → prints c1 (cat l) c2 e2 s2 → prints cur (cat (t :: l)) c2 (e1 ++ e2) (s1 ++ s2).
Proof. apply prints_app. Qed.

(** A conditional prints the keys of the branch taken. *)
Lemma prints_if (b : bool) cur t1 t2 cur' e1 e2 s :
  prints cur t1 cur' e1 s → prints cur t2 cur' e2 s →
  prints cur (if b then t1 else t2) cur' (if b then e1 else e2) s.
Proof. by destruct b. Qed.
Lemma prints_weaken cur t cur' es s s' :
  prints cur t cur' es s → s `sublist_of` s' → prints cur t cur' es s'.
Proof. intros [? ?] ?. split; [done|]. by etrans. Qed.

Lemma prints_kv cur k text v :
  good_key k = true → one_line text = true → read_value text = Some v →
  prints cur (kv k text) cur [((cur, k), v)] [(cur, k)].
Proof.
  intros Hk Ht Hv. split; [|done]. intros rest. unfold kv, cat. cbn [foldr].
  assert (∀ a b d : string, (a +:+ " = " +:+ b +:+ nl +:+ "") +:+ d = (a +:+ " = " +:+ b) +:+ nl +:+ d)
    as He by (intros; by rewrite string_app_nil_r, !string_app_assoc).
  rewrite He, split_lines_app.
  - by rewrite (read_assign _ _ _ v).
  - apply good_key_spec in Hk as (_ & Hk & _).
    by rewrite !one_line_app, Hk, Ht.
Qed.
Lemma prints_int cur k z : good_key k = true →
  prints cur (kv_int k z) cur [((cur, k), Bare (Itoa z))] [(cur, k)].
Proof. intros Hk. apply prints_kv; [done|apply Itoa_one_line|apply read_Itoa]. Qed.
Lemma prints_bool cur k b : good_key k = true →
  prints cur (kv_bool k b) cur [((cur, k), Bare (fmt_bool b))] [(cur, k)].
Proof. intros Hk. apply prints_kv; [done|by destruct b..]. Qed.
Lemma prints_str cur k s : good_key k = true → plain s = true →
  prints cur (kv_str k s) cur [((cur, k), Quoted s)] [(cur, k)].
Proof.
  intros Hk Hs. unfold kv_str, cat. simpl. rewrite string_app_nil_r.
  apply prints_kv; [done| |by apply read_quoted].
  by rewrite !one_line_app, (plain_one_line s Hs).
Qed.
Lemma prints_pos cur k z : good_key k = true →
  prints cur (kv_pos k z) cur
    (if bool_decide (0 < z)%Z then [((cur, k), Bare (Itoa z))] else []) [(cur, k)].
Proof.
  intros Hk. apply prints_if; [by apply prints_int|apply prints_nothing].
Qed.

(** [header name]: a blank line and the section. *)
Lemma prints_section cur name : one_line name = true →
  prints cur ("[" +:+ name +:+ "]" +:+ nl) name [] [].
Proof.
  intros Hn. split; [|done]. intros rest.
  assert (("[" +:+ name +:+ "]" +:+ nl) +:+ rest = ("[" +:+ name +:+ "]") +:+ nl +:+ rest) as ->
    by by rewrite !string_app_assoc.
  rewrite split_lines_app by (by rewrite !one_line_app, Hn).
  cbn [read_lines]. rewrite string_app_cons, string_app_nil. cbn [read_lines].
  change (Ascii.eqb "[" "[") with true. cbv iota.
  change ("]" : string) with (String "]" ""). rewrite before_last_app. simpl.
  by destruct (read_lines _ _).
Qed.
Lemma prints_header cur name : one_line name = true → prints cur (header name) name [] [].
Proof.
  intros Hn.
  assert (prints cur nl cur [] []) as Hnl.
  { split; [|done]. intros rest. unfold nl. rewrite string_app_cons, string_app_nil. simpl.
    by destruct (read_lines _ _). }
  unfold header, cat. cbn [foldr]. rewrite string_app_nil_r.
  exact (prints_app _ _ _ _ _ _ _ _ _ Hnl (prints_section cur name Hn)).
Qed.

(** Reading the whole of a file. *)
Lemma prints_file text cur' es static :
  prints "" text cur' es static → NoDup static → read_toml text = Some es ∧ NoDup es.*1.
Proof.
  intros [Hr Hs] Hd. split; [|by eapply sublist_NoDup].
  unfold read_toml. specialize (Hr ""). rewrite string_app_nil_r in Hr. rewrite Hr. simpl.
  by rewrite app_nil_r.
Qed.

Lemma lookup_setting_elem es section k v :
  NoDup es.*1 → ((section, k), v) ∈ es → lookup_setting es section k = Some v.
Proof.
  intros Hd Hin. unfold lookup_setting.
  apply list_elem_of_lookup in Hin as [i Hi].
  assert (list_find (λ e, e.1 = (section, k)) es = Some (i, ((section, k), v))) as ->; [|done].
  apply list_find_Some. split; [done|]. split; [done|]. intros j e Hj Hlt He.
  assert (j = i); [|lia]. eapply (NoDup_lookup es.*1); [done|..]; rewrite list_lookup_fmap.
  - by rewrite Hj.
  - rewrite Hi. simpl. by rewrite He.
Qed.

(** ** Tables *)

(** A key with the value a file should have for it, if any. *)
Abbreviation row := (key * option value)%type.

(** The settings of a table: the rows with a value. *)
Definition settings (tbl : list row) : list setting := omap (λ r, pair r.1 <$> r.2) tbl.
(** What a table says about a key. *)
Definition intended (tbl : list row) (section k : string) : option value :=
  list_find (λ r, r.1 = (section, k)) tbl ≫= λ r, r.2.2.

Definition number (z : Z) : option value := Some (Bare (Itoa z)).
Definition flag (b : bool) : option value := Some (Bare (fmt_bool b)).
Definition in_quotes (s : string) : option value := Some (Quoted s).
(** A number that is left out unless it is positive. *)
Definition positive (z : Z) : option value := if bool_decide (0 < z)%Z then number z else None.
Definition only_if (b : bool) (v : option value) : option value := if b then v else None.

Lemma settings_app t1 t2 : settings (t1 ++ t2) = (settings t1 ++ settings t2)%list.
Proof. apply omap_app. Qed.

Lemma settings_keys tbl : (settings tbl).*1 `sublist_of` tbl.*1.
Proof.
  induction tbl as [|[k [v|]] tbl IH]; simpl; [done|by apply sublist_skip|by apply sublist_cons].
Qed.

Lemma settings_elem tbl k v : (k, v) ∈ settings tbl ↔ (k, Some v) ∈ tbl.
Proof.
  unfold settings. rewrite list_elem_of_omap. split.
  - intros ([k' [v'|]] & Hin & Hv); by simplify_eq/=.
  - intros Hin. by exists (k, Some v).
Qed.

(** With the keys of the table different from each other, reading the settings gives
    what the table says. *)
Lemma lookup_settings tbl section k : NoDup tbl.*1 →
  lookup_setting (settings tbl) section k = intended tbl section k.
Proof.
  intros Hd. assert (NoDup (settings tbl).*1) as Hs by (eapply sublist_NoDup; [exact Hd|apply settings_keys]).
  destruct (lookup_setting (settings tbl) section k) as [v|] eqn:Hl.
  - unfold lookup_setting in Hl. destruct (list_find _ _) as [[i [k' v']]|] eqn:Hf; simplify_eq/=.
    apply list_find_Some in Hf as (Hi & He & _). cbn in He. subst k'.
    apply list_elem_of_lookup_2, settings_elem, list_elem_of_lookup in Hi as [j Hj].
    unfold intended.
    assert (list_find (λ r, r.1 = (section, k)) tbl = Some (j, ((section, k), Some v))) as ->; [|done].
    apply list_find_Some. split; [done|]. split; [done|]. intros l r Hr Hlt He.
    assert (l = j); [|lia]. eapply (NoDup_lookup tbl.*1); [done|..]; rewrite list_lookup_fmap.
    + by rewrite Hr.
    + rewrite Hj. simpl. by rewrite He.
  - unfold intended. destruct (list_find _ tbl) as [[j [k' [v|]]]|] eqn:Hf; simpl; [|done..].
    apply list_find_Some in Hf as (Hj & He & _). cbn in He. subst k'.
    apply list_elem_of_lookup_2, settings_elem in Hj.
    by rewrite (lookup_setting_elem _ _ _ v Hs Hj) in Hl.
Qed.

(** Read in section [cur], [text] yields the settings of [tbl]. *)
Definition tabled (cur text cur' : string) (tbl : list row) : Prop :=
  prints cur text cur' (settings tbl) tbl.*1.

Lemma tabled_nil cur : tabled cur (cat []) cur [].
Proof. apply prints_nil. Qed.
Lemma tabled_cat cur t l c1 t1 c2 t2 :
  tabled cur t c1 t1 → tabled c1 (cat l) c2 t2 → tabled cur (cat (t :: l)) c2 (t1 ++ t2).
Proof.
  intros H1 H2. unfold tabled. rewrite settings_app, fmap_app. by eapply prints_cat.
Qed.
(** Rows without a value print nothing. *)
Lemma tabled_nothing cur tbl : Forall (λ r, r.2 = None) tbl → tabled cur "" cur tbl.
Proof.
  intros Hn. unfold tabled. assert (settings tbl = []) as ->; [|apply prints_nothing].
  induction Hn as [|[k v] tbl Hv _ IH]; simpl in *; [done|]. by rewrite Hv.
Qed.
Lemma tabled_header cur name : one_line name = true → tabled cur (header name) name [].
Proof. apply prints_header. Qed.
Lemma tabled_int cur k z : good_key k = true → tabled cur (kv_int k z) cur [((cur, k), number z)].
Proof. apply prints_int. Qed.
Lemma tabled_bool cur k b : good_key k = true → tabled cur (kv_bool k b) cur [((cur, k), flag b)].
Proof. apply prints_bool. Qed.
Lemma tabled_str cur k s : good_key k = true → plain s = true →
  tabled cur (kv_str k s) cur [((cur, k), in_quotes s)].
Proof. apply prints_str. Qed.
Lemma tabled_pos cur k z : good_key k = true → tabled cur (kv_pos k z) cur [((cur, k), positive z)].
Proof.
  intros Hk. pose proof (prints_pos cur k z Hk) as Hp. unfold tabled, positive, settings.
  by destruct (bool_decide (0 < z)%Z).
Qed.
(** A setting that is left out when the option is. *)
Lemma tabled_opt {A} cur (o : option A) (f : A → string) (v : A → option value) k :
  (∀ a, tabled cur (f a) cur [((cur, k), v a)]) →
  tabled cur (match o with Some a => f a | None => "" end) cur [((cur, k), o ≫= v)].
Proof. intros Hf. destruct o; [apply Hf|by apply tabled_nothing; repeat constructor]. Qed.
(** A group of settings under a condition. *)
Definition when (b : bool) (tbl : list row) : list row := (λ r, (r.1, only_if b r.2)) <$> tbl.
Lemma tabled_when cur (b : bool) t tbl :
  tabled cur t cur tbl → tabled cur (if b then t else "") cur (when b tbl).
Proof.
  intros Ht. destruct b.
  - assert (when true tbl = tbl) as ->; [|done]. unfold when. simpl. rewrite <- (list_fmap_id tbl) at 2.
    apply list_fmap_ext. by intros ? [].
  - apply tabled_nothing. unfold when. by apply Forall_fmap, Forall_true.
Qed.
Lemma tabled_rows cur t cur' es ks tbl :
  prints cur t cur' es ks → es = settings tbl → ks `sublist_of` tbl.*1 → tabled cur t cur' tbl.
Proof. intros Hp -> Hs. by eapply prints_weaken. Qed.
Lemma tabled_is cur t cur' tbl tbl' : tabled cur t cur' tbl → tbl = tbl' → tabled cur t cur' tbl'.
Proof. by intros ? <-. Qed.

(** A file with the settings of a table. *)
Lemma tabled_file t cur' tbl : tabled "" t cur' tbl → NoDup tbl.*1 →
  ∃ es, read_toml t = Some es ∧ NoDup es.*1 ∧
    ∀ section k, lookup_setting es section k = intended tbl section k.
Proof.
  intros Ht Hd. destruct (prints_file _ _ _ _ Ht Hd) as [Hr Hs].
  exists (settings tbl). split; [done|]. split; [done|]. intros. by apply lookup_settings.
Qed.
