(* ===== verification/K8s.v ===== *)
(** The Kubernetes objects the operator reads and writes, with the fields it
    uses.  They are data: nothing here says how the API server treats them. *)

From S2P Require Import Prelude Lib ApiTypes.

(** ** Pods and pod templates *)

Record Pod := mkPod {
  pod_Meta : ObjectMeta;
  pod_IP : string;
  pod_Conditions : list (string * ConditionStatus);
  (** container name, and whether [State.Running] is set *)
  pod_ContainerStatuses : list (string * bool) }.

Definition pod_Name (p : Pod) : string := om_Name (pod_Meta p).

(** [appsv1.StatefulSetRevisionLabel] *)
Definition StatefulSetRevisionLabel : string := "controller-revision-hash".

Inductive EnvVar :=
  | EnvValue (name value : string)
  | EnvSecret (name secret key : string)
  | EnvField (name path : string).

Inductive VolumeMount :=
  | Mount (name path : string) (readOnly : bool)
  | UserMount (m : raw).

Inductive VolumeSource :=
  | VolConfigMap (name : string)
  | VolEmptyDir
  | VolSecret (name : string)
  | VolPVC (claim : string) (readOnly : bool).

Inductive Volume :=
  | NamedVolume (name : string) (src : VolumeSource)
  | UserVolume (v : raw).

Record ContainerPort := mkContainerPort { cp_Name : string; cp_Port : Z }.

(** An HTTP GET probe; an unset [Scheme] (defaulted to HTTP by the API server)
    is the empty string and an unset threshold is 0. *)
Record Probe := mkProbe {
  pr_Path : string; pr_Port : string; pr_Scheme : string;
  pr_InitialDelaySeconds : Z; pr_PeriodSeconds : Z; pr_TimeoutSeconds : Z;
  pr_FailureThreshold : Z }.

Record Container := mkContainer {
  co_Name : string;
  co_Image : string;
  co_ImagePullPolicy : string;
  co_Command : list string;
  co_Env : list EnvVar;
  co_Ports : list ContainerPort;
  co_VolumeMounts : list VolumeMount;
  co_StartupProbe : option Probe;
  co_LivenessProbe : option Probe;
  co_ReadinessProbe : option Probe;
  co_Resources : raw;
  co_PreStop : option (list string) }.

Inductive Affinity :=
  | UserAffinity (a : raw)
  (** preferred pod anti-affinity over [kubernetes.io/hostname], weight 100 *)
  | SpreadOverHosts (labels : gmap string string).

Record PodSpec := mkPodSpec {
  ps_TerminationGracePeriodSeconds : option Z;
  ps_RestartPolicy : string;
  ps_ImagePullSecrets : list string;
  ps_InitContainers : list Container;
  ps_Containers : list Container;
  ps_Volumes : list Volume;
  ps_Tolerations : list raw;
  ps_Affinity : option Affinity;
  ps_TopologySpreadConstraints : list raw }.

Record PodTemplate := mkPodTemplate {
  pt_Labels : gmap string string;
  pt_Annotations : gmap string string;
  pt_Spec : PodSpec }.

(** ** Workloads *)

Inductive PodManagementPolicy := OrderedReadyPodManagement | ParallelPodManagement.
#[export] Instance PodManagementPolicy_eq_dec : EqDecision PodManagementPolicy.
Proof. solve_decision. Defined.

Record PVCTemplate `{Lib} := mkPVCTemplate {
  vct_Name : string; vct_Storage : Quantity; vct_StorageClassName : option string }.
Arguments mkPVCTemplate {_} _ _ _.

Record StatefulSetStatus := mkStsStatus {
  sss_Replicas : Z;
  sss_ReadyReplicas : Z;
  sss_UpdatedReplicas : Z;
  sss_CurrentRevision : string;
  sss_UpdateRevision : string }.

(** [UpdateStrategy] is always of type RollingUpdate; [ss_RollingUpdate] is its
    [RollingUpdate] pointer, and inside it the [Partition] pointer. *)
Record StatefulSet `{Lib} := mkSts {
  sts_Meta : ObjectMeta;
  sts_Replicas : option Z;
  sts_ServiceName : string;
  sts_Selector : gmap string string;
  sts_PodManagementPolicy : PodManagementPolicy;
  sts_RollingUpdate : option (option Z);
  sts_Template : PodTemplate;
  sts_VolumeClaimTemplates : list PVCTemplate;
  sts_Status : StatefulSetStatus }.
Arguments mkSts {_}.

Definition zero_sts_status : StatefulSetStatus := mkStsStatus 0 0 0 "" "".

Record Deployment := mkDeployment {
  dep_Meta : ObjectMeta;
  dep_Replicas : option Z;
  dep_Selector : gmap string string;
  dep_MaxUnavailable : Z;
  dep_MaxSurge : Z;
  dep_Template : PodTemplate }.

Record JobSpec := mkJobSpec { js_BackoffLimit : Z; js_PodSpec : PodSpec }.
Record Job := mkJob {
  job_Meta : ObjectMeta; job_Spec : JobSpec; job_Succeeded : Z; job_Failed : Z }.
Record CronJob := mkCronJob {
  cj_Meta : ObjectMeta; cj_Schedule : string; cj_JobSpec : JobSpec;
  cj_SuccessfulJobsHistoryLimit : Z; cj_FailedJobsHistoryLimit : Z }.

(** ** Everything else *)

Record ServicePort := mkServicePort {
  svp_Name : string; svp_Port : Z; svp_TargetPort : string; svp_NodePort : Z }.
Record Service := mkService {
  svc_Meta : ObjectMeta;
  svc_Type : string;
  svc_ClusterIP : string;
  svc_Selector : gmap string string;
  svc_PublishNotReadyAddresses : bool;
  svc_Ports : list ServicePort }.

Record ConfigMap := mkConfigMap { cm_Meta : ObjectMeta; cm_Data : gmap string string }.
Record Secret := mkSecret {
  sec_Meta : ObjectMeta; sec_Type : string; sec_Data : gmap string string }.
Record PodDisruptionBudget := mkPDB {
  pdb_Meta : ObjectMeta; pdb_MinAvailable : Z; pdb_Selector : gmap string string }.
Record HorizontalPodAutoscaler := mkHPA {
  hpa_Meta : ObjectMeta; hpa_TargetKind : string; hpa_TargetName : string;
  hpa_MinReplicas : option Z; hpa_MaxReplicas : Z; hpa_TargetCPU : Z }.
Record ServiceMonitor := mkServiceMonitor {
  sm_Meta : ObjectMeta; smo_Selector : gmap string string; smo_Port : string;
  smo_Path : string; smo_Interval : string; smo_Namespaces : list string }.
Record PersistentVolumeClaim := mkPVC { pvc_Meta : ObjectMeta }.

(** [metav1.ObjectMeta{Name, Namespace, Labels}] of an object being built *)
Definition new_meta (name ns : string) (labels : gmap string string) : ObjectMeta :=
  mkMeta name ns labels ∅ [] None 0 None.

(** ** Field updates *)

Section StsUpdates.
Context `{Lib}.
Definition sts_with_replicas (s : StatefulSet) (r : option Z) : StatefulSet :=
  mkSts (sts_Meta s) r (sts_ServiceName s) (sts_Selector s) (sts_PodManagementPolicy s)
    (sts_RollingUpdate s) (sts_Template s) (sts_VolumeClaimTemplates s) (sts_Status s).
Definition sts_with_rolling (s : StatefulSet) (r : option (option Z)) : StatefulSet :=
  mkSts (sts_Meta s) (sts_Replicas s) (sts_ServiceName s) (sts_Selector s)
    (sts_PodManagementPolicy s) r (sts_Template s) (sts_VolumeClaimTemplates s) (sts_Status s).
Definition sts_with_template (s : StatefulSet) (t : PodTemplate) : StatefulSet :=
  mkSts (sts_Meta s) (sts_Replicas s) (sts_ServiceName s) (sts_Selector s)
    (sts_PodManagementPolicy s) (sts_RollingUpdate s) t (sts_VolumeClaimTemplates s)
    (sts_Status s).
Definition sts_with_meta (s : StatefulSet) (m : ObjectMeta) : StatefulSet :=
  mkSts m (sts_Replicas s) (sts_ServiceName s) (sts_Selector s)
    (sts_PodManagementPolicy s) (sts_RollingUpdate s) (sts_Template s)
    (sts_VolumeClaimTemplates s) (sts_Status s).
End StsUpdates.

(** ** The kinds, and the calls on the API server *)

Inductive Kind :=
  | KCluster | KBackup | KRestore
  | KPod | KStatefulSet | KDeployment | KService | KConfigMap | KSecret
  | KPDB | KHPA | KServiceMonitor | KPVC | KJob | KCronJob.

#[export] Instance Kind_eq_dec : EqDecision Kind.
Proof. solve_decision. Defined.

Definition obj `{Lib} (k : Kind) : Type :=
  match k with
  | KCluster => HyperbytedbCluster
  | KBackup => HyperbytedbBackup
  | KRestore => HyperbytedbRestore
  | KPod => Pod
  | KStatefulSet => StatefulSet
  | KDeployment => Deployment
  | KService => Service
  | KConfigMap => ConfigMap
  | KSecret => Secret
  | KPDB => PodDisruptionBudget
  | KHPA => HorizontalPodAutoscaler
  | KServiceMonitor => ServiceMonitor
  | KPVC => PersistentVolumeClaim
  | KJob => Job
  | KCronJob => CronJob
  end.
