(* ===== verification/StatefulSet.v ===== *)
(** The database StatefulSet (internal/hyperbytedb/statefulset.go), the Services
    (service.go), the ConfigMap (configmap.go), the auth environment (auth.go)
    and the ServiceMonitor (servicemonitor.go) the operator builds. *)

From S2P Require Import Prelude GoStrings Lib ApiTypes Image Compat Config K8s.
#[local] Open Scope string_scope.

Definition drainAckWaitSecs : Z := 90.
Definition podTerminationGraceSecs : Z := 120.
Definition containerName : string := "hyperbytedb".
Definition httpPortName : string := "http".
Definition sharedVolumeName : string := "shared".
Definition entrypointVolumeName : string := "entrypoint".
Definition AuthSecretClusterTokenKey : string := "cluster-token".
Definition AuthSecretAdminUsernameKey : string := "admin-username".
Definition AuthSecretAdminPasswordKey : string := "admin-password".
Definition ClusterTokenHeader : string := "x-hyperbytedb-cluster-token".
Definition ParallelPodsAnnotation : string := "hyperbytedb.hyperbyte.cloud/parallel-pods".
Definition ConfigHashAnnotation : string := "hyperbytedb.hyperbyte.cloud/config-hash".

Definition text (lines : list string) : string := cat ((λ l, l +:+ nl) <$> lines).
Definition quoted (s : string) : string := cat [dq; s; dq].

(** ** Scripts *)

Definition clusterPreStopScript (port : Z) (clusterAuth : bool) : string :=
  let auth := if clusterAuth
              then " -H " +:+ quoted (ClusterTokenHeader +:+ ": $HYPERBYTEDB__AUTH__CLUSTER_TOKEN")
              else "" in
  let p := Itoa port in
  text [ cat ["curl -sf"; auth; " -X POST http://localhost:"; p; "/internal/drain || true"];
         cat ["for i in $(seq 1 "; Itoa drainAckWaitSecs; "); do"];
         cat ["  if curl -sf"; auth; " http://localhost:"; p;
              "/cluster/metrics 2>/dev/null | grep -q '"; quoted "state"; ":";
              quoted "leaving"; "'; then"];
         "    exit 0"; "  fi"; "  sleep 1"; "done" ] +:+ "exit 0".

Definition entrypointScript : string :=
  text [ "#!/bin/sh"; ". /shared/env.sh";
         "exec hyperbytedb --config /etc/hyperbytedb/config.toml serve" ].

Definition containerPorts (port : Z) (controlListener : bool) (controlPort : Z)
    : list ContainerPort :=
  mkContainerPort "http" port ::
  (if controlListener then [mkContainerPort "control" controlPort] else []).

Section Build.
Context `{Lib}.
Implicit Types c : HyperbytedbCluster.

Definition initScript c : string :=
  text [ "#!/bin/sh"; "set -e";
         cat ["ORDINAL=$(echo "; quoted "$HOSTNAME"; " | rev | cut -d'-' -f1 | rev)"];
         "NODE_ID=$((ORDINAL + 1))";
         cat ["SELF_ADDR=";
              quoted (cat ["${HOSTNAME}."; HeadlessServiceName c; "."; cl_Namespace c;
                           ".svc.cluster.local:"; Itoa (ServerPort c)])];
         "{";
         "  echo " +:+ quoted "export HYPERBYTEDB__CLUSTER__NODE_ID=$NODE_ID";
         "  echo " +:+ quoted "export HYPERBYTEDB__CLUSTER__CLUSTER_ADDR=$SELF_ADDR";
         "  echo " +:+ quoted "export HYPERBYTEDB__CLUSTER__PEERS=";
         "} > /shared/env.sh" ].

Definition authEnv c : list EnvVar :=
  [ EnvSecret "HYPERBYTEDB__AUTH__CLUSTER_TOKEN" (AuthSecretName c) AuthSecretClusterTokenKey;
    EnvSecret "HYPERBYTEDB__AUTH__ADMIN_USERNAME" (AuthSecretName c) AuthSecretAdminUsernameKey;
    EnvSecret "HYPERBYTEDB__AUTH__ADMIN_PASSWORD" (AuthSecretName c)
      AuthSecretAdminPasswordKey ].

Definition podManagementPolicy c (clusterEnabled : bool) : PodManagementPolicy :=
  if clusterEnabled && negb (String.eqb (cl_annotation c ParallelPodsAnnotation) annotationTrue)
  then OrderedReadyPodManagement else ParallelPodManagement.

(** *** The parts of [BuildStatefulSet] *)

Definition sts_volumes c : list Volume :=
  [ NamedVolume "config" (VolConfigMap (ConfigMapName c));
    NamedVolume sharedVolumeName VolEmptyDir;
    NamedVolume entrypointVolumeName VolEmptyDir ]
  ++ (match srv_TLS (sp_Server (cl_Spec c)) with
      | Some tls =>
          if tls_Enabled tls
          then [NamedVolume "tls"
                  (VolSecret (if String.eqb (tls_SecretName tls) ""
                              then cl_Name c +:+ "-tls" else tls_SecretName tls))]
          else []
      | None => []
      end)
  ++ (UserVolume <$> sp_AdditionalVolumes (cl_Spec c)).

Definition plain_container (name image : string) (cmd : list string)
    (mounts : list VolumeMount) (env : list EnvVar) : Container :=
  mkContainer name image "" cmd env [] mounts None None None (Raw "") None.

Definition sts_init_containers c : list Container :=
  [ plain_container "init-node-id" "busybox:1.36" ["sh"; "-c"; initScript c]
      [Mount sharedVolumeName "/shared" false] [];
    plain_container "init-entrypoint" "busybox:1.36"
      ["sh"; "-c"; cat ["printf '%s' '"; entrypointScript;
                        "' > /entrypoint/start.sh && chmod +x /entrypoint/start.sh"]]
      [Mount entrypointVolumeName "/entrypoint" false] [] ].

Definition sts_env c : list EnvVar :=
  [ EnvValue "HYPERBYTEDB__STORAGE__WAL_DIR" defaultWalDir;
    EnvValue "HYPERBYTEDB__STORAGE__META_DIR" defaultMetaDir;
    EnvValue "HYPERBYTEDB__CHDB__SESSION_DATA_PATH"
      (str_or (ch_SessionDataPath (sp_ChDB (cl_Spec c))) defaultChdbSessionPath);
    EnvValue "HYPERBYTEDB__LOGGING__LEVEL"
      (str_or (log_Level (sp_Logging (cl_Spec c))) defaultLogLevel) ]
  ++ (if ClusterAuthEnabled c then authEnv c else []).

Definition sts_volume_mounts c : list VolumeMount :=
  [ Mount "data" "/var/lib/hyperbytedb" false;
    Mount "config" "/etc/hyperbytedb" true;
    Mount sharedVolumeName "/shared" true;
    Mount entrypointVolumeName "/entrypoint" true ]
  ++ (if tls_enabled c then [Mount "tls" "/etc/hyperbytedb/tls" true] else [])
  ++ (UserMount <$> sp_AdditionalVolumeMounts (cl_Spec c)).

Definition probe_scheme c : string := if tls_enabled c then "HTTPS" else "HTTP".

Definition liveness_probe c (clusterEnabled : bool) : Probe :=
  let control := ControlListenerEnabled c clusterEnabled in
  mkProbe "/ping" (if control then "control" else httpPortName)
    (if control then "HTTP" else probe_scheme c) 15 10 3 0.

Definition readiness_probe c : Probe := mkProbe "/health" httpPortName (probe_scheme c) 5 5 3 0.
Definition startup_probe c : Probe := mkProbe "/ping" httpPortName (probe_scheme c) 5 5 3 120.

Definition main_container c (clusterEnabled : bool) : Container :=
  mkContainer containerName (ResolveHyperbytedbImage c)
    (str_or (sp_ImagePullPolicy (cl_Spec c)) "IfNotPresent")
    ["sh"; "/entrypoint/start.sh"]
    (sts_env c)
    (containerPorts (ServerPort c) (ControlListenerEnabled c clusterEnabled) (ControlPort c))
    (sts_volume_mounts c)
    (Some (startup_probe c)) (Some (liveness_probe c clusterEnabled))
    (Some (readiness_probe c))
    (sp_Resources (cl_Spec c))
    (if clusterEnabled
     then Some ["sh"; "-c"; clusterPreStopScript (ServerPort c) (ClusterAuthEnabled c)]
     else None).

Definition data_claim c : PVCTemplate :=
  let vct := sto_VolumeClaimTemplate (sp_Storage (cl_Spec c)) in
  mkPVCTemplate "data"
    (match vct with
     | Some t => if Quantity_IsZero (pvc_Size t) then Quantity_MustParse "10Gi" else pvc_Size t
     | None => Quantity_MustParse "10Gi"
     end)
    (vct ≫= pvc_StorageClassName).

Definition pod_spec c (clusterEnabled : bool) : PodSpec :=
  mkPodSpec (Some podTerminationGraceSecs) ""
    (sp_ImagePullSecrets (cl_Spec c))
    (sts_init_containers c)
    [main_container c clusterEnabled]
    (sts_volumes c)
    (sp_Tolerations (cl_Spec c))
    (match sp_Affinity (cl_Spec c) with
     | Some a => Some (UserAffinity a)
     | None => if clusterEnabled then Some (SpreadOverHosts (CommonLabels c)) else None
     end)
    (sp_TopologySpreadConstraints (cl_Spec c)).

(** [maps.Copy(dst, src)]: [src] wins. *)
Definition maps_Copy (dst src : gmap string string) : gmap string string := src ∪ dst.

Definition pod_template c (clusterEnabled : bool) (configHash : string) : PodTemplate :=
  mkPodTemplate (maps_Copy (CommonLabels c) (sp_PodLabels (cl_Spec c)))
    (if String.eqb configHash "" then sp_PodAnnotations (cl_Spec c)
     else <[ConfigHashAnnotation := configHash]> (sp_PodAnnotations (cl_Spec c)))
    (pod_spec c clusterEnabled).

Definition BuildStatefulSet c (configHash : string) : StatefulSet :=
  let clusterEnabled := clusterMetadataEnabled c in
  mkSts (new_meta (StatefulSetName c) (cl_Namespace c) (CommonLabels c))
    (Some (spec_replicas c)) (HeadlessServiceName c) (CommonLabels c)
    (podManagementPolicy c clusterEnabled) None
    (pod_template c clusterEnabled configHash) [data_claim c] zero_sts_status.

(** *** Services, ConfigMap, ServiceMonitor *)

Definition http_service_port c : ServicePort :=
  mkServicePort httpPortName (ServerPort c) httpPortName 0.

Definition BuildHeadlessService c : Service :=
  mkService (new_meta (HeadlessServiceName c) (cl_Namespace c) (CommonLabels c))
    "" "None" (CommonLabels c) true [http_service_port c].

Definition BuildClientService c : Service :=
  mkService (new_meta (ClientServiceName c) (cl_Namespace c) (CommonLabels c))
    "ClusterIP" "" (CommonLabels c) false [http_service_port c].

Definition BuildConfigMap c : ConfigMap :=
  mkConfigMap (new_meta (ConfigMapName c) (cl_Namespace c) (CommonLabels c))
    {[ "config.toml" := renderConfigTOML c ]}.

Definition BuildServiceMonitor c : ServiceMonitor :=
  mkServiceMonitor (new_meta (cl_Name c) (cl_Namespace c) (CommonLabels c)) (CommonLabels c)
    httpPortName "/metrics" "15s" [cl_Namespace c].
End Build.
