(* ===== verification/Proxy.v ===== *)
(** The proxy in front of the StatefulSet (internal/hyperbytedb/proxy.go). *)

From S2P Require Import Prelude GoStrings Lib ApiTypes Image Compat Config K8s StatefulSet.
#[local] Open Scope string_scope.

Definition proxyAdminListenPort : Z := 8087.
Definition proxyAdminPortName : string := "admin".

Section Proxy.
Context `{Lib}.
Implicit Types c : HyperbytedbCluster.

Definition ProxyEnabled c : bool :=
  match sp_Proxy (cl_Spec c) with None => true | Some p => px_Enabled p end.

Definition ProxyServiceAddr c : string :=
  cat [ProxyServiceName c; "."; cl_Namespace c; ".svc.cluster.local"].

Definition proxyLabels c : gmap string string :=
  {[ "app.kubernetes.io/name" := "hyperbytedb-proxy";
     "app.kubernetes.io/instance" := cl_Name c;
     "app.kubernetes.io/managed-by" := "hyperbytedb-operator";
     "app.kubernetes.io/component" := "proxy" ]}.

Definition proxyPort c : Z :=
  match sp_Proxy (cl_Spec c) with
  | Some p => if bool_decide (0 < px_Port p)%Z then px_Port p else ServerPort c
  | None => ServerPort c
  end.

Definition ProxyAdminPort c : Z :=
  if negb (ProxySupports c CapabilityProxyAdminListener) then proxyPort c
  else if bool_decide (proxyPort c = proxyAdminListenPort)
  then (proxyAdminListenPort + 1)%Z else proxyAdminListenPort.

Definition BuildProxyService c : Service :=
  let spec := sp_Proxy (cl_Spec c) in
  let svcType := match spec with
                 | Some p => str_or (px_ServiceType p) "ClusterIP" | None => "ClusterIP" end in
  let nodePort := match spec with
                  | Some p => if String.eqb svcType "NodePort"
                                 && bool_decide (0 < px_NodePort p)%Z
                              then px_NodePort p else 0%Z
                  | None => 0%Z
                  end in
  mkService (new_meta (ProxyServiceName c) (cl_Namespace c) (proxyLabels c))
    svcType "" (proxyLabels c) false
    [mkServicePort "http" (proxyPort c) "http" nodePort].

(** [&v1alpha1.ProxySpec{}] *)
Definition zero_ProxySpec : ProxySpec :=
  mkProxySpec false "" "" [] None 0 "" 0 0 0 0 (Raw "") "" 0 ∅ ∅.

Definition proxy_spec c : ProxySpec := default zero_ProxySpec (sp_Proxy (cl_Spec c)).

Definition proxy_max_retries (spec : ProxySpec) : Z :=
  if bool_decide (0 <= px_MaxRetries spec)%Z && bool_decide (px_MaxRetries spec ≠ 0%Z)
  then px_MaxRetries spec else 2.

Definition proxy_grace_secs (spec : ProxySpec) : Z := pos_or (px_ShutdownGraceSecs spec) 30.

Definition proxy_request_timeout c : Z :=
  let t := srv_RequestTimeoutSecs (sp_Server (cl_Spec c)) in
  let t := if bool_decide (t <= 0)%Z then 60%Z else t in
  pos_or (px_RequestTimeoutSecs (proxy_spec c)) t.

Definition proxy_env c : list EnvVar :=
  let spec := proxy_spec c in
  [ EnvValue "HYPERBYTEDB_PROXY_LISTEN" (cat ["0.0.0.0:"; Itoa (proxyPort c)]);
    EnvValue "HYPERBYTEDB_PROXY_BACKEND_SERVICE"
      (cat [HeadlessServiceName c; "."; cl_Namespace c; ".svc.cluster.local"]);
    EnvValue "HYPERBYTEDB_PROXY_BACKEND_PORT" (Itoa (ServerPort c));
    EnvValue "HYPERBYTEDB_PROXY_HEALTH_PATH" (str_or (px_HealthPath spec) "/health");
    EnvValue "HYPERBYTEDB_PROXY_HOLD_TIMEOUT_SECS" (Itoa (pos_or (px_HoldTimeoutSecs spec) 30));
    EnvValue "HYPERBYTEDB_PROXY_MAX_RETRIES" (Itoa (proxy_max_retries spec));
    EnvValue "HYPERBYTEDB_PROXY_SHUTDOWN_GRACE_SECS" (Itoa (proxy_grace_secs spec));
    EnvValue "HYPERBYTEDB_PROXY_REQUEST_TIMEOUT_SECS" (Itoa (proxy_request_timeout c));
    EnvField "HYPERBYTEDB_PROXY_SELF_IP" "status.podIP" ]
  ++ (if String.eqb (log_Format (sp_Logging (cl_Spec c))) "json"
      then [EnvValue "LOG_FORMAT" "json"] else [])
  ++ (if ProxySupports c CapabilityProxyAdminListener
      then [EnvValue "HYPERBYTEDB_PROXY_ADMIN_LISTEN"
              (cat ["0.0.0.0:"; Itoa (ProxyAdminPort c)])]
      else []).

Definition proxy_ports c : list ContainerPort :=
  mkContainerPort httpPortName (proxyPort c) ::
  (if ProxySupports c CapabilityProxyAdminListener
   then [mkContainerPort proxyAdminPortName (ProxyAdminPort c)] else []).

Definition proxy_probe_port c : string :=
  if ProxySupports c CapabilityProxyAdminListener then proxyAdminPortName else httpPortName.

Definition proxy_container c : Container :=
  mkContainer "proxy" (ResolveProxyImage c)
    (str_or (px_ImagePullPolicy (proxy_spec c)) "IfNotPresent") []
    (proxy_env c) (proxy_ports c) [] None
    (Some (mkProbe "/healthz" (proxy_probe_port c) "" 2 10 2 0))
    (Some (mkProbe "/readyz" (proxy_probe_port c) "" 1 2 2 0))
    (px_Resources (proxy_spec c)) None.

Definition BuildProxyDeployment c : Deployment :=
  let spec := proxy_spec c in
  mkDeployment (new_meta (ProxyDeploymentName c) (cl_Namespace c) (proxyLabels c))
    (Some (default 2%Z (px_Replicas spec))) (proxyLabels c) 0 1
    (mkPodTemplate (maps_Copy (proxyLabels c) (px_PodLabels spec)) (px_PodAnnotations spec)
       (mkPodSpec (Some (int32 (proxy_grace_secs spec + 10)))
          "" (px_ImagePullSecrets spec) [] [proxy_container c] [] []
          (Some (SpreadOverHosts (proxyLabels c))) [])).
End Proxy.
