(* ===== verification/Go.v ===== *)
(** The calls the operator makes, Go errors, and the monads the reconcilers are
    written in.

    [Ev] lists every call whose answer the code does not compute: API server
    requests, HTTP requests to database nodes and proxies, the clock, the random
    source, the recorder.  [M S] threads the Go object a reconciler mutates in
    memory ([S]) through a program; [x ←? m; k] is
    [x, err := m; if err != nil { return err }; k]. *)

From S2P Require Import Prelude GoStrings Lib ApiTypes Messages K8s Prog.
#[local] Open Scope string_scope.

(** ** Errors *)

Inductive StatusReason := NotFound | Conflict | AlreadyExists | OtherReason.
#[export] Instance StatusReason_eq_dec : EqDecision StatusReason.
Proof. solve_decision. Defined.

Record GoErr := mkErr { err_Reason : StatusReason; err_Msg : string }.

Definition IsNotFound (e : GoErr) : bool := bool_decide (err_Reason e = NotFound).
Definition IsConflict (e : GoErr) : bool := bool_decide (err_Reason e = Conflict).
Definition IsAlreadyExists (e : GoErr) : bool := bool_decide (err_Reason e = AlreadyExists).

(** [fmt.Errorf("prefix: %w", err)]: the reason stays visible to [errors.As]. *)
Definition wrap_err (prefix : string) (e : GoErr) : GoErr :=
  mkErr (err_Reason e) (prefix +:+ ": " +:+ err_Msg e).
Definition errorf (msg : string) : GoErr := mkErr OtherReason msg.

(** [err == nil] *)
Definition found {A} (a : GoErr + A) : Prop := match a with inr _ => True | inl _ => False end.

(** [e = nil] or an error, of a call that returns nothing else. *)
Abbreviation error := (GoErr + unit)%type.
Abbreviation nil_err := (inr tt : error).

(** ** HTTP *)

Inductive HttpMethod := MethodGet | MethodPost.

(** The request body is kept as the value given to [json.Marshal]; [Messages.Marshal] is
    its text. *)
Record Request := mkReq {
  rq_Method : HttpMethod; rq_URL : string; rq_Body : ReqBody;
  (** the [x-hyperbytedb-cluster-token] header; [None] when it is not sent *)
  rq_Token : option string }.

(** [rsp_Body] is [None] when reading the body fails. *)
Record Response := mkRsp { rsp_Code : Z; rsp_Body : option string }.

(** ** Calls *)

Inductive EventType := EventTypeNormal | EventTypeWarning.

Inductive Ev `{Lib} :=
  | Now
  | RandRead (n : nat)
  | GenerateCert (commonName : string) (dnsNames : list string)
  | Get (k : Kind) (ns name : string)
  | Create (k : Kind) (o : obj k)
  | Update (k : Kind) (o : obj k)
  | StatusUpdate (k : Kind) (o : obj k)
  | Delete (k : Kind) (ns name : string) (orphan : bool)
  | PatchSts (base new : StatefulSet)
  | ListPods (ns : string) (labels : gmap string string)
  | Http (r : Request)
  | Event (ty : EventType) (reason message : string).

(** A write returns the object the server stored, which the client decodes back
    into the caller's variable. *)
Definition Ans `{Lib} (e : Ev) : Type :=
  match e with
  | Now => Time
  | RandRead _ => (GoErr + list Z)%type
  | GenerateCert _ _ => (GoErr + (string * string * string))%type
  | Get k _ _ => (GoErr + obj k)%type
  | Create k _ | Update k _ | StatusUpdate k _ => (GoErr + obj k)%type
  | Delete _ _ _ _ => error
  | PatchSts _ _ => error
  | ListPods _ _ => (GoErr + list Pod)%type
  | Http _ => (GoErr + Response)%type
  | Event _ _ _ => unit
  end.

(** ** The monads *)

Section Monads.
Context `{Lib}.

Definition P : Type → Type := prog Ans.
Definition M (S A : Type) : Type := S → P (S * A).

#[export] Instance P_ret : MRet P := λ _ a, Prog.Ret a.
#[export] Instance P_bind : MBind P := λ _ _ f p, Prog.bind p f.
#[export] Instance M_ret S : MRet (M S) := λ _ a s, Prog.Ret (s, a).
#[export] Instance M_bind S : MBind (M S) :=
  λ _ _ f m s, Prog.bind (m s) (λ r, f r.2 r.1).

Definition do (e : Ev) : P (Ans e) := Prog.call e.
Definition lift {S A} (p : P A) : M S A := λ s, Prog.bind p (λ a, Prog.Ret (s, a)).
Definition get {S} : M S S := λ s, Prog.Ret (s, s).
Definition put {S} (s : S) : M S unit := λ _, Prog.Ret (s, tt).
Definition modify {S} (f : S → S) : M S unit := λ s, Prog.Ret (f s, tt).
Definition panic {S A} : M S A := λ _, Prog.Crash.
Definition pure {S A} (a : A) : M S A := λ s, Prog.Ret (s, a).

(** [make([]T, 0, n)] before [p] goes on: a negative capacity is a run-time panic. *)
Definition make_slice {A} (n : Z) (p : P A) : P A :=
  if bool_decide (0 <= n)%Z then p else Prog.Crash.

(** [if err != nil { return err }] *)
Definition ebind {S A B} (m : M S (GoErr + A)) (f : A → M S (GoErr + B))
    : M S (GoErr + B) :=
  m ≫= λ r, match r with inl e => pure (inl e) | inr a => f a end.
Definition pbind {A B} (p : P (GoErr + A)) (f : A → P (GoErr + B)) : P (GoErr + B) :=
  p ≫= λ r, match r with inl e => mret (inl e) | inr a => f a end.

(** A Go [for] loop over a list whose body may not break. *)
Fixpoint for_each {S A} (l : list A) (body : A → M S unit) : M S unit :=
  match l with
  | [] => pure tt
  | a :: l' => body a ≫= λ _, for_each l' body
  end.

(** A loop that returns from the function at the first error. *)
Fixpoint for_each_err {A} (l : list A) (body : A → P error) : P error :=
  match l with
  | [] => mret nil_err
  | a :: l' => pbind (body a) (λ _, for_each_err l' body)
  end.
End Monads.

Notation "x ←? m ; k" := (ebind m (λ x, k))
  (at level 20, m at level 100, k at level 200, right associativity,
   format "x  ←?  m ;  '/' k") : stdpp_scope.
Notation "x ←! p ; k" := (pbind p (λ x, k))
  (at level 20, p at level 100, k at level 200, right associativity,
   format "x  ←!  p ;  '/' k") : stdpp_scope.

(** Unfolding of the monads, and one step of symbolic execution: a goal
    [wp p Q] is reduced until [p] is stuck on a test, which is split. *)
Ltac prog_unfold :=
  unfold ebind, pbind, lift, get, put, modify, pure, panic, do, Prog.call,
    mret, mbind, P_ret, P_bind, M_ret, M_bind.
Ltac prog_cbn := cbn [Prog.bind wp emits total fst snd app].
Ltac prog_split :=
  match goal with
  | |- wp ?p _ => let x := prog_scrut p in destruct x eqn:?
  | |- emits _ ?p => let x := prog_scrut p in destruct x eqn:?
  | |- total ?p => let x := prog_scrut p in destruct x eqn:?
  end.
Ltac prog_assoc :=
  repeat lazymatch goal with |- wp (Prog.bind (Prog.bind _ _) _) _ => apply wp_assoc end.
(** Symbolic execution up to a sub-program that does not unfold. *)
Ltac prog_go := prog_unfold; repeat first [progress prog_cbn | progress intros | prog_split].
(** Every branch of a program that only makes the allowed calls. *)
Ltac prog_emits :=
  prog_unfold;
  repeat first [ progress prog_cbn | progress intros | split; [done|] | done
               | prog_split ].

(** ** Time *)

Definition Second : Z := 1000000000.
Definition Minute : Z := (60 * Second)%Z.
Definition maxDuration : Z := (2 ^ 63 - 1)%Z.
Definition minDuration : Z := (- 2 ^ 63)%Z.

(** [t.Sub(u)] saturates at the ends of [time.Duration]. *)
Definition Sub (t u : Time) : Z := Z.max minDuration (Z.min maxDuration (t - u)).
Definition Since `{Lib} (u : Time) : P Z := (now ← do Now; mret (Sub now u)).

(** [time.Duration(n) * time.Second] *)
Definition seconds (n : Z) : Z := int64 (n * Second).

Lemma seconds_int32 n : in_int32 n → seconds n = (n * Second)%Z.
Proof. intros Hn. unfold seconds, Second. apply int64_id. unfold in_int32, in_int64 in *. lia. Qed.

(** ** Results of a reconcile *)

(** [ctrl.Result]: [RequeueAfter] in nanoseconds, 0 when not requeued. *)
Record Result := mkResult { res_RequeueAfter : Z }.
Definition no_requeue : Result := mkResult 0.
Definition requeue_after (d : Z) : Result := mkResult d.

(** ** Loops *)

Section Loops.
Context `{Lib}.

Lemma exec_mbind {A B} (p : P A) (f : A → P B) t o :
  exec (p ≫= f) t o ↔
    (∃ t1 t2 a, t = (t1 ++ t2)%list ∧ exec p t1 (Done a) ∧ exec (f a) t2 o) ∨
    (exec p t Panic ∧ o = Panic).
Proof. apply exec_bind. Qed.

(** [if err != nil { return err }] returns the error, or goes on. *)
Lemma exec_pbind {A B} (p : P (GoErr + A)) (f : A → P (GoErr + B)) t o :
  exec (pbind p f) t o ↔
    (∃ t1 t2 a, t = (t1 ++ t2)%list ∧ exec p t1 (Done (inr a)) ∧ exec (f a) t2 o) ∨
    (∃ e, exec p t (Done (inl e)) ∧ o = Done (inl e)) ∨
    (exec p t Panic ∧ o = Panic).
Proof.
  unfold pbind. rewrite exec_mbind. split.
  - intros [(t1 & t2 & [e|a] & -> & H1 & H2)|?]; [|left; eauto 10|auto].
    destruct H2 as [-> ->]. right. left. rewrite app_nil_r. eauto.
  - intros [(t1 & t2 & a & -> & H1 & H2)|[(e & H1 & ->)|?]]; [left; eauto 10| |auto].
    left. exists t, [], (inl e). rewrite app_nil_r. done.
Qed.

Lemma emits_for_each_err {A} (Q : Ev → Prop) (l : list A) (body : A → P error) :
  (∀ a, emits Q (body a)) → emits Q (for_each_err l body).
Proof.
  intros Hb. induction l as [|a l IH]; [done|]. simpl. unfold pbind.
  apply emits_bind; [done|]. by intros [e|[]].
Qed.

(** A loop without error ran every body without error. *)
Lemma for_each_err_ok {A} (l : list A) (body : A → P error) t :
  exec (for_each_err l body) t (Done nil_err) →
  ∀ a, a ∈ l → ∃ u, exec (body a) u (Done nil_err) ∧ u ⊆ t.
Proof.
  revert t. induction l as [|b l IH]; intros t He a Ha; [by apply not_elem_of_nil in Ha|].
  simpl in He. unfold pbind in He.
  apply exec_bind in He as [(t1 & t2 & [e|[]] & -> & H1 & H2)|[_ ?]]; [|..|done].
  - destruct H2 as [_ ?]. done.
  - apply elem_of_cons in Ha as [->|Ha].
    + exists t1. split; [done|]. set_solver.
    + destruct (IH t2 H2 a Ha) as (u & Hu & Hsub). exists u. split; [done|]. set_solver.
Qed.

Lemma total_for_each_err {A} (l : list A) (body : A → P error) :
  (∀ a, total (body a)) → total (for_each_err l body).
Proof.
  intros Hb. induction l as [|a l IH]; [done|]. simpl. unfold pbind.
  apply total_bind; [done|]. by intros [e|[]].
Qed.

Lemma emits_for_each {S A} (Q : Ev → Prop) (l : list A) (body : A → M S unit) s :
  (∀ a s, emits Q (body a s)) → emits Q (for_each l body s).
Proof.
  intros Hb. revert s. induction l as [|a l IH]; intros s; [done|]. simpl.
  apply emits_bind; auto.
Qed.

Lemma exec_make_slice {A} n (p : P A) t o :
  exec (make_slice n p) t o →
  ((0 <= n)%Z ∧ exec p t o) ∨ ((n < 0)%Z ∧ t = [] ∧ o = Panic).
Proof. unfold make_slice. case_bool_decide; [by left|]. intros [-> ->]. right. split; [lia|done]. Qed.

Lemma emits_make_slice {A} (Q : Ev → Prop) n (p : P A) : emits Q p → emits Q (make_slice n p).
Proof. unfold make_slice. by case_bool_decide. Qed.

Lemma total_make_slice {A} n (p : P A) : (0 <= n)%Z → total p → total (make_slice n p).
Proof. unfold make_slice. by case_bool_decide. Qed.

Lemma total_for_each {S A} (l : list A) (body : A → M S unit) s :
  (∀ a s, total (body a s)) → total (for_each l body s).
Proof.
  intros Hb. revert s. induction l as [|a l IH]; intros s; [done|]. simpl.
  apply total_bind; auto.
Qed.
End Loops.

#[export] Hint Resolve emits_for_each_err total_for_each_err emits_for_each total_for_each
  emits_make_slice total_make_slice : prog.
