(* ===== verification/Client.v ===== *)
(** The client of the database's cluster API and of the proxy's admin API
    (internal/hyperbytedb/client.go), with the token transport of auth.go.

    A Go context carries one value here, the cluster token: a context is the
    token, the empty string when none was set.  Every method is one HTTP request;
    the model keeps the URL, the body and the treatment of every status code.  A body
    that cannot be read decodes to an error. *)

From S2P Require Import Prelude GoStrings Lib ApiTypes Messages K8s Prog Go.
#[local] Open Scope string_scope.

Abbreviation Ctx := string.
Definition background : Ctx := "".
Definition WithClusterToken (_ : Ctx) (token : string) : Ctx := token.

Definition StatusOK : Z := 200.
Definition StatusCreated : Z := 201.
Definition StatusAccepted : Z := 202.
Definition StatusNoContent : Z := 204.
Definition StatusNotFound : Z := 404.
Definition StatusConflict : Z := 409.
Definition StatusServiceUnavailable : Z := 503.

(** [fmt.Sprintf("http://%s:%d%s", host, port, path)] *)
Definition url (host : string) (port : Z) (path : string) : string :=
  "http://" +:+ host +:+ ":" +:+ Itoa port +:+ path.

(** [tokenTransport.RoundTrip]: the header is set when the token is not empty. *)
Definition RoundTrip (ctx : Ctx) (m : HttpMethod) (u : string) (b : ReqBody) : Request :=
  mkReq m u b (if String.eqb ctx "" then None else Some ctx).

Definition resp_text (r : Response) : string := default "" (rsp_Body r).

(** [fmt.Errorf("what returned %d: %s", resp.StatusCode, respBody)] *)
Definition status_error (what : string) (r : Response) : GoErr :=
  errorf (what +:+ " returned " +:+ Itoa (rsp_Code r) +:+ ": " +:+ resp_text r).

Definition code_in (r : Response) (codes : list Z) : bool :=
  existsb (Z.eqb (rsp_Code r)) codes.

(** [json.NewDecoder(resp.Body).Decode(&x)] *)
Definition decode {A} (f : string → option A) (what : string) (r : Response) : GoErr + A :=
  match rsp_Body r ≫= f with
  | Some a => inr a
  | None => inl (errorf ("decoding " +:+ what))
  end.

Section Client.
Context `{Lib}.

Definition Do (ctx : Ctx) (m : HttpMethod) (u : string) (b : ReqBody)
    : P (GoErr + Response) := do (Http (RoundTrip ctx m u b)).

Definition GetClusterMetrics (ctx : Ctx) (host : string) (port : Z)
    : P (GoErr + ClusterMetrics) :=
  resp ←! Do ctx MethodGet (url host port "/cluster/metrics") NoBody;
  if negb (code_in resp [StatusOK]) then mret (inl (status_error "cluster/metrics" resp))
  else mret (decode json_metrics "cluster metrics" resp).

Definition GetClusterNodes (ctx : Ctx) (host : string) (port : Z)
    : P (GoErr + list NodeInfo) :=
  resp ←! Do ctx MethodGet (url host port "/cluster/nodes") NoBody;
  if negb (code_in resp [StatusOK]) then mret (inl (status_error "cluster/nodes" resp))
  else mret (decode json_nodes "cluster nodes" resp).

Definition DecommissionNode (ctx : Ctx) (host : string) (port : Z) : P error :=
  resp ←! Do ctx MethodPost (url host port "/internal/decommission") NoBody;
  if negb (code_in resp [StatusOK; StatusNoContent; StatusAccepted])
  then mret (inl (status_error "decommission" resp))
  else mret nil_err.

Definition DrainNode (ctx : Ctx) (host : string) (port : Z) : P error :=
  resp ←! Do ctx MethodPost (url host port "/internal/drain") NoBody;
  if negb (code_in resp [StatusOK; StatusNoContent; StatusAccepted])
  then mret (inl (status_error "drain" resp))
  else mret nil_err.

(** The body of [GetNodeHealth] after the response is read. *)
Definition health_of (resp : Response) : GoErr + HealthStatus :=
  match rsp_Body resp with
  | None => inl (errorf "reading health response")
  | Some body =>
      let '(hs, ok) := json_HealthStatus body in
      let set_status s := mkHealthStatus s (hs_Message hs) (hs_NodeID hs) (hs_State hs) in
      let hs := if ok then hs
                else if Z.eqb (rsp_Code resp) StatusOK
                then set_status "Active" else set_status "Unhealthy" in
      let hs := if Z.eqb (rsp_Code resp) StatusServiceUnavailable
                   && String.eqb (hs_Status hs) ""
                then mkHealthStatus "Unavailable" (hs_Message hs) (hs_NodeID hs) (hs_State hs)
                else hs in
      inr hs
  end.

Definition GetNodeHealth (ctx : Ctx) (host : string) (port : Z) : P (GoErr + HealthStatus) :=
  resp ←! Do ctx MethodGet (url host port "/health") NoBody;
  mret (health_of resp).

Definition CheckHealth (ctx : Ctx) (host : string) (port : Z) : P error :=
  resp ←! Do ctx MethodGet (url host port "/health") NoBody;
  if negb (code_in resp [StatusOK])
  then mret (inl (errorf ("health check returned " +:+ Itoa (rsp_Code resp))))
  else mret nil_err.

Definition TotalParquetFiles (m : SyncManifest) : Z :=
  foldl (λ total db,
    foldl (λ total meas, int64 (total + Z.of_nat (length (mm_ParquetFiles meas)))%Z)
      total (dm_Measurements db))
    0%Z (sm_Databases m).

Definition GetSyncManifest (ctx : Ctx) (host : string) (port : Z)
    : P (GoErr + SyncManifest) :=
  resp ←! Do ctx MethodGet (url host port "/internal/sync/manifest") NoBody;
  if negb (code_in resp [StatusOK]) then mret (inl (status_error "sync/manifest" resp))
  else mret (decode json_SyncManifest "sync manifest" resp).

Definition JoinNode (ctx : Ctx) (host : string) (port nodeID : Z) (nodeAddr : string)
    : P error :=
  resp ←! Do ctx MethodPost (url host port "/internal/membership/join")
            (JoinBody nodeID nodeAddr);
  if negb (code_in resp [StatusOK; StatusCreated])
  then mret (inl (status_error "membership/join" resp))
  else mret nil_err.

Definition GetClusterLeader (ctx : Ctx) (host : string) (port : Z)
    : P (GoErr + LeaderInfo) :=
  resp ←! Do ctx MethodGet (url host port "/cluster/leader") NoBody;
  if negb (code_in resp [StatusOK]) then mret (inl (status_error "cluster/leader" resp))
  else mret (decode json_LeaderInfo "cluster leader" resp).

(** [&ErrNotLeader{LeaderID: ...}] with its [Error] text. *)
Definition ErrNotLeader (leader : option Z) : GoErr :=
  errorf match leader with
         | None => "target node is not the raft leader (leader unknown)"
         | Some id => "target node is not the raft leader (leader_id=" +:+ Itoa id +:+ ")"
         end.

Definition not_leader_error (resp : Response) : GoErr :=
  ErrNotLeader (rsp_Body resp ≫= json_error_leader_id).

Definition AddClusterNode (ctx : Ctx) (host : string) (port nodeID : Z) (nodeAddr : string)
    (promote : bool) : P (GoErr + AddNodeResponse) :=
  resp ←! Do ctx MethodPost (url host port "/cluster/membership/add-node")
            (AddNodeBody nodeID nodeAddr promote);
  if code_in resp [StatusServiceUnavailable] then mret (inl (not_leader_error resp))
  else if negb (code_in resp [StatusOK])
  then mret (inl (status_error "membership/add-node" resp))
  else mret (decode json_AddNodeResponse "add-node response" resp).

Definition RemoveClusterNode (ctx : Ctx) (host : string) (port nodeID : Z)
    : P (GoErr + RemoveNodeResponse) :=
  resp ←! Do ctx MethodPost (url host port "/cluster/membership/remove-node")
            (NodeIDBody nodeID);
  if code_in resp [StatusServiceUnavailable] then mret (inl (not_leader_error resp))
  else if negb (code_in resp [StatusOK])
  then mret (inl (status_error "membership/remove-node" resp))
  else mret (decode json_RemoveNodeResponse "remove-node response" resp).

Definition LeaveNode (ctx : Ctx) (host : string) (port departedNodeID : Z) : P error :=
  resp ←! Do ctx MethodPost (url host port "/internal/membership/leave")
            (NodeIDBody departedNodeID);
  if negb (code_in resp [StatusOK; StatusNoContent])
  then mret (inl (status_error "membership/leave" resp))
  else mret nil_err.

(** The answer of a proxy to an exclude, by status code and body. *)
Definition exclude_result (ip : string) (resp : Response) : error :=
  if code_in resp [StatusOK; StatusConflict] then nil_err
  else if code_in resp [StatusNotFound] && Contains (resp_text resp) "not found in pool"
  then nil_err
  else inl (status_error ("exclude backend " +:+ ip) resp).

Definition ExcludeProxyBackend (ctx : Ctx) (proxyHost : string) (port : Z) (ip : string)
    : P error :=
  r ← Do ctx MethodPost (url proxyHost port ("/admin/backends/" +:+ ip +:+ "/exclude")) NoBody;
  match r with
  | inl e => mret (inl (wrap_err ("exclude backend " +:+ ip) e))
  | inr resp => mret (exclude_result ip resp)
  end.

Definition IncludeProxyBackend (ctx : Ctx) (proxyHost : string) (port : Z) (ip : string)
    : P error :=
  r ← Do ctx MethodPost (url proxyHost port ("/admin/backends/" +:+ ip +:+ "/include")) NoBody;
  match r with
  | inl e => mret (inl (wrap_err ("include backend " +:+ ip) e))
  | inr resp =>
      if negb (code_in resp [StatusOK])
      then mret (inl (status_error ("include backend " +:+ ip) resp))
      else mret nil_err
  end.

Definition GetProxyPoolState (ctx : Ctx) (proxyHost : string) (port : Z)
    : P (GoErr + list ProxyBackendStatus) :=
  r ← Do ctx MethodGet (url proxyHost port "/admin/pool") NoBody;
  match r with
  | inl e => mret (inl (wrap_err "get proxy pool state" e))
  | inr resp =>
      if negb (code_in resp [StatusOK]) then mret (inl (status_error "proxy pool state" resp))
      else mret (decode json_pool "proxy pool state" resp)
  end.
End Client.
