(* ===== verification/Auth.v ===== *)
(** The auth Secret (internal/hyperbytedb/auth.go) and the TLS Secret (tls.go).

    Randomness is a call ([RandRead]); the certificates of crypto/x509 are the
    answer of one call ([GenerateCert]), the names they cover are computed here. *)

From S2P Require Import Prelude GoStrings Lib ApiTypes Image Compat Config K8s StatefulSet Prog Go.
#[local] Open Scope string_scope.

(** ** base64.RawURLEncoding *)

Definition b64_alphabet : string :=
  "ABCDEFGHIJKLMNOPQRSTUVWXYZabcdefghijklmnopqrstuvwxyz0123456789-_".

(** The 6-bit groups of a byte sequence, without padding. *)
Fixpoint sextets (bs : list Z) : list Z :=
  match bs with
  | a :: b :: c :: rest =>
      Z.shiftr a 2 :: Z.lor (Z.shiftl (Z.land a 3) 4) (Z.shiftr b 4)
        :: Z.lor (Z.shiftl (Z.land b 15) 2) (Z.shiftr c 6) :: Z.land c 63 :: sextets rest
  | [a; b] =>
      [Z.shiftr a 2; Z.lor (Z.shiftl (Z.land a 3) 4) (Z.shiftr b 4); Z.shiftl (Z.land b 15) 2]
  | [a] => [Z.shiftr a 2; Z.shiftl (Z.land a 3) 4]
  | [] => []
  end.

Definition b64_char (s : Z) : ascii :=
  match String.get (Z.to_nat s) b64_alphabet with Some a => a | None => "A"%char end.

Fixpoint string_of_chars (l : list ascii) : string :=
  match l with [] => "" | a :: l' => String a (string_of_chars l') end.

Definition EncodeToString (bs : list Z) : string := string_of_chars (b64_char <$> sextets bs).

Section Auth.
Context `{Lib}.
Implicit Types c : HyperbytedbCluster.

Definition randomSecret (bytes : nat) : P (GoErr + string) :=
  b ←! do (RandRead bytes);
  mret (inr (EncodeToString b)).

Definition set_data (s : Secret) (k v : string) : Secret :=
  mkSecret (sec_Meta s) (sec_Type s) (<[k := v]> (sec_Data s)).

(** The keys, each with the value it gets when it is missing. *)
Definition auth_keys : list (string * P (GoErr + string)) :=
  [ (AuthSecretClusterTokenKey, randomSecret 32);
    (AuthSecretAdminUsernameKey, mret (inr "admin"));
    (AuthSecretAdminPasswordKey, randomSecret 24) ].

(** The loop of [FillAuthSecret]: (changed, secret). *)
Fixpoint fill_keys (keys : list (string * P (GoErr + string))) (changed : bool) (s : Secret)
    : P (GoErr + (bool * Secret)) :=
  match keys with
  | [] => mret (inr (changed, s))
  | (k, value) :: rest =>
      if negb (String.eqb (map_get (sec_Data s) k) "") then fill_keys rest changed s
      else
        v ←! value;
        fill_keys rest true (set_data s k v)
  end.

Definition FillAuthSecret (s : Secret) : P (GoErr + (bool * Secret)) :=
  fill_keys auth_keys false s.

Definition BuildAuthSecret c : P (GoErr + Secret) :=
  r ←! FillAuthSecret
         (mkSecret (new_meta (AuthSecretName c) (cl_Namespace c) (CommonLabels c)) "Opaque" ∅);
  mret (inr r.2).

(** ** TLS *)

(** The names the server certificate covers. *)
Definition tls_dns_names c (namespace : string) (replicas : Z) : list string :=
  ([ "*." +:+ HeadlessServiceName c +:+ "." +:+ namespace +:+ ".svc.cluster.local";
     HeadlessServiceName c +:+ "." +:+ namespace +:+ ".svc.cluster.local";
     ClientServiceName c +:+ "." +:+ namespace +:+ ".svc.cluster.local" ]
   ++ ((λ i, pod_name c i +:+ "." +:+ HeadlessServiceName c +:+ "." +:+ namespace
               +:+ ".svc.cluster.local") <$> seqZ 0 replicas))%list.

Definition BuildSelfSignedTLSSecret c (namespace : string) (replicas : Z)
    : P (GoErr + Secret) :=
  make_slice (int32 (3 + replicas))
    (pem ←! do (GenerateCert (cl_Name c) (tls_dns_names c namespace replicas));
     let '(ca, crt, key) := pem in
     mret (inr (mkSecret (new_meta (TLSSecretName c) namespace (CommonLabels c)) "kubernetes.io/tls"
                  {[ "tls.crt" := crt; "tls.key" := key; "ca.crt" := ca ]}))).
End Auth.
