(* ===== verification/Controller.v ===== *)
(** What the steps of the cluster reconciler share: the monad over the cluster
    object in memory, status writes, conditions, the recorder, and pod
    predicates (internal/controller/hyperbytedbcluster_controller.go). *)

From S2P Require Import Prelude GoStrings Lib ApiTypes Image K8s Prog Go.
#[local] Open Scope string_scope.

(** [stsReconcileResult] *)
Record stsReconcileResult := mkStsResult {
  srr_SpecReplicas : Z;
  srr_ReadyReplicas : Z;
  srr_StatusReplicas : Z;
  srr_Recreating : bool }.

(** [isPodReady] *)
Definition isPodReady (p : Pod) : bool :=
  existsb (λ cond, String.eqb cond.1 "Ready" && bool_decide (cond.2 = ConditionTrue))
    (pod_Conditions p).

Section Controller.
Context `{Lib}.

(** A step of the cluster reconciler: it mutates [cluster] in memory. *)
Definition CM (A : Type) : Type := M HyperbytedbCluster A.

(** [r.Status().Update(ctx, cluster)]: on success the variable holds what the
    server returned. *)
Definition StatusUpdateCluster : CM error :=
  c ← get;
  r ← lift (do (StatusUpdate KCluster c));
  match r with
  | inl e => pure (inl e)
  | inr c' => put c' ≫= λ _, pure nil_err
  end.

Definition modify_status (f : HyperbytedbClusterStatus → HyperbytedbClusterStatus) : CM unit :=
  modify (λ c, with_status c (f (cl_Status c))).

(** Assignments through the pointer [cluster.Status.RollingRestart]. *)
Definition modify_rolling (f : RollingRestartState → RollingRestartState) : CM unit :=
  modify_status (λ s, set_rolling s (f <$> st_RollingRestart s)).

(** [meta.SetStatusCondition(&cluster.Status.Conditions, ...)]; [mk] builds the
    condition from the time of the call. *)
Definition set_cluster_condition (mk : Time → Condition) : CM unit :=
  now ← lift (do Now);
  modify_status (λ s, set_conditions s (SetStatusCondition now (st_Conditions s) (mk now))).

Definition record_event (ty : EventType) (reason message : string) : CM unit :=
  lift (do (Event ty reason message)).
End Controller.
