(* ===== verification/RollingRestart.v ===== *)
(** The operator-driven rolling restart
    (internal/controller/hyperbytedbcluster_controller.go).

    With the proxy enabled the StatefulSet's partition pins every pod to its
    revision.  The operator releases one ordinal at a time, highest first: it
    excludes the pod from the proxies, waits for the drain, lowers the partition
    to the ordinal, waits for the replacement, and includes it again.  The state
    between reconciles is [cluster.Status.RollingRestart]. *)

From S2P Require Import Prelude GoStrings Lib ApiTypes Image K8s Prog Go Client Proxy Controller.
#[local] Open Scope string_scope.

(** ** Constants *)

Definition proxyCallTimeout : Z := (2 * Minute)%Z.
Definition podRestartAllowance : Z := (10 * Minute)%Z.
Definition requeue3s : Result := requeue_after (3 * Second)%Z.

(** ** The partition *)

Section Partition.
Context `{Lib}.

(** [rolloutPartition] on the state alone. *)
Definition rollout_partition (state : option RollingRestartState) (replicas : Z) : Z :=
  match state with
  | None => replicas
  | Some st =>
      match rr_Phase st with
      | RollingRestartCompleted => 0
      | RollingRestartWaitingReady => rr_CurrentOrdinal st
      | _ => int32 (rr_CurrentOrdinal st + 1)
      end
  end.

Definition rolloutPartition (cluster : HyperbytedbCluster) (replicas : Z) : Z :=
  rollout_partition (st_RollingRestart (cl_Status cluster)) replicas.
End Partition.

(** ** Proxies *)

(** The first container status named "proxy" decides. *)
Definition proxyRunning (p : Pod) : bool :=
  if String.eqb (pod_IP p) "" || bool_decide (is_Some (om_DeletionTimestamp (pod_Meta p)))
  then false
  else match List.find (λ cs, String.eqb cs.1 "proxy") (pod_ContainerStatuses p) with
       | Some cs => cs.2
       | None => false
       end.

Section RollingRestart.
Context `{Lib}.
Implicit Types (cluster : HyperbytedbCluster) (state : RollingRestartState).

Definition proxy_selector cluster : gmap string string :=
  {[ "app.kubernetes.io/name" := "hyperbytedb-proxy";
     "app.kubernetes.io/instance" := cl_Name cluster;
     "app.kubernetes.io/managed-by" := "hyperbytedb-operator";
     "app.kubernetes.io/component" := "proxy" ]}.

Definition send_to_running (send : Pod → P error) (pod : Pod) : P error :=
  if proxyRunning pod then
    r ← send pod;
    mret match r with
         | inl e => inl (wrap_err ("proxy pod " +:+ pod_Name pod) e)
         | inr _ => nil_err
         end
  else mret nil_err.

Definition forEachRunningProxy cluster (send : Pod → P error) : P error :=
  r ← do (ListPods (cl_Namespace cluster) (proxy_selector cluster));
  match r with
  | inl e => mret (inl (wrap_err "listing proxy pods" e))
  | inr pods => for_each_err pods (send_to_running send)
  end.

Definition excludeFromAllProxies (ctx : Ctx) cluster (backendIP : string) (proxyPort : Z)
    : P error :=
  forEachRunningProxy cluster (λ pod, ExcludeProxyBackend ctx (pod_IP pod) proxyPort backendIP).

Definition includeFromAllProxies (ctx : Ctx) cluster (backendIP : string) (proxyPort : Z)
    : P error :=
  forEachRunningProxy cluster (λ pod, IncludeProxyBackend ctx (pod_IP pod) proxyPort backendIP).

(** ** Releasing an ordinal *)

Definition releaseOrdinal cluster (ordinal : Z) : P error :=
  sts ←! do (Get KStatefulSet (cl_Namespace cluster) (StatefulSetName cluster));
  match sts_RollingUpdate sts with
  | Some (Some p) =>
      if bool_decide (p <= ordinal)%Z then mret nil_err
      else do (PatchSts sts (sts_with_rolling sts (Some (Some ordinal))))
  | _ => do (PatchSts sts (sts_with_rolling sts (Some (Some ordinal))))
  end.

(** ** The state *)

Definition set_phase_now (p : RollingRestartPhase) : CM unit :=
  now ← lift (do Now);
  modify_rolling (λ st, mkRR (rr_CurrentOrdinal st) (rr_TotalOrdinals st) p now
                          (rr_OldPodIP st) (rr_ExcludeConfirmed st)).

Definition new_rolling_state (replicas : Z) (now : Time) : RollingRestartState :=
  mkRR (Z.max (int32 (replicas - 1)) 0) replicas RollingRestartExcluding now "" false.

Definition start_rolling (replicas : Z) : CM error :=
  now ← lift (do Now);
  modify_status (λ s, set_rolling s (Some (new_rolling_state replicas now))) ≫= λ _,
  StatusUpdateCluster.

(** When both writes come back without a state the second local value is used. *)
Definition ensureRollingRestartState (replicas : Z) : CM (GoErr + RollingRestartState) :=
  c ← get;
  _ ←? match st_RollingRestart (cl_Status c) with
       | None => start_rolling replicas
       | Some _ => pure nil_err
       end;
  c ← get;
  match st_RollingRestart (cl_Status c) with
  | Some st => pure (inr st)
  | None =>
      now ← lift (do Now);
      let state := new_rolling_state replicas now in
      modify_status (λ s, set_rolling s (Some state)) ≫= λ _,
      _ ←? StatusUpdateCluster;
      c ← get;
      pure (inr (default state (st_RollingRestart (cl_Status c))))
  end.

Definition tryClearCompletedRollingRestart (stsResult : stsReconcileResult)
    (curSTS : StatefulSet) : CM (GoErr + bool) :=
  c ← get;
  let status := sts_Status curSTS in
  match st_RollingRestart (cl_Status c) with
  | Some st =>
      if negb (bool_decide (rr_Phase st = RollingRestartCompleted)) then pure (inr false)
      else if negb (Z.eqb (srr_ReadyReplicas stsResult) (srr_SpecReplicas stsResult))
           || negb (Z.eqb (sss_ReadyReplicas status) (sss_Replicas status))
           || negb (Z.eqb (sss_UpdatedReplicas status) (sss_Replicas status))
      then pure (inr false)
      else
        modify_status (λ s, set_rolling s None) ≫= λ _,
        _ ←? StatusUpdateCluster;
        pure (inr true)
  | None => pure (inr false)
  end.

(** ** The phases *)

Definition rollingRestartRelease state (requeue : Result) : CM (GoErr + option Result) :=
  c ← get;
  r ← lift (releaseOrdinal c (rr_CurrentOrdinal state));
  match r with
  | inl e =>
      pure (inl (wrap_err
        ("releasing ordinal " +:+ Itoa (rr_CurrentOrdinal state) +:+ " for rolling restart") e))
  | inr _ =>
      set_phase_now RollingRestartWaitingReady ≫= λ _,
      _ ←? StatusUpdateCluster;
      pure (inr (Some requeue))
  end.

(** [updateRevision != "" && pod.Labels[StatefulSetRevisionLabel] == updateRevision] *)
Definition pod_on_revision (pod : Pod) (updateRevision : string) : bool :=
  negb (String.eqb updateRevision "")
  && String.eqb (map_get (om_Labels (pod_Meta pod)) StatefulSetRevisionLabel) updateRevision.

(** The tail of the excluding phase: enter [Draining] and write the status. *)
Definition enter_draining (requeue : Result) : CM (GoErr + option Result) :=
  set_phase_now RollingRestartDraining ≫= λ _,
  _ ←? StatusUpdateCluster;
  pure (inr (Some requeue)).

Definition rollingRestartExcluding (ctx : Ctx) state (podName updateRevision : string)
    (proxyPort : Z) (requeue : Result) : CM (GoErr + option Result) :=
  c ← get;
  r ← lift (do (Get KPod (cl_Namespace c) podName));
  match r with
  | inl e => if IsNotFound e then rollingRestartRelease state requeue else pure (inl e)
  | inr pod =>
      if pod_on_revision pod updateRevision then rollingRestartRelease state requeue
      else if String.eqb (pod_IP pod) "" then pure (inr (Some requeue))
      else
        modify_rolling (λ st, mkRR (rr_CurrentOrdinal st) (rr_TotalOrdinals st) (rr_Phase st)
                                (rr_PhaseStartedAt st) (pod_IP pod) (rr_ExcludeConfirmed st))
          ≫= λ _,
        x ← lift (excludeFromAllProxies ctx c (pod_IP pod) proxyPort);
        match x with
        | inl e =>
            elapsed ← lift (Since (rr_PhaseStartedAt state));
            if bool_decide (elapsed < proxyCallTimeout)%Z then pure (inr (Some requeue))
            else
              record_event EventTypeWarning "BackendExcludeFailed"
                ("Restarting pod " +:+ podName +:+ " without excluding it from the proxy: "
                   +:+ err_Msg e) ≫= λ _,
              enter_draining requeue
        | inr _ =>
            record_event EventTypeNormal "BackendExcluded"
              ("Excluded pod " +:+ podName +:+ " (" +:+ pod_IP pod +:+ ") from proxy routing")
              ≫= λ _,
            modify_rolling (λ st, mkRR (rr_CurrentOrdinal st) (rr_TotalOrdinals st)
                                    (rr_Phase st) (rr_PhaseStartedAt st) (rr_OldPodIP st) true)
              ≫= λ _,
            enter_draining requeue
        end
  end.

Definition drain_wait cluster : Z :=
  let w := seconds (ct_DrainWaitSecs (sp_Cluster (cl_Spec cluster))) in
  if bool_decide (w <= 0)%Z then (10 * Second)%Z else w.

Definition rollingRestartDraining state (podName : string) (requeue : Result)
    : CM (GoErr + option Result) :=
  c ← get;
  let drainWait := drain_wait c in
  elapsed ← lift (Since (rr_PhaseStartedAt state));
  if bool_decide (elapsed < drainWait)%Z
  then pure (inr (Some (requeue_after (int64 (int64 (drainWait - elapsed) + Second)))))
  else
    record_event EventTypeNormal "PodRestarted"
      ("Released pod " +:+ podName +:+ " for rolling upgrade") ≫= λ _,
    rollingRestartRelease state requeue.

(** [state.CurrentOrdinal--] and back to [Excluding]. *)
Definition next_ordinal : CM unit :=
  now ← lift (do Now);
  modify_rolling (λ st, mkRR (int32 (rr_CurrentOrdinal st - 1)) (rr_TotalOrdinals st)
                          RollingRestartExcluding now "" false).

(** The tail of the waiting phase: the ordinal is done. *)
Definition ordinal_done state (requeue : Result) : CM (GoErr + option Result) :=
  if bool_decide (rr_CurrentOrdinal state <= 0)%Z then
    set_phase_now RollingRestartCompleted ≫= λ _,
    _ ←? StatusUpdateCluster;
    pure (inr (Some requeue3s))
  else
    next_ordinal ≫= λ _,
    _ ←? StatusUpdateCluster;
    pure (inr (Some requeue)).

Definition rollingRestartWaitingReady (ctx : Ctx) state (podName updateRevision : string)
    (proxyPort : Z) (requeue : Result) : CM (GoErr + option Result) :=
  c ← get;
  r ← lift (do (Get KPod (cl_Namespace c) podName));
  match r with
  | inl e => if IsNotFound e then pure (inr (Some requeue)) else pure (inl e)
  | inr pod =>
      if negb (String.eqb updateRevision "") && negb (pod_on_revision pod updateRevision)
      then pure (inr (Some requeue))
      else if negb (isPodReady pod)
              || bool_decide (is_Some (om_DeletionTimestamp (pod_Meta pod)))
      then pure (inr (Some requeue))
      else if String.eqb (pod_IP pod) "" then pure (inr (Some requeue))
      else
        x ← lift (includeFromAllProxies ctx c (pod_IP pod) proxyPort);
        match x with
        | inl e =>
            elapsed ← lift (Since (rr_PhaseStartedAt state));
            if bool_decide (elapsed < proxyCallTimeout + podRestartAllowance)%Z
            then pure (inr (Some requeue))
            else
              record_event EventTypeWarning "BackendIncludeFailed"
                ("Moving on without including pod " +:+ podName +:+ " (" +:+ pod_IP pod
                   +:+ ") in the proxy: " +:+ err_Msg e) ≫= λ _,
              ordinal_done state requeue
        | inr _ =>
            record_event EventTypeNormal "BackendIncluded"
              ("Included pod " +:+ podName +:+ " (" +:+ pod_IP pod +:+ ") in proxy routing")
              ≫= λ _,
            ordinal_done state requeue
        end
  end.

(** ** One pass *)

(** [Status.UpdateRevision != "" && Status.UpdateRevision != Status.CurrentRevision] *)
Definition rolling_upgrade (sts : StatefulSet) : bool :=
  let s := sts_Status sts in
  negb (String.eqb (sss_UpdateRevision s) "")
  && negb (String.eqb (sss_UpdateRevision s) (sss_CurrentRevision s)).

Definition not_started (st : option RollingRestartState) : bool :=
  match st with
  | Some st => bool_decide (rr_Phase st = RollingRestartExcluding)
                 && negb (rr_ExcludeConfirmed st)
  | None => false
  end.

(** [switch state.Phase] *)
Definition rolling_phase (ctx : Ctx) cluster state (updateRevision : string)
    : CM (GoErr + option Result) :=
  let podName := StatefulSetName cluster +:+ "-" +:+ Itoa (rr_CurrentOrdinal state) in
  let port := ProxyAdminPort cluster in
  match rr_Phase state with
  | RollingRestartExcluding =>
      rollingRestartExcluding ctx state podName updateRevision port requeue3s
  | RollingRestartDraining => rollingRestartDraining state podName requeue3s
  | RollingRestartWaitingReady =>
      rollingRestartWaitingReady ctx state podName updateRevision port requeue3s
  | RollingRestartCompleted => pure (inr (Some requeue3s))
  | _ => pure (inr None)
  end.

Definition reconcileRollingRestart (ctx : Ctx) (stsResult : stsReconcileResult) (replicas : Z)
    : CM (GoErr + option Result) :=
  c ← get;
  curSTS ←? lift (do (Get KStatefulSet (cl_Namespace c) (StatefulSetName c)));
  let rollingUpgrade := rolling_upgrade curSTS in
  if negb rollingUpgrade && bool_decide (st_RollingRestart (cl_Status c) = None)
  then pure (inr None)
  else
    cleared ←? tryClearCompletedRollingRestart stsResult curSTS;
    if (cleared : bool) then pure (inr None)
    else
      c ← get;
      if negb rollingUpgrade && not_started (st_RollingRestart (cl_Status c)) then
        modify_status (λ s, set_rolling s None) ≫= λ _,
        _ ←? StatusUpdateCluster;
        pure (inr None)
      else
        c0 ← get;
        state ←? ensureRollingRestartState replicas;
        rolling_phase ctx c0 state (sss_UpdateRevision (sts_Status curSTS)).
End RollingRestart.
