(* ===== verification/Resources.v ===== *)
(** The steps of the cluster reconciler that create and update the objects a
    cluster consists of
    (internal/controller/hyperbytedbcluster_controller.go).  They read the
    cluster and do not change it, so they are programs in [P]. *)

From S2P Require Import Prelude GoStrings Lib ApiTypes Image Compat Config K8s StatefulSet Prog Go Client Proxy Auth Controller RollingRestart.
#[local] Open Scope string_scope.

(** [controllerutil.SetControllerReference(cluster, obj, scheme)] on an object
    just built, which has no owner yet: it cannot fail. *)
Definition owned (c_name : string) (m : ObjectMeta) : ObjectMeta := set_owner m c_name.

Section Resources.
Context `{Lib}.
Implicit Types c : HyperbytedbCluster.

(** [return r.Create(ctx, obj)], [r.Update], [r.Delete]: the stored object is not
    read again. *)
Definition create {k : Kind} (o : obj k) : P error :=
  r ← do (Create k o); mret (match r with inl e => inl e | inr _ => nil_err end).
Definition update {k : Kind} (o : obj k) : P error :=
  r ← do (Update k o); mret (match r with inl e => inl e | inr _ => nil_err end).
Definition delete_object (k : Kind) (m : ObjectMeta) (orphan : bool) : P error :=
  do (Delete k (om_Namespace m) (om_Name m) orphan).
Definition event (ty : EventType) (reason message : string) : P unit :=
  do (Event ty reason message).

(** The read that starts every step: the object, [None] when it does not exist, or
    the error. *)
Definition lookup_object (k : Kind) (ns name : string) : P (GoErr + option (obj k)) :=
  r ← do (Get k ns name);
  mret match r with
       | inl e => if IsNotFound e then inr None else inl e
       | inr o => inr (Some o)
       end.

(** ** Secrets *)

(** The Secret the operator generates when there is none. *)
Definition ensure_self_signed c (replicas : Z) : P error :=
  existing ←! lookup_object KSecret (cl_Namespace c) (TLSSecretName c);
  match existing with
  | Some _ => mret nil_err
  | None =>
      r ← BuildSelfSignedTLSSecret c (cl_Namespace c) replicas;
      match r with
      | inl e => mret (inl (wrap_err "generating TLS secret" e))
      | inr s =>
          event EventTypeNormal "TLSCreated" "Generated self-signed TLS certificate" ≫= λ _,
          create (k := KSecret)
            (mkSecret (owned (cl_Name c) (sec_Meta s)) (sec_Type s) (sec_Data s))
      end
  end.

Definition reconcileTLS c (replicas : Z) : P error :=
  match srv_TLS (sp_Server (cl_Spec c)) with
  | None => mret nil_err
  | Some tls =>
      if negb (tls_Enabled tls) then mret nil_err
      else if negb (String.eqb (tls_SecretName tls) "") then mret nil_err
      else if bool_decide (is_Some (tls_CertManagerIssuerRef tls)) then mret nil_err
      else ensure_self_signed c replicas
  end.

(** The token of the Secret as the API server returned it. *)
Definition token_of (s : Secret) : string := map_get (sec_Data s) AuthSecretClusterTokenKey.

Definition create_auth_secret c : P (GoErr + string) :=
  r ← BuildAuthSecret c;
  match r with
  | inl e => mret (inl (wrap_err "generating auth secret" e))
  | inr s =>
      let s := if String.eqb (auth_CredentialsSecretName (sp_Auth (cl_Spec c))) ""
               then mkSecret (owned (cl_Name c) (sec_Meta s)) (sec_Type s) (sec_Data s) else s in
      created ←! do (Create KSecret s);
      event EventTypeNormal "AuthSecretCreated"
        ("Generated cluster token and admin login in Secret " +:+ AuthSecretName c) ≫= λ _,
      mret (inr (token_of created))
  end.

Definition reconcileAuthSecret c : P (GoErr + string) :=
  existing ←! lookup_object KSecret (cl_Namespace c) (AuthSecretName c);
  match existing with
  | None => create_auth_secret c
  | Some s =>
      r ←! FillAuthSecret s;
      if (r : bool * Secret).1 then
        updated ←! do (Update KSecret r.2);
        event EventTypeNormal "AuthSecretUpdated"
          ("Added missing keys to Secret " +:+ AuthSecretName c) ≫= λ _,
        mret (inr (token_of updated))
      else mret (inr (token_of r.2))
  end.

(** ** ConfigMaps *)

Definition reconcileConfigMap c : P error :=
  let desired := BuildConfigMap c in
  existing ←! lookup_object KConfigMap (cl_Namespace c) (ConfigMapName c);
  match existing with
  | None =>
      create (k := KConfigMap) (mkConfigMap (owned (cl_Name c) (cm_Meta desired)) (cm_Data desired))
  | Some cm =>
      if bool_decide (cm_Data cm = cm_Data desired) then mret nil_err
      else update (k := KConfigMap) (mkConfigMap (cm_Meta cm) (cm_Data desired))
  end.

Definition cleanupLegacyPeersConfigMap c : P error :=
  existing ←! lookup_object KConfigMap (cl_Namespace c) (cl_Name c +:+ "-peers");
  match existing with
  | None => mret nil_err
  | Some cm => delete_object KConfigMap (cm_Meta cm) false
  end.

(** ** Services *)

Definition owned_service c (s : Service) : Service :=
  mkService (owned (cl_Name c) (svc_Meta s)) (svc_Type s) (svc_ClusterIP s) (svc_Selector s)
    (svc_PublishNotReadyAddresses s) (svc_Ports s).
(** [existing] with the ports and the selector of [desired]. *)
Definition service_with (existing desired : Service) : Service :=
  mkService (svc_Meta existing) (svc_Type existing) (svc_ClusterIP existing)
    (svc_Selector desired) (svc_PublishNotReadyAddresses existing) (svc_Ports desired).

Definition reconcileService c (desired : Service) : P error :=
  existing ←! lookup_object KService (om_Namespace (svc_Meta desired)) (om_Name (svc_Meta desired));
  match existing with
  | None => create (k := KService) (owned_service c desired)
  | Some s => update (k := KService) (service_with s desired)
  end.

(** ** The StatefulSet *)

(** [desired], with the partition when the proxy is enabled. *)
Definition desired_sts c (configHash : string) : StatefulSet :=
  let s := BuildStatefulSet c configHash in
  let s := if ProxyEnabled c
           then sts_with_rolling s (Some (Some (rolloutPartition c (default 0%Z (sts_Replicas s)))))
           else s in
  sts_with_meta s (owned (cl_Name c) (sts_Meta s)).

(** The pod template of [existing] with the mutable fields of [desired]. *)
Definition template_with (existing desired : PodTemplate) : PodTemplate :=
  let e := pt_Spec existing in
  let d := pt_Spec desired in
  mkPodTemplate (pt_Labels desired) (pt_Annotations desired)
    (mkPodSpec (ps_TerminationGracePeriodSeconds e) (ps_RestartPolicy e) (ps_ImagePullSecrets d)
       (ps_InitContainers d) (ps_Containers d) (ps_Volumes d) (ps_Tolerations d) (ps_Affinity d)
       (ps_TopologySpreadConstraints d)).

(** [existing] with the mutable fields of [desired]. *)
Definition sts_with (existing desired : StatefulSet) : StatefulSet :=
  mkSts (sts_Meta existing) (sts_Replicas desired) (sts_ServiceName existing)
    (sts_Selector existing) (sts_PodManagementPolicy existing) (sts_RollingUpdate desired)
    (template_with (sts_Template existing) (sts_Template desired))
    (sts_VolumeClaimTemplates existing) (sts_Status existing).

Definition policy_string (p : PodManagementPolicy) : string :=
  match p with OrderedReadyPodManagement => "OrderedReady" | ParallelPodManagement => "Parallel" end.

(** [*existing.Spec.Replicas] after the update dereferences what the server
    returned. *)
Definition sts_result (s : StatefulSet) : P (GoErr + stsReconcileResult) :=
  match sts_Replicas s with
  | Some r =>
      mret (inr (mkStsResult r (sss_ReadyReplicas (sts_Status s)) (sss_Replicas (sts_Status s)) false))
  | None => Prog.Crash
  end.

Definition reconcileStatefulSet c (configHash : string) : P (GoErr + stsReconcileResult) :=
  let desired := desired_sts c configHash in
  existing ←! lookup_object KStatefulSet (cl_Namespace c) (StatefulSetName c);
  match existing with
  | None =>
      event EventTypeNormal "CreatingStatefulSet" "Creating StatefulSet for cluster" ≫= λ _,
      created ←! do (Create KStatefulSet desired);
      match sts_Replicas created with
      | Some r => mret (inr (mkStsResult r 0 0 false))
      | None => Prog.Crash
      end
  | Some s =>
      if negb (bool_decide (sts_PodManagementPolicy s = sts_PodManagementPolicy desired)) then
        event EventTypeNormal "RecreatingStatefulSet"
          ("Recreating StatefulSet to change pod management from "
             +:+ policy_string (sts_PodManagementPolicy s) +:+ " to "
             +:+ policy_string (sts_PodManagementPolicy desired) +:+ "; pods keep running") ≫= λ _,
        d ← delete_object KStatefulSet (sts_Meta s) true;
        match d with
        | inl e => if IsNotFound e then mret (inr (mkStsResult 0 0 0 true)) else mret (inl e)
        | inr _ => mret (inr (mkStsResult 0 0 0 true))
        end
      else
        updated ←! do (Update KStatefulSet (sts_with s desired));
        sts_result updated
  end.

(** ** Monitoring, disruption budget, autoscaler *)

Definition reconcileServiceMonitor c : P error :=
  let desired := BuildServiceMonitor c in
  existing ←! lookup_object KServiceMonitor (cl_Namespace c) (cl_Name c);
  match existing with
  | None =>
      create (k := KServiceMonitor)
        (mkServiceMonitor (owned (cl_Name c) (sm_Meta desired)) (smo_Selector desired)
           (smo_Port desired) (smo_Path desired) (smo_Interval desired) (smo_Namespaces desired))
  | Some _ => mret nil_err
  end.

Definition pdb_name c : string := cl_Name c +:+ "-pdb".

Definition desired_pdb c : PodDisruptionBudget :=
  mkPDB (owned (cl_Name c) (new_meta (pdb_name c) (cl_Namespace c) (CommonLabels c)))
    (int32 (spec_replicas c - 1)) (CommonLabels c).

Definition reconcilePDB c : P error :=
  existing ←! lookup_object KPDB (cl_Namespace c) (pdb_name c);
  if bool_decide (spec_replicas c < 2)%Z then
    match existing with
    | None => mret nil_err
    | Some p => delete_object KPDB (pdb_Meta p) false
    end
  else
    match existing with
    | None => create (k := KPDB) (desired_pdb c)
    | Some p =>
        update (k := KPDB)
          (mkPDB (pdb_Meta p) (pdb_MinAvailable (desired_pdb c)) (pdb_Selector (desired_pdb c)))
    end.

Definition desired_hpa c (a : AutoscalingSpec) : HorizontalPodAutoscaler :=
  mkHPA (owned (cl_Name c) (new_meta (cl_Name c) (cl_Namespace c) (CommonLabels c)))
    "StatefulSet" (StatefulSetName c) (Some (as_MinReplicas a)) (as_MaxReplicas a)
    (if Z.eqb (as_TargetCPUUtilizationPercentage a) 0 then 80
     else as_TargetCPUUtilizationPercentage a).

Definition autoscaling_enabled c : option AutoscalingSpec :=
  match sp_Autoscaling (cl_Spec c) with
  | Some a => if as_Enabled a then Some a else None
  | None => None
  end.

Definition reconcileHPA c : P error :=
  existing ←! lookup_object KHPA (cl_Namespace c) (cl_Name c);
  match autoscaling_enabled c, existing with
  | None, None => mret nil_err
  | None, Some h => delete_object KHPA (hpa_Meta h) false
  | Some a, None => create (k := KHPA) (desired_hpa c a)
  | Some a, Some h =>
      let d := desired_hpa c a in
      update (k := KHPA)
        (mkHPA (hpa_Meta h) (hpa_TargetKind d) (hpa_TargetName d) (hpa_MinReplicas d)
           (hpa_MaxReplicas d) (hpa_TargetCPU d))
  end.

(** ** The proxy *)

Definition wrapping (what : string) (p : P error) : P error :=
  r ← p; mret (match r with inl e => inl (wrap_err what e) | inr _ => nil_err end).

Definition reconcile_proxy_service c : P error :=
  let desired := owned_service c (BuildProxyService c) in
  r ← lookup_object KService (cl_Namespace c) (ProxyServiceName c);
  match r with
  | inl e => mret (inl (wrap_err "get proxy service" e))
  | inr None => wrapping "create proxy service" (create (k := KService) desired)
  | inr (Some s) =>
      let s' := service_with s desired in
      if String.eqb (svc_Type s') (svc_Type desired)
      then wrapping "update proxy service" (update (k := KService) s')
      else
        _ ←! wrapping "delete proxy service for type change" (delete_object KService (svc_Meta s') false);
        wrapping "recreate proxy service" (create (k := KService) desired)
  end.

(** [desired] written over [existing]; annotations others put on the template
    stay. *)
Definition deployment_with (existing desired : Deployment) : Deployment :=
  mkDeployment (dep_Meta existing) (dep_Replicas desired) (dep_Selector desired)
    (dep_MaxUnavailable desired) (dep_MaxSurge desired)
    (mkPodTemplate (pt_Labels (dep_Template desired))
       (maps_Copy (pt_Annotations (dep_Template existing)) (pt_Annotations (dep_Template desired)))
       (pt_Spec (dep_Template desired))).

Definition reconcile_proxy_deployment c : P error :=
  let d := BuildProxyDeployment c in
  let desired := mkDeployment (owned (cl_Name c) (dep_Meta d)) (dep_Replicas d) (dep_Selector d)
                   (dep_MaxUnavailable d) (dep_MaxSurge d) (dep_Template d) in
  r ← lookup_object KDeployment (cl_Namespace c) (ProxyDeploymentName c);
  match r with
  | inl e => mret (inl (wrap_err "get proxy deployment" e))
  | inr None =>
      event EventTypeNormal "CreatingProxy" "Creating hyperbytedb-proxy Deployment" ≫= λ _,
      create (k := KDeployment) desired
  | inr (Some e) => update (k := KDeployment) (deployment_with e desired)
  end.

Definition reconcileProxy c : P error :=
  _ ←! reconcile_proxy_service c;
  reconcile_proxy_deployment c.
End Resources.
