(* ===== verification/RollingRestartProofs.v ===== *)
(** The rolling restart as an abstract state machine, and the refinement of that
    machine by [reconcileRollingRestart]. *)

From S2P Require Import Prelude GoStrings Lib ApiTypes Image K8s Prog Go Client Proxy Controller RollingRestart.

(** ** The abstract machine *)

Inductive rr_step (replicas : Z)
    : option RollingRestartState → option RollingRestartState → Prop :=
  | rr_start now :
      rr_step replicas None (Some (new_rolling_state replicas now))
  | rr_exclude o tot t0 ip0 ok0 now ip ok :
      rr_step replicas (Some (mkRR o tot RollingRestartExcluding t0 ip0 ok0))
        (Some (mkRR o tot RollingRestartDraining now ip ok))
  | rr_skip o tot t0 ip0 ok0 now :
      rr_step replicas (Some (mkRR o tot RollingRestartExcluding t0 ip0 ok0))
        (Some (mkRR o tot RollingRestartWaitingReady now ip0 ok0))
  | rr_release o tot t0 ip0 ok0 now :
      rr_step replicas (Some (mkRR o tot RollingRestartDraining t0 ip0 ok0))
        (Some (mkRR o tot RollingRestartWaitingReady now ip0 ok0))
  | rr_next o tot t0 ip0 ok0 now :
      (0 < o)%Z →
      rr_step replicas (Some (mkRR o tot RollingRestartWaitingReady t0 ip0 ok0))
        (Some (mkRR (o - 1) tot RollingRestartExcluding now "" false))
  | rr_finish o tot t0 ip0 ok0 now :
      (o <= 0)%Z →
      rr_step replicas (Some (mkRR o tot RollingRestartWaitingReady t0 ip0 ok0))
        (Some (mkRR o tot RollingRestartCompleted now ip0 ok0))
  | rr_clear o tot t0 ip0 ok0 :
      rr_step replicas (Some (mkRR o tot RollingRestartCompleted t0 ip0 ok0)) None
  | rr_abandon o tot t0 ip0 :
      rr_step replicas (Some (mkRR o tot RollingRestartExcluding t0 ip0 false)) None.

Create HintDb rolling.
#[export] Hint Constructors rr_step : rolling.

(** A list of states each a step from the one before. *)
Fixpoint chain {A} (R : A → A → Prop) (x : A) (l : list A) : Prop :=
  match l with
  | [] => True
  | y :: l' => R x y ∧ chain R y l'
  end.

Section Writes.
Context `{Lib}.

Definition rolling (c : HyperbytedbCluster) : option RollingRestartState :=
  st_RollingRestart (cl_Status c).

(** The rolling-restart state of a status write. *)
Definition status_write (e : Ev) : option (option RollingRestartState) :=
  match e with
  | StatusUpdate k o =>
      match k return obj k → option (option RollingRestartState) with
      | KCluster => λ c, Some (rolling c)
      | _ => λ _, None
      end o
  | _ => None
  end.

Definition written (t : list (entry Ans)) : list (option RollingRestartState) :=
  omap (λ x, status_write (entry_ev x)) t.

Definition same_object (c c' : HyperbytedbCluster) : Prop :=
  cl_Name c = cl_Name c' ∧ cl_Namespace c = cl_Namespace c'.

(** The API server stores the field it is sent, in the object it is sent for. *)
Definition entry_honest (x : entry Ans) : Prop :=
  match entry_ev x as e return Ans e → Prop with
  | StatusUpdate k o =>
      match k return ∀ o : obj k, GoErr + obj k → Prop with
      | KCluster => λ o r,
          match r with
          | inr c' => rolling c' = rolling o ∧ same_object c' o
          | inl _ => True
          end
      | _ => λ _ _, True
      end o
  | _ => λ _, True
  end (entry_ans x).

Definition honest (t : list (entry Ans)) : Prop := Forall entry_honest t.

(** The releases: the ordinals written to the partition. *)
Definition patch_of (e : Ev) : option (option (option Z) * option (option Z)) :=
  match e with
  | PatchSts base new => Some (sts_RollingUpdate base, sts_RollingUpdate new)
  | _ => None
  end.

Definition patches (t : list (entry Ans)) : list (option (option Z) * option (option Z)) :=
  omap (λ x, patch_of (entry_ev x)) t.

(** Calls that change neither the custom resource nor the StatefulSet. *)
Definition quiet (e : Ev) : Prop := status_write e = None ∧ patch_of e = None.

Lemma written_quiet t : Forall (λ x, quiet (entry_ev x)) t → written t = [].
Proof.
  unfold written. induction 1 as [|x t [Hw _] _ IH]; simpl; [done|]. by rewrite Hw.
Qed.

Lemma patches_quiet t : Forall (λ x, quiet (entry_ev x)) t → patches t = [].
Proof.
  unfold patches. induction 1 as [|x t [_ Hw] _ IH]; simpl; [done|]. by rewrite Hw.
Qed.

Lemma written_app t u : written (t ++ u) = written t ++ written u.
Proof. apply omap_app. Qed.

Lemma patches_app t u : patches (t ++ u) = patches t ++ patches u.
Proof. apply omap_app. Qed.

(** *** The proxy calls are quiet *)

Lemma send_quiet send pod :
  (∀ p, emits quiet (send p)) → emits quiet (send_to_running send pod).
Proof.
  intros Hs. unfold send_to_running. destruct (proxyRunning pod); [|done].
  apply emits_bind; [apply Hs|]. done.
Qed.

Lemma forEach_quiet c send :
  (∀ p, emits quiet (send p)) → emits quiet (forEachRunningProxy c send).
Proof.
  intros Hs. unfold forEachRunningProxy. prog_unfold. prog_cbn. split; [done|].
  intros [e|pods]; [done|]. apply emits_for_each_err. eauto using send_quiet.
Qed.

Lemma forEach_total c send :
  (∀ p, total (send p)) → total (forEachRunningProxy c send).
Proof.
  intros Hs. unfold forEachRunningProxy. prog_unfold. prog_cbn.
  intros [e|pods]; [done|]. apply total_for_each_err. intros pod.
  unfold send_to_running. destruct (proxyRunning pod); [|done].
  apply total_bind; [apply Hs|done].
Qed.

Lemma exclude_quiet ctx c ip port : emits quiet (excludeFromAllProxies ctx c ip port).
Proof. apply forEach_quiet. intros p. split; [done|]. by intros [e|r]. Qed.
Lemma exclude_total ctx c ip port : total (excludeFromAllProxies ctx c ip port).
Proof. apply forEach_total. by intros p [e|r]. Qed.
Lemma include_quiet ctx c ip port : emits quiet (includeFromAllProxies ctx c ip port).
Proof.
  apply forEach_quiet. intros p. split; [done|]. intros [e|r]; [done|].
  cbn. by destruct (negb _).
Qed.
Lemma include_total ctx c ip port : total (includeFromAllProxies ctx c ip port).
Proof. apply forEach_total. intros p [e|r]; [done|]. cbn. by destruct (negb _). Qed.
End Writes.

(** ** Refinement *)

(** Unfolds the small steps of the rolling restart. *)
Ltac rolling_unfold :=
  unfold enter_draining, ordinal_done, rollingRestartRelease, releaseOrdinal, set_phase_now,
    next_ordinal, start_rolling, StatusUpdateCluster, modify_rolling, modify_status,
    record_event, Since.
Ltac rolling_proxy :=
  prog_assoc;
  match goal with
  | |- wp (Prog.bind (excludeFromAllProxies _ _ _ _) _) _ =>
      eapply wp_bind_emits; [apply exclude_quiet|apply exclude_total|]
  | |- wp (Prog.bind (includeFromAllProxies _ _ _ _) _) _ =>
      eapply wp_bind_emits; [apply include_quiet|apply include_total|]
  end.
(** Runs a program symbolically up to a call of the proxies. *)
Ltac rolling_go :=
  rolling_unfold; prog_go;
  repeat (rolling_proxy; repeat first [progress prog_cbn | progress intros | prog_split]).

(** A goal about the writes of an explicit trace. *)
Ltac writes :=
  unfold written in *; simpl; rewrite ?omap_app; simpl;
  repeat match goal with
  | Hq : Forall _ ?t |- _ => apply written_quiet in Hq; unfold written in Hq; rewrite ?Hq; clear Hq
  end; simpl; unfold rolling in *; simpl.
Ltac steps st Hc :=
  writes; rewrite ?Hc; simpl; try done; destruct st; simpl in *; subst; split; auto with rolling.

Section Refinement.
Context `{Lib}.

Lemma release_steps st rq c n :
  rolling c = Some st →
  rr_Phase st = RollingRestartExcluding ∨ rr_Phase st = RollingRestartDraining →
  wp (rollingRestartRelease st rq c) (λ t o, chain (rr_step n) (Some st) (written t)).
Proof.
  intros Hc Hph. rolling_go.
  all: writes; rewrite ?Hc; simpl; try done.
  all: destruct st; simpl in *; destruct Hph; subst; split; auto with rolling.
Qed.
Lemma excluding_steps ctx st pn ur pp rq c n :
  rolling c = Some st → rr_Phase st = RollingRestartExcluding →
  wp (rollingRestartExcluding ctx st pn ur pp rq c)
    (λ t o, chain (rr_step n) (Some st) (written t)).
Proof.
  intros Hc Hph. unfold rollingRestartExcluding. rolling_go.
  all: steps st Hc.
Qed.
Lemma draining_steps st pn rq c n :
  rolling c = Some st → rr_Phase st = RollingRestartDraining →
  wp (rollingRestartDraining st pn rq c) (λ t o, chain (rr_step n) (Some st) (written t)).
Proof.
  intros Hc Hph. unfold rollingRestartDraining. rolling_go.
  all: steps st Hc.
Qed.

Lemma waiting_steps ctx st pn ur pp rq c n :
  rolling c = Some st → rr_Phase st = RollingRestartWaitingReady →
  in_int32 (rr_CurrentOrdinal st) →
  wp (rollingRestartWaitingReady ctx st pn ur pp rq c)
    (λ t o, chain (rr_step n) (Some st) (written t)).
Proof.
  intros Hc Hph Hi. unfold rollingRestartWaitingReady. rolling_go.
  all: writes; rewrite ?Hc; simpl; try done.
  all: destruct st; simpl in *; subst; split; [|done].
  all: bools; rewrite ?int32_id by (unfold in_int32 in *; lia).
  all: first [apply rr_next; lia | apply rr_finish; lia].
Qed.

Lemma chain_one n (s s' : option RollingRestartState) :
  rr_step n s s' → chain (rr_step n) s [s'].
Proof. by split. Qed.

Lemma phase_steps ctx c0 st ur c n :
  rolling c = Some st → in_int32 (rr_CurrentOrdinal st) →
  wp (rolling_phase ctx c0 st ur c) (λ t o, chain (rr_step n) (Some st) (written t)).
Proof.
  intros Hc Hi. unfold rolling_phase. destruct (rr_Phase st) eqn:Hp; cbn [wp pure].
  - by apply excluding_steps.
  - by apply draining_steps.
  - by apply waiting_steps.
  - done.
  - done.
  - done.
Qed.

Lemma chain_app {A} (R : A → A → Prop) x l1 l2 :
  chain R x l1 → chain R (default x (last l1)) l2 → chain R x (l1 ++ l2).
Proof.
  revert x. induction l1 as [|y l1 IH]; intros x; [done|].
  intros [Hxy H1] H2. split; [done|]. apply IH; [done|].
  rewrite last_cons in H2. by destruct (last l1).
Qed.

Lemma honest_app t u : honest (t ++ u) ↔ honest t ∧ honest u.
Proof. apply Forall_app. Qed.

(** The state handed to the phases is the one in the status, and the one last
    written if any was. *)
Lemma ensure_steps n c :
  wp (ensureRollingRestartState n c) (λ t o, honest t →
    chain (rr_step n) (rolling c) (written t) ∧
    match o with
    | Done (c', inr st) =>
        rolling c' = Some st ∧ default (rolling c) (last (written t)) = Some st ∧
        (rolling c = Some st ∨ ∃ now, st = new_rolling_state n now)
    | Done (_, inl _) => True
    | Panic => False
    end).
Proof.
  unfold ensureRollingRestartState. rolling_go.
  all: match goal with Hh : honest _ |- _ => unfold honest in Hh; rewrite ?Forall_cons in Hh end;
    unfold entry_honest, rolling, written in *; destruct_and?; simpl in *; destruct_and?;
    try congruence;
    repeat match goal with Hx : st_RollingRestart ?z = _ |- _ => rewrite Hx in * end; 
    simpl in *; simplify_eq; repeat split; eauto; try apply rr_start.
Qed.

Lemma new_rolling_wf n now : in_int32 n → in_int32 (rr_CurrentOrdinal (new_rolling_state n now)).
Proof. intros. simpl. pose proof (int32_range (n - 1)). unfold in_int32 in *. lia. Qed.

(** From the choice of the state to the end of the pass. *)
Lemma phases_steps ctx n c0 c ur :
  in_int32 n →
  (∀ st, rolling c = Some st → in_int32 (rr_CurrentOrdinal st)) →
  wp ((state ←? ensureRollingRestartState n; rolling_phase ctx c0 state ur) c)
    (λ t o, honest t → chain (rr_step n) (rolling c) (written t)).
Proof.
  intros Hn Hi. prog_unfold. apply wp_bind. eapply wp_mono; [apply ensure_steps|].
  intros t1 [[c1 [e|st]]|]; simpl; intros He.
  - rewrite app_nil_r. intros Hh. by apply He.
  - apply wp_exec. intros t2 o2 He2 Hh. apply honest_app in Hh as [Hh1 Hh2].
    destruct (He Hh1) as (Hch & Hc1 & Hlast & Hor).
    rewrite written_app. apply chain_app; [done|]. rewrite Hlast.
    eapply (proj1 (wp_exec _ _) (phase_steps ctx c0 st ur c1 n Hc1 _)); eauto.
    Unshelve. destruct Hor as [Hor|[now ->]]; [by apply Hi|by apply new_rolling_wf].
  - intros Hh. by apply He.
Qed.

Lemma pass_steps ctx sr n c :
  in_int32 n →
  (∀ st, rolling c = Some st → in_int32 (rr_CurrentOrdinal st)) →
  wp (reconcileRollingRestart ctx sr n c)
    (λ t o, honest t → chain (rr_step n) (rolling c) (written t)).
Proof.
  intros Hn Hi. unfold reconcileRollingRestart, tryClearCompletedRollingRestart.
  rolling_go.
  all: try match goal with
    |- wp _ _ => eapply wp_mono; [by apply (phases_steps ctx n)|]; simpl;
                 intros t o' Hs Hh; apply Hs; by inversion Hh end.
  all: writes; try done; bools.
  all: destruct (st_RollingRestart (cl_Status c)) as [[]|]; simpl in *; simplify_eq; bools;
    simpl in *; subst; try done; split; auto with rolling.
Qed.
End Refinement.

(** ** The abstract machine: invariant, partition, termination *)

Section Abstract.
Context (n : Z) (n_pos : (1 <= n)%Z) (n_int32 : in_int32 n).
Implicit Types s : option RollingRestartState.

Definition rolling_inv s : Prop :=
  match s with
  | None => True
  | Some st =>
      (0 <= rr_CurrentOrdinal st < n)%Z ∧
      (rr_Phase st = RollingRestartCompleted → rr_CurrentOrdinal st = 0%Z)
  end.

Lemma new_rolling_ordinal now : rr_CurrentOrdinal (new_rolling_state n now) = (n - 1)%Z.
Proof.
  unfold in_int32 in n_int32. simpl. rewrite int32_id by (unfold in_int32; lia). lia.
Qed.

Lemma rolling_inv_step s s' : rr_step n s s' → rolling_inv s → rolling_inv s'.
Proof.
  intros Hst Hinv. inversion Hst; subst; simpl in *; try done.
  2-6: destruct Hinv as [Hb _]; split; [lia|intros; simplify_eq; lia].
  split; [|done]. pose proof (new_rolling_ordinal now) as Hn. simpl in Hn. lia.
 Qed.

(** Ordinals already handed to the StatefulSet controller. *)
Definition released s (k : Z) : Prop :=
  match s with
  | None => False
  | Some st =>
      rr_Phase st = RollingRestartCompleted ∨ (rr_CurrentOrdinal st < k)%Z ∨
      (rr_CurrentOrdinal st = k ∧ rr_Phase st = RollingRestartWaitingReady)
  end.

Lemma partition_released s k :
  rolling_inv s → (0 <= k < n)%Z →
  (rollout_partition s n <= k)%Z ↔ released s k.
Proof.
  unfold in_int32 in n_int32. destruct s as [[o tot p t0 ip ok]|]; simpl; [|lia].
  intros [Ho Hc] Hk.
  assert (int32 (o + 1) = o + 1)%Z as Ho1 by (apply int32_id; unfold in_int32; lia).
  clear Hc. destruct p; rewrite ?Ho1; (split; [intros Hp|intros [Hr|[Hr|[Hr1 Hr2]]]]);
    try discriminate; try lia.
  all: first [by left|right; left; lia|destruct (decide (o = k)); [right; by right|right; left; lia]].
Qed.

(** *** Which ordinals are still to be released, in order *)

Definition down (o : Z) : list Z := reverse (seqZ 0 (o + 1)).

Lemma down_cons o : (0 <= o)%Z → down o = o :: down (o - 1).
Proof.
  intros Ho. unfold down. rewrite Z.sub_add, (seqZ_app 0 o 1) by lia.
  rewrite reverse_app. done.
Qed.

Definition pending s : list Z :=
  match s with
  | Some st =>
      match rr_Phase st with
      | RollingRestartExcluding | RollingRestartDraining => down (rr_CurrentOrdinal st)
      | RollingRestartWaitingReady => down (rr_CurrentOrdinal st - 1)
      | _ => []
      end
  | None => []
  end.

(** The ordinal a step into [WaitingReady] releases. *)
Definition release_of s : option Z :=
  match s with
  | Some st =>
      if decide (rr_Phase st = RollingRestartWaitingReady) then Some (rr_CurrentOrdinal st)
      else None
  | None => None
  end.

Lemma pending_step s s' :
  rr_step n s s' → rolling_inv s → is_Some s → is_Some s' →
  pending s = option_list (release_of s') ++ pending s'.
Proof.
  intros Hst Hinv Hs Hs'. destruct Hst; simpl in *.
  - by destruct Hs.
  - done.
  - apply down_cons. lia.
  - apply down_cons. lia.
  - done.
  - replace o with 0%Z by lia. done.
  - by destruct Hs'.
  - by destruct Hs'.
Qed.

Definition rolling_measure s : Z :=
  match s with
  | Some st =>
      3 * rr_CurrentOrdinal st +
      match rr_Phase st with
      | RollingRestartExcluding => 3
      | RollingRestartDraining => 2
      | RollingRestartWaitingReady => 1
      | _ => 0
      end
  | None => 0
  end.

Lemma measure_step s s' :
  rr_step n s s' → rolling_inv s → is_Some s → is_Some s' →
  (0 <= rolling_measure s' < rolling_measure s)%Z.
Proof.
  intros Hst Hinv Hs Hs'. destruct Hst; simpl in *; try lia; by destruct Hs || destruct Hs'.
Qed.

Lemma chain_facts s l :
  is_Some s → rolling_inv s → chain (rr_step n) s l → Forall is_Some l →
  pending s = omap release_of l ++ pending (default s (last l)) ∧
  (Z.of_nat (length l) <= rolling_measure s)%Z.
Proof.
  intros Hs Hi Hch Hl. revert s Hs Hi Hch.
  induction Hl as [|s' l Hs' Hl IH]; intros s Hs Hi Hch; simpl.
  - split; [done|]. destruct s as [st|]; [|done]. destruct Hi.
    unfold rolling_measure. destruct (rr_Phase st); lia.
  - destruct Hch as [Hst Hch].
    destruct (IH s' Hs' (rolling_inv_step _ _ Hst Hi) Hch) as [Hp Hlen].
    rewrite (pending_step s s') by done. rewrite Hp.
    pose proof (measure_step s s' Hst Hi Hs Hs').
    rewrite last_cons. split; [|lia].
    destruct (release_of s'); destruct (last l); done.
Qed.
End Abstract.
