(* ===== verification/Demo.v ===== *)
(** A concrete library and concrete objects, on which the theorems' witnesses are
    evaluated.

    [demo_lib] implements the interface of [Lib.v] on the inputs the witnesses
    use: version strings are ordered by their place in a list, the condition and
    finalizer helpers are those of apimachinery, and the response bodies are
    decoded from a few fixed texts.  [demo_laws] discharges [LibLaws]. *)

From S2P Require Import Prelude GoStrings Json Messages Lib ApiTypes Image Compat K8s Prog Go Client.
#[local] Open Scope string_scope.

(** ** The library *)

Definition demo_versions : list string :=
  [ "0.8.0"; "0.9.0-beta"; "0.9.1-beta"; "0.9.2-beta"; "0.9.3-beta"; "1.0.0" ].

Fixpoint place (l : list string) (s : string) : option Z :=
  match l with
  | [] => None
  | x :: l' => if String.eqb x s then Some 0%Z else Z.succ <$> place l' s
  end.

Definition demo_version (s : string) : option (Z * string) :=
  (λ i, (i, s)) <$> place demo_versions s.

Fixpoint demo_set_condition (now : Time) (cs : list Condition) (c : Condition)
    : list Condition :=
  match cs with
  | [] => [mkCondition (cond_Type c) (cond_Status c) (cond_Reason c) (cond_Message c)
             (if bool_decide (cond_LastTransitionTime c = 0%Z) then now
              else cond_LastTransitionTime c) (cond_ObservedGeneration c)]
  | d :: cs' =>
      if bool_decide (cond_Type d = cond_Type c) then
        mkCondition (cond_Type d) (cond_Status c) (cond_Reason c) (cond_Message c)
          (if bool_decide (cond_Status d = cond_Status c) then cond_LastTransitionTime d
           else if bool_decide (cond_LastTransitionTime c = 0%Z) then now
           else cond_LastTransitionTime c) (cond_ObservedGeneration c) :: cs'
      else d :: demo_set_condition now cs' c
  end.

(** Response bodies of the database. *)
Definition health_body (state : string) : string :=
  print (JObject [("status", JString "pass"); ("state", JString state)]).

Definition node_json (id : Z) (state : string) : json :=
  JObject [("node_id", json_int id); ("addr", JString ("node-" +:+ Itoa id));
           ("state", JString state); ("self", JBool false)].
Definition nodes_body (states : list string) : string :=
  print (JObject [("nodes", JArray (imap (λ i s, node_json (Z.of_nat (S i)) s) states))]).

Definition leader_body : string :=
  print (JObject [("leader_id", json_int 1); ("leader_addr", JNull); ("this_node_id", json_int 1);
                  ("is_leader", JBool true); ("term", json_int 1)]).

#[export] Instance demo_lib : Lib := {|
  Version := Z * string;
  semver_NewVersion := demo_version;
  semver_Compare v w := Z.sgn (v.1 - w.1);
  semver_Original v := v.2;
  SetStatusCondition := demo_set_condition;
  RemoveStatusCondition cs ty := filter (λ c, cond_Type c ≠ ty) cs;
  ContainsFinalizer fs f := existsb (String.eqb f) fs;
  AddFinalizer fs f := if existsb (String.eqb f) fs then fs else (fs ++ [f])%list;
  RemoveFinalizer fs f := filter (λ x, x ≠ f) fs;
  Quantity := string;
  Quantity_IsZero q := String.eqb q "";
  Quantity_MustParse q := q |}.

Lemma find_condition_cons c cs ty :
  find_condition (c :: cs) ty =
    if decide (cond_Type c = ty) then Some c else find_condition cs ty.
Proof.
  unfold find_condition. simpl. destruct (decide (cond_Type c = ty)); [done|].
  by destruct (list_find _ cs) as [[i d]|].
Qed.

Lemma demo_set_same now cs c : ∃ d,
  find_condition (demo_set_condition now cs c) (cond_Type c) = Some d ∧
  cond_Status d = cond_Status c ∧ cond_Reason d = cond_Reason c.
Proof.
  induction cs as [|d cs IH]; simpl.
  - eexists. rewrite find_condition_cons, decide_True by done. done.
  - case_bool_decide as Ht; rewrite find_condition_cons; simpl.
    + eexists. rewrite decide_True by done. done.
    + by rewrite decide_False by done.
Qed.

#[export] Instance demo_laws : LibLaws demo_lib.
Proof.
  constructor; simpl.
  - intros v. by rewrite Z.sub_diag.
  - intros v w. rewrite <- Z.sgn_opp. f_equal. lia.
  - intros u v w. lia.
  - intros s v Hv. unfold demo_version in Hv. destruct (place _ _); by simplify_eq/=.
  - intros now cs c. destruct (demo_set_same now cs c) as (d & -> & Hd & _). simpl. congruence.
  - intros now cs c. destruct (demo_set_same now cs c) as (d & -> & _ & Hd). simpl. congruence.
  - intros now cs c ty Hne. induction cs as [|d cs IH]; simpl.
    + rewrite find_condition_cons. simpl. by rewrite decide_False by congruence.
    + case_bool_decide; rewrite !find_condition_cons; simpl;
        [by rewrite !decide_False by congruence|]. by rewrite IH.
  - intros fs f. destruct (existsb _ fs) eqn:E; [done|].
    rewrite existsb_app, E. simpl. by rewrite String.eqb_refl.
  - intros fs f. apply not_true_iff_false. rewrite existsb_exists. intros (x & Hx & Heq).
    apply String.eqb_eq in Heq as ->. apply list_elem_of_In, list_elem_of_filter in Hx as [Hx _].
    done.
Qed.

#[export] Instance demo_known : KnownVersions demo_lib.
Proof.
  constructor; [by eexists|by eexists|].
  intros e He. repeat (apply elem_of_cons in He as [->|He]; [by eexists|]).
  by apply not_elem_of_nil in He.
Qed.

(** ** A cluster of [n] replicas called db in ns, with the proxy enabled *)

Definition demo_meta (name : string) : ObjectMeta :=
  mkMeta name "ns" ∅ ∅ [] None 1 None.

Definition demo_proxy : ProxySpec :=
  mkProxySpec true "" "" [] (Some 2%Z) 0 "" 0 0 0 0 (Raw "") "" 0 ∅ ∅.

Definition demo_tuning : ClusterTuningSpec :=
  mkClusterTuningSpec 0 0 0 0 0 0 0 0 0 0 0 None None 5.

Definition demo_spec (n : Z) : HyperbytedbClusterSpec := {|
  sp_Replicas := Some n; sp_Image := ""; sp_Version := "0.9.3-beta";
  sp_ImagePullPolicy := ""; sp_ImagePullSecrets := []; sp_Paused := false;
  sp_Server := mkServerSpec 0 0 0 0 0 None;
  sp_Storage := mkStorageSpec None "";
  sp_Flush := mkFlushSpec 0 0 0 0 None;
  sp_ChDB := mkChDBSpec "" 0 0 0;
  sp_Auth := mkAuthSpec false "";
  sp_Logging := mkLoggingSpec "" "";
  sp_Resources := Raw "";
  sp_Cluster := demo_tuning;
  sp_Sharding := None;
  sp_Cardinality := mkCardinalitySpec 0 0;
  sp_StatementSummary := mkStatementSummarySpec None 0;
  sp_HintedHandoff := mkHintedHandoffSpec None 0 0;
  sp_RateLimit := mkRateLimitSpec None 0;
  sp_Retention := mkRetentionSpec None "";
  sp_Monitoring := mkMonitoringSpec false false;
  sp_Autoscaling := None; sp_Failover := None; sp_Proxy := Some demo_proxy;
  sp_PodAnnotations := ∅; sp_PodLabels := ∅; sp_Affinity := None;
  sp_TopologySpreadConstraints := []; sp_Tolerations := [];
  sp_AdditionalVolumes := []; sp_AdditionalVolumeMounts := [] |}.

Definition demo_status (r : option RollingRestartState) : HyperbytedbClusterStatus :=
  mkStatus ClusterPhaseRunning 0 0 "" "" [] 0 "" r [].

Definition demo_cluster (n : Z) (r : option RollingRestartState) : HyperbytedbCluster :=
  mkCluster (demo_meta "db") (demo_spec n) (demo_status r).

(** ** A world that answers calls *)

(** What the API server, the database nodes and the clock answer.  Writes are
    echoed; an absent object is [NotFound]. *)
Record World := mkWorld {
  w_now : Time;
  w_get : ∀ k : Kind, string → option (obj k);
  w_pods : list Pod;
  w_http : Request → Response }.

Definition not_found : GoErr := mkErr NotFound "not found".

Definition answers (w : World) (e : Ev) : Ans e :=
  match e with
  | Now => w_now w
  | RandRead n => inr (repeat 0%Z n)
  | GenerateCert _ _ => inr ("ca", "crt", "key")
  | Get k _ name => match w_get w k name with Some o => inr o | None => inl not_found end
  | Create _ o | Update _ o | StatusUpdate _ o => inr o
  | Delete _ _ _ _ => nil_err
  | PatchSts _ _ => nil_err
  | ListPods _ _ => inr (w_pods w)
  | Http r => inr (w_http w r)
  | Event _ _ _ => tt
  end.

Definition trace_of {A} (w : World) (p : prog Ans A) : list (entry Ans) :=
  (Prog.run (λ e (_ : unit), (tt, answers w e)) p tt).1.2.
Definition result_of {A} (w : World) (p : prog Ans A) : outcome A :=
  (Prog.run (λ e (_ : unit), (tt, answers w e)) p tt).2.

Lemma world_exec {A} (w : World) (p : prog Ans A) : exec p (trace_of w p) (result_of w p).
Proof.
  unfold trace_of, result_of. destruct (run _ p tt) as [[[] t] o] eqn:E. simpl.
  by eapply run_exec.
Qed.

Lemma world_done {A} (w : World) (p : prog Ans A) a :
  result_of w p = Done a → exec p (trace_of w p) (Done a).
Proof. intros <-. apply world_exec. Qed.

(** Every call of a trace got the world's answer. *)
Lemma world_answers {A} w (p : prog Ans A) x : x ∈ trace_of w p → entry_ans x = answers w (entry_ev x).
Proof.
  unfold trace_of. induction p as [a| |e k IH]; cbn; [by intros ?%not_elem_of_nil..|].
  specialize (IH (answers w e)). destruct (run _ (k (answers w e)) tt) as [[[] t] o]. cbn in *.
  intros [->|Hx]%elem_of_cons; [done|by apply IH].
Qed.

Lemma world_Forall {A} w (p : prog Ans A) (Q : entry Ans → Prop) :
  (∀ e, Q (Entry e (answers w e))) → Forall Q (trace_of w p).
Proof.
  intros Hq. rewrite Forall_forall. intros [e a] Hx%world_answers. cbn in Hx. subst a. apply Hq.
Qed.

(** Tests on answers. *)
Definition found_b {A} (a : GoErr + A) : bool := match a with inr _ => true | inl _ => false end.

Lemma forallb_sound {A} (f : A → bool) (P : A → Prop) l :
  (∀ x, f x = true → P x) → forallb f l = true → Forall P l.
Proof.
  intros Hf. rewrite forallb_forall, Forall_forall. intros Hl x Hx%list_elem_of_In%Hl. by apply Hf.
Qed.

(** The answer to a read of a pod. *)
Definition pod_read (x : entry Ans) : option (GoErr + Pod) :=
  match entry_ev x as e return Ans e → option (GoErr + Pod) with
  | Get k _ _ =>
      match k return GoErr + obj k → option (GoErr + Pod) with
      | KPod => Some
      | _ => λ _, None
      end
  | _ => λ _, None
  end (entry_ans x).

Definition demo_template : PodTemplate := mkPodTemplate ∅ ∅ (mkPodSpec None "" [] [] [] [] [] None []).

(** A StatefulSet of [n] pods being upgraded, with the partition at [p]. *)
Definition demo_sts (n p : Z) : StatefulSet :=
  mkSts (demo_meta "db") (Some n) "db-headless" ∅ ParallelPodManagement (Some (Some p)) demo_template []
    (mkStsStatus n n 0 "old" "new").

Definition demo_pod (name ip revision : string) : Pod :=
  mkPod (mkMeta name "ns" {[ StatefulSetRevisionLabel := revision ]} ∅ [] None 1 None)
    ip [("Ready", ConditionTrue)] [("proxy", true)].

Definition demo_world (sts : StatefulSet) (pod : option Pod) (now : Time) (code : Z) : World := {|
  w_now := now;
  w_get k name :=
    match k with KStatefulSet => Some sts | KPod => pod | _ => None end;
  w_pods := [demo_pod "db-proxy-0" "10.0.0.9" ""; demo_pod "db-proxy-1" "10.0.0.8" ""];
  w_http _ := mkRsp code (Some "") |}.
