(* ===== verification/Webhook.v ===== *)
(** The admission webhook (api/v1alpha1/hyperbytedbcluster_webhook.go): defaulting
    and validation of a cluster before the API server stores it. *)

From S2P Require Import Prelude GoStrings Lib ApiTypes K8s Prog Go.
#[local] Open Scope string_scope.

Section Webhook.
Context `{Lib}.
Implicit Types c : HyperbytedbCluster.

(** ** Defaulting *)

Definition default_server (s : ServerSpec) : ServerSpec :=
  if Z.eqb (srv_Port s) 0
  then mkServerSpec 8086 (srv_MaxBodySizeBytes s) (srv_RequestTimeoutSecs s)
         (srv_QueryTimeoutSecs s) (srv_MaxConcurrentQueries s) (srv_TLS s)
  else s.

Definition default_storage (s : StorageSpec) : StorageSpec :=
  match sto_VolumeClaimTemplate s with
  | None => mkStorageSpec (Some (mkPVCSpec None (Quantity_MustParse "10Gi"))) (sto_WALFormat s)
  | Some _ => s
  end.

Definition default_logging (l : LoggingSpec) : LoggingSpec :=
  mkLoggingSpec (if String.eqb (log_Level l) "" then "info" else log_Level l)
    (if String.eqb (log_Format l) "" then "text" else log_Format l).

Definition default_failover (f : option FailoverSpec) : option FailoverSpec :=
  match f with None => Some (mkFailoverSpec true 1 300) | Some _ => f end.

Definition default_retention (r : RetentionSpec) : RetentionSpec :=
  if String.eqb (ret_Interval r) "" then mkRetentionSpec (ret_Enabled r) "60s" else r.

(** [&ProxySpec{Enabled: true}] *)
Definition enabled_ProxySpec : ProxySpec :=
  mkProxySpec true "" "" [] None 0 "" 0 0 0 0 (Raw "") "" 0 ∅ ∅.

Definition default_proxy (p : option ProxySpec) : option ProxySpec :=
  match p with None => Some enabled_ProxySpec | Some _ => p end.

Definition default_replicas (r : option Z) : option Z :=
  match r with None => Some 1%Z | Some _ => r end.

Definition default_spec (s : HyperbytedbClusterSpec) : HyperbytedbClusterSpec := {|
  sp_Replicas := default_replicas (sp_Replicas s);
  sp_Image := sp_Image s;
  sp_Version := sp_Version s;
  sp_ImagePullPolicy := sp_ImagePullPolicy s;
  sp_ImagePullSecrets := sp_ImagePullSecrets s;
  sp_Paused := sp_Paused s;
  sp_Server := default_server (sp_Server s);
  sp_Storage := default_storage (sp_Storage s);
  sp_Flush := sp_Flush s;
  sp_ChDB := sp_ChDB s;
  sp_Auth := sp_Auth s;
  sp_Logging := default_logging (sp_Logging s);
  sp_Resources := sp_Resources s;
  sp_Cluster := sp_Cluster s;
  sp_Sharding := sp_Sharding s;
  sp_Cardinality := sp_Cardinality s;
  sp_StatementSummary := sp_StatementSummary s;
  sp_HintedHandoff := sp_HintedHandoff s;
  sp_RateLimit := sp_RateLimit s;
  sp_Retention := default_retention (sp_Retention s);
  sp_Monitoring := sp_Monitoring s;
  sp_Autoscaling := sp_Autoscaling s;
  sp_Failover := default_failover (sp_Failover s);
  sp_Proxy := default_proxy (sp_Proxy s);
  sp_PodAnnotations := sp_PodAnnotations s;
  sp_PodLabels := sp_PodLabels s;
  sp_Affinity := sp_Affinity s;
  sp_TopologySpreadConstraints := sp_TopologySpreadConstraints s;
  sp_Tolerations := sp_Tolerations s;
  sp_AdditionalVolumes := sp_AdditionalVolumes s;
  sp_AdditionalVolumeMounts := sp_AdditionalVolumeMounts s |}.

(** [Default]: the object it mutates; it never returns an error. *)
Definition Default c : HyperbytedbCluster := with_spec c (default_spec (cl_Spec c)).

(** ** Validation

    The result is the list of warnings and the error, [nil] when the object is
    admitted. *)

Definition validateSharding c : error :=
  match sp_Sharding (cl_Spec c) with
  | None => nil_err
  | Some s =>
      if bool_decide (0 < sh_RegionMergeSeries s)%Z && bool_decide (0 < sh_RegionSplitSeries s)%Z
         && bool_decide (sh_RegionSplitSeries s <= sh_RegionMergeSeries s)%Z
      then inl (errorf ("sharding.regionMergeSeries (" +:+ Itoa (sh_RegionMergeSeries s)
                  +:+ ") must be < regionSplitSeries (" +:+ Itoa (sh_RegionSplitSeries s) +:+ ")"))
      else if bool_decide (0 < sh_RegionSplitSeries s)%Z && bool_decide (0 < sh_RegionMaxSeries s)%Z
              && bool_decide (sh_RegionMaxSeries s <= sh_RegionSplitSeries s)%Z
      then inl (errorf ("sharding.regionSplitSeries (" +:+ Itoa (sh_RegionSplitSeries s)
                  +:+ ") must be < regionMaxSeries (" +:+ Itoa (sh_RegionMaxSeries s) +:+ ")"))
      else nil_err
  end.

Definition validate_autoscaling c : error :=
  match sp_Autoscaling (cl_Spec c) with
  | Some a =>
      if negb (as_Enabled a) then nil_err
      else if bool_decide (as_MaxReplicas a < 1)%Z
      then inl (errorf "autoscaling.maxReplicas must be at least 1")
      else if bool_decide (as_MaxReplicas a < as_MinReplicas a)%Z
      then inl (errorf ("autoscaling.minReplicas (" +:+ Itoa (as_MinReplicas a)
                  +:+ ") must be <= maxReplicas (" +:+ Itoa (as_MaxReplicas a) +:+ ")"))
      else nil_err
  | None => nil_err
  end.

Definition validate_failover c : error :=
  match sp_Failover (cl_Spec c) with
  | Some f =>
      if negb (fo_Enabled f) then nil_err
      else if bool_decide (0 < fo_FailoverTimeoutSecs f)%Z
              && bool_decide (fo_FailoverTimeoutSecs f < 60)%Z
      then inl (errorf ("failover.failoverTimeoutSecs must be at least 60, got "
                  +:+ Itoa (fo_FailoverTimeoutSecs f)))
      else if bool_decide (fo_MaxFailoverCount f < 1)%Z
      then inl (errorf "failover.maxFailoverCount must be at least 1")
      else nil_err
  | None => nil_err
  end.

Definition validate_tls c : error :=
  match srv_TLS (sp_Server (cl_Spec c)) with
  | Some t =>
      if negb (tls_Enabled t) then nil_err
      else match tls_CertManagerIssuerRef t with
           | None => nil_err
           | Some r =>
               if String.eqb (ref_Name r) ""
               then inl (errorf "server.tls.certManagerIssuerRef.name must not be empty")
               else if negb (String.eqb (ref_Kind r) "Issuer")
                       && negb (String.eqb (ref_Kind r) "ClusterIssuer")
               then inl (errorf
                 "server.tls.certManagerIssuerRef.kind must be 'Issuer' or 'ClusterIssuer'")
               else nil_err
           end
  | None => nil_err
  end.

Definition two_node_warning : string :=
  "2-node clusters cannot tolerate any node failure; consider 3+ replicas".

(** [if err != nil { return nil, err }] before the warnings are made. *)
Definition reject_or (e : error) (k : list string * error) : list string * error :=
  match e with inl e => ([], inl e) | inr _ => k end.

Definition validateCluster c : list string * error :=
  let replicas := spec_replicas c in
  let port := srv_Port (sp_Server (cl_Spec c)) in
  if bool_decide (replicas < 1)%Z
  then ([], inl (errorf ("replicas must be at least 1, got " +:+ Itoa replicas)))
  else if negb (Z.eqb port 0) && (bool_decide (port < 1)%Z || bool_decide (65535 < port)%Z)
  then ([], inl (errorf ("server port must be between 1 and 65535, got " +:+ Itoa port)))
  else
    reject_or (validate_autoscaling c)
      (reject_or (validate_failover c)
         (reject_or (validate_tls c)
            (if Z.eqb replicas 2 then [two_node_warning] else [], validateSharding c))).

Definition ValidateCreate c : list string * error := validateCluster c.
Definition ValidateUpdate (_ newObj : HyperbytedbCluster) : list string * error :=
  validateCluster newObj.
Definition ValidateDelete (_ : HyperbytedbCluster) : list string * error := ([], nil_err).
End Webhook.
