(* ===== verification/AuthTheorems.v ===== *)
(** The auth and TLS Secrets: the properties. *)

From S2P Require Import Prelude GoStrings Lib ApiTypes Image Compat Config K8s StatefulSet Prog Go Auth Demo.
#[local] Open Scope string_scope.

(** ** base64 *)

Fixpoint unsextets (l : list Z) : list Z :=
  match l with
  | w :: x :: y :: z :: rest =>
      Z.lor (Z.shiftl w 2) (Z.shiftr x 4) :: Z.lor (Z.shiftl (Z.land x 15) 4) (Z.shiftr y 2)
        :: Z.lor (Z.shiftl (Z.land y 3) 6) z :: unsextets rest
  | [w; x; y] =>
      [Z.lor (Z.shiftl w 2) (Z.shiftr x 4); Z.lor (Z.shiftl (Z.land x 15) 4) (Z.shiftr y 2)]
  | [w; x] => [Z.lor (Z.shiftl w 2) (Z.shiftr x 4)]
  | _ => []
  end.

Definition is_byte (z : Z) : Prop := (0 <= z < 256)%Z.

Definition bytes256 : list Z := seqZ 0 256.
Lemma is_byte_elem z : is_byte z ↔ z ∈ bytes256.
Proof. unfold is_byte, bytes256. rewrite elem_of_seqZ. lia. Qed.

(** A test on bytes holds of every pair of bytes if it does by computation. *)
Definition for_bytes (f : Z → Z → bool) : bool :=
  forallb (λ a, forallb (f a) bytes256) bytes256.
Lemma for_bytes_spec f : for_bytes f = true → ∀ a b, is_byte a → is_byte b → f a b = true.
Proof.
  unfold for_bytes. rewrite forallb_forall. intros Hf a b Ha%is_byte_elem Hb%is_byte_elem.
  apply list_elem_of_In in Ha, Hb. specialize (Hf a Ha). rewrite forallb_forall in Hf. by apply Hf.
Qed.

(** The identities the decoder uses, on two adjacent bytes. *)
Definition split_ok (a b : Z) : bool :=
  let x := Z.lor (Z.shiftl (Z.land a 3) 4) (Z.shiftr b 4) in
  let y := Z.lor (Z.shiftl (Z.land a 15) 2) (Z.shiftr b 6) in
  Z.eqb (Z.lor (Z.shiftl (Z.shiftr a 2) 2) (Z.shiftr x 4)) a
  && Z.eqb (Z.land x 15) (Z.shiftr b 4) && Z.eqb (Z.shiftr y 2) (Z.land a 15)
  && Z.eqb (Z.lor (Z.shiftl (Z.shiftr a 4) 4) (Z.land a 15)) a
  && Z.eqb (Z.lor (Z.shiftl (Z.land y 3) 6) (Z.land b 63)) b
  && Z.ltb x 64 && Z.ltb y 64 && Z.leb 0 x && Z.leb 0 y
  && Z.ltb (Z.shiftr a 2) 64 && Z.leb 0 (Z.shiftr a 2)
  && Z.ltb (Z.land b 63) 64 && Z.leb 0 (Z.land b 63).

Lemma split_ok_bytes a b : is_byte a → is_byte b → split_ok a b = true.
Proof. apply for_bytes_spec. vm_compute. reflexivity. Qed.

Ltac split_facts a b :=
  let Hs := fresh in
  pose proof (split_ok_bytes a b) as Hs; unfold split_ok in Hs; cbv zeta in Hs;
  specialize (Hs ltac:(assumption) ltac:(assumption));
  repeat (apply andb_true_iff in Hs as [Hs ?]);
  repeat match goal with
  | Hz : Z.eqb _ _ = true |- _ => apply Z.eqb_eq in Hz
  | Hz : Z.ltb _ _ = true |- _ => apply Z.ltb_lt in Hz
  | Hz : Z.leb _ _ = true |- _ => apply Z.leb_le in Hz
  end.

(** Induction on byte sequences three at a time. *)
Lemma triple_ind (Q : list Z → Prop) :
  Q [] → (∀ a, Q [a]) → (∀ a b, Q [a; b]) →
  (∀ a b c rest, Q rest → Q (a :: b :: c :: rest)) → ∀ bs, Q bs.
Proof.
  intros H0 H1 H2 H3 bs. revert bs.
  fix IH 1. intros [|a [|b [|c rest]]]; [done..|]. apply H3, IH.
Qed.

Lemma zero_byte : is_byte 0.
Proof. unfold is_byte. lia. Qed.

Lemma unsextets_sextets bs :
  Forall is_byte bs → unsextets (sextets bs) = bs ∧ Forall (λ s, 0 <= s < 64)%Z (sextets bs).
Proof.
  pose proof zero_byte. induction bs as [|a|a b|a b c rest IH] using triple_ind; intros Hb.
  - done.
  - apply Forall_cons in Hb as [Ha _]. split_facts a 0%Z. simpl sextets. simpl unsextets.
    rewrite Z.lor_0_r in *. split; [by f_equal|]. repeat constructor; done.
  - apply Forall_cons in Hb as [Ha Hb]. apply Forall_cons in Hb as [Hb _].
    split_facts a b. split_facts b 0%Z. simpl sextets. simpl unsextets.
    rewrite !Z.shiftr_0_l, !Z.lor_0_r in *. split; [congruence|]. repeat constructor; done.
  - apply Forall_cons in Hb as [Ha Hb]. apply Forall_cons in Hb as [Hb Hc].
    apply Forall_cons in Hc as [Hc Hrest]. destruct (IH Hrest) as [Heq Hs].
    split_facts a b. split_facts b c. cbn [sextets unsextets]. rewrite Heq.
    split; [congruence|]. repeat constructor; done.
Qed.

Fixpoint index_of (s : string) (a : ascii) : Z :=
  match s with
  | "" => 0
  | String b s' => if Ascii.eqb a b then 0 else Z.succ (index_of s' a)
  end.
Definition b64_value (a : ascii) : Z := index_of b64_alphabet a.

Lemma b64_value_char s : (0 <= s < 64)%Z → b64_value (b64_char s) = s.
Proof.
  assert (forallb (λ s, Z.eqb (b64_value (b64_char s)) s) (seqZ 0 64) = true) as Hf
    by (vm_compute; reflexivity).
  intros Hs. rewrite forallb_forall in Hf. apply Z.eqb_eq, Hf, list_elem_of_In, elem_of_seqZ. lia.
Qed.

Fixpoint chars (s : string) : list ascii :=
  match s with "" => [] | String a s' => a :: chars s' end.
Lemma chars_string l : chars (string_of_chars l) = l.
Proof. induction l as [|a l IH]; simpl; by rewrite ?IH. Qed.

Definition DecodeString (s : string) : list Z := unsextets (b64_value <$> chars s).

(** The encoding of the generated secrets loses nothing: decoding the token
    gives back the random bytes, so distinct random values give distinct
    tokens. *)
Theorem base64_roundtrip bs :
  Forall is_byte bs → DecodeString (EncodeToString bs) = bs.
Proof.
  intros Hb. destruct (unsextets_sextets bs Hb) as [Heq Hs].
  unfold DecodeString, EncodeToString. rewrite chars_string, <- list_fmap_compose.
  replace (compose b64_value b64_char <$> sextets bs) with (sextets bs); [done|].
  symmetry. rewrite <- (list_fmap_id (sextets bs)) at 2.
  apply list_fmap_ext. intros i s Hi. unfold compose. apply b64_value_char.
  by eapply Forall_lookup_1 in Hs.
Qed.

(** ** The auth Secret *)

Section Fill.
Context `{Lib}.
Implicit Types (s : Secret) (t : list (entry Ans)).

(** [crypto/rand.Read] fills the buffer it is given. *)
Definition rand_honest (x : entry Ans) : Prop :=
  match entry_ev x as e return Ans e → Prop with
  | RandRead n => λ r, match r with inr bs => length bs = n | inl _ => True end
  | _ => λ _, True
  end (entry_ans x).

(** [s'] is [s] with missing keys among [keys] filled, and nothing else changed. *)
Definition filled (keys : list string) s s' : Prop :=
  sec_Meta s' = sec_Meta s ∧ sec_Type s' = sec_Type s ∧
  (∀ k, map_get (sec_Data s) k ≠ "" → sec_Data s' !! k = sec_Data s !! k) ∧
  (∀ k, k ∉ keys → sec_Data s' !! k = sec_Data s !! k) ∧
  (∀ k, k ∈ keys → map_get (sec_Data s') k ≠ "").

Definition key_names : list string :=
  [AuthSecretClusterTokenKey; AuthSecretAdminUsernameKey; AuthSecretAdminPasswordKey].

(** A value that, when generated, is not empty. *)
Definition gives_value (value : P (GoErr + string)) : Prop :=
  ∀ t v, exec value t (Done (inr v)) → Forall rand_honest t → v ≠ "".

Lemma random_gives_value n : (0 < n)%nat → gives_value (randomSecret n).
Proof.
  intros Hn t v ([e|bs] & t' & -> & He) Hh; destruct He as [-> ?]; [done|].
  apply Forall_cons in Hh as [Hl _]. unfold rand_honest in Hl. simpl in Hl. simplify_eq.
  destruct bs as [|a [|b [|c bs]]]; [by inversion Hn|done..].
Qed.

Lemma map_get_insert (m : gmap string string) k k' v :
  map_get (<[k := v]> m) k' = if decide (k = k') then v else map_get m k'.
Proof.
  unfold map_get. destruct (decide (k = k')) as [->|]; [by rewrite lookup_insert_eq|].
  by rewrite lookup_insert_ne.
Qed.

Lemma fill_keys_exec keys changed s t r :
  Forall (λ kv, gives_value kv.2) keys → Forall rand_honest t →
  exec (fill_keys keys changed s) t (Done (inr r)) →
  filled keys.*1 s r.2 ∧ (r.1 = false → r.2 = s ∧ t = []) ∧ (changed = true → r.1 = true) ∧
  (Forall (λ kv, map_get (sec_Data s) kv.1 ≠ "") keys → r = (changed, s)).
Proof.
  intros Hk. revert changed s t r. induction Hk as [|[k value] rest Hv _ IH]; intros changed s t r Hh He.
  - destruct He as [-> ?]. simplify_eq/=. split.
    { repeat split; intros k Hk; by apply not_elem_of_nil in Hk. }
    repeat split; done.
  - cbn [fill_keys] in He. destruct (negb _) eqn:Hset; bools.
    + destruct (IH _ _ _ _ Hh He) as ((H1 & H2 & H3 & H4 & H5) & Hc1 & Hc2 & Hc3).
      assert (map_get (sec_Data r.2) k ≠ "") as Hk' by (unfold map_get in *; by rewrite H3).
      split; [|split; [done|split; [done|intros [_ Hall]%Forall_cons; by apply Hc3]]].
      split; [done|]. split; [done|]. split; [done|]. split.
      * intros k' [_ Hk2]%not_elem_of_cons. by apply H4.
      * intros k' [->|Hk2]%elem_of_cons; [done|by apply H5].
    + apply exec_pbind in He as [(t1 & t2 & v & -> & H1 & H2)|[(e & _ & ?)|[_ ?]]]; [|done..].
      apply Forall_app in Hh as [Hh1 Hh2]. specialize (Hv _ _ H1 Hh1). simpl in Hv.
      destruct (IH _ _ _ _ Hh2 H2) as ((M1 & M2 & M3 & M4 & M5) & _ & Hc2 & _).
      rewrite (Hc2 eq_refl). split; [|split; [done|split; [done|]]].
      2: { intros [Hx _]%Forall_cons. done. }
      split; [done|]. split; [done|]. simpl in M3, M4.
      assert (∀ k', k ≠ k' → map_get (sec_Data s) k' ≠ "" → sec_Data r.2 !! k' = sec_Data s !! k')
        as Hother.
      { intros k' Hne Hm. rewrite M3 by (rewrite map_get_insert, decide_False by done; done).
        by apply lookup_insert_ne. }
      split; [|split].
      * intros k' Hm. apply Hother; [congruence|done].
      * intros k' [Hne Hk2]%not_elem_of_cons. rewrite M4 by done. by apply lookup_insert_ne.
      * intros k' [->|Hk2]%elem_of_cons; [|by apply M5].
        unfold map_get. rewrite M3 by (rewrite map_get_insert, decide_True by done; done).
        by rewrite lookup_insert_eq.
Qed.

Lemma auth_keys_give : Forall (λ kv, gives_value kv.2) auth_keys.
Proof.
  unfold auth_keys. rewrite !Forall_cons, Forall_nil. simpl.
  split; [by apply random_gives_value, Nat.lt_0_succ|]. split; [|split; [|done]].
  - intros t v [_ ?] _. by simplify_eq.
  - by apply random_gives_value, Nat.lt_0_succ.
Qed.

(** [FillAuthSecret] leaves every key of the auth Secret with a non-empty
    value, keeps each value that was set and every other key, reports a change
    exactly when it made one, and does nothing - not even read randomness - on a
    Secret that is complete. *)
Theorem FillAuthSecret_correct s t changed s' :
  Forall rand_honest t → exec (FillAuthSecret s) t (Done (inr (changed, s'))) →
  filled key_names s s' ∧ (changed = false → s' = s ∧ t = []) ∧
  (Forall (λ k, map_get (sec_Data s) k ≠ "") key_names → changed = false).
Proof.
  intros Hh He. destruct (fill_keys_exec auth_keys false s t (changed, s') auth_keys_give Hh He)
    as (Hf & Hc & _ & Hall). split; [done|]. split; [done|].
  intros Hset. assert ((changed, s') = (false, s)); [|congruence]. apply Hall.
  unfold key_names in Hset. rewrite !Forall_cons in Hset. destruct Hset as (? & ? & ? & _).
  by repeat constructor.
Qed.
End Fill.

(** ** Witnesses *)

Lemma base64_roundtrip_witness :
  EncodeToString [255; 0; 16; 131]%Z = "_wAQgw" ∧
  DecodeString (EncodeToString [255; 0; 16; 131]%Z) = [255; 0; 16; 131]%Z.
Proof.
  split; [vm_compute; reflexivity|]. apply base64_roundtrip.
  repeat constructor; unfold is_byte; lia.
Defined.

Definition half_filled : Secret :=
  mkSecret (demo_meta "db-auth") "Opaque" {[ "admin-username" := "root"; "extra" := "x" ]}.
Definition auth_world : World :=
  mkWorld 0%Z (λ _ _, None) [] (λ _, mkRsp 200 None).

Lemma FillAuthSecret_correct_witness : ∃ s',
  exec (FillAuthSecret half_filled) (trace_of auth_world (FillAuthSecret half_filled))
    (Done (inr (true, s'))) ∧
  filled key_names half_filled s' ∧ sec_Data s' !! "admin-username" = Some "root".
Proof.
  assert (∃ s', result_of auth_world (FillAuthSecret half_filled) = Done (inr (true, s'))) as [s' Hr]
    by (vm_compute; eexists; reflexivity).
  exists s'. pose proof (world_done _ _ _ Hr) as He. split; [done|].
  assert (filled key_names half_filled s') as Hf.
  { eapply (FillAuthSecret_correct half_filled _ true); [|exact He]. vm_compute. repeat constructor. }
  split; [done|]. destruct Hf as (_ & _ & Hkeep & _). rewrite Hkeep; vm_compute; [done|discriminate].
Defined.
