(* ===== verification/ScaleDown.v ===== *)
(** Scaling down
    (internal/controller/hyperbytedbcluster_controller.go, and
    internal/hyperbytedb/pvc.go).

    Before [.spec.replicas] shrinks the departing nodes must have evacuated and
    must be out of the Raft voters: [runScaleDownClusterHooks] is that gate.
    [deleteStuckDepartedPods] and [CleanupOrphanPVCs] remove what a scale-down
    leaves behind.  None of them changes the cluster object, so they are programs
    in [P]. *)

From stdpp Require Import sorting.
From S2P Require Import Prelude GoStrings Messages Lib ApiTypes Image Compat Config K8s Prog Go Client Controller.
#[local] Open Scope string_scope.

(** [for i := hi - 1; i >= lo; i--] *)
Definition ordinals_down (lo hi : Z) : list Z := reverse (seqZ lo (hi - lo)).
(** [for i := lo; i < hi; i++] *)
Definition ordinals_up (lo hi : Z) : list Z := seqZ lo (hi - lo).

(** ** The plan *)

Definition nodeStateDecommissioning : string := "decommissioning".
Definition nodeStateLeaving : string := "leaving".

Record departingNode := mkDeparting { dn_state : string; dn_reachable : bool }.

(** (decommission, gate) *)
Definition departingNodeAction (state : string) (reachable : bool) : bool * bool :=
  if negb reachable then (false, false)
  else if String.eqb state nodeStateLeaving then (false, false)
  else if String.eqb state nodeStateDecommissioning then (false, true)
  else (true, true).

(** The loop of [departurePlan] from index [i] on. *)
Fixpoint departure_loop (i : nat) (nodes : list departingNode) (together : bool)
    : list nat * bool :=
  match nodes with
  | [] => ([], true)
  | n :: nodes' =>
      let '(decommission, gate) := departingNodeAction (dn_state n) (dn_reachable n) in
      let here := if decommission then [i] else [] in
      if gate then
        if together then ((here ++ (departure_loop (S i) nodes' together).1)%list, false)
        else (here, false)
      else
        let '(tell, evacuated) := departure_loop (S i) nodes' together in
        ((here ++ tell)%list, evacuated)
  end.

Definition departurePlan (nodes : list departingNode) (together : bool) : list nat * bool :=
  departure_loop 0 nodes together.

Definition isDepartedState (state : string) : bool :=
  String.eqb state "leaving" || String.eqb state "decommissioning".

Section ScaleDown.
Context `{Lib}.
Implicit Types (c : HyperbytedbCluster) (ctx : Ctx).

(** ** Probing *)

Definition departing_of (r : GoErr + HealthStatus) : departingNode :=
  match r with
  | inl _ => mkDeparting "" false
  | inr hs => mkDeparting (hs_State hs) true
  end.

(** [!together && err == nil && state != nodeStateLeaving] *)
Definition stop_probing (together : bool) (n : departingNode) : bool :=
  negb together && dn_reachable n && negb (String.eqb (dn_state n) nodeStateLeaving).

Fixpoint probe_departing ctx c (together : bool) (ordinals : list Z)
    : P (list (departingNode * string)) :=
  match ordinals with
  | [] => mret []
  | i :: rest =>
      r ← GetNodeHealth ctx (pod_host c i) (ServerPort c);
      let n := departing_of r in
      if stop_probing together n then mret [(n, pod_host c i)]
      else
        more ← probe_departing ctx c together rest;
        mret ((n, pod_host c i) :: more)
  end.

(** [for _, i := range tell]: [departHosts[i]] out of range would panic. *)
Fixpoint tell_departing ctx c (hosts : list string) (tell : list nat) : P unit :=
  match tell with
  | [] => mret tt
  | i :: rest =>
      match hosts !! i with
      | Some h => DecommissionNode ctx h (ServerPort c) ≫= λ _, tell_departing ctx c hosts rest
      | None => Prog.Crash
      end
  end.

(** ** Raft voters *)

Definition sorted_ids (hosts : gmap Z string) : list Z :=
  merge_sort Z.le (elements (dom hosts)).

Fixpoint leader_among ctx (hosts : gmap Z string) (port : Z) (ids : list Z)
    : P (GoErr + string) :=
  match ids with
  | [] => mret (inl (errorf "no raft leader visible"))
  | id :: rest =>
      r ← GetClusterLeader ctx (default "" (hosts !! id)) port;
      match r with
      | inl _ => leader_among ctx hosts port rest
      | inr info =>
          match li_LeaderID info ≫= λ l, hosts !! l with
          | Some h => mret (inr h)
          | None => leader_among ctx hosts port rest
          end
      end
  end.

Definition raftLeaderHost ctx (hosts : gmap Z string) (port : Z) : P (GoErr + string) :=
  leader_among ctx hosts port (sorted_ids hosts).

Fixpoint removeDepartedVoters ctx (hosts : gmap Z string) (port : Z) (departed : list Z)
    : P error :=
  match departed with
  | [] => mret nil_err
  | id :: rest =>
      leaderHost ←! raftLeaderHost ctx hosts port;
      r ← RemoveClusterNode ctx leaderHost port id;
      match r with
      | inl e =>
          mret (inl (wrap_err ("remove node " +:+ Itoa id +:+ " from raft voters via "
                                 +:+ leaderHost) e))
      | inr _ => removeDepartedVoters ctx hosts port rest
      end
  end.

(** ** The hooks *)

(** [hosts[uint64(i+1)]] for the ordinals of the present cluster. *)
Definition host_map c (replicas : Z) : gmap Z string :=
  list_to_map ((λ i, (i + 1, pod_host c i)%Z) <$> ordinals_up 0 replicas).

(** The survivors are told, best effort, that [departedID] left. *)
Fixpoint tell_survivors ctx c (departedID : Z) (survivors : list Z) : P unit :=
  match survivors with
  | [] => mret tt
  | j :: rest =>
      LeaveNode ctx (pod_host c j) (ServerPort c) departedID ≫= λ _,
      tell_survivors ctx c departedID rest
  end.

Fixpoint announce_departed ctx c (desired : Z) (departing : list Z) : P unit :=
  match departing with
  | [] => mret tt
  | i :: rest =>
      tell_survivors ctx c (uint64 (i + 1)) (ordinals_up 0 desired) ≫= λ _,
      announce_departed ctx c desired rest
  end.

Definition runScaleDownClusterHooks ctx c (prevReplicas desiredReplicas : Z) : P bool :=
  if bool_decide (prevReplicas <= desiredReplicas)%Z || bool_decide (prevReplicas < 1)%Z
  then mret true
  else
    let together := EvacuateTogether c in
    probed ← probe_departing ctx c together (ordinals_down desiredReplicas prevReplicas);
    let '(tell, evacuated) := departurePlan probed.*1 together in
    tell_departing ctx c probed.*2 tell ≫= λ _,
    if negb evacuated then mret false
    else
      r ← make_slice (int32 (prevReplicas - desiredReplicas))
            (removeDepartedVoters ctx (host_map c prevReplicas) (ServerPort c)
               ((λ i, uint64 (i + 1)) <$> ordinals_down desiredReplicas prevReplicas));
      match r with
      | inl _ => mret false
      | inr _ =>
          announce_departed ctx c desiredReplicas (ordinals_up desiredReplicas prevReplicas)
            ≫= λ _, mret true
      end.

(** ** Stuck pods *)

Definition stuckDepartedPods (pods : list Pod) : list Pod :=
  List.filter
    (λ pod, negb (bool_decide (is_Some (om_DeletionTimestamp (pod_Meta pod))) || isPodReady pod))
    pods.

(** The pods of [ordinals] that exist. *)
Fixpoint get_pods c (ordinals : list Z) : P (GoErr + list Pod) :=
  match ordinals with
  | [] => mret (inr [])
  | i :: rest =>
      r ← do (Get KPod (cl_Namespace c) (pod_name c i));
      match r with
      | inl e => if IsNotFound e then get_pods c rest else mret (inl e)
      | inr pod => pods ←! get_pods c rest; mret (inr (pod :: pods))
      end
  end.

Definition delete_departed (pod : Pod) : P error :=
  r ← do (Delete KPod (om_Namespace (pod_Meta pod)) (pod_Name pod) false);
  match r with
  | inl e =>
      if IsNotFound e
      then do (Event EventTypeNormal "ScaleDown"
                 ("Deleted departed pod " +:+ pod_Name pod
                    +:+ " that blocked the StatefulSet scale-down")) ≫= λ _, mret nil_err
      else mret (inl (wrap_err ("deleting departed pod " +:+ pod_Name pod) e))
  | inr _ =>
      do (Event EventTypeNormal "ScaleDown"
            ("Deleted departed pod " +:+ pod_Name pod
               +:+ " that blocked the StatefulSet scale-down")) ≫= λ _, mret nil_err
  end.

Definition deleteStuckDepartedPods c (sts : stsReconcileResult) : P error :=
  if bool_decide (srr_StatusReplicas sts <= srr_SpecReplicas sts)%Z then mret nil_err
  else
    pods ←! make_slice (int32 (srr_StatusReplicas sts - srr_SpecReplicas sts))
              (get_pods c (ordinals_up (srr_SpecReplicas sts) (srr_StatusReplicas sts)));
    for_each_err (stuckDepartedPods pods) delete_departed.

(** ** Volumes *)

Definition pvc_name c (i : Z) : string := "data-" +:+ StatefulSetName c +:+ "-" +:+ Itoa i.

Definition cleanup_pvc c (i : Z) : P error :=
  r ← do (Get KPVC (cl_Namespace c) (pvc_name c i));
  match r with
  | inl e =>
      if IsNotFound e then mret nil_err
      else mret (inl (wrap_err ("looking up PVC " +:+ pvc_name c i) e))
  | inr pvc =>
      d ← do (Delete KPVC (om_Namespace (pvc_Meta pvc)) (om_Name (pvc_Meta pvc)) false);
      match d with
      | inl e =>
          if IsNotFound e then mret nil_err
          else mret (inl (wrap_err ("deleting PVC " +:+ pvc_name c i) e))
      | inr _ => mret nil_err
      end
  end.

Definition CleanupOrphanPVCs c (currentReplicas desiredReplicas : Z) : P error :=
  for_each_err (ordinals_up desiredReplicas currentReplicas) (cleanup_pvc c).
End ScaleDown.
