(* ===== verification/Members.v ===== *)
(** The members of a cluster (internal/hyperbytedb/member.go) and the steps of the
    reconciler that watch and change the membership
    (internal/controller/hyperbytedbcluster_controller.go): auto-failover, Raft
    membership, replication health. *)

From S2P Require Import Prelude GoStrings Messages Lib ApiTypes Image Compat Config K8s Prog Go Client Controller ScaleDown.
#[local] Open Scope string_scope.

(** [time.Duration.String] of a duration truncated to whole seconds. *)
Definition duration_string (d : Z) : string :=
  let s := Z.abs (Z.quot d Second) in
  let h := Z.quot s 3600 in let m := Z.rem (Z.quot s 60) 60 in let sec := Z.rem s 60 in
  (if bool_decide (Z.quot d Second < 0)%Z then "-" else "") +:+
  (if bool_decide (0 < h)%Z then Itoa h +:+ "h" +:+ Itoa m +:+ "m"
   else if bool_decide (0 < m)%Z then Itoa m +:+ "m" else "") +:+ Itoa sec +:+ "s".

(** ** Member status *)

Definition healthy_status (s : string) : bool :=
  String.eqb s "pass" || String.eqb s "Active" || String.eqb s "active".

(** [Syncing], [Joining] in either case. *)
Definition syncing_state (s : string) : bool :=
  String.eqb s "Syncing" || String.eqb s "Joining" || String.eqb s "syncing"
  || String.eqb s "joining".

Definition count {A} (f : A → bool) (l : list A) : nat := length (List.filter f l).

Definition DeriveClusterState (members : list MemberStatus) : string :=
  match members with
  | [] => "Unknown"
  | _ =>
      let healthy := count ms_Health members in
      let syncing := count (λ m, negb (ms_Health m) && syncing_state (ms_State m)) members in
      if Nat.eqb healthy (length members) then "Healthy"
      else if Nat.ltb 0 syncing && Nat.eqb (healthy + syncing) (length members) then "Recovering"
      else if Nat.ltb 0 healthy then "Degraded"
      else "Unavailable"
  end.

Definition FindUnhealthyMembers (members : list MemberStatus) : list MemberStatus :=
  List.filter (λ m, negb (ms_Health m)) members.

Section Members.
Context `{Lib}.
Implicit Types (c : HyperbytedbCluster) (ctx : Ctx).

(** One turn of the loop of [CollectMemberStatuses]. *)
Definition collect_member ctx c (namespace : string) (i : Z) : P MemberStatus :=
  now ← do Now;
  hs ← GetNodeHealth ctx
         (pod_name c i +:+ "." +:+ HeadlessServiceName c +:+ "." +:+ namespace
            +:+ ".svc.cluster.local") (ServerPort c);
  mret match hs with
       | inl _ =>
           mkMember (cl_Name c +:+ "-" +:+ Itoa i) (i + 1) (pod_name c i) "Unreachable" false
             0 0 0 now
       | inr hs =>
           mkMember (cl_Name c +:+ "-" +:+ Itoa i) (i + 1) (pod_name c i) (hs_Status hs)
             (healthy_status (hs_Status hs)) 0 0 0 now
       end.

Fixpoint collect_members ctx c (namespace : string) (ordinals : list Z)
    : P (list MemberStatus) :=
  match ordinals with
  | [] => mret []
  | i :: rest =>
      m ← collect_member ctx c namespace i;
      ms ← collect_members ctx c namespace rest;
      mret (m :: ms)
  end.

Definition CollectMemberStatuses ctx c (namespace : string) (replicas : Z)
    : P (list MemberStatus) :=
  make_slice replicas (collect_members ctx c namespace (ordinals_up 0 replicas)).

(** ** Auto-failover *)

Definition max_failovers (f : FailoverSpec) : Z :=
  if bool_decide (fo_MaxFailoverCount f <= 0)%Z then 1 else fo_MaxFailoverCount f.
Definition failover_timeout (f : FailoverSpec) : Z :=
  let secs := if bool_decide (fo_FailoverTimeoutSecs f <= 0)%Z then 300%Z
              else fo_FailoverTimeoutSecs f in
  seconds secs.

(** The pod is deleted: the event, and [cluster.Status.FailoverCount++]. *)
Definition failed_over (m : MemberStatus) (age : Z) : CM error :=
  record_event EventTypeWarning "AutoFailover"
    ("Deleted unhealthy pod " +:+ ms_PodName m +:+ " (state=" +:+ ms_State m
       +:+ ", unhealthy for " +:+ duration_string age +:+ ")") ≫= λ _,
  modify_status (λ s, set_failovers s (int32 (st_FailoverCount s + 1))) ≫= λ _,
  pure nil_err.

(** The loop, left after the first deletion. *)
Fixpoint failover_loop (timeout : Z) (members : list MemberStatus) : CM error :=
  match members with
  | [] => pure nil_err
  | m :: rest =>
      if String.eqb (ms_State m) "Syncing" || String.eqb (ms_State m) "Joining"
      then failover_loop timeout rest
      else
        age ← lift (Since (ms_LastTransitionTime m));
        if bool_decide (age < timeout)%Z then failover_loop timeout rest
        else
          c ← get;
          r ← lift (do (Get KPod (cl_Namespace c) (ms_PodName m)));
          match r with
          | inl e => if IsNotFound e then failover_loop timeout rest else pure (inl e)
          | inr pod =>
              d ← lift (do (Delete KPod (om_Namespace (pod_Meta pod)) (pod_Name pod) false));
              match d with
              | inl e =>
                  if IsNotFound e then failed_over m age
                  else pure (inl (wrap_err ("deleting failed pod " +:+ ms_PodName m) e))
              | inr _ => failed_over m age
              end
          end
  end.

Definition handleAutoFailover (members : list MemberStatus) : CM error :=
  c ← get;
  match sp_Failover (cl_Spec c) with
  | None => pure nil_err
  | Some f =>
      if negb (fo_Enabled f) then pure nil_err
      else if bool_decide (max_failovers f <= st_FailoverCount (cl_Status c))%Z
      then pure nil_err
      else failover_loop (failover_timeout f) (FindUnhealthyMembers members)
  end.

(** ** Raft membership *)

Record podView := mkPodView {
  pv_ordinal : Z; pv_host : string; pv_nodeID : Z; pv_addr : string;
  pv_reachable : bool; pv_nodes : list NodeInfo }.

Definition view_pod ctx c (i : Z) : P podView :=
  r ← GetClusterNodes ctx (pod_host c i) (ServerPort c);
  let addr := pod_host c i +:+ ":" +:+ Itoa (ServerPort c) in
  mret match r with
       | inl _ => mkPodView i (pod_host c i) (uint64 (i + 1)) addr false []
       | inr nodes => mkPodView i (pod_host c i) (uint64 (i + 1)) addr true nodes
       end.

Fixpoint view_pods ctx c (ordinals : list Z) : P (list podView) :=
  match ordinals with
  | [] => mret []
  | i :: rest =>
      v ← view_pod ctx c i;
      vs ← view_pods ctx c rest;
      mret (v :: vs)
  end.

(** The leader named by the answer of [v], if one of [views] is it. *)
Definition named_by (views : list podView) (v : podView) (info : LeaderInfo)
    : option (string * Z) :=
  match li_LeaderID info with
  | None => None
  | Some l =>
      if Z.eqb l (pv_nodeID v) then Some (pv_host v, l)
      else (λ w, (pv_host w, l)) <$> List.find (λ w, Z.eqb (pv_nodeID w) l) views
  end.

Fixpoint find_leader_among ctx (port : Z) (all views : list podView) : P (string * Z) :=
  match views with
  | [] => mret ("", 0%Z)
  | v :: rest =>
      if negb (pv_reachable v) then find_leader_among ctx port all rest
      else
        r ← GetClusterLeader ctx (pv_host v) port;
        match r with
        | inl _ => find_leader_among ctx port all rest
        | inr info =>
            match named_by all v info with
            | Some l => mret l
            | None => find_leader_among ctx port all rest
            end
        end
  end.

Definition findLeader ctx (views : list podView) (port : Z) : P (string * Z) :=
  find_leader_among ctx port views views.

Definition conditionClusterFormed : string := "ClusterFormed".
Definition formed_condition (status : ConditionStatus) (reason message : string) (now : Time)
    : Condition := mkCondition conditionClusterFormed status reason message now 0.

(** The node ids in the leader's view that have not departed, and the leader. *)
Definition known_ids (views : list podView) (leaderHost : string) (leaderID : Z) : gset Z :=
  {[ leaderID ]} ∪
  list_to_set (mbind (λ v,
    if String.eqb (pv_host v) leaderHost
    then (λ n, uint64 (ni_NodeID n)) <$>
           List.filter (λ n, negb (isDepartedState (ni_State n))) (pv_nodes v)
    else []) views).

(** The loop that adds nodes; the result is [allMembers]. *)
Fixpoint add_members ctx (leaderHost : string) (port : Z) (known : gset Z)
    (views : list podView) : P bool :=
  match views with
  | [] => mret true
  | v :: rest =>
      if negb (pv_reachable v) then
        add_members ctx leaderHost port known rest ≫= λ _, mret false
      else if bool_decide (pv_nodeID v ∈ known) then add_members ctx leaderHost port known rest
      else
        r ← AddClusterNode ctx leaderHost port (pv_nodeID v) (pv_addr v) true;
        match r with
        | inl _ => add_members ctx leaderHost port known rest ≫= λ _, mret false
        | inr resp =>
            do (Event EventTypeNormal "MemberAdded"
                  ("Added node " +:+ Itoa (pv_nodeID v) +:+ " (" +:+ pv_addr v
                     +:+ ") to raft cluster (promoted=" +:+ fmt_bool (an_PromotedToVoter resp)
                     +:+ ")")) ≫= λ _,
            add_members ctx leaderHost port known rest
        end
  end.

(** The first member that satisfies [p] is updated: a loop with [break]. *)
Fixpoint update_first {A} (p : A → bool) (f : A → A) (l : list A) : list A :=
  match l with
  | [] => []
  | a :: l' => if p a then f a :: l' else a :: update_first p f l'
  end.

Definition set_peer_count (views : list podView) (members : list MemberStatus)
    : list MemberStatus :=
  foldl (λ ms v,
    if pv_reachable v then
      update_first (λ m, Z.eqb (uint64 (ms_NodeID m)) (pv_nodeID v))
        (λ m, mkMember (ms_Name m) (ms_NodeID m) (ms_PodName m) (ms_State m) (ms_Health m)
                (ms_WALSequence m) (ms_ParquetFiles m)
                (int32 (int32 (Z.of_nat (length (pv_nodes v))) - 1)) (ms_LastTransitionTime m)) ms
    else ms) members views.

Definition update_members (f : list MemberStatus → list MemberStatus) : CM unit :=
  modify_status (λ s, set_members s (f (st_Members s)) (st_ClusterState s)).

Definition reconcileClusterMembership ctx (replicas : Z) : CM unit :=
  c ← get;
  let port := ServerPort c in
  views ← lift (make_slice replicas (view_pods ctx c (ordinals_up 0 replicas)));
  leader ← lift (findLeader ctx views port);
  if String.eqb leader.1 "" then
    set_cluster_condition (formed_condition ConditionFalse "NoLeader" "No raft leader reachable yet")
  else
    let known := known_ids views leader.1 leader.2 in
    allMembers ← lift (add_members ctx leader.1 port known views);
    update_members (set_peer_count views) ≫= λ _,
    if (allMembers : bool) && bool_decide (replicas <= Z.of_nat (size known))%Z then
      set_cluster_condition (formed_condition ConditionTrue "AllNodesMembers"
        ("All " +:+ Itoa replicas +:+ " expected nodes are raft members"))
    else
      set_cluster_condition (formed_condition ConditionFalse "MembershipIncomplete"
        (Itoa (Z.of_nat (size known)) +:+ "/" +:+ Itoa replicas
           +:+ " expected nodes are raft members")).

(** ** Replication health *)

Definition replicationStateHealthy : string := "Healthy".

(** [nodeManifest], without the ordinal, which is not read again. *)
Record nodeManifest := mkNodeManifest { nm_ordinal : Z; nm_walSeq : Z; nm_parquetFiles : Z }.

Definition manifest_of (i : Z) (m : SyncManifest) : nodeManifest :=
  mkNodeManifest i (sm_WALLastSeq m) (int32 (TotalParquetFiles m)).

Definition set_manifest (nm : nodeManifest) (members : list MemberStatus) : list MemberStatus :=
  update_first (λ m, Z.eqb (ms_NodeID m) (int32 (nm_ordinal nm + 1)))
    (λ m, mkMember (ms_Name m) (ms_NodeID m) (ms_PodName m) (ms_State m) (ms_Health m)
            (nm_walSeq nm) (nm_parquetFiles nm) (ms_PeerCount m) (ms_LastTransitionTime m))
    members.

Fixpoint collect_manifests ctx (ordinals : list Z) : CM (list nodeManifest) :=
  match ordinals with
  | [] => pure []
  | i :: rest =>
      c ← get;
      r ← lift (GetSyncManifest ctx (pod_host c i) (ServerPort c));
      match r with
      | inl _ => collect_manifests ctx rest
      | inr m =>
          update_members (set_manifest (manifest_of i m)) ≫= λ _,
          ms ← collect_manifests ctx rest;
          pure (manifest_of i m :: ms)
      end
  end.

(** [maxFiles] and [minFiles]. *)
Definition max_files (first : nodeManifest) (rest : list nodeManifest) : Z :=
  foldl (λ a m, if bool_decide (a < nm_parquetFiles m)%Z then nm_parquetFiles m else a)
    (nm_parquetFiles first) rest.
Definition min_files (first : nodeManifest) (rest : list nodeManifest) : Z :=
  foldl (λ a m, if bool_decide (nm_parquetFiles m < a)%Z then nm_parquetFiles m else a)
    (nm_parquetFiles first) rest.

(** (state, reason), in int32 arithmetic. *)
Definition replication_state (maxFiles minFiles : Z) : string * string :=
  if bool_decide (0 < maxFiles)%Z && bool_decide (minFiles < Z.quot maxFiles 2)%Z
  then ("Diverged", "LargeDataGap")
  else if bool_decide (0 < maxFiles)%Z
          && bool_decide (minFiles < Z.quot (int32 (maxFiles * 8)) 10)%Z
  then ("Lagging", "DataLag")
  else (replicationStateHealthy, "InSync").

Definition replication_condition (status : ConditionStatus) (reason message : string)
    (now : Time) : Condition :=
  mkCondition "ReplicationHealthy" status reason message now 0.

Definition monitorReplicationHealth ctx (replicas : Z) : CM unit :=
  manifests ← collect_manifests ctx (ordinals_up 0 replicas);
  match manifests with
  | first :: ((_ :: _) as rest) =>
      let maxFiles := max_files first rest in
      let minFiles := min_files first rest in
      let '(replState, reason) := replication_state maxFiles minFiles in
      modify_status (λ s, set_replication s replState) ≫= λ _,
      set_cluster_condition (replication_condition
        (if String.eqb replState replicationStateHealthy then ConditionTrue else ConditionFalse)
        reason
        ("Parquet files: min=" +:+ Itoa minFiles +:+ " max=" +:+ Itoa maxFiles +:+ " across "
           +:+ Itoa (Z.of_nat (length manifests)) +:+ " nodes"))
  | _ =>
      modify_status (λ s, set_replication s "Unknown") ≫= λ _,
      set_cluster_condition (replication_condition ConditionUnknown "InsufficientData"
        "Could not query enough nodes for replication comparison")
  end.
End Members.
