(* ===== verification/Reconcile.v ===== *)
(** [HyperbytedbClusterReconciler.Reconcile]
    (internal/controller/hyperbytedbcluster_controller.go): the sixteen steps of a
    pass over one cluster, in order, with their early returns.

    A step that can end the pass yields [inl r], the result and error [Reconcile]
    returns; [x ←r m; k] goes on with the value otherwise. *)

From S2P Require Import Prelude GoStrings Lib ApiTypes Image Compat Config K8s StatefulSet Prog Go Client Proxy Auth Controller RollingRestart Resources ScaleDown Members.
#[local] Open Scope string_scope.

(** What [Reconcile] returns: [(ctrl.Result, error)]. *)
Abbreviation Final := (Result * option GoErr)%type.

Definition rbind `{Lib} {A B} (m : CM (Final + A)) (f : A → CM (Final + B)) : CM (Final + B) :=
  m ≫= λ r, match r with inl fin => pure (inl fin) | inr a => f a end.

Notation "x ←r m ; k" := (rbind m (λ x, k))
  (at level 20, m at level 100, k at level 200, right associativity,
   format "x  ←r  m ;  '/' k") : stdpp_scope.

Section Reconcile.
Context `{Lib}.
Implicit Types (c : HyperbytedbCluster) (ctx : Ctx).

(** ** Returning *)

Definition return_ok {A} (r : Result) : CM (Final + A) := pure (inl (r, None)).
Definition return_err {A} (e : GoErr) : CM (Final + A) := pure (inl (no_requeue, Some e)).

Definition degraded_condition (reason message : string) (now : Time) : Condition :=
  mkCondition "Degraded" ConditionTrue reason message now 0.

(** [err.Error()] on a nil error is a nil dereference. *)
Definition setFailedStatus {A} (reason : string) (err : option GoErr) : CM (Final + A) :=
  modify_status (λ s, set_phase s ClusterPhaseFailed) ≫= λ _,
  match err with
  | None => panic
  | Some e =>
      set_cluster_condition (degraded_condition reason (err_Msg e)) ≫= λ _,
      StatusUpdateCluster ≫= λ _,
      record_event EventTypeWarning reason ("Reconciliation failed: " +:+ err_Msg e) ≫= λ _,
      pure (inl (requeue_after (30 * Second)%Z, Some e))
  end.

(** [if err := step; err != nil { return r.setFailedStatus(ctx, cluster, reason, err) }] *)
Definition or_fail {A} (reason : string) (m : CM (GoErr + A)) : CM (Final + A) :=
  m ≫= λ r, match r with inl e => setFailedStatus reason (Some e) | inr a => pure (inr a) end.

(** [if err := step; err != nil { return ctrl.Result{}, err }] *)
Definition or_return {A} (m : CM (GoErr + A)) : CM (Final + A) :=
  m ≫= λ r, match r with inl e => return_err e | inr a => pure (inr a) end.

(** A step whose error is only logged. *)
Definition best_effort (m : CM error) : CM (Final + unit) := m ≫= λ _, pure (inr tt).

(** A step that only reads the cluster. *)
Definition on_cluster {A} (f : HyperbytedbCluster → P A) : CM A := c ← get; lift (f c).

Definition UpdateCluster : CM error :=
  c ← get;
  r ← lift (do (Update KCluster c));
  match r with
  | inl e => pure (inl e)
  | inr c' => put c' ≫= λ _, pure nil_err
  end.

(** ** Pause, deletion, finalizer *)

Definition clusterFinalizer : string := "hyperbytedb.hyperbyte.cloud/finalizer".

Definition paused_condition (now : Time) : Condition :=
  mkCondition "Paused" ConditionTrue "UserRequested" "Reconciliation is paused" now 0.

Definition pause_check : CM (Final + unit) :=
  c ← get;
  if sp_Paused (cl_Spec c) then
    set_cluster_condition paused_condition ≫= λ _,
    StatusUpdateCluster ≫= λ _,
    return_ok no_requeue
  else
    modify_status (λ s, set_conditions s (RemoveStatusCondition (st_Conditions s) "Paused")) ≫= λ _,
    pure (inr tt).

Definition modify_finalizers (f : list string → list string) : CM unit :=
  modify (λ c, with_meta c (set_finalizers (cl_Meta c) (f (om_Finalizers (cl_Meta c))))).

Definition deletion : CM (Final + unit) :=
  c ← get;
  match om_DeletionTimestamp (cl_Meta c) with
  | None => pure (inr tt)
  | Some _ =>
      if ContainsFinalizer (om_Finalizers (cl_Meta c)) clusterFinalizer then
        record_event EventTypeNormal "Deleting" "Cleaning up cluster resources" ≫= λ _,
        modify_finalizers (λ fs, RemoveFinalizer fs clusterFinalizer) ≫= λ _,
        _ ←r or_return UpdateCluster;
        return_ok no_requeue
      else return_ok no_requeue
  end.

Definition ensure_finalizer : CM (Final + unit) :=
  c ← get;
  if ContainsFinalizer (om_Finalizers (cl_Meta c)) clusterFinalizer then pure (inr tt)
  else
    modify_finalizers (λ fs, AddFinalizer fs clusterFinalizer) ≫= λ _,
    or_return UpdateCluster.

(** The replicas of the StatefulSet before the pass; 0 when there is none. *)
Definition previous_replicas : CM (Final + Z) :=
  r ← on_cluster (λ c, do (Get KStatefulSet (cl_Namespace c) (StatefulSetName c)));
  match r with
  | inr s =>
      match sts_Replicas s with
      | Some n => pure (inr n)
      | None => setFailedStatus "StatefulSetLookupFailed" None
      end
  | inl e =>
      if IsNotFound e then pure (inr 0%Z) else setFailedStatus "StatefulSetLookupFailed" (Some e)
  end.

(** ** Steps 1 to 6 *)

(** 1b. The context the rest of the pass uses. *)
Definition auth_step ctx : CM (Final + Ctx) :=
  c ← get;
  if ClusterAuthEnabled c then
    token ←r or_fail "AuthSecretFailed" (on_cluster reconcileAuthSecret);
    pure (inr (WithClusterToken ctx token))
  else pure (inr ctx).

Definition scale_down_step ctx (prev replicas : Z) : CM (Final + unit) :=
  ok ← on_cluster (λ c, runScaleDownClusterHooks ctx c prev replicas);
  if (ok : bool) then pure (inr tt) else return_ok (requeue_after (10 * Second)%Z).

Definition statefulset_step (configHash : string) : CM (Final + stsReconcileResult) :=
  r ← on_cluster (λ c, reconcileStatefulSet c configHash);
  match r with
  | inl e =>
      if IsConflict e then return_ok (requeue_after Second)
      else setFailedStatus "StatefulSetFailed" (Some e)
  | inr res =>
      if srr_Recreating res then return_ok (requeue_after (2 * Second)%Z) else pure (inr res)
  end.

(** ** Steps 6a to 8 *)

Definition proxy_step : CM (Final + unit) :=
  c ← get;
  if ProxyEnabled c then best_effort (on_cluster reconcileProxy) else pure (inr tt).

Definition rolling_restart_step ctx (sts : stsReconcileResult) (replicas : Z)
    : CM (Final + unit) :=
  c ← get;
  if ProxyEnabled c then
    r ←r or_fail "RollingRestartFailed" (reconcileRollingRestart ctx sts replicas);
    match (r : option Result) with
    | Some res => return_ok res
    | None => pure (inr tt)
    end
  else pure (inr tt).

Definition updatePhase (phase : ClusterPhase) : CM unit :=
  modify_status (λ s, set_phase s phase) ≫= λ _, StatusUpdateCluster ≫= λ _, pure tt.

Definition scaling_step (sts : stsReconcileResult) (replicas : Z) : CM (Final + unit) :=
  if Z.eqb (srr_SpecReplicas sts) replicas then pure (inr tt)
  else
    record_event EventTypeNormal
      (if bool_decide (srr_SpecReplicas sts < replicas)%Z then "ScalingUp" else "ScalingDown")
      ("Scaling from " +:+ Itoa (srr_SpecReplicas sts) +:+ " to " +:+ Itoa replicas +:+ " replicas")
      ≫= λ _,
    updatePhase ClusterPhaseScaling ≫= λ _,
    return_ok (requeue_after (5 * Second)%Z).

Definition orphan_pvc_step (prev replicas : Z) : CM (Final + unit) :=
  if bool_decide (replicas < prev)%Z
  then best_effort (on_cluster (λ c, CleanupOrphanPVCs c prev replicas))
  else pure (inr tt).

(** ** Steps 9 to 16 *)

Definition service_monitor_step : CM (Final + unit) :=
  c ← get;
  if mon_ServiceMonitor (sp_Monitoring (cl_Spec c))
  then best_effort (on_cluster reconcileServiceMonitor) else pure (inr tt).

Definition version_condition (reason message : string) (generation : Z) (_ : Time) : Condition :=
  mkCondition "DatabaseVersion"
    (if String.eqb reason "OlderThanSupported" then ConditionFalse else ConditionTrue)
    reason message 0%Z generation.

(** 12. *)
Definition members_step ctx (replicas : Z) : CM (list MemberStatus) :=
  members ← on_cluster (λ c, CollectMemberStatuses ctx c (cl_Namespace c) replicas);
  modify_status (λ s, set_members s members (DeriveClusterState members)) ≫= λ _,
  c ← get;
  let '(reason, message) := CompatibilitySummary c in
  set_cluster_condition (version_condition reason message (om_Generation (cl_Meta c))) ≫= λ _,
  pure members.

(** [Status.UpdateRevision != "" && != CurrentRevision], [false] when the read fails. *)
Definition upgrading : CM bool :=
  r ← on_cluster (λ c, do (Get KStatefulSet (cl_Namespace c) (StatefulSetName c)));
  pure match r with inr s => rolling_upgrade s | inl _ => false end.

Definition available_condition (status : ConditionStatus) (reason : string)
    (sts : stsReconcileResult) (now : Time) : Condition :=
  mkCondition "Available" status reason
    (Itoa (srr_ReadyReplicas sts) +:+ "/" +:+ Itoa (srr_SpecReplicas sts) +:+ " replicas ready")
    now 0.

(** The phase when not every replica is ready. *)
Definition unready_phase (p : ClusterPhase) (rollingUpgrade : bool) : ClusterPhase :=
  match p with
  | ClusterPhaseFailed => ClusterPhaseFailed
  | ClusterPhaseScaling => ClusterPhaseScaling
  | _ => if rollingUpgrade then ClusterPhaseUpgrading else ClusterPhaseInitializing
  end.

Definition updateStatus (sts : stsReconcileResult) (configHash : string) : CM unit :=
  modify_status (λ s, set_counts s (srr_SpecReplicas sts) (srr_ReadyReplicas sts) configHash)
    ≫= λ _,
  rollingUpgrade ← upgrading;
  (if Z.eqb (srr_ReadyReplicas sts) (srr_SpecReplicas sts)
      && bool_decide (0 < srr_SpecReplicas sts)%Z then
     modify_status (λ s, set_phase s ClusterPhaseRunning) ≫= λ _,
     set_cluster_condition (available_condition ConditionTrue "AllReplicasReady" sts)
   else
     modify_status (λ s, set_phase s (unready_phase (st_Phase s) rollingUpgrade)) ≫= λ _,
     set_cluster_condition (available_condition ConditionFalse "ReplicasNotReady" sts)) ≫= λ _,
  StatusUpdateCluster ≫= λ _, pure tt.

Definition reconciled_condition (generation : Z) (_ : Time) : Condition :=
  mkCondition "Degraded" ConditionFalse "Reconciled" "the last reconcile completed" 0%Z generation.

(** Steps 12 to 16, which cannot end the pass early. *)
Definition observe ctx (sts : stsReconcileResult) (replicas : Z) (configHash : string)
    : CM Final :=
  members ← members_step ctx replicas;
  (if bool_decide (1 < replicas)%Z then reconcileClusterMembership ctx replicas else pure tt)
    ≫= λ _,
  (if bool_decide (1 < replicas)%Z then monitorReplicationHealth ctx replicas else pure tt)
    ≫= λ _,
  handleAutoFailover members ≫= λ _,
  c ← get;
  set_cluster_condition (reconciled_condition (om_Generation (cl_Meta c))) ≫= λ _,
  updateStatus sts configHash ≫= λ _,
  pure (requeue_after (30 * Second)%Z, None).

(** ** The pass *)

(** Everything up to the scale-down gate: the context, the present and the desired
    replicas, and the configuration hash. *)
Definition prepare ctx : CM (Final + (Ctx * Z * Z * string)) :=
  _ ←r pause_check;
  _ ←r deletion;
  _ ←r ensure_finalizer;
  c ← get;
  let replicas := spec_replicas c in
  let configHash := ConfigHash c in
  prev ←r previous_replicas;
  _ ←r or_fail "TLSFailed" (on_cluster (λ c, reconcileTLS c replicas));
  ctx ←r auth_step ctx;
  _ ←r or_fail "ConfigMapFailed" (on_cluster reconcileConfigMap);
  _ ←r best_effort (on_cluster cleanupLegacyPeersConfigMap);
  _ ←r or_fail "HeadlessServiceFailed" (on_cluster (λ c, reconcileService c (BuildHeadlessService c)));
  _ ←r or_fail "ClientServiceFailed" (on_cluster (λ c, reconcileService c (BuildClientService c)));
  pure (inr (ctx, prev, replicas, configHash)).

(** Everything after the StatefulSet is up to date. *)
Definition converge ctx (sts : stsReconcileResult) (prev replicas : Z) (configHash : string)
    : CM (Final + Final) :=
  _ ←r or_fail "ScaleDownFailed" (on_cluster (λ c, deleteStuckDepartedPods c sts));
  _ ←r proxy_step;
  _ ←r rolling_restart_step ctx sts replicas;
  _ ←r scaling_step sts replicas;
  _ ←r orphan_pvc_step prev replicas;
  _ ←r service_monitor_step;
  _ ←r best_effort (on_cluster reconcilePDB);
  _ ←r best_effort (on_cluster reconcileHPA);
  fin ← observe ctx sts replicas configHash;
  pure (inr fin).

(** The steps of a pass: [inl] when one of them ends it early, [inr] at the end of the
    last. *)
Definition reconcile_steps ctx : CM (Final + Final) :=
  p ←r prepare ctx;
  let '(ctx, prev, replicas, configHash) := p in
  _ ←r scale_down_step ctx prev replicas;
  sts ←r statefulset_step configHash;
  converge ctx sts prev replicas configHash.

Definition reconcile_cluster ctx : CM Final :=
  r ← reconcile_steps ctx;
  pure match r with inl fin => fin | inr fin => fin end.

Definition Reconcile ctx (ns name : string) : P Final :=
  r ← do (Get KCluster ns name);
  match r with
  | inl e => if IsNotFound e then mret (no_requeue, None) else mret (no_requeue, Some e)
  | inr cluster => res ← reconcile_cluster ctx cluster; mret res.2
  end.
End Reconcile.
