(* ===== verification/S3.v ===== *)
(** The containers that move backups to and from S3
    (internal/controller/s3_transfer.go). *)

From S2P Require Import Prelude GoStrings Lib ApiTypes Image Config K8s StatefulSet.
#[local] Open Scope string_scope.

(** ** Scripts

    The shell scripts are full of double quotes: they are written with [@] for the
    quote, which [script] puts back.  No script contains the at sign. *)
Fixpoint script (s : string) : string :=
  match s with
  | EmptyString => ""
  | String a s' =>
      if Ascii.eqb a "@" then dq +:+ script s' else String a (script s')
  end.
Definition script_text (lines : list string) : string := script (text lines).

Definition defaultS3ClientImage : string := "amazon/aws-cli:2.38.5".
Definition snapshotVolumeName : string := "snapshot".
Definition snapshotMountPath : string := "/snapshot".
Definition dataVolumeName : string := "data".
Definition dataMountPath : string := "/var/lib/hyperbytedb".

Definition shellCommand (s : string) : list string := ["/bin/sh"; "-ec"; s].
Definition s3ClientImage : string := defaultS3ClientImage.

(** ** Where *)

Definition s3Endpoint (s3 : S3BackupSpec) : string :=
  if negb (String.eqb (s3_Endpoint s3) "") then s3_Endpoint s3
  else if negb (String.eqb (s3_Region s3) "") && negb (String.eqb (s3_Region s3) "us-east-1")
  then "https://s3." +:+ s3_Region s3 +:+ ".amazonaws.com"
  else "https://s3.amazonaws.com".

Definition s3Prefix (s3 : S3BackupSpec) : string :=
  let p := TrimByte (s3_Prefix s3) "/" in
  if String.eqb p "" then "" else p +:+ "/".

Definition s3Region (s3 : S3BackupSpec) : string := str_or (s3_Region s3) "us-east-1".

(** [s3Env(s3)]: no caller passes [extra]. *)
Definition s3Env (s3 : S3BackupSpec) : list EnvVar :=
  ([ EnvValue "S3_ENDPOINT" (s3Endpoint s3);
     EnvValue "S3_BUCKET" (s3_Bucket s3);
     EnvValue "S3_PREFIX" (s3Prefix s3);
     EnvValue "AWS_DEFAULT_REGION" (s3Region s3);
     EnvValue "AWS_CONFIG_FILE" "/tmp/aws-config" ]
   ++ (if negb (String.eqb (s3_Endpoint s3) "") then [EnvValue "S3_PATH_STYLE" "1"] else [])
   ++ (if negb (String.eqb (s3_CredentialsSecretName s3) "")
       then [ EnvSecret "AWS_ACCESS_KEY_ID" (s3_CredentialsSecretName s3) "access_key_id";
              EnvSecret "AWS_SECRET_ACCESS_KEY" (s3_CredentialsSecretName s3) "secret_access_key" ]
       else []))%list.

(** ** Volumes *)

Definition snapshotVolume : Volume := NamedVolume snapshotVolumeName VolEmptyDir.

Definition dataVolume (clusterName : string) (ordinal : Z) (readOnly : bool) : Volume :=
  NamedVolume dataVolumeName
    (VolPVC ("data-" +:+ clusterName +:+ "-" +:+ Itoa ordinal) readOnly).

(** ** Containers *)

Definition job_container (name image : string) (cmd : list string) (env : list EnvVar)
    (mounts : list VolumeMount) : Container :=
  mkContainer name image "" cmd env [] mounts None None None (Raw "") None.

Definition snapshotBackupInitContainer (image : string) : Container :=
  job_container "snapshot" image
    (shellCommand (script_text
       [ "echo @Starting hyperbytedb backup...@";
         "hyperbytedb backup --output /snapshot";
         "echo @Backup size: $(du -sh /snapshot | cut -f1)@" ]))
    []
    [ Mount dataVolumeName dataMountPath true; Mount snapshotVolumeName snapshotMountPath false ].

Definition awsSetup : string :=
  script_text
    [ "if [ -n @${S3_PATH_STYLE:-}@ ]; then";
      "  aws configure set default.s3.addressing_style path";
      "  EP=@--endpoint-url ${S3_ENDPOINT}@";
      "else";
      "  EP=@@";
      "fi" ].

Definition retention_days (retentionDays : Z) : Z :=
  if bool_decide (retentionDays < 1)%Z then 7 else retentionDays.

Definition upload_script (days : Z) : string :=
  awsSetup +:+ script_text
    [ "TIMESTAMP=$(date -u +%Y%m%d-%H%M%S)";
      "DEST=@s3://${S3_BUCKET}/${S3_PREFIX}${TIMESTAMP}/@";
      "echo @Uploading to ${DEST}...@";
      "aws $EP s3 sync /snapshot @${DEST}@ --only-show-errors";
      "echo @Cleaning up backups older than " +:+ Itoa days +:+ " days...@";
      "CUTOFF=$(date -u -d @-" +:+ Itoa days +:+ " days@ +%Y%m%d-%H%M%S)";
      "aws $EP s3 ls @s3://${S3_BUCKET}/${S3_PREFIX}@ | awk '$1 == @PRE@ { print $2 }' | while read -r dir; do";
      "  ts=@${dir%/}@";
      "  case @$ts@ in";
      "    [0-9][0-9][0-9][0-9][0-9][0-9][0-9][0-9]-[0-9][0-9][0-9][0-9][0-9][0-9]) ;;";
      "    *) continue ;;";
      "  esac";
      "  if [ @$ts@ \< @$CUTOFF@ ]; then";
      "    echo @Removing ${dir}@";
      "    aws $EP s3 rm --recursive @s3://${S3_BUCKET}/${S3_PREFIX}${dir}@ --only-show-errors";
      "  fi";
      "done || true";
      "echo @Backup complete@" ].

Definition s3UploadContainer (s3 : S3BackupSpec) (retentionDays : Z) : Container :=
  job_container "upload" s3ClientImage (shellCommand (upload_script (retention_days retentionDays)))
    (s3Env s3) [Mount snapshotVolumeName snapshotMountPath true].

Definition download_script : string :=
  awsSetup +:+ script_text
    [ "SRC=@s3://${S3_BUCKET}/${S3_PREFIX}@";
      "LATEST=$(aws $EP s3 ls @${SRC}@ | awk '$1 == @PRE@ { print $2 }' \";
      "  | grep -E '^[0-9]{8}-[0-9]{6}/$' | sort | tail -1 || true)";
      "if [ -n @${LATEST}@ ]; then";
      "  echo @Downloading backup ${SRC}${LATEST}...@";
      "  aws $EP s3 sync @${SRC}${LATEST}@ @/snapshot/${LATEST}@ --only-show-errors";
      "else";
      "  echo @Downloading backup from ${SRC}...@";
      "  aws $EP s3 sync @${SRC}@ /snapshot/ --only-show-errors";
      "fi" ].

Definition s3DownloadInitContainer (s3 : S3BackupSpec) : Container :=
  job_container "download" s3ClientImage (shellCommand download_script) (s3Env s3)
    [Mount snapshotVolumeName snapshotMountPath false].

Definition restore_script (ordinal : Z) : string :=
  script_text
    [ "RESTORE_DIR=@/snapshot@";
      "if [ ! -f @${RESTORE_DIR}/manifest.json@ ]; then";
      "  SUBDIR=$(find @${RESTORE_DIR}@ -maxdepth 1 -mindepth 1 -type d | sort -r | head -1)";
      "  if [ -n @${SUBDIR}@ ] && [ -f @${SUBDIR}/manifest.json@ ]; then";
      "    RESTORE_DIR=@${SUBDIR}@";
      "    echo @Found backup in subdirectory: ${RESTORE_DIR}@";
      "  fi";
      "fi";
      "echo @Restoring data to PVC...@";
      "hyperbytedb restore --input @${RESTORE_DIR}@";
      "echo @Restore complete for ordinal " +:+ Itoa ordinal +:+ "@" ].

Definition restoreDataContainer (image : string) (ordinal : Z) : Container :=
  job_container "restore" image (shellCommand (restore_script ordinal)) []
    [ Mount dataVolumeName dataMountPath false; Mount snapshotVolumeName snapshotMountPath true ].
