(* ===== verification/Backup.v ===== *)
(** [HyperbytedbBackupReconciler]
    (internal/controller/hyperbytedbbackup_controller.go): a one-shot backup is a
    Job, a scheduled one a CronJob; the status follows the Job. *)

From S2P Require Import Prelude GoStrings Lib ApiTypes Image Config K8s StatefulSet Prog Go Resources S3.
#[local] Open Scope string_scope.

(** What [Reconcile] returns: [(ctrl.Result, error)]. *)
Abbreviation JobResult := (Result * option GoErr)%type.

(** [M] over the backup the reconciler mutates. *)
Section Backup.
Context `{Lib}.
Implicit Types (b : HyperbytedbBackup) (c : HyperbytedbCluster).

Definition BM (A : Type) : Type := M HyperbytedbBackup A.

Definition bk_Name b : string := om_Name (bk_Meta b).
Definition bk_Namespace b : string := om_Namespace (bk_Meta b).

Definition with_backup_status b (s : HyperbytedbBackupStatus) : HyperbytedbBackup :=
  mkBackup (bk_Meta b) (bk_Spec b) s.
Definition modify_backup_status (f : HyperbytedbBackupStatus → HyperbytedbBackupStatus) : BM unit :=
  modify (λ b, with_backup_status b (f (bk_Status b))).

Definition set_backup_phase (s : HyperbytedbBackupStatus) (p : BackupPhase) : HyperbytedbBackupStatus :=
  mkBackupStatus p (bst_StartTime s) (bst_CompletionTime s) (bst_BackupSize s) (bst_BackupPath s)
    (bst_LastCleanupTime s) (bst_Conditions s).
Definition set_backup_start (s : HyperbytedbBackupStatus) (t : Time) : HyperbytedbBackupStatus :=
  mkBackupStatus (bst_Phase s) (Some t) (bst_CompletionTime s) (bst_BackupSize s) (bst_BackupPath s)
    (bst_LastCleanupTime s) (bst_Conditions s).
Definition set_backup_done (s : HyperbytedbBackupStatus) (t : Time) (path : string)
    : HyperbytedbBackupStatus :=
  mkBackupStatus (bst_Phase s) (bst_StartTime s) (Some t) (bst_BackupSize s) path
    (bst_LastCleanupTime s) (bst_Conditions s).
Definition set_backup_conditions (s : HyperbytedbBackupStatus) (cs : list Condition)
    : HyperbytedbBackupStatus :=
  mkBackupStatus (bst_Phase s) (bst_StartTime s) (bst_CompletionTime s) (bst_BackupSize s)
    (bst_BackupPath s) (bst_LastCleanupTime s) cs.

(** [_ = r.Status().Update(ctx, backup)] *)
Definition StatusUpdateBackup : BM unit :=
  b ← get;
  r ← lift (do (StatusUpdate KBackup b));
  match r with inl _ => pure tt | inr b' => put b' end.

Definition set_backup_condition (ty : string) (st : ConditionStatus) (reason message : string)
    : BM unit :=
  now ← lift (do Now);
  modify_backup_status (λ s, set_backup_conditions s
    (SetStatusCondition now (bst_Conditions s) (mkCondition ty st reason message now 0))).

Definition backup_event (ty : EventType) (reason message : string) : BM unit :=
  lift (do (Event ty reason message)).

(** ** The Job *)

Definition buildBackupS3Path b : string :=
  let s3 := bs_DestinationS3 (bk_Spec b) in
  if String.eqb (s3_Prefix s3) "" then s3_Bucket s3
  else s3_Bucket s3 +:+ "/" +:+ TrimSuffix (s3_Prefix s3) "/".

(** The pod of a backup or restore job. *)
Definition job_pod (init main : Container) (volumes : list Volume) : PodSpec :=
  mkPodSpec None "OnFailure" [] [init] [main] volumes [] None [].

Definition buildBackupJob b c (name : string) : Job :=
  mkJob (new_meta name (bk_Namespace b) (CommonLabels c))
    (mkJobSpec 3
       (job_pod (snapshotBackupInitContainer (ResolveHyperbytedbImage c))
          (s3UploadContainer (bs_DestinationS3 (bk_Spec b)) (bs_RetentionDays (bk_Spec b)))
          [dataVolume (cl_Name c) 0 true; snapshotVolume]))
    0 0.

Definition owned_job (owner : string) (j : Job) : Job :=
  mkJob (set_owner (job_Meta j) owner) (job_Spec j) (job_Succeeded j) (job_Failed j).

Definition backup_over (p : BackupPhase) : bool :=
  bool_decide (p = BackupPhaseCompleted) || bool_decide (p = BackupPhaseFailed).

(** The Job does not exist. *)
Definition start_backup c : BM JobResult :=
  b ← get;
  if backup_over (bst_Phase (bk_Status b)) then pure (no_requeue, None)
  else
    r ← lift (create (k := KJob) (owned_job (bk_Name b) (buildBackupJob b c (bk_Name b))));
    match r with
    | inl e => pure (no_requeue, Some e)
    | inr _ =>
        now ← lift (do Now);
        modify_backup_status (λ s, set_backup_start (set_backup_phase s BackupPhaseRunning) now)
          ≫= λ _,
        backup_event EventTypeNormal "BackupStarted" "Backup job created" ≫= λ _,
        StatusUpdateBackup ≫= λ _,
        pure (requeue_after (10 * Second)%Z, None)
    end.

Definition backup_succeeded : BM JobResult :=
  now ← lift (do Now);
  b ← get;
  modify_backup_status (λ s,
    set_backup_done (set_backup_phase s BackupPhaseCompleted) now (buildBackupS3Path b)) ≫= λ _,
  set_backup_condition "Complete" ConditionTrue "BackupSucceeded" "Backup completed successfully"
    ≫= λ _,
  backup_event EventTypeNormal "BackupCompleted" "Backup completed successfully" ≫= λ _,
  StatusUpdateBackup ≫= λ _,
  pure (no_requeue, None).

Definition backup_failed : BM JobResult :=
  modify_backup_status (λ s, set_backup_phase s BackupPhaseFailed) ≫= λ _,
  set_backup_condition "Complete" ConditionFalse "BackupFailed" "Backup job failed" ≫= λ _,
  backup_event EventTypeWarning "BackupFailed" "Backup job failed" ≫= λ _,
  StatusUpdateBackup ≫= λ _,
  pure (no_requeue, None).

Definition reconcileJob c : BM JobResult :=
  b ← get;
  r ← lift (lookup_object KJob (bk_Namespace b) (bk_Name b));
  match r with
  | inl e => pure (no_requeue, Some e)
  | inr None => start_backup c
  | inr (Some job) =>
      if bool_decide (0 < job_Succeeded job)%Z then backup_succeeded
      else if bool_decide (0 < job_Failed job)%Z then backup_failed
      else pure (requeue_after (10 * Second)%Z, None)
  end.

(** ** The CronJob *)

Definition desired_cronjob b c : CronJob :=
  mkCronJob (set_owner (new_meta (bk_Name b) (bk_Namespace b) (CommonLabels c)) (bk_Name b))
    (bs_Schedule (bk_Spec b)) (job_Spec (buildBackupJob b c (bk_Name b))) 3 3.

(** [existing] with the schedule and the job of [desired]. *)
Definition cronjob_with (existing desired : CronJob) : CronJob :=
  mkCronJob (cj_Meta existing) (cj_Schedule desired) (cj_JobSpec desired)
    (cj_SuccessfulJobsHistoryLimit existing) (cj_FailedJobsHistoryLimit existing).

Definition reconcileCronJob c : BM JobResult :=
  b ← get;
  r ← lift (lookup_object KCronJob (bk_Namespace b) (bk_Name b));
  match r with
  | inl e => pure (no_requeue, Some e)
  | inr None =>
      r ← lift (create (k := KCronJob) (desired_cronjob b c));
      match r with
      | inl e => pure (no_requeue, Some e)
      | inr _ =>
          modify_backup_status (λ s, set_backup_phase s BackupPhaseRunning) ≫= λ _,
          set_backup_condition "Scheduled" ConditionTrue "CronJobCreated"
            ("Scheduled backup with cron: " +:+ bs_Schedule (bk_Spec b)) ≫= λ _,
          backup_event EventTypeNormal "Scheduled"
            ("Created CronJob with schedule " +:+ bs_Schedule (bk_Spec b)) ≫= λ _,
          StatusUpdateBackup ≫= λ _,
          pure (no_requeue, None)
      end
  | inr (Some cj) =>
      r ← lift (update (k := KCronJob) (cronjob_with cj (desired_cronjob b c)));
      pure (no_requeue, match r with inl e => Some e | inr _ => None end)
  end.

(** ** A pass *)

Definition cluster_missing : BM JobResult :=
  b ← get;
  modify_backup_status (λ s, set_backup_phase s BackupPhaseFailed) ≫= λ _,
  set_backup_condition "Ready" ConditionFalse "ClusterNotFound"
    ("Cluster " +:+ bs_ClusterName (bk_Spec b) +:+ " not found") ≫= λ _,
  StatusUpdateBackup ≫= λ _,
  pure (no_requeue, None).

Definition reconcile_backup : BM JobResult :=
  b ← get;
  r ← lift (do (Get KCluster (bk_Namespace b) (bs_ClusterName (bk_Spec b))));
  match r with
  | inl e => if IsNotFound e then cluster_missing else pure (no_requeue, Some e)
  | inr c =>
      if negb (String.eqb (bs_Schedule (bk_Spec b)) "") then reconcileCronJob c else reconcileJob c
  end.

Definition ReconcileBackup (ns name : string) : P JobResult :=
  r ← do (Get KBackup ns name);
  match r with
  | inl e => mret (no_requeue, if IsNotFound e then None else Some e)
  | inr b => res ← reconcile_backup b; mret res.2
  end.
End Backup.
