(* ===== verification/Restore.v ===== *)
(** [HyperbytedbRestoreReconciler]
    (internal/controller/hyperbytedbrestore_controller.go): scale the StatefulSet to
    zero, run one Job per volume, scale it up again. *)

From S2P Require Import Prelude GoStrings Lib ApiTypes Image Config K8s StatefulSet Prog Go Resources ScaleDown S3 Backup.
#[local] Open Scope string_scope.

Definition restore_phase_string (p : RestorePhase) : string :=
  match p with
  | RestorePhaseNone => ""
  | RestorePhasePending => "Pending"
  | RestorePhaseScaleDown => "ScalingDown"
  | RestorePhaseRestoring => "Restoring"
  | RestorePhaseCompleted => "Completed"
  | RestorePhaseFailed => "Failed"
  end.

(** [M] over the restore the reconciler mutates. *)
Section Restore.
Context `{Lib}.
Implicit Types (r : HyperbytedbRestore) (c : HyperbytedbCluster).

Definition RM (A : Type) : Type := M HyperbytedbRestore A.

Definition re_Name r : string := om_Name (re_Meta r).
Definition re_Namespace r : string := om_Namespace (re_Meta r).

Definition with_restore_status r (s : HyperbytedbRestoreStatus) : HyperbytedbRestore :=
  mkRestore (re_Meta r) (re_Spec r) s.
Definition modify_restore_status (f : HyperbytedbRestoreStatus → HyperbytedbRestoreStatus)
    : RM unit := modify (λ r, with_restore_status r (f (re_Status r))).

Definition set_restore_phase (s : HyperbytedbRestoreStatus) (p : RestorePhase) : HyperbytedbRestoreStatus :=
  mkRestoreStatus p (rst_StartTime s) (rst_CompletionTime s) (rst_RestoredPVCs s) (rst_Conditions s).
Definition set_restore_start (s : HyperbytedbRestoreStatus) (t : Time) : HyperbytedbRestoreStatus :=
  mkRestoreStatus (rst_Phase s) (Some t) (rst_CompletionTime s) (rst_RestoredPVCs s) (rst_Conditions s).
Definition set_restore_done (s : HyperbytedbRestoreStatus) (t : Time) : HyperbytedbRestoreStatus :=
  mkRestoreStatus (rst_Phase s) (rst_StartTime s) (Some t) (rst_RestoredPVCs s) (rst_Conditions s).
Definition set_restored_pvcs (s : HyperbytedbRestoreStatus) (n : Z) : HyperbytedbRestoreStatus :=
  mkRestoreStatus (rst_Phase s) (rst_StartTime s) (rst_CompletionTime s) n (rst_Conditions s).
Definition set_restore_conditions (s : HyperbytedbRestoreStatus) (cs : list Condition)
    : HyperbytedbRestoreStatus :=
  mkRestoreStatus (rst_Phase s) (rst_StartTime s) (rst_CompletionTime s) (rst_RestoredPVCs s) cs.

Definition restore_event (ty : EventType) (reason message : string) : RM unit :=
  lift (do (Event ty reason message)).

(** The error of the status update is dropped. *)
Definition setRestorePhase (phase : RestorePhase) (reason message : string) : RM unit :=
  modify_restore_status (λ s, set_restore_phase s phase) ≫= λ _,
  now ← lift (do Now);
  modify_restore_status (λ s, set_restore_conditions s
    (SetStatusCondition now (rst_Conditions s)
       (mkCondition (restore_phase_string phase) ConditionTrue reason message now 0))) ≫= λ _,
  r ← get;
  a ← lift (do (StatusUpdate KRestore r));
  match a with inl _ => pure tt | inr r' => put r' end.

(** ** Where the backup is *)

Definition resolveS3Source r : P (GoErr + S3BackupSpec) :=
  match rs_SourceS3 (re_Spec r) with
  | Some s3 => mret (inr s3)
  | None =>
      b ← do (Get KBackup (re_Namespace r) (rs_BackupName (re_Spec r)));
      mret match b with
           | inl e => inl (wrap_err ("looking up backup " +:+ rs_BackupName (re_Spec r)) e)
           | inr b =>
               let s3 := bs_DestinationS3 (bk_Spec b) in
               inr (mkS3 (s3_Bucket s3) (s3_Prefix s3) (s3_Region s3) (s3_Endpoint s3)
                      (s3_CredentialsSecretName s3))
           end
  end.

(** ** The Jobs *)

Definition restore_job_name r (i : Z) : string := re_Name r +:+ "-" +:+ Itoa i.

Definition buildRestoreJob r c (s3Source : S3BackupSpec) (ordinal : Z) : Job :=
  mkJob (new_meta (restore_job_name r ordinal) (re_Namespace r) (CommonLabels c))
    (mkJobSpec 2
       (job_pod (s3DownloadInitContainer s3Source)
          (restoreDataContainer (ResolveHyperbytedbImage c) ordinal)
          [dataVolume (cl_Name c) ordinal false; snapshotVolume]))
    0 0.

(** ** The phases *)

Definition get_sts c : P (GoErr + StatefulSet) :=
  do (Get KStatefulSet (cl_Namespace c) (StatefulSetName c)).

(** [sts.Spec.Replicas = &n; r.Update(ctx, sts)] *)
Definition scale_sts c (n : Z) : P error :=
  s ←! get_sts c;
  update (k := KStatefulSet) (sts_with_replicas s (Some n)).

Definition handleScaleDown c : RM JobResult :=
  e ← lift (scale_sts c 0);
  match e with
  | inl e => pure (no_requeue, Some e)
  | inr _ =>
      now ← lift (do Now);
      modify_restore_status (λ s, set_restore_start s now) ≫= λ _,
      restore_event EventTypeNormal "ScalingDown" "Scaling cluster to 0 for restore" ≫= λ _,
      setRestorePhase RestorePhaseScaleDown "ScalingDown" "Scaling StatefulSet to 0" ≫= λ _,
      pure (requeue_after (5 * Second)%Z, None)
  end.

(** An existing Job is taken for the one of an earlier pass. *)
Definition create_restore_job r c (s3 : S3BackupSpec) (i : Z) : P error :=
  e ← create (k := KJob) (owned_job (re_Name r) (buildRestoreJob r c s3 i));
  mret (match e with
        | inl e => if IsAlreadyExists e then nil_err else inl e
        | inr _ => nil_err
        end).

Definition checkScaleDown c (s3Source : S3BackupSpec) : RM JobResult :=
  r ← get;
  sts ← lift (get_sts c);
  match sts with
  | inl e => pure (no_requeue, Some e)
  | inr s =>
      if bool_decide (0 < sss_ReadyReplicas (sts_Status s))%Z
      then pure (requeue_after (5 * Second)%Z, None)
      else
        let replicas := spec_replicas c in
        e ← lift (for_each_err (ordinals_up 0 replicas) (create_restore_job r c s3Source));
        match e with
        | inl e => pure (no_requeue, Some e)
        | inr _ =>
            modify_restore_status (λ s, set_restored_pvcs s replicas) ≫= λ _,
            restore_event EventTypeNormal "RestoreStarted"
              ("Launched " +:+ Itoa replicas +:+ " restore jobs") ≫= λ _,
            setRestorePhase RestorePhaseRestoring "RestoreJobsCreated"
              ("Created " +:+ Itoa replicas +:+ " restore jobs") ≫= λ _,
            pure (requeue_after (10 * Second)%Z, None)
        end
  end.

Definition handleScaleUp c : RM JobResult :=
  e ← lift (scale_sts c (spec_replicas c));
  match e with
  | inl e => pure (no_requeue, Some e)
  | inr _ =>
      now ← lift (do Now);
      modify_restore_status (λ s, set_restore_done s now) ≫= λ _,
      restore_event EventTypeNormal "RestoreCompleted" "Restore completed, cluster scaling back up"
        ≫= λ _,
      setRestorePhase RestorePhaseCompleted "RestoreComplete"
        "Restore completed, cluster scaling back up" ≫= λ _,
      pure (no_requeue, None)
  end.

(** The loop over the Jobs: (allDone, anyFailed). *)
Fixpoint check_jobs r (ordinals : list Z) (allDone anyFailed : bool) : P (GoErr + bool * bool) :=
  match ordinals with
  | [] => mret (inr (allDone, anyFailed))
  | i :: rest =>
      j ← do (Get KJob (re_Namespace r) (restore_job_name r i));
      match j with
      | inl e => if IsNotFound e then check_jobs r rest false anyFailed else mret (inl e)
      | inr job =>
          check_jobs r rest
            (if Z.eqb (job_Succeeded job) 0 && Z.eqb (job_Failed job) 0 then false else allDone)
            (if bool_decide (0 < job_Failed job)%Z then true else anyFailed)
      end
  end.

Definition checkRestoreJob c : RM JobResult :=
  r ← get;
  j ← lift (check_jobs r (ordinals_up 0 (spec_replicas c)) true false);
  match j with
  | inl e => pure (no_requeue, Some e)
  | inr (allDone, anyFailed) =>
      if (anyFailed : bool) then
        restore_event EventTypeWarning "RestoreFailed" "One or more restore jobs failed" ≫= λ _,
        setRestorePhase RestorePhaseFailed "RestoreFailed" "Restore job failed" ≫= λ _,
        pure (no_requeue, None)
      else if (allDone : bool) then handleScaleUp c
      else pure (requeue_after (10 * Second)%Z, None)
  end.

(** ** A pass *)

Definition fail_restore (reason : string) (e : GoErr) : RM JobResult :=
  setRestorePhase RestorePhaseFailed reason (err_Msg e) ≫= λ _, pure (no_requeue, None).

Definition restore_over (p : RestorePhase) : bool :=
  bool_decide (p = RestorePhaseCompleted) || bool_decide (p = RestorePhaseFailed).

(** [switch restore.Status.Phase] *)
Definition restore_phase_handler (p : RestorePhase) c (s3 : S3BackupSpec) : RM JobResult :=
  match p with
  | RestorePhaseNone | RestorePhasePending => handleScaleDown c
  | RestorePhaseScaleDown => checkScaleDown c s3
  | RestorePhaseRestoring => checkRestoreJob c
  | _ => pure (no_requeue, None)
  end.

Definition reconcile_restore : RM JobResult :=
  r ← get;
  if restore_over (rst_Phase (re_Status r)) then pure (no_requeue, None)
  else
    cluster ← lift (do (Get KCluster (re_Namespace r) (rs_ClusterName (re_Spec r))));
    match cluster with
    | inl e => fail_restore "ClusterNotFound" e
    | inr c =>
        source ← lift (resolveS3Source r);
        match source with
        | inl e => fail_restore "SourceResolutionFailed" e
        | inr s3 =>
            restore_phase_handler (rst_Phase (re_Status r)) c s3
        end
    end.

Definition ReconcileRestore (ns name : string) : P JobResult :=
  r ← do (Get KRestore ns name);
  match r with
  | inl e => mret (no_requeue, if IsNotFound e then None else Some e)
  | inr r => res ← reconcile_restore r; mret res.2
  end.
End Restore.
