(* ===== verification/ScaleDownProofs.v ===== *)
(** Scaling down: what the probes, the plan and the voter removal of
    [runScaleDownClusterHooks] establish. *)

From S2P Require Import Prelude GoStrings Messages Lib ApiTypes Image Compat Config K8s Prog Go Client Controller ScaleDown.
#[local] Open Scope string_scope.

(** ** Ordinals *)

Lemma ordinals_up_elem lo hi i : i ∈ ordinals_up lo hi ↔ (lo <= i < hi)%Z.
Proof. unfold ordinals_up. rewrite elem_of_seqZ. lia. Qed.

Lemma ordinals_down_elem lo hi i : i ∈ ordinals_down lo hi ↔ (lo <= i < hi)%Z.
Proof. unfold ordinals_down. rewrite elem_of_reverse, elem_of_seqZ. lia. Qed.

(** Highest ordinal first: position [k] holds [hi - 1 - k]. *)
Lemma ordinals_down_lookup lo hi k i :
  ordinals_down lo hi !! k = Some i ↔ (i = hi - 1 - Z.of_nat k ∧ lo <= i < hi)%Z.
Proof.
  unfold ordinals_down. destruct (decide (Z.of_nat k < hi - lo)%Z) as [Hk|Hk].
  - rewrite reverse_lookup by (rewrite length_seqZ; lia).
    rewrite lookup_seqZ, length_seqZ. lia.
  - split.
    + intros Hl%lookup_lt_Some. rewrite length_reverse, length_seqZ in Hl. lia.
    + lia.
Qed.

(** ** The plan *)

(** A node that holds back the scale-down. *)
Definition gates (n : departingNode) : bool := (departingNodeAction (dn_state n) (dn_reachable n)).2.
(** A node to tell. *)
Definition to_tell (n : departingNode) : bool :=
  (departingNodeAction (dn_state n) (dn_reachable n)).1.

Lemma to_tell_gates n : to_tell n = true → gates n = true.
Proof.
  unfold to_tell, gates, departingNodeAction.
  by repeat case_match.
Qed.

Lemma gates_spec n :
  gates n = true ↔ dn_reachable n = true ∧ dn_state n ≠ nodeStateLeaving.
Proof.
  unfold gates, departingNodeAction. destruct n as [s []]; simpl; [|naive_solver].
  destruct (String.eqb s nodeStateLeaving) eqn:Hl; bools; [naive_solver|].
  destruct (String.eqb s nodeStateDecommissioning); naive_solver.
Qed.

Lemma to_tell_spec n :
  to_tell n = true ↔ dn_reachable n = true ∧ dn_state n ≠ nodeStateLeaving ∧
                     dn_state n ≠ nodeStateDecommissioning.
Proof.
  unfold to_tell, departingNodeAction. destruct n as [s []]; simpl; [|naive_solver].
  destruct (String.eqb s nodeStateLeaving) eqn:Hl; bools; [naive_solver|].
  destruct (String.eqb s nodeStateDecommissioning) eqn:Hd; bools; naive_solver.
Qed.

Lemma departure_evacuated i nodes together :
  (departure_loop i nodes together).2 = true ↔ Forall (λ n, gates n = false) nodes.
Proof.
  revert i. induction nodes as [|n nodes IH]; intros i; simpl; [by split|].
  rewrite Forall_cons, <- (IH (S i)). unfold gates at 1.
  destruct (departingNodeAction _ _) as [d []]; simpl; [destruct together; naive_solver|].
  destruct (departure_loop (S i) nodes together). simpl. naive_solver.
Qed.

(** Together, every node that has not been told is told. *)
Lemma departure_together i nodes k :
  k ∈ (departure_loop i nodes true).1 ↔
  ∃ j n, k = (i + j)%nat ∧ nodes !! j = Some n ∧ to_tell n = true.
Proof.
  revert i. induction nodes as [|n nodes IH]; intros i; simpl.
  - split; [by intros ?%not_elem_of_nil|]. by intros (j & n & _ & Hn & _).
  - pose proof (to_tell_gates n) as Htg. specialize (IH (S i)).
    assert (k ∈ ((if to_tell n then [i] else []) ++ (departure_loop (S i) nodes true).1)%list ↔
      ∃ j n0, k = (i + j)%nat ∧ (n :: nodes) !! j = Some n0 ∧ to_tell n0 = true) as Hk.
    { rewrite elem_of_app, IH. split.
      - intros [Hin|(j & m & -> & Hm & Ht)].
        + destruct (to_tell n) eqn:Ht; [|by apply not_elem_of_nil in Hin].
          apply list_elem_of_singleton in Hin as ->. exists 0, n. split; [lia|done].
        + exists (S j), m. split; [lia|done].
      - intros ([|j] & m & -> & Hm & Ht).
        + left. simplify_eq/=. rewrite Ht. apply list_elem_of_singleton. lia.
        + right. exists j, m. split; [lia|done]. }
    unfold to_tell, gates in *. destruct (departingNodeAction _ _) as [d []]; simpl in *; [done|].
    by destruct (departure_loop (S i) nodes true).
Qed.

(** One at a time: at most one node is told, the first that gates. *)
Lemma departure_sequential i nodes :
  (departure_loop i nodes false).1 = [] ∨
  ∃ j n, (departure_loop i nodes false).1 = [(i + j)%nat] ∧ nodes !! j = Some n ∧
    to_tell n = true ∧ ∀ j' n', (j' < j)%nat → nodes !! j' = Some n' → gates n' = false.
Proof.
  revert i. induction nodes as [|n nodes IH]; intros i; simpl; [by left|].
  pose proof (to_tell_gates n) as Htg. unfold to_tell, gates in Htg.
  destruct (departingNodeAction (dn_state n) (dn_reachable n)) as [d []] eqn:Ha; simpl in *.
  - destruct d; [|by left]. right. exists 0, n. rewrite Nat.add_0_r.
    split; [done|]. split; [done|]. split; [unfold to_tell; by rewrite Ha|lia].
  - destruct d; [by specialize (Htg eq_refl)|].
    destruct (departure_loop (S i) nodes false) as [tell ev] eqn:Hd.
    destruct (IH (S i)) as [Hn|(j & m & Ht & Hj & Hm & Hb)]; rewrite Hd in *; simpl in *.
    + by left.
    + right. exists (S j), m. split; [rewrite Ht; f_equal; lia|]. split; [done|]. split; [done|].
      intros [|j'] n' Hlt Hl; simplify_eq/=; [unfold gates; by rewrite Ha|].
      eapply Hb; [|done]. lia.
Qed.

Lemma departure_bound i nodes together k :
  k ∈ (departure_loop i nodes together).1 → (i <= k < i + length nodes)%nat.
Proof.
  destruct together.
  - intros (j & n & -> & Hn%lookup_lt_Some & _)%departure_together. lia.
  - destruct (departure_sequential i nodes) as [->|(j & n & -> & Hn%lookup_lt_Some & _)].
    + by intros ?%not_elem_of_nil.
    + intros ->%list_elem_of_singleton. lia.
Qed.

(** Stopping the probes at the first node that gates changes nothing: the nodes
    after it are not looked at. *)
Lemma departure_prefix i pre n post :
  Forall (λ m, gates m = false) pre → gates n = true →
  departure_loop i (pre ++ n :: post)%list false = departure_loop i (pre ++ [n])%list false.
Proof.
  intros Hpre Hn. revert i. induction Hpre as [|m pre Hm _ IH]; intros i; simpl.
  - unfold gates in Hn. destruct (departingNodeAction _ _) as [d []]; done.
  - unfold gates in Hm. destruct (departingNodeAction _ _) as [d []]; [done|]. simpl in *.
    by rewrite IH.
Qed.

Section Traces.
Context `{Lib}.
Implicit Types (c : HyperbytedbCluster) (ctx : Ctx) (t : list (entry Ans)).

(** ** Requests *)

Definition health_req ctx c (i : Z) : Request :=
  RoundTrip ctx MethodGet (url (pod_host c i) (ServerPort c) "/health") NoBody.
Definition decommission_url c (i : Z) : string :=
  url (pod_host c i) (ServerPort c) "/internal/decommission".

(** The decommission requests of a trace: the only POSTs without a body. *)
Definition decommission_of (e : Ev) : option string :=
  match e with
  | Http r =>
      match rq_Method r, rq_Body r with
      | MethodPost, NoBody => Some (rq_URL r)
      | _, _ => None
      end
  | _ => None
  end.
Definition decommissions t : list string := omap (λ x, decommission_of (entry_ev x)) t.

Lemma decommissions_app t u : decommissions (t ++ u) = (decommissions t ++ decommissions u)%list.
Proof. apply omap_app. Qed.

Definition silent (e : Ev) : Prop := decommission_of e = None.
Lemma decommissions_silent t :
  Forall (λ x, silent (entry_ev x)) t → decommissions t = [].
Proof. unfold decommissions. induction 1 as [|x t Hx _ IH]; simpl; [done|]. by rewrite Hx. Qed.

(** ** Probing *)

(** What a node answered when it was asked for its health. *)
Definition health_answer (r : GoErr + Response) : GoErr + HealthStatus :=
  match r with inl e => inl e | inr resp => health_of resp end.

(** Node [i] was asked in [t] and answered as [n] records. *)
Definition observed ctx c t (i : Z) (n : departingNode) : Prop :=
  ∃ r, @Entry Ev Ans (Http (health_req ctx c i)) r ∈ t ∧ n = departing_of (health_answer r).

Lemma observed_mono ctx c t u i n : t ⊆ u → observed ctx c t i n → observed ctx c u i n.
Proof. intros Hs (r & Hr & ->). exists r. split; [by apply Hs|done]. Qed.

Lemma health_exec ctx c i t o :
  exec (GetNodeHealth ctx (pod_host c i) (ServerPort c)) t o →
  ∃ r, t = [@Entry Ev Ans (Http (health_req ctx c i)) r] ∧ o = Done (health_answer r).
Proof. intros ([e|resp] & t' & -> & Ht); destruct Ht as [-> ->]; by eexists. Qed.

(** The probes record what the nodes answered, in order; they stop early only at
    a node that gates. *)
Lemma probe_exec ctx c together ordinals t o :
  exec (probe_departing ctx c together ordinals) t o →
  decommissions t = [] ∧
  ∃ l, o = Done l ∧
    (∀ k n h, l !! k = Some (n, h) →
       ∃ i, ordinals !! k = Some i ∧ h = pod_host c i ∧ observed ctx c t i n) ∧
    (length l = length ordinals ∨ ∃ n, n ∈ l.*1 ∧ gates n = true).
Proof.
  revert t o. induction ordinals as [|i rest IH]; intros t o He.
  - destruct He as [-> ->]. split; [done|]. exists []. split; [done|]. split; [done|by left].
  - cbn [probe_departing] in He. apply exec_mbind in He as [(t1 & t2 & r & -> & H1 & H2)|[H1 _]];
      apply health_exec in H1 as (r' & -> & Hr); [|done]. simplify_eq.
    set (n := departing_of (health_answer r')) in *.
    assert (∀ u, observed ctx c (@Entry Ev Ans (Http (health_req ctx c i)) r' :: u) i n) as Hobs.
    { intros u. exists r'. split; [left|done]. }
    destruct (stop_probing together n) eqn:Hstop.
    + destruct H2 as [-> ->]. split; [done|]. eexists. split; [done|]. split.
      * intros [|k] n' h Hk; simplify_eq/=. exists i. split; [done|]. split; [done|]. apply Hobs.
      * right. exists n. split; [left|]. apply gates_spec. unfold stop_probing in Hstop. by bools.
    + apply exec_mbind in H2 as [(t3 & t4 & l & -> & H2 & [-> ->])|[H2 _]].
      * destruct (IH _ _ H2) as (Hd & l' & Hl & Hlook & Hlen). simplify_eq. split.
        { rewrite app_nil_r. done. }
        eexists. split; [done|]. split.
        -- intros [|k] n' h Hk; simplify_eq/=; [exists i; split; [done|]; split; [done|]; apply Hobs|].
           destruct (Hlook k n' h Hk) as (j & Hj & -> & Ho). exists j. split; [done|]. split; [done|].
           eapply observed_mono; [|exact Ho]. rewrite app_nil_r. by apply list_subseteq_cons.
        -- simpl. destruct Hlen as [->|(m & Hm & Hg)]; [by left|].
           right. exists m. split; [by right|done].
      * by destruct (IH _ _ H2) as (_ & l' & ? & _).
Qed.

Lemma tell_exec ctx c hosts tell t o :
  Forall (λ k, k < length hosts)%nat tell →
  exec (tell_departing ctx c hosts tell) t o →
  o = Done tt ∧
  decommissions t = (λ h, url h (ServerPort c) "/internal/decommission") <$> (omap (hosts !!.) tell).
Proof.
  intros Hb. revert t o. induction Hb as [|k tell Hk _ IH]; intros t o He.
  - by destruct He as [-> ->].
  - cbn [tell_departing] in He. apply lookup_lt_is_Some in Hk as [h Hh]. rewrite Hh in He.
    apply exec_mbind in He as [(t1 & t2 & r & -> & H1 & H2)|[H1 _]].
    + destruct (IH _ _ H2) as [-> Hd]. split; [done|]. rewrite decommissions_app, Hd. simpl.
      rewrite Hh. destruct H1 as ([e|resp] & t' & -> & H1).
      * by destruct H1 as [-> _].
      * cbn in H1. destruct (negb _); by destruct H1 as [-> _].
    + destruct H1 as ([e|resp] & t' & -> & H1); [by destruct H1|].
      cbn in H1. destruct (negb _); by destruct H1.
Qed.
(** ** Voters *)

(** A member named [h] the Raft leader. *)
Definition named_leader ctx (hosts : gmap Z string) (port : Z) t (h : string) : Prop :=
  ∃ at_host resp info l,
    @Entry Ev Ans (Http (RoundTrip ctx MethodGet (url at_host port "/cluster/leader") NoBody))
      (inr resp) ∈ t ∧
    rsp_Code resp = StatusOK ∧ rsp_Body resp ≫= json_LeaderInfo = Some info ∧
    li_LeaderID info = Some l ∧ hosts !! l = Some h.

(** Node [id] was removed from the voters, by a request to a leader. *)
Definition voter_removed ctx (hosts : gmap Z string) (port : Z) t (id : Z) : Prop :=
  ∃ h resp,
    @Entry Ev Ans (Http (RoundTrip ctx MethodPost (url h port "/cluster/membership/remove-node")
      (NodeIDBody id))) (inr resp) ∈ t ∧
    rsp_Code resp = StatusOK ∧ named_leader ctx hosts port t h.

Lemma named_leader_mono ctx hosts port t u h :
  t ⊆ u → named_leader ctx hosts port t h → named_leader ctx hosts port u h.
Proof. intros Hs (a & r & i & l & Hin & Hr). exists a, r, i, l. split; [by apply Hs|done]. Qed.

Lemma voter_removed_mono ctx hosts port t u id :
  t ⊆ u → voter_removed ctx hosts port t id → voter_removed ctx hosts port u id.
Proof.
  intros Hs (h & r & Hin & Hc & Hl). exists h, r.
  split; [by apply Hs|]. split; [done|]. by eapply named_leader_mono.
Qed.

Lemma code_ok resp : negb (code_in resp [StatusOK]) = false → rsp_Code resp = StatusOK.
Proof. unfold code_in. simpl. rewrite orb_false_r. intros Hc. by bools. Qed.

Lemma get_leader_exec ctx h port t o :
  exec (GetClusterLeader ctx h port) t o →
  ∃ a r, t = [@Entry Ev Ans
      (Http (RoundTrip ctx MethodGet (url h port "/cluster/leader") NoBody)) a] ∧ o = Done r ∧
    ∀ info, r = inr info → ∃ resp, a = inr resp ∧
      rsp_Code resp = StatusOK ∧ rsp_Body resp ≫= json_LeaderInfo = Some info.
Proof.
  intros ([e|resp] & t' & -> & Ht).
  - destruct Ht as [-> ->]. do 2 eexists. split; [done|]. split; [done|]. discriminate.
  - cbn in Ht. destruct (negb _) eqn:Hc; destruct Ht as [-> ->];
      do 2 eexists; (split; [done|]); (split; [done|]); [discriminate|].
    intros info Hi. exists resp. split; [done|]. split; [by apply code_ok|].
    unfold decode in Hi. by destruct (rsp_Body resp ≫= json_LeaderInfo); simplify_eq.
Qed.

Lemma leader_exec ctx hosts port ids t o :
  exec (leader_among ctx hosts port ids) t o →
  decommissions t = [] ∧
  ∃ r, o = Done r ∧ ∀ h, r = inr h → named_leader ctx hosts port t h.
Proof.
  revert t o. induction ids as [|id ids IH]; intros t o He.
  - destruct He as [-> ->]. split; [done|]. eexists. split; [done|]. discriminate.
  - cbn [leader_among] in He. apply exec_mbind in He as [(t1 & t2 & r & -> & H1 & H2)|[H1 _]];
      apply get_leader_exec in H1 as (a & r' & -> & Hr & Hinfo); [|done]. simplify_eq.
    assert (∀ t2 o, exec (leader_among ctx hosts port ids) t2 o →
      let u := (@Entry Ev Ans (Http (RoundTrip ctx MethodGet
                 (url (default "" (hosts !! id)) port "/cluster/leader") NoBody)) a :: t2) in
      decommissions u = [] ∧ ∃ r, o = Done r ∧ ∀ h, r = inr h → named_leader ctx hosts port u h)
      as Hrest.
    { intros u o' Hu. destruct (IH _ _ Hu) as (Hd & r & -> & Hn). split; [done|].
      exists r. split; [done|]. intros h Hh. eapply named_leader_mono; [|by apply Hn].
      by apply list_subseteq_cons. }
    destruct r' as [e|info]; [by apply Hrest|].
    destruct (li_LeaderID info ≫= λ l, hosts !! l) as [h|] eqn:Hl; [|by apply Hrest].
    destruct H2 as [-> ->]. split; [done|]. eexists. split; [done|]. intros h' ?; simplify_eq.
    destruct (Hinfo info eq_refl) as (resp & -> & Hc & Hb).
    apply bind_Some in Hl as (l & Hli & Hh). do 4 eexists. split; [left|]. eauto.
Qed.

Lemma remove_node_exec ctx h port id t o :
  exec (RemoveClusterNode ctx h port id) t o →
  ∃ a r, t = [@Entry Ev Ans (Http (RoundTrip ctx MethodPost
      (url h port "/cluster/membership/remove-node") (NodeIDBody id))) a] ∧ o = Done r ∧
    ∀ x, r = inr x → ∃ resp, a = inr resp ∧ rsp_Code resp = StatusOK.
Proof.
  intros ([e|resp] & t' & -> & Ht).
  - destruct Ht as [-> ->]. do 2 eexists. split; [done|]. split; [done|]. discriminate.
  - cbn -[code_in] in Ht. destruct (code_in resp [StatusServiceUnavailable]);
      [|destruct (negb _) eqn:Hc]; destruct Ht as [-> ->];
      do 2 eexists; (split; [done|]); (split; [done|]); [discriminate..|].
    intros x _. exists resp. split; [done|]. by apply code_ok.
Qed.

Lemma remove_voters_exec ctx hosts port ids t o :
  exec (removeDepartedVoters ctx hosts port ids) t o →
  decommissions t = [] ∧
  ∃ r, o = Done r ∧ (r = nil_err → ∀ id, id ∈ ids → voter_removed ctx hosts port t id).
Proof.
  revert t o. induction ids as [|id ids IH]; intros t o He.
  - destruct He as [-> ->]. split; [done|]. eexists. split; [done|].
    intros _ id Hid. by apply not_elem_of_nil in Hid.
  - cbn [removeDepartedVoters] in He.
    apply exec_pbind in He as [(t1 & t2 & h & -> & H1 & H2)|[(e & H1 & ->)|[H1 _]]];
      apply leader_exec in H1 as (Hd1 & r1 & Hr1 & Hn); simplify_eq.
    2: { split; [done|]. eexists. split; [done|]. discriminate. }
    apply exec_mbind in H2 as [(t3 & t4 & r2 & -> & H2 & H3)|[H2 _]];
      apply remove_node_exec in H2 as (a & r & -> & Hr & Hok); simplify_eq.
    specialize (Hn h eq_refl).
    destruct r as [e|x].
    { destruct H3 as [-> ->]. rewrite decommissions_app, Hd1. split; [done|].
      eexists. split; [done|]. discriminate. }
    apply IH in H3 as (Hd & r & -> & Hall).
    rewrite !decommissions_app, Hd1, Hd. split; [done|]. exists r. split; [done|].
    intros Hr id' [->|Hid']%elem_of_cons.
    + destruct (Hok x eq_refl) as (resp & -> & Hc). exists h, resp.
      split; [apply elem_of_app; right; left|]. split; [done|].
      eapply named_leader_mono; [|exact Hn]. intros z Hz. apply elem_of_app. by left.
    + eapply voter_removed_mono; [|by apply Hall]. intros z Hz.
      apply elem_of_app. right. apply elem_of_app. by right.
Qed.

(** ** Announcements *)

Lemma survivors_exec ctx c id survivors t o :
  exec (tell_survivors ctx c id survivors) t o → decommissions t = [] ∧ o = Done tt.
Proof.
  revert t o. induction survivors as [|j rest IH]; intros t o He; [by destruct He as [-> ->]|].
  cbn [tell_survivors] in He.
  apply exec_mbind in He as [(t1 & t2 & r & -> & ([e|resp] & t' & -> & H1) & H2)|[H1 _]].
  - destruct H1 as [-> _]. by apply IH in H2 as [Hd ->].
  - cbn in H1. destruct (negb _); destruct H1 as [-> _]; by apply IH in H2 as [Hd ->].
  - destruct H1 as ([e|resp] & t' & -> & H1); [by destruct H1|].
    cbn in H1. destruct (negb _); by destruct H1.
Qed.

Lemma announce_exec ctx c desired departing t o :
  exec (announce_departed ctx c desired departing) t o → decommissions t = [] ∧ o = Done tt.
Proof.
  revert t o. induction departing as [|i rest IH]; intros t o He; [by destruct He as [-> ->]|].
  cbn [announce_departed] in He. apply exec_mbind in He as [(t1 & t2 & r & -> & H1 & H2)|[H1 _]];
    apply survivors_exec in H1 as [Hd1 ?]; [|done].
  apply IH in H2 as [Hd2 ->]. by rewrite decommissions_app, Hd1, Hd2.
Qed.
(** *** The whole of the hooks *)

(** The three parts of a pass of the hooks: the probes [t1], the decommission
    requests [t2], and, once every departing node has evacuated, the rest. *)
Lemma hooks_exec ctx c prev desired t o :
  (desired < prev)%Z → (1 <= prev)%Z →
  exec (runScaleDownClusterHooks ctx c prev desired) t o →
  ∃ t1 t2 t3 l,
    t = (t1 ++ t2 ++ t3)%list ∧
    exec (probe_departing ctx c (EvacuateTogether c) (ordinals_down desired prev)) t1 (Done l) ∧
    (let '(tell, evacuated) := departurePlan l.*1 (EvacuateTogether c) in
     decommissions t2 =
       ((λ h, url h (ServerPort c) "/internal/decommission") <$> omap (l.*2 !!.) tell) ∧
     decommissions t3 = [] ∧
     ((o = Panic ∧ (int32 (prev - desired) < 0)%Z) ∨
      (o = Done false ∧
       if evacuated
       then ∃ e, exec (removeDepartedVoters ctx (host_map c prev) (ServerPort c)
                        ((λ i, uint64 (i + 1)) <$> ordinals_down desired prev)) t3 (Done (inl e))
       else t3 = []) ∨
      (o = Done true ∧ evacuated = true ∧
       ∀ i, (desired <= i < prev)%Z →
            voter_removed ctx (host_map c prev) (ServerPort c) t3 (uint64 (i + 1))))).
Proof.
  intros Hlt Hpos He. unfold runScaleDownClusterHooks in He.
  rewrite !bool_decide_eq_false_2 in He by lia. cbn [orb] in He.
  apply exec_mbind in He as [(t1 & u & l & -> & H1 & He)|[H1 _]];
    pose proof (probe_exec _ _ _ _ _ _ H1) as (_ & l' & Hl & _); [simplify_eq|done].
  exists t1. destruct (departurePlan l'.*1 (EvacuateTogether c)) as [tell ev] eqn:Hplan.
  assert (Forall (λ k, k < length l'.*2)%nat tell) as Hb.
  { apply Forall_forall. intros k Hk. unfold departurePlan in Hplan.
    assert (k ∈ (departure_loop 0 l'.*1 (EvacuateTogether c)).1) as Hk' by by rewrite Hplan.
    apply departure_bound in Hk'. rewrite !length_fmap in *. lia. }
  apply exec_mbind in He as [(t2 & t3 & [] & -> & H2 & H3)|[H2 _]];
    apply tell_exec in H2 as [? H2]; [|done..].
  exists t2, t3, l'. split; [done|]. split; [done|]. rewrite Hplan. split; [done|].
  destruct ev; cbn [negb] in H3; [|destruct H3 as [-> ->]; split; [done|]; right; left; done].
  apply exec_mbind in H3 as [(t4 & t5 & r & -> & H3 & H4)|[H3 ->]];
    apply exec_make_slice in H3 as [[_ H3]|(Hneg & -> & ?)]; simplify_eq;
    [|apply remove_voters_exec in H3 as (_ & ? & ? & _); done|by split; [done|left]].
  pose proof (remove_voters_exec _ _ _ _ _ _ H3) as (Hd & r' & Hr & Hall). simplify_eq.
  destruct r' as [e|[]].
  { destruct H4 as [-> ->]. rewrite app_nil_r. split; [done|]. right. left. split; [done|]. by exists e. }
  apply exec_mbind in H4 as [(t6 & t7 & [] & -> & H4 & [-> ->])|[H4 _]];
    apply announce_exec in H4 as [Hd6 ?]; [|done].
  rewrite app_nil_r, decommissions_app, Hd, Hd6. split; [done|]. do 2 right. split; [done|].
  split; [done|]. intros i Hi.
  eapply voter_removed_mono; [|apply (Hall eq_refl)].
  - intros x Hx. apply elem_of_app. by left.
  - apply list_elem_of_fmap. exists i. split; [done|]. by apply ordinals_down_elem.
Qed.

(** What the hooks saw before they let the replicas shrink. *)
Lemma hooks_gate ctx c prev desired t :
  exec (runScaleDownClusterHooks ctx c prev desired) t (Done true) →
  ∀ i, (0 <= i)%Z → (desired <= i < prev)%Z →
    (∃ n, observed ctx c t i n ∧ (dn_reachable n = false ∨ dn_state n = nodeStateLeaving)) ∧
    voter_removed ctx (host_map c prev) (ServerPort c) t (uint64 (i + 1)).
Proof.
  intros He i H0 Hi. apply hooks_exec in He as (t1 & t2 & t3 & l & -> & H1 & Hrest); [|lia..].
  apply probe_exec in H1 as (_ & l' & Hl & Hlook & Hlen). simplify_eq.
  destruct (departurePlan l'.*1 (EvacuateTogether c)) as [tell ev] eqn:Hplan.
  destruct Hrest as (_ & _ & [[? _]|[[? _]|(_ & -> & Hv)]]); [done..|].
  assert (Forall (λ n, gates n = false) l'.*1) as Hg.
  { apply (departure_evacuated 0 _ (EvacuateTogether c)). unfold departurePlan in Hplan.
    by rewrite Hplan. }
  destruct Hlen as [Hlen|(n & Hn & Hgn)];
    [|rewrite Forall_forall in Hg; by rewrite (Hg n Hn) in Hgn].
  split.
  - assert (∃ k, ordinals_down desired prev !! k = Some i) as [k Hk]
      by (apply list_elem_of_lookup; by apply ordinals_down_elem).
    assert (is_Some (l' !! k)) as [[n h] Hn].
    { apply lookup_lt_is_Some. rewrite Hlen. by apply lookup_lt_Some in Hk. }
    destruct (Hlook k n h Hn) as (j & Hj & _ & Ho). simplify_eq.
    exists n. split; [eapply observed_mono; [|exact Ho]; intros x Hx; apply elem_of_app; by left|].
    assert (gates n = false) as Hgn.
    { rewrite Forall_forall in Hg. apply Hg. apply list_elem_of_fmap. exists (n, h).
      split; [done|]. by eapply list_elem_of_lookup_2. }
    destruct (dn_reachable n) eqn:Hr; [right|by left].
    destruct (decide (dn_state n = nodeStateLeaving)); [done|].
    assert (gates n = true) by by apply gates_spec. congruence.
  - eapply voter_removed_mono; [|by apply Hv]. intros x Hx.
    apply elem_of_app. right. apply elem_of_app. by right.
Qed.

(** ** Probing all nodes, or up to the first that gates *)

Lemma stop_probing_gates together n :
  stop_probing together n = negb together && gates n.
Proof.
  unfold stop_probing. destruct together; [done|]. simpl. unfold gates, departingNodeAction.
  destruct n as [s []]; simpl; [|done]. destruct (String.eqb s nodeStateLeaving); [done|].
  by destruct (String.eqb s nodeStateDecommissioning).
Qed.

(** With [a] the answers the nodes give. *)
Lemma probe_prefix ctx c together ordinals t l (a : Z → GoErr + Response) :
  exec (probe_departing ctx c together ordinals) t (Done l) →
  (∀ i r, i ∈ ordinals → @Entry Ev Ans (Http (health_req ctx c i)) r ∈ t → r = a i) →
  let nodes := (λ i, departing_of (health_answer (a i))) <$> ordinals in
  l.*1 = nodes ∨
  (together = false ∧ ∃ pre n post, nodes = (pre ++ n :: post)%list ∧ l.*1 = (pre ++ [n])%list ∧
     gates n = true ∧ Forall (λ m, gates m = false) pre).
Proof.
  revert t l. induction ordinals as [|i rest IH]; intros t l He Ha; simpl.
  - destruct He as [-> ?]. simplify_eq. by left.
  - cbn [probe_departing] in He. apply exec_mbind in He as [(t1 & t2 & r & -> & H1 & H2)|[_ ?]];
      [|done]. apply health_exec in H1 as (r' & -> & Hr). simplify_eq.
    assert (r' = a i) as -> by (apply Ha; left).
    rewrite stop_probing_gates in H2.
    destruct (negb together && gates (departing_of (health_answer (a i)))) eqn:Hstop.
    + destruct H2 as [-> ?]. simplify_eq. bools. right. split; [done|].
      eexists [], _, _. split; [reflexivity|]. done.
    + apply exec_mbind in H2 as [(t3 & t4 & l' & -> & H2 & [-> ?])|[_ ?]]; [|done]. simplify_eq.
      destruct (IH _ _ H2) as [Hl|(Htog & pre & n & post & Hn & Hl & Hg & Hpre)].
      * intros j r Hj Hin. apply Ha; [by right|]. right. rewrite app_nil_r. done.
      * left. simpl. by f_equal.
      * right. split; [done|]. subst together. exists (departing_of (health_answer (a i)) :: pre), n, post.
        simpl. split; [by f_equal|]. split; [by f_equal|]. split; [done|]. by constructor.
Qed.
(** ** Deletions *)

Definition deletion_of (e : Ev) : option (Kind * string * string) :=
  match e with Delete k ns name _ => Some (k, ns, name) | _ => None end.
Definition deletions t : list (Kind * string * string) :=
  omap (λ x, deletion_of (entry_ev x)) t.

Lemma deletions_app t u : deletions (t ++ u) = (deletions t ++ deletions u)%list.
Proof. apply omap_app. Qed.

(** [pod] is what the API server holds for ordinal [i]. *)
Definition pod_at c t (i : Z) (pod : Pod) : Prop :=
  @Entry Ev Ans (Get KPod (cl_Namespace c) (pod_name c i)) (inr pod) ∈ t.
Definition no_pod_at c t (i : Z) : Prop :=
  ∃ e, @Entry Ev Ans (Get KPod (cl_Namespace c) (pod_name c i)) (inl e) ∈ t ∧
       IsNotFound e = true.

(** The pods found, and, without an error, an answer for every ordinal. *)
Lemma get_pods_exec c ordinals t o :
  exec (get_pods c ordinals) t o →
  deletions t = [] ∧ ∃ r, o = Done r ∧ ∀ pods, r = inr pods →
    (∀ pod, pod ∈ pods → ∃ i, i ∈ ordinals ∧ pod_at c t i pod) ∧
    (∀ i, i ∈ ordinals → no_pod_at c t i ∨ ∃ pod, pod ∈ pods ∧ pod_at c t i pod).
Proof.
  revert t o. induction ordinals as [|i rest IH]; intros t o He.
  - destruct He as [-> ->]. split; [done|]. eexists. split; [done|]. intros pods ?; simplify_eq.
    split; intros x Hx; by apply not_elem_of_nil in Hx.
  - cbn [get_pods] in He. destruct He as ([e|pod] & t' & -> & He); cbn in He.
    + destruct (IsNotFound e) eqn:Hnf; [|destruct He as [-> ->]; split; [done|]; eexists;
        split; [done|]; discriminate].
      destruct (IH _ _ He) as (Hd & r & -> & Hr). split; [done|]. exists r. split; [done|].
      intros pods Hpods. destruct (Hr pods Hpods) as [H1 H2]. split.
      * intros pod Hpod. destruct (H1 pod Hpod) as (j & Hj & Hat). exists j.
        split; by right.
      * intros j [->|Hj]%elem_of_cons; [left; exists e; split; [left|done]|].
        destruct (H2 j Hj) as [(e' & He' & ?)|(pod & Hp & Hat)];
          [left; exists e'; split; [by right|done]|right; exists pod; split; [done|by right]].
    + apply exec_pbind in He as [(t1 & t2 & pods & -> & H1 & [-> ->])|[(e & H1 & ->)|[H1 _]]];
        apply IH in H1 as (Hd & r & Hr & Hpods); simplify_eq; [|split; [done|]; eexists;
        split; [done|]; discriminate].
      rewrite app_nil_r. split; [done|]. eexists. split; [done|]. intros pods' ?; simplify_eq.
      destruct (Hpods pods eq_refl) as [H1 H2]. split.
      * intros pod' [->|Hp]%elem_of_cons; [exists i; split; left|].
        destruct (H1 pod' Hp) as (j & Hj & Hat). exists j. split; by right.
      * intros j [->|Hj]%elem_of_cons; [right; exists pod; split; left|].
        destruct (H2 j Hj) as [(e' & He' & ?)|(pod' & Hp & Hat)];
          [left; exists e'; split; [by right|done]|right; exists pod'; split; by right].
Qed.

Lemma delete_departed_exec pod t o :
  exec (delete_departed pod) t o →
  deletions t = [(KPod, om_Namespace (pod_Meta pod), pod_Name pod)].
Proof.
  intros ([e|[]] & t' & -> & He); cbn in He; [destruct (IsNotFound e)|].
  1,3: by destruct He as (x & t'' & -> & -> & ->).
  by destruct He as [-> ->].
Qed.

(** A loop of deletions deletes what its list says, up to the first error. *)
Lemma for_each_deletions {A} (l : list A) (body : A → P error) (key : A → Kind * string * string) t o :
  (∀ a t o, exec (body a) t o → deletions t = [key a]) →
  exec (for_each_err l body) t o →
  (∃ k, deletions t = key <$> take k l) ∧ (o = Done nil_err → deletions t = key <$> l).
Proof.
  intros Hb. revert t. induction l as [|a l IH]; intros t He.
  - destruct He as [-> ->]. split; [by exists 0|done].
  - cbn [for_each_err] in He.
    apply exec_pbind in He as [(t1 & t2 & [] & -> & H1 & H2)|[(e & H1 & ->)|[H1 ->]]];
      apply Hb in H1.
    + destruct (IH _ H2) as [[k Hk] Hall]. rewrite deletions_app, H1. split.
      * exists (S k). simpl. by rewrite Hk.
      * intros Ho. by rewrite Hall.
    + rewrite H1. split; [by exists 1|done].
    + rewrite H1. split; [by exists 1|done].
Qed.

Lemma stuckDepartedPods_spec pods pod :
  pod ∈ stuckDepartedPods pods ↔
    pod ∈ pods ∧ om_DeletionTimestamp (pod_Meta pod) = None ∧ isPodReady pod = false.
Proof.
  unfold stuckDepartedPods. rewrite !list_elem_of_In, filter_In.
  rewrite negb_true_iff, orb_false_iff, bool_decide_eq_false, eq_None_not_Some. done.
Qed.
(** The API server returns the volume claim it is asked for. *)
Definition pvc_honest (x : entry Ans) : Prop :=
  match entry_ev x as e return Ans e → Prop with
  | Get k ns name =>
      match k return GoErr + obj k → Prop with
      | KPVC => λ r, match r with
                     | inr pvc => om_Name (pvc_Meta pvc) = name ∧ om_Namespace (pvc_Meta pvc) = ns
                     | inl _ => True
                     end
      | _ => λ _, True
      end
  | _ => λ _, True
  end (entry_ans x).

Lemma cleanup_pvc_exec c i t o :
  exec (cleanup_pvc c i) t o → Forall pvc_honest t →
  let key := (KPVC, cl_Namespace c, pvc_name c i) in
  o ≠ Panic ∧ (deletions t = [] ∨ deletions t = [key]) ∧
  (o = Done nil_err →
   key ∈ deletions t ∨
   ∃ e, @Entry Ev Ans (Get KPVC (cl_Namespace c) (pvc_name c i)) (inl e) ∈ t ∧
        IsNotFound e = true).
Proof.
  intros ([e|pvc] & t' & -> & He) Hh; cbn in He.
  - destruct (IsNotFound e) eqn:Hnf; destruct He as [-> ->]; (split; [done|]); (split; [by left|]);
      [intros _; right; exists e; split; [left|done]|done].
  - apply Forall_cons in Hh as [[Hn Hns] _]. simpl in Hn, Hns.
    destruct He as (d & t'' & -> & He). cbn in He. unfold deletions. simpl. rewrite Hn, Hns.
    destruct d as [e|[]]; [destruct (IsNotFound e)|]; destruct He as [-> ->]; simpl;
      (split; [done|]); (split; [by right|]); try done; intros _; left; left.
Qed.

Lemma cleanup_exec c l t o :
  exec (for_each_err l (cleanup_pvc c)) t o → Forall pvc_honest t →
  (∀ d, d ∈ deletions t → ∃ i, i ∈ l ∧ d = (KPVC, cl_Namespace c, pvc_name c i)) ∧
  (o = Done nil_err → ∀ i, i ∈ l →
     (KPVC, cl_Namespace c, pvc_name c i) ∈ deletions t ∨
     ∃ e, @Entry Ev Ans (Get KPVC (cl_Namespace c) (pvc_name c i)) (inl e) ∈ t ∧
          IsNotFound e = true).
Proof.
  revert t. induction l as [|i l IH]; intros t He Hh.
  - destruct He as [-> ->]. split; [|intros _ i Hi]; [intros d Hd|]; by apply not_elem_of_nil in Hd || apply not_elem_of_nil in Hi.
  - cbn [for_each_err] in He.
    apply exec_pbind in He as [(t1 & t2 & [] & -> & H1 & H2)|[(e & H1 & ->)|[H1 ->]]].
    + apply Forall_app in Hh as [Hh1 Hh2].
      destruct (cleanup_pvc_exec _ _ _ _ H1 Hh1) as (_ & Hd1 & Hok).
      destruct (IH _ H2 Hh2) as [Hsub Hall]. rewrite deletions_app. split.
      * intros d [Hd|Hd]%elem_of_app.
        -- destruct Hd1 as [Hd1|Hd1]; rewrite Hd1 in Hd; [by apply not_elem_of_nil in Hd|].
           apply list_elem_of_singleton in Hd as ->. exists i. split; [left|done].
        -- destruct (Hsub d Hd) as (j & Hj & ->). exists j. split; [by right|done].
      * intros Ho j [->|Hj]%elem_of_cons.
        -- destruct (Hok eq_refl) as [Hd|(e & He & Hn)]; [left; apply elem_of_app; by left|].
           right. exists e. split; [apply elem_of_app; by left|done].
        -- destruct (Hall Ho j Hj) as [Hd|(e & He & Hn)]; [left; apply elem_of_app; by right|].
           right. exists e. split; [apply elem_of_app; by right|done].
    + destruct (cleanup_pvc_exec _ _ _ _ H1 Hh) as (_ & Hd1 & _). split; [|done]. intros d Hd.
      destruct Hd1 as [Hd1|Hd1]; rewrite Hd1 in Hd; [by apply not_elem_of_nil in Hd|].
      apply list_elem_of_singleton in Hd as ->. exists i. split; [left|done].
    + by destruct (cleanup_pvc_exec _ _ _ _ H1 Hh) as (? & _).
Qed.

Lemma pvc_name_inj c i j : pvc_name c i = pvc_name c j → i = j.
Proof.
  unfold pvc_name. intros Heq. apply (inj (String.append "data-")) in Heq.
  apply (inj (String.append (StatefulSetName c))) in Heq.
  apply (inj (String.append "-")) in Heq. by apply (inj Itoa) in Heq.
Qed.
End Traces.
