(* ===== verification/ReconcileProofs.v ===== *)
(** What each step of a pass over a cluster can write: the lemmas behind the
    properties of [Reconcile]. *)

From S2P Require Import Prelude GoStrings Messages Lib ApiTypes Image Compat Config K8s StatefulSet Prog Go Client Proxy Auth Controller RollingRestart RollingRestartProofs Resources ScaleDown ScaleDownProofs Members Reconcile.
#[local] Open Scope string_scope.

(** ** Footprints *)

Section Footprints.
Context `{Lib}.
Implicit Types (c : HyperbytedbCluster) (ctx : Ctx) (t : list (entry Ans)).

(** The kind of the object a call creates, replaces or deletes.  A status update
    and the partition patch write neither. *)
Definition written_kind (e : Ev) : option Kind :=
  match e with
  | Create k _ | Update k _ | Delete k _ _ _ => Some k
  | _ => None
  end.

Definition writes_only (ks : list Kind) (e : Ev) : Prop :=
  match written_kind e with
  | Some k => existsb (λ k', bool_decide (k = k')) ks = true
  | None => True
  end.

Lemma writes_only_mono ks ks' e :
  forallb (λ k, existsb (λ k', bool_decide (k = k')) ks') ks = true →
  writes_only ks e → writes_only ks' e.
Proof.
  unfold writes_only. destruct (written_kind e) as [k|]; [|done].
  rewrite forallb_forall, !existsb_exists. intros Hs (k' & Hin & Hk). bools. subst k'.
  apply Hs, existsb_exists in Hin as (k'' & Hin & Hk). bools. subst. exists k''. split; [done|].
  by rewrite bool_decide_eq_true_2.
Qed.

Lemma emits_writes_mono {A} ks ks' (p : P A) :
  forallb (λ k, existsb (λ k', bool_decide (k = k')) ks') ks = true →
  emits (writes_only ks) p → emits (writes_only ks') p.
Proof. intros Hk. apply emits_mono. intros e. by apply writes_only_mono. Qed.

(** The kind is not written in a trace of a program with another footprint. *)
Definition sts_write (e : Ev) : bool := bool_decide (written_kind e = Some KStatefulSet).
Definition no_sts_write t : Prop := Forall (λ x, sts_write (entry_ev x) = false) t.

Definition spares_sts (e : Ev) : Prop := sts_write e = false.

Lemma writes_only_spares ks e :
  existsb (λ k, bool_decide (KStatefulSet = k)) ks = false → writes_only ks e → spares_sts e.
Proof.
  unfold spares_sts, sts_write, writes_only. intros Hk Hw. apply bool_decide_eq_false.
  intros Hs. rewrite Hs in Hw. congruence.
Qed.

Lemma emits_spares {A} ks (p : P A) :
  existsb (λ k, bool_decide (KStatefulSet = k)) ks = false →
  emits (writes_only ks) p → emits spares_sts p.
Proof. intros Hk. apply emits_mono. intros e. by apply writes_only_spares. Qed.
End Footprints.

Ltac foot_start :=
  unfold pbind, lookup_object, create, update, delete_object, event, record_event, wrapping,
    set_phase_now, update_members, set_cluster_condition, modify_rolling, modify_status,
    StatusUpdateCluster, Since, make_slice.
Ltac foot :=
  intros; foot_start; prog_unfold;
  repeat first [ progress prog_cbn | progress intros
               | lazymatch goal with |- _ ∧ _ => split; [done|] end | done
               | apply emits_bind; [solve [auto with foot]|]
               | lazymatch goal with
                 | |- emits _ (Prog.bind (Prog.bind _ _) _) => apply emits_bind
                 end
               | solve [auto with foot] | prog_split ].

Create HintDb foot.
#[export] Hint Resolve emits_for_each_err : foot.

Section Steps.
Context `{Lib}.
Implicit Types (c : HyperbytedbCluster) (ctx : Ctx).

(** *** HTTP requests write no object *)

Lemma GetNodeHealth_writes ctx h p : emits (writes_only []) (GetNodeHealth ctx h p).
Proof. unfold GetNodeHealth, Do. foot. Qed.
Lemma GetClusterNodes_writes ctx h p : emits (writes_only []) (GetClusterNodes ctx h p).
Proof. unfold GetClusterNodes, Do. foot. Qed.
Lemma GetClusterLeader_writes ctx h p : emits (writes_only []) (GetClusterLeader ctx h p).
Proof. unfold GetClusterLeader, Do. foot. Qed.
Lemma GetSyncManifest_writes ctx h p : emits (writes_only []) (GetSyncManifest ctx h p).
Proof. unfold GetSyncManifest, Do. foot. Qed.
Lemma DecommissionNode_writes ctx h p : emits (writes_only []) (DecommissionNode ctx h p).
Proof. unfold DecommissionNode, Do. foot. Qed.
Lemma LeaveNode_writes ctx h p i : emits (writes_only []) (LeaveNode ctx h p i).
Proof. unfold LeaveNode, Do. foot. Qed.
Lemma RemoveClusterNode_writes ctx h p i : emits (writes_only []) (RemoveClusterNode ctx h p i).
Proof. unfold RemoveClusterNode, Do. foot. Qed.
Lemma AddClusterNode_writes ctx h p i a b :
  emits (writes_only []) (AddClusterNode ctx h p i a b).
Proof. unfold AddClusterNode, Do. foot. Qed.
#[local] Hint Resolve GetNodeHealth_writes GetClusterNodes_writes GetClusterLeader_writes
  GetSyncManifest_writes DecommissionNode_writes LeaveNode_writes RemoveClusterNode_writes
  AddClusterNode_writes : foot.

(** *** The objects of the cluster *)

Lemma reconcileTLS_writes c n : emits (writes_only [KSecret]) (reconcileTLS c n).
Proof. unfold reconcileTLS, ensure_self_signed, BuildSelfSignedTLSSecret. foot. Qed.
Lemma FillAuthSecret_writes s : emits (writes_only [KSecret]) (FillAuthSecret s).
Proof. unfold FillAuthSecret, auth_keys, randomSecret. cbn [fill_keys]. foot. Qed.
#[local] Hint Resolve FillAuthSecret_writes : foot.
Lemma reconcileAuthSecret_writes c : emits (writes_only [KSecret]) (reconcileAuthSecret c).
Proof. unfold reconcileAuthSecret, create_auth_secret, BuildAuthSecret. foot. Qed.
Lemma reconcileConfigMap_writes c : emits (writes_only [KConfigMap]) (reconcileConfigMap c).
Proof. unfold reconcileConfigMap. foot. Qed.
Lemma cleanupLegacyPeers_writes c :
  emits (writes_only [KConfigMap]) (cleanupLegacyPeersConfigMap c).
Proof. unfold cleanupLegacyPeersConfigMap. foot. Qed.
Lemma reconcileService_writes c s : emits (writes_only [KService]) (reconcileService c s).
Proof. unfold reconcileService. foot. Qed.
Lemma reconcileProxy_writes c : emits (writes_only [KService; KDeployment]) (reconcileProxy c).
Proof. unfold reconcileProxy, reconcile_proxy_service, reconcile_proxy_deployment. foot. Qed.
Lemma reconcileServiceMonitor_writes c :
  emits (writes_only [KServiceMonitor]) (reconcileServiceMonitor c).
Proof. unfold reconcileServiceMonitor. foot. Qed.
Lemma reconcilePDB_writes c : emits (writes_only [KPDB]) (reconcilePDB c).
Proof. unfold reconcilePDB. foot. Qed.
Lemma reconcileHPA_writes c : emits (writes_only [KHPA]) (reconcileHPA c).
Proof. unfold reconcileHPA. foot. Qed.

(** *** Scaling down *)

Lemma probe_writes ctx c b l : emits (writes_only []) (probe_departing ctx c b l).
Proof. induction l; cbn [probe_departing]; foot. Qed.
Lemma tell_departing_writes ctx c hs l : emits (writes_only []) (tell_departing ctx c hs l).
Proof. induction l; cbn [tell_departing]; foot. Qed.
Lemma leader_among_writes ctx hs p l : emits (writes_only []) (leader_among ctx hs p l).
Proof. induction l; cbn [leader_among]; foot. Qed.
#[local] Hint Resolve probe_writes tell_departing_writes leader_among_writes : foot.
Lemma removeDepartedVoters_writes ctx hs p l :
  emits (writes_only []) (removeDepartedVoters ctx hs p l).
Proof. induction l; cbn [removeDepartedVoters]; unfold raftLeaderHost; foot. Qed.
Lemma tell_survivors_writes ctx c i l : emits (writes_only []) (tell_survivors ctx c i l).
Proof. induction l; cbn [tell_survivors]; foot. Qed.
#[local] Hint Resolve removeDepartedVoters_writes tell_survivors_writes : foot.
Lemma announce_writes ctx c d l : emits (writes_only []) (announce_departed ctx c d l).
Proof. induction l; cbn [announce_departed]; foot. Qed.
#[local] Hint Resolve announce_writes : foot.
Lemma hooks_writes ctx c p d : emits (writes_only []) (runScaleDownClusterHooks ctx c p d).
Proof. unfold runScaleDownClusterHooks. foot. Qed.

Lemma get_pods_writes c l : emits (writes_only [KPod]) (get_pods c l).
Proof. induction l; cbn [get_pods]; foot. Qed.
Lemma delete_departed_writes p : emits (writes_only [KPod]) (delete_departed p).
Proof. unfold delete_departed. foot. Qed.
#[local] Hint Resolve get_pods_writes delete_departed_writes : foot.
Lemma deleteStuckDepartedPods_writes c s :
  emits (writes_only [KPod]) (deleteStuckDepartedPods c s).
Proof. unfold deleteStuckDepartedPods. foot. Qed.
Lemma cleanup_pvc_writes c i : emits (writes_only [KPVC]) (cleanup_pvc c i).
Proof. unfold cleanup_pvc. foot. Qed.
#[local] Hint Resolve cleanup_pvc_writes : foot.
Lemma CleanupOrphanPVCs_writes c a b : emits (writes_only [KPVC]) (CleanupOrphanPVCs c a b).
Proof. unfold CleanupOrphanPVCs. foot. Qed.

(** *** The rolling restart *)

Lemma forEach_writes c send :
  (∀ p, emits (writes_only []) (send p)) → emits (writes_only []) (forEachRunningProxy c send).
Proof.
  intros Hs. unfold forEachRunningProxy, send_to_running. foot.
  apply emits_for_each_err. foot.
Qed.
Lemma exclude_writes ctx c ip p : emits (writes_only []) (excludeFromAllProxies ctx c ip p).
Proof. apply forEach_writes. unfold ExcludeProxyBackend, Do. foot. Qed.
Lemma include_writes ctx c ip p : emits (writes_only []) (includeFromAllProxies ctx c ip p).
Proof. apply forEach_writes. unfold IncludeProxyBackend, Do. foot. Qed.
#[local] Hint Resolve exclude_writes include_writes : foot.
Lemma release_writes st rq c : emits (writes_only []) (rollingRestartRelease st rq c).
Proof.
  unfold rollingRestartRelease, releaseOrdinal. foot.
Qed.
#[local] Hint Resolve release_writes : foot.
Lemma rolling_phase_writes ctx c0 st ur c : emits (writes_only []) (rolling_phase ctx c0 st ur c).
Proof.
  unfold rolling_phase, rollingRestartExcluding, rollingRestartDraining,
    rollingRestartWaitingReady, enter_draining, ordinal_done, next_ordinal. foot.
Qed.
#[local] Hint Resolve rolling_phase_writes : foot.
Lemma reconcileRollingRestart_writes ctx s n c :
  emits (writes_only []) (reconcileRollingRestart ctx s n c).
Proof.
  unfold reconcileRollingRestart, tryClearCompletedRollingRestart, ensureRollingRestartState,
    start_rolling. foot.
Qed.

(** *** Members *)

Lemma CollectMemberStatuses_writes ctx c ns n :
  emits (writes_only []) (CollectMemberStatuses ctx c ns n).
Proof.
  unfold CollectMemberStatuses. apply emits_make_slice. induction (ordinals_up 0 n); cbn [collect_members];
    unfold collect_member; foot.
Qed.
Lemma failover_loop_writes d ms c : emits (writes_only [KPod]) (failover_loop d ms c).
Proof. revert c. induction ms; intros c; cbn [failover_loop]; unfold failed_over; foot. Qed.
#[local] Hint Resolve failover_loop_writes : foot.
Lemma handleAutoFailover_writes ms c : emits (writes_only [KPod]) (handleAutoFailover ms c).
Proof. unfold handleAutoFailover. foot. Qed.
Lemma view_pods_writes ctx c l : emits (writes_only []) (view_pods ctx c l).
Proof. induction l; cbn [view_pods]; unfold view_pod; foot. Qed.
Lemma find_leader_writes ctx p all l : emits (writes_only []) (find_leader_among ctx p all l).
Proof. induction l; cbn [find_leader_among]; foot. Qed.
Lemma add_members_writes ctx h p k l : emits (writes_only []) (add_members ctx h p k l).
Proof. induction l; cbn [add_members]; foot. Qed.
#[local] Hint Resolve view_pods_writes find_leader_writes add_members_writes : foot.
Lemma reconcileClusterMembership_writes ctx n c :
  emits (writes_only []) (reconcileClusterMembership ctx n c).
Proof. unfold reconcileClusterMembership, findLeader. foot. Qed.
Lemma collect_manifests_writes ctx l c : emits (writes_only []) (collect_manifests ctx l c).
Proof. revert c. induction l; intros c; cbn [collect_manifests]; foot. Qed.
#[local] Hint Resolve collect_manifests_writes : foot.
Lemma monitorReplicationHealth_writes ctx n c :
  emits (writes_only []) (monitorReplicationHealth ctx n c).
Proof. unfold monitorReplicationHealth. foot. Qed.
End Steps.

(** ** Running the steps of a pass *)

Section Execution.
Context `{Lib}.
Implicit Types (c : HyperbytedbCluster) (ctx : Ctx) (t : list (entry Ans)).

(** A step that may end the pass, followed by the rest. *)
Lemma exec_rbind {A B} (m : CM (Final + A)) (f : A → CM (Final + B)) c t o :
  exec (rbind m f c) t o ↔
    (∃ t1 t2 c1 a, t = (t1 ++ t2)%list ∧ exec (m c) t1 (Done (c1, inr a)) ∧ exec (f a c1) t2 o) ∨
    (∃ c1 fin, exec (m c) t (Done (c1, inl fin)) ∧ o = Done (c1, inl fin)) ∨
    (exec (m c) t Panic ∧ o = Panic).
Proof.
  unfold rbind, mbind, M_bind. rewrite exec_bind. split.
  - intros [(t1 & t2 & [c1 [fin|a]] & -> & H1 & H2)|?]; [|left; eauto 10|auto].
    destruct H2 as [-> ->]. right. left. rewrite app_nil_r. eauto.
  - intros [(t1 & t2 & c1 & a & -> & H1 & H2)|[(c1 & fin & H1 & ->)|?]];
      [left; eauto 10| |auto].
    left. exists t, [], (c1, inl fin). by rewrite app_nil_r.
Qed.

Lemma exec_rbind_ok {A B} (m : CM (Final + A)) (f : A → CM (Final + B)) c t c' b :
  exec (rbind m f c) t (Done (c', inr b)) →
  ∃ t1 t2 c1 a, t = (t1 ++ t2)%list ∧ exec (m c) t1 (Done (c1, inr a)) ∧
    exec (f a c1) t2 (Done (c', inr b)).
Proof. intros [?|[(?&?&?&?)|[? ?]]]%exec_rbind; [done|simplify_eq..]. Qed.

Lemma exec_m_bind {A B} (m : CM A) (f : A → CM B) c t o :
  exec ((m ≫= f) c) t o ↔
    (∃ t1 t2 c1 a, t = (t1 ++ t2)%list ∧ exec (m c) t1 (Done (c1, a)) ∧ exec (f a c1) t2 o) ∨
    (exec (m c) t Panic ∧ o = Panic).
Proof.
  unfold mbind, M_bind. rewrite exec_bind. split.
  - intros [(t1 & t2 & [c1 a] & -> & H1 & H2)|?]; [left; eauto 10|auto].
  - intros [(t1 & t2 & c1 & a & -> & H1 & H2)|?]; [|auto].
    left. exists t1, t2, (c1, a). auto.
Qed.

(** A step that only reads the cluster leaves it alone. *)
Lemma exec_lift {A} (p : P A) c t o :
  exec (lift p c) t o ↔
    (∃ a, exec p t (Done a) ∧ o = Done (c, a)) ∨ (exec p t Panic ∧ o = Panic).
Proof.
  unfold lift. rewrite exec_bind. split.
  - intros [(t1 & t2 & a & -> & H1 & [-> ->])|?]; [|auto]. left. rewrite app_nil_r. eauto.
  - intros [(a & H1 & ->)|?]; [|auto]. left. exists t, [], a. by rewrite app_nil_r.
Qed.

Lemma exec_on_cluster {A} (f : HyperbytedbCluster → P A) c t o :
  exec (on_cluster f c) t o ↔
    (∃ a, exec (f c) t (Done a) ∧ o = Done (c, a)) ∨ (exec (f c) t Panic ∧ o = Panic).
Proof. unfold on_cluster. rewrite <- exec_lift. done. Qed.

Lemma exec_on_cluster_ok {A} (f : HyperbytedbCluster → P A) c t c' a :
  exec (on_cluster f c) t (Done (c', a)) → c' = c ∧ exec (f c) t (Done a).
Proof. rewrite exec_on_cluster. intros [(b & He & ?)|[_ ?]]; by simplify_eq. Qed.

Lemma setFailedStatus_returns {A} reason e c t c' (r : Final + A) :
  exec (setFailedStatus reason e c) t (Done (c', r)) → ∃ fin, r = inl fin.
Proof.
  unfold setFailedStatus. intros [(t1 & t2 & c1 & [] & -> & _ & He)|[_ ?]]%exec_m_bind; [|done].
  destruct e as [e|]; [|by destruct He].
  repeat (apply exec_m_bind in He as [(? & ? & ? & ? & -> & _ & He)|[_ ?]]; [|done]).
  destruct He as [_ ?]. simplify_eq. eauto.
Qed.

(** A step whose error ends the pass went well when the pass goes on. *)
Lemma or_fail_ok {A} reason (m : CM (GoErr + A)) c t c' a :
  exec (or_fail reason m c) t (Done (c', inr a)) → exec (m c) t (Done (c', inr a)).
Proof.
  unfold or_fail. intros [(t1 & t2 & c1 & [e|b] & -> & H1 & H2)|[_ ?]]%exec_m_bind; [..|done].
  - by apply setFailedStatus_returns in H2 as [? ?].
  - destruct H2 as [-> ?]. simplify_eq. by rewrite app_nil_r.
Qed.

Lemma or_fail_on_cluster_ok {A} reason (f : HyperbytedbCluster → P (GoErr + A)) c t c' a :
  exec (or_fail reason (on_cluster f) c) t (Done (c', inr a)) →
  c' = c ∧ exec (f c) t (Done (inr a)).
Proof. intros H1%or_fail_ok%exec_on_cluster_ok. done. Qed.

Lemma best_effort_ok (f : HyperbytedbCluster → P error) c t c' r :
  exec (best_effort (on_cluster f) c) t (Done (c', r)) → c' = c ∧ r = inr tt.
Proof.
  unfold best_effort. intros [(t1 & t2 & c1 & b & -> & H1 & H2)|[_ ?]]%exec_m_bind; [|done].
  apply exec_on_cluster_ok in H1 as [-> _]. destruct H2 as [_ ?]. by simplify_eq.
Qed.

(** The place of an entry in a concatenation whose other part cannot hold it. *)
Lemma entry_right (Q : Ev → Prop) (u : list (entry Ans)) x v t1 t2 :
  (u ++ x :: v)%list = (t1 ++ t2)%list → ¬ Q (entry_ev x) → Forall (λ y, Q (entry_ev y)) t1 →
  ∃ w, u = (t1 ++ w)%list ∧ (w ++ x :: v)%list = t2.
Proof.
  revert u. induction t1 as [|y t1 IH]; intros u He Hx Hall; [by exists u|]. simpl in He.
  apply Forall_cons in Hall as [Hy Hall]. destruct u as [|z u]; simplify_eq/=; [done|].
  destruct (IH u) as (w & -> & ?); [done..|]. by exists w.
Qed.

Lemma entry_left (Q : Ev → Prop) (u : list (entry Ans)) x v t1 t2 :
  (u ++ x :: v)%list = (t1 ++ t2)%list → ¬ Q (entry_ev x) → Forall (λ y, Q (entry_ev y)) t2 →
  ∃ w, v = (w ++ t2)%list ∧ (u ++ x :: w)%list = t1.
Proof.
  revert u. induction t1 as [|y t1 IH]; intros u He Hx Hall; simpl in *.
  - exfalso. apply Hx. rewrite Forall_forall in Hall. apply Hall. rewrite <- He.
    apply elem_of_app. right. left.
  - destruct u as [|z u]; simplify_eq/=; [by exists t1|].
    destruct (IH u) as (w & -> & <-); [done..|]. by exists w.
Qed.
End Execution.

(** ** What a pass has done before it touches the StatefulSet *)

Section Prepared.
Context `{Lib}.
Implicit Types (c : HyperbytedbCluster) (ctx : Ctx) (t : list (entry Ans)).

Definition has_finalizer c : Prop :=
  ContainsFinalizer (om_Finalizers (cl_Meta c)) clusterFinalizer = true.

(** The ConfigMap with the data rendered from [c] is known to exist: it was read with
    that data, or written. *)
Definition config_current c t : Prop :=
  ∃ cm,
    (@Entry Ev Ans (Get KConfigMap (cl_Namespace c) (ConfigMapName c)) (inr cm) ∈ t ∨
     (∃ a, @Entry Ev Ans (Create KConfigMap cm) (inr a) ∈ t) ∨
     (∃ a, @Entry Ev Ans (Update KConfigMap cm) (inr a) ∈ t)) ∧
    cm_Data cm = cm_Data (BuildConfigMap c).

Lemma config_current_mono c t u : t ⊆ u → config_current c t → config_current c u.
Proof.
  intros Hs (cm & Hc & Hd). exists cm. split; [|done].
  destruct Hc as [Hc|[[a Hc]|[a Hc]]]; [left|right; left; exists a|right; right; exists a];
    by apply Hs.
Qed.

Lemma reconcileConfigMap_ok c t :
  exec (reconcileConfigMap c) t (Done nil_err) → config_current c t.
Proof.
  assert (wp (reconcileConfigMap c) (λ t o, o = Done nil_err → config_current c t)) as Hwp.
  { unfold reconcileConfigMap, lookup_object, create, update.
    prog_unfold; prog_cbn; intros [e|cm]; [destruct (IsNotFound e)|].
    all: prog_go; intros; simplify_eq; bools.
    all: try (match goal with x : Ans _ |- _ => destruct x as [?|a]; [done|] end).
    - eexists. split; [right; left; exists a; by right; left|done].
    - exists cm. split; [by left; left|done].
    - eexists. split; [right; right; exists a; by right; left|done]. }
  intros He. by apply (proj1 (wp_exec _ _) Hwp t _ He).
Qed.

(** The replicas the pass compares the desired ones with. *)
Definition replicas_read c t (prev : Z) : Prop :=
  (∃ s, @Entry Ev Ans (Get KStatefulSet (cl_Namespace c) (StatefulSetName c)) (inr s) ∈ t ∧
        sts_Replicas s = Some prev) ∨
  (∃ e, @Entry Ev Ans (Get KStatefulSet (cl_Namespace c) (StatefulSetName c)) (inl e) ∈ t ∧
        IsNotFound e = true ∧ prev = 0%Z).

Lemma replicas_read_mono c t u n : t ⊆ u → replicas_read c t n → replicas_read c u n.
Proof.
  intros Hs [(s & Hc & Hd)|(e & Hc & Hd)]; [left; exists s|right; exists e];
    (split; [by apply Hs|done]).
Qed.

Lemma previous_replicas_ok c t c' prev :
  exec (previous_replicas c) t (Done (c', inr prev)) → c' = c ∧ replicas_read c t prev.
Proof.
  unfold previous_replicas. intros [(t1 & t2 & c1 & r & -> & H1 & H2)|[_ ?]]%exec_m_bind; [|done].
  apply exec_on_cluster_ok in H1 as [-> (x & t' & -> & [-> ?])]. simplify_eq.
  destruct x as [e|s].
  - destruct (IsNotFound e) eqn:He; [|by apply setFailedStatus_returns in H2 as [? ?]].
    destruct H2 as [-> ?]. simplify_eq. split; [done|]. right. exists e. by repeat constructor.
  - destruct (sts_Replicas s) eqn:Hs; [|by apply setFailedStatus_returns in H2 as [? ?]].
    destruct H2 as [-> ?]. simplify_eq. split; [done|]. left. exists s. by repeat constructor.
Qed.

Lemma pause_check_ok c t c' :
  exec (pause_check c) t (Done (c', inr tt)) →
  sp_Paused (cl_Spec c) = false ∧ t = [] ∧ ∃ st, c' = with_status c st.
Proof.
  unfold pause_check. intros [(t1 & t2 & c1 & a & -> & [-> [= -> ->]] & H2)|[_ ?]]%exec_m_bind;
    [|done].
  destruct (sp_Paused _) eqn:Hp.
  - repeat (apply exec_m_bind in H2 as [(? & ? & ? & ? & -> & _ & H2)|[_ ?]]; [|done]).
    by destruct H2 as [_ ?].
  - destruct H2 as [-> ?]. simplify_eq. eauto.
Qed.

Lemma deletion_ok c t c' :
  exec (deletion c) t (Done (c', inr tt)) →
  om_DeletionTimestamp (cl_Meta c) = None ∧ t = [] ∧ c' = c.
Proof.
  unfold deletion. intros [(t1 & t2 & c1 & a & -> & [-> [= -> ->]] & H2)|[_ ?]]%exec_m_bind;
    [|done].
  destruct (om_DeletionTimestamp _).
  - destruct (ContainsFinalizer _ _); [|by destruct H2 as [_ ?]].
    repeat (apply exec_m_bind in H2 as [(? & ? & ? & ? & -> & _ & H2)|[_ ?]]; [|done]).
    case_match; by destruct H2 as [_ ?].
  - destruct H2 as [-> ?]. by simplify_eq.
Qed.

Lemma UpdateCluster_exec c t o :
  exec (UpdateCluster c) t o →
  ∃ r, t = [@Entry Ev Ans (Update KCluster c) r] ∧
    o = Done (match r with inl e => (c, inl e) | inr c' => (c', nil_err) end).
Proof. intros ([e|c1] & t' & -> & Ht); destruct Ht as [-> ->]; by eexists. Qed.

(** The cluster a pass goes on with: the one it was given, which has the finalizer,
    or the one the API server answered to the write of the finalizer. *)
Definition adopted c t c' : Prop :=
  ((∃ st, c' = with_status c st) ∧ has_finalizer c) ∨
  (∃ c1, @Entry Ev Ans (Update KCluster c1) (inr c') ∈ t ∧ has_finalizer c1).

Lemma adopted_mono c t u c' : t ⊆ u → adopted c t c' → adopted c u c'.
Proof. intros Hs [?|(c1 & Hc & ?)]; [by left|right]. exists c1. split; [by apply Hs|done]. Qed.

Lemma ensure_finalizer_ok `{!LibLaws _} c t c' :
  exec (ensure_finalizer c) t (Done (c', inr tt)) → adopted c t c'.
Proof.
  unfold ensure_finalizer. intros [(t1 & t2 & c1 & a & -> & [-> [= -> ->]] & H2)|[_ ?]]%exec_m_bind;
    [|done].
  destruct (ContainsFinalizer _ _) eqn:Hf.
  { destruct H2 as [-> Hc']. injection Hc' as ->. left. split; [|done]. exists (cl_Status c). by destruct c. }
  apply exec_m_bind in H2 as [(t3 & t4 & c1 & [] & -> & [-> [= ->]] & H2)|[_ ?]]; [|done].
  unfold or_return in H2. apply exec_m_bind in H2 as [(t5 & t6 & c2 & r & -> & H1 & H2)|[_ ?]];
    [|done].
  apply UpdateCluster_exec in H1 as ([e|c3] & -> & ?); simplify_eq;
    destruct H2 as [-> ?]; simplify_eq.
  right. eexists. split; [by left|]. unfold has_finalizer. simpl. apply finalizer_added.
Qed.

Lemma auth_step_ok ctx c t c' ctx' :
  exec (auth_step ctx c) t (Done (c', inr ctx')) → c' = c.
Proof.
  unfold auth_step. intros [(t1 & t2 & c1 & a & -> & [-> [= -> ->]] & H2)|[_ ?]]%exec_m_bind;
    [|done].
  destruct (ClusterAuthEnabled c); [|by destruct H2 as [_ ?]; simplify_eq].
  apply exec_rbind_ok in H2 as (t3 & t4 & c1 & a & -> & [-> _]%or_fail_on_cluster_ok & [_ ?]).
  by simplify_eq.
Qed.

(** Everything before the scale-down gate. *)
Lemma prepare_ok `{!LibLaws _} ctx c t c' ctx' prev replicas h :
  exec (prepare ctx c) t (Done (c', inr (ctx', prev, replicas, h))) →
  adopted c t c' ∧ replicas = spec_replicas c' ∧ h = ConfigHash c' ∧
  replicas_read c' t prev ∧ config_current c' t.
Proof.
  unfold prepare. intros He.
  apply exec_rbind_ok in He as (t1 & t2 & c1 & [] & -> & (_ & -> & st & ->)%pause_check_ok & He).
  apply exec_rbind_ok in He as (t3 & t4 & c1 & [] & -> & (_ & -> & ->)%deletion_ok & He).
  apply exec_rbind_ok in He as (t5 & t6 & c1 & [] & -> & Hfin%ensure_finalizer_ok & He).
  apply exec_m_bind in He as [(t7 & t8 & c2 & a & -> & [-> [= -> ->]] & He)|[_ ?]]; [|done].
  apply exec_rbind_ok in He as (t9 & t10 & c2 & n & -> & [-> Hr]%previous_replicas_ok & He).
  apply exec_rbind_ok in He as (t11 & t12 & c2 & [] & -> & [-> _]%or_fail_on_cluster_ok & He).
  apply exec_rbind_ok in He as (t13 & t14 & c2 & ctx2 & -> & ->%auth_step_ok & He).
  apply exec_rbind_ok in He as (t15 & t16 & c2 & [] & -> & [-> Hc]%or_fail_on_cluster_ok & He).
  apply exec_rbind_ok in He as (t17 & t18 & c2 & [] & -> & [-> _]%best_effort_ok & He).
  apply exec_rbind_ok in He as (t19 & t20 & c2 & [] & -> & [-> _]%or_fail_on_cluster_ok & He).
  apply exec_rbind_ok in He as (t21 & t22 & c2 & [] & -> & [-> _]%or_fail_on_cluster_ok & He).
  destruct He as [-> ?]. simplify_eq. apply reconcileConfigMap_ok in Hc. split; [|split_and!; [done..| |]].
  - eapply (adopted_mono _ t5); [set_solver|].
    destruct Hfin as [((st' & ->) & Hf)|?]; [left|by right].
    split; [|done]. by exists st'.
  - eapply replicas_read_mono; [|done]. set_solver.
  - eapply config_current_mono; [|done]. set_solver.
Qed.

Lemma scale_down_step_ok ctx prev n c t c' :
  exec (scale_down_step ctx prev n c) t (Done (c', inr tt)) →
  c' = c ∧ exec (runScaleDownClusterHooks ctx c prev n) t (Done true).
Proof.
  unfold scale_down_step. intros [(t1 & t2 & c1 & r & -> & H1 & H2)|[_ ?]]%exec_m_bind; [|done].
  apply exec_on_cluster_ok in H1 as [-> H1].
  destruct r; destruct H2 as [-> ?]; simplify_eq. by rewrite app_nil_r.
Qed.
End Prepared.

(** ** The writes of the parts of a pass *)

Section PassWrites.
Context `{Lib}.
Implicit Types (c : HyperbytedbCluster) (ctx : Ctx) (t : list (entry Ans)).

#[local] Hint Resolve reconcileTLS_writes reconcileAuthSecret_writes reconcileConfigMap_writes
  cleanupLegacyPeers_writes reconcileService_writes reconcileProxy_writes
  reconcileServiceMonitor_writes reconcilePDB_writes reconcileHPA_writes hooks_writes
  deleteStuckDepartedPods_writes CleanupOrphanPVCs_writes reconcileRollingRestart_writes
  CollectMemberStatuses_writes handleAutoFailover_writes reconcileClusterMembership_writes
  monitorReplicationHealth_writes : foot.

Lemma setFailedStatus_writes {A} reason e c :
  emits (writes_only []) (setFailedStatus reason e c : P (HyperbytedbCluster * (Final + A))).
Proof. unfold setFailedStatus. foot. Qed.
#[local] Hint Resolve setFailedStatus_writes : foot.

Lemma rbind_emits {A B} Q (m : CM (Final + A)) (f : A → CM (Final + B)) c :
  emits Q (m c) → (∀ a c, emits Q (f a c)) → emits Q (rbind m f c).
Proof. intros Hm Hf. unfold rbind. apply emits_bind; [done|]. intros [c1 [fin|a]]; [done|apply Hf]. Qed.
Lemma m_bind_emits {A B} Q (m : CM A) (f : A → CM B) c :
  emits Q (m c) → (∀ a c, emits Q (f a c)) → emits Q ((m ≫= f) c).
Proof. intros Hm Hf. apply emits_bind; [done|]. intros [c1 a]. apply Hf. Qed.
Lemma on_cluster_emits {A} Q (f : HyperbytedbCluster → P A) c :
  emits Q (f c) → emits Q (on_cluster f c).
Proof.
  intros Hf. change (emits Q (Prog.bind (f c) (λ a, Prog.Ret (c, a)))). by apply emits_bind.
Qed.
Lemma or_fail_emits {A} ks reason (m : CM (GoErr + A)) c :
  emits (writes_only ks) (m c) → emits (writes_only ks) (or_fail reason m c).
Proof.
  intros Hm. apply m_bind_emits; [done|]. intros [e|a] c1; [|done].
  eapply emits_writes_mono; [|apply setFailedStatus_writes]. done.
Qed.
Lemma best_effort_emits ks (m : CM error) c :
  emits (writes_only ks) (m c) → emits (writes_only ks) (best_effort m c).
Proof. intros Hm. by apply m_bind_emits. Qed.

(** Composes the footprints of the steps. *)
Ltac pass_foot :=
  repeat first
    [ apply rbind_emits | apply or_fail_emits | apply best_effort_emits | apply on_cluster_emits
    | solve [auto with foot]
    | solve [eapply emits_writes_mono; [|solve [auto with foot]]; reflexivity]
    | progress intros ].

Lemma pause_check_writes c : emits (writes_only []) (pause_check c).
Proof. unfold pause_check. foot. Qed.
Lemma deletion_writes c : emits (writes_only [KCluster]) (deletion c).
Proof. unfold deletion, modify_finalizers, rbind, or_return, UpdateCluster, return_ok, return_err. foot. Qed.
Lemma ensure_finalizer_writes c : emits (writes_only [KCluster]) (ensure_finalizer c).
Proof. unfold ensure_finalizer, modify_finalizers, or_return, UpdateCluster, return_err. foot. Qed.
#[local] Hint Resolve pause_check_writes deletion_writes ensure_finalizer_writes : foot.
Lemma previous_replicas_writes c : emits (writes_only []) (previous_replicas c).
Proof. unfold previous_replicas, on_cluster. foot. Qed.
Lemma auth_step_writes ctx c : emits (writes_only [KSecret]) (auth_step ctx c).
Proof.
  unfold auth_step. apply m_bind_emits; [done|]. intros a c1. destruct (ClusterAuthEnabled _); [|done].
  pass_foot. done.
Qed.
#[local] Hint Resolve previous_replicas_writes auth_step_writes : foot.

Definition prepare_kinds : list Kind := [KCluster; KSecret; KConfigMap; KService].

Lemma prepare_writes ctx c : emits (writes_only prepare_kinds) (prepare ctx c).
Proof.
  unfold prepare. do 3 (apply rbind_emits; [pass_foot|intros ? ?]).
  apply m_bind_emits; [done|]. intros ? ?. pass_foot; done.
Qed.

Lemma scale_down_step_writes ctx p n c : emits (writes_only []) (scale_down_step ctx p n c).
Proof.
  unfold scale_down_step. apply m_bind_emits; [by pass_foot|]. by intros [] ?.
Qed.
Lemma proxy_step_writes c : emits (writes_only [KService; KDeployment]) (proxy_step c).
Proof.
  unfold proxy_step. apply m_bind_emits; [done|]. intros a c1.
  destruct (ProxyEnabled _); [by pass_foot|done].
Qed.
Lemma rolling_restart_step_writes ctx sts n c :
  emits (writes_only []) (rolling_restart_step ctx sts n c).
Proof.
  unfold rolling_restart_step. apply m_bind_emits; [done|]. intros a c1.
  destruct (ProxyEnabled _); [|done]. pass_foot. by case_match.
Qed.
Lemma scaling_step_writes sts n c : emits (writes_only []) (scaling_step sts n c).
Proof. unfold scaling_step, updatePhase, return_ok. foot. Qed.
Lemma orphan_pvc_step_writes p n c : emits (writes_only [KPVC]) (orphan_pvc_step p n c).
Proof. unfold orphan_pvc_step. destruct (bool_decide _); [by pass_foot|done]. Qed.
Lemma service_monitor_step_writes c : emits (writes_only [KServiceMonitor]) (service_monitor_step c).
Proof.
  unfold service_monitor_step. apply m_bind_emits; [done|]. intros a c1.
  destruct (mon_ServiceMonitor _); [by pass_foot|done].
Qed.
Lemma members_step_writes ctx n c : emits (writes_only []) (members_step ctx n c).
Proof.
  unfold members_step. apply m_bind_emits; [by pass_foot|]. intros ms c1. foot.
Qed.
Lemma updateStatus_writes sts h c : emits (writes_only []) (updateStatus sts h c).
Proof. unfold updateStatus, upgrading, on_cluster. foot. Qed.
#[local] Hint Resolve scale_down_step_writes proxy_step_writes rolling_restart_step_writes
  scaling_step_writes orphan_pvc_step_writes service_monitor_step_writes members_step_writes
  updateStatus_writes : foot.

Lemma observe_writes ctx sts n h c : emits (writes_only [KPod]) (observe ctx sts n h c).
Proof.
  unfold observe. apply m_bind_emits; [by pass_foot|]. intros ms c1.
  do 2 (apply m_bind_emits; [destruct (bool_decide _); by pass_foot|intros ? ?]).
  apply m_bind_emits; [by pass_foot|]. intros ? ?. apply m_bind_emits; [done|]. intros ? ?.
  apply m_bind_emits; [by foot|]. intros ? ?. apply m_bind_emits; [by pass_foot|done].
Qed.
#[local] Hint Resolve observe_writes : foot.

Definition converge_kinds : list Kind :=
  [KPod; KService; KDeployment; KPVC; KServiceMonitor; KPDB; KHPA].

Lemma converge_writes ctx sts p n h c : emits (writes_only converge_kinds) (converge ctx sts p n h c).
Proof.
  unfold converge. do 8 (apply rbind_emits; [by pass_foot|intros ? ?]).
  apply m_bind_emits; [by pass_foot|done].
Qed.

(** *** Locating a write of the StatefulSet *)

Lemma skip_step {A B} ks (m : CM (Final + A)) (f : A → CM (Final + B)) c u x v o :
  emits (writes_only ks) (m c) → existsb (λ k, bool_decide (KStatefulSet = k)) ks = false →
  sts_write (entry_ev x) = true → exec (rbind m f c) (u ++ x :: v)%list o →
  ∃ t1 w c1 a, u = (t1 ++ w)%list ∧ exec (m c) t1 (Done (c1, inr a)) ∧
    exec (f a c1) (w ++ x :: v)%list o.
Proof.
  intros Hm Hk Hx He. apply (emits_spares _ _ Hk) in Hm.
  assert (¬ spares_sts (entry_ev x)) as Hx' by (unfold spares_sts; congruence).
  apply exec_rbind in He as [(t1 & t2 & c1 & a & Ht & H1 & H2)|[(c1 & fin & H1 & _)|[H1 _]]].
  - destruct (entry_right _ _ _ _ _ _ Ht Hx' (emits_exec _ _ _ _ Hm H1)) as (w & -> & Hw).
    exists t1, w, c1, a. by rewrite Hw.
  - exfalso. apply Hx'. apply (emits_exec _ _ _ _ Hm) in H1. rewrite Forall_app in H1.
    by destruct H1 as [_ [??]%Forall_cons].
  - exfalso. apply Hx'. apply (emits_exec _ _ _ _ Hm) in H1. rewrite Forall_app in H1.
    by destruct H1 as [_ [??]%Forall_cons].
Qed.

Lemma keep_step {A B} ks (m : CM (Final + A)) (f : A → CM (Final + B)) c u x v o :
  (∀ a c, emits (writes_only ks) (f a c)) →
  existsb (λ k, bool_decide (KStatefulSet = k)) ks = false →
  sts_write (entry_ev x) = true → exec (rbind m f c) (u ++ x :: v)%list o →
  ∃ w o', exec (m c) (u ++ x :: w)%list o'.
Proof.
  intros Hf Hk Hx He.
  assert (¬ spares_sts (entry_ev x)) as Hx' by (unfold spares_sts; congruence).
  apply exec_rbind in He as [(t1 & t2 & c1 & a & Ht & H1 & H2)|[(c1 & fin & H1 & _)|[H1 _]]];
    [|by eauto..].
  pose proof (emits_exec _ _ _ _ (emits_spares _ _ Hk (Hf a c1)) H2) as Hall.
  destruct (entry_left _ _ _ _ _ _ Ht Hx' Hall) as (w & _ & <-). eauto.
Qed.

Lemma statefulset_step_write h c u x v o :
  exec (statefulset_step h c) (u ++ x :: v)%list o → sts_write (entry_ev x) = true →
  ∃ w o', exec (reconcileStatefulSet c h) (u ++ x :: w)%list o'.
Proof.
  intros He Hx. assert (¬ spares_sts (entry_ev x)) as Hx' by (unfold spares_sts; congruence).
  unfold statefulset_step in He.
  apply exec_m_bind in He as [(t1 & t2 & c1 & r & Ht & H1 & H2)|[H1 _]];
    [|apply exec_on_cluster in H1 as [(? & ? & ?)|[H1 _]]; [done|by eauto]].
  apply exec_on_cluster_ok in H1 as [-> H1].
  assert (Forall (λ y, spares_sts (entry_ev y)) t2) as Hall.
  { destruct r as [e|res]; [destruct (IsConflict e)|destruct (srr_Recreating res)];
      try (destruct H2 as [-> _]; constructor).
    eapply emits_exec; [|exact H2]. eapply (emits_spares []); [done|]. apply setFailedStatus_writes. }
  destruct (entry_left _ _ _ _ _ _ Ht Hx' Hall) as (w & _ & <-). eauto.
Qed.

(** The one write of the StatefulSet in a pass. *)
Definition sts_intent c h (u : list (entry Ans)) (e : Ev) : Prop :=
  let desired := desired_sts c h in
  e = Create KStatefulSet desired ∨
  ∃ s, @Entry Ev Ans (Get KStatefulSet (cl_Namespace c) (StatefulSetName c)) (inr s) ∈ u ∧
    ((e = Update KStatefulSet (sts_with s desired) ∧
      sts_PodManagementPolicy s = sts_PodManagementPolicy desired) ∨
     (e = Delete KStatefulSet (om_Namespace (sts_Meta s)) (om_Name (sts_Meta s)) true ∧
      sts_PodManagementPolicy s ≠ sts_PodManagementPolicy desired)).

Lemma reconcileStatefulSet_write h c u x v o :
  exec (reconcileStatefulSet c h) (u ++ x :: v)%list o → sts_write (entry_ev x) = true →
  no_sts_write u ∧ sts_intent c h u (entry_ev x).
Proof.
  assert (wp (reconcileStatefulSet c h) (λ t _, ∀ u v x, t = (u ++ x :: v)%list →
    sts_write (entry_ev x) = true → no_sts_write u ∧ sts_intent c h u (entry_ev x))) as Hwp;
    [|intros He; exact (proj1 (wp_exec _ _) Hwp _ _ He u v x eq_refl)].
  unfold reconcileStatefulSet, lookup_object, delete_object, event, sts_result.
  prog_unfold; prog_cbn; intros [e|s]; [destruct (IsNotFound e)|].
  all: prog_go.
  all: match goal with Hu : _ = (?u ++ _ :: _)%list |- _ =>
         destruct u as [|? [|? [|? u']]]; simplify_eq/=; try done end.
  all: try (match goal with Hu : [] = (?u ++ _ :: _)%list |- _ => by destruct u end).
  all: split; [by repeat constructor|]; bools; first [by left | right; exists s; split; [by left|]; by auto].
Qed.
End PassWrites.

(** ** Errors *)

Section Failures.
Context `{Lib, !LibLaws _}.
Implicit Types (c : HyperbytedbCluster) (ctx : Ctx) (t u : list (entry Ans)).

Lemma condition_status_set now cs cond :
  cond_Status <$> find_condition (SetStatusCondition now cs cond) (cond_Type cond)
    = Some (cond_Status cond).
Proof. rewrite <- (set_condition_same now cs cond). by destruct (find_condition _ _). Qed.
Lemma condition_reason_set now cs cond :
  cond_Reason <$> find_condition (SetStatusCondition now cs cond) (cond_Type cond)
    = Some (cond_Reason cond).
Proof. rewrite <- (set_condition_reason now cs cond). by destruct (find_condition _ _). Qed.

(** The failure is in the status that was written - phase Failed, condition Degraded -
    and in a warning event. *)
Definition reported t (e : GoErr) : Prop :=
  ∃ w a reason,
    @Entry Ev Ans (StatusUpdate KCluster w) a ∈ t ∧
    st_Phase (cl_Status w) = ClusterPhaseFailed ∧
    cond_Status <$> find_condition (st_Conditions (cl_Status w)) "Degraded" = Some ConditionTrue ∧
    cond_Reason <$> find_condition (st_Conditions (cl_Status w)) "Degraded" = Some reason ∧
    @Entry Ev Ans (Event EventTypeWarning reason ("Reconciliation failed: " +:+ err_Msg e)) tt ∈ t.

Definition fails t (res : Result) (e : GoErr) : Prop :=
  (res = no_requeue ∧ ∃ w, @Entry Ev Ans (Update KCluster w) (inl e) ∈ t) ∨
  (res = requeue_after (30 * Second)%Z ∧ reported t e).

Lemma fails_mono t u res e : t ⊆ u → fails t res e → fails u res e.
Proof.
  intros Hs [(? & w & ?)|(? & w & a & r & ? & ? & ? & ? & ?)]; [left|right].
  - split; [done|]. exists w. by apply Hs.
  - split; [done|]. exists w, a, r. split_and!; auto.
Qed.

(** A step whose failures are all reported. *)
Definition reporting {A} (m : CM (Final + A)) : Prop :=
  ∀ c t c' res e, exec (m c) t (Done (c', inl (res, Some e))) → fails t res e.

Lemma rbind_reporting {A B} (m : CM (Final + A)) (f : A → CM (Final + B)) :
  reporting m → (∀ a, reporting (f a)) → reporting (rbind m f).
Proof.
  intros Hm Hf c t c' res e [(t1 & t2 & c1 & a & -> & H1 & H2)|[(c1 & fin & H1 & ?)|[_ ?]]]%exec_rbind;
    simplify_eq.
  - eapply fails_mono; [|by eapply Hf]. set_solver.
  - by eapply Hm.
Qed.

Lemma m_bind_reporting {A B} (m : CM A) (f : A → CM (Final + B)) :
  (∀ a, reporting (f a)) → reporting (m ≫= f).
Proof.
  intros Hf c t c' res e [(t1 & t2 & c1 & a & -> & _ & H2)|[_ ?]]%exec_m_bind; [|done].
  eapply fails_mono; [|by eapply Hf]. set_solver.
Qed.

Lemma pure_reporting {A} (r : Final + A) :
  match r with inl (_, Some _) => False | _ => True end → reporting (pure r).
Proof. intros Hr c t c' res e [_ ?]. by simplify_eq. Qed.

Lemma setFailedStatus_reporting {A} reason err : reporting (setFailedStatus (A := A) reason err).
Proof.
  intros c t c' res e He. assert (wp (setFailedStatus (A := A) reason err c) (λ t o,
    ∀ c' res e, o = Done (c', inl (res, Some e)) → fails t res e)) as Hwp.
  { unfold setFailedStatus, modify_status, set_cluster_condition, StatusUpdateCluster, record_event.
    destruct err as [e'|]; prog_unfold; cbn; [|done].
    intros now [e1|c1]; cbn; intros [] c2 res' e2 ?; simplify_eq; right; (split; [done|]);
      (eexists _, _, reason; split; [right; left|]; split; [done|]; cbn;
       split; [exact (condition_status_set now _ (degraded_condition reason (err_Msg e2) now))|];
       split; [exact (condition_reason_set now _ (degraded_condition reason (err_Msg e2) now))|];
       right; right; left). }
  exact (proj1 (wp_exec _ _) Hwp _ _ He _ _ _ eq_refl).
Qed.

Lemma or_fail_reporting {A} reason (m : CM (GoErr + A)) : reporting (or_fail reason m).
Proof.
  apply m_bind_reporting. intros [e|a]; [apply setFailedStatus_reporting|by apply pure_reporting].
Qed.

Lemma best_effort_reporting (m : CM error) : reporting (best_effort m).
Proof. apply m_bind_reporting. intros. by apply pure_reporting. Qed.

Lemma UpdateCluster_reporting : reporting (or_return UpdateCluster).
Proof.
  intros c t c' res e [(t1 & t2 & c1 & r & -> & H1 & H2)|[_ ?]]%exec_m_bind; [|done].
  apply UpdateCluster_exec in H1 as ([e1|c2] & -> & ?); simplify_eq;
    destruct H2 as [-> ?]; simplify_eq.
  left. split; [done|]. eexists. left.
Qed.
End Failures.

(** Composes [reporting] over the steps. *)
Ltac reporting_go :=
  repeat first
    [ simple apply UpdateCluster_reporting | simple apply or_fail_reporting
    | simple apply best_effort_reporting | simple apply rbind_reporting; [|intros ?]
    | apply setFailedStatus_reporting
    | apply pure_reporting; done | apply m_bind_reporting; intros ?
    | match goal with |- reporting (match ?x with _ => _ end) => destruct x end
    | match goal with |- reporting (if ?x then _ else _) => destruct x end
    | progress intros ].

Section PassFailures.
Context `{Lib, !LibLaws _}.

Lemma prepare_reporting ctx : reporting (prepare ctx).
Proof.
  unfold prepare, pause_check, deletion, ensure_finalizer, previous_replicas, auth_step, return_ok.
  reporting_go.
Qed.
Lemma converge_reporting ctx sts p n h : reporting (converge ctx sts p n h).
Proof.
  unfold converge, proxy_step, rolling_restart_step, scaling_step, orphan_pvc_step,
    service_monitor_step, return_ok. reporting_go.
Qed.
Lemma gate_reporting ctx p n : reporting (scale_down_step ctx p n).
Proof. unfold scale_down_step, return_ok. reporting_go. Qed.
Lemma statefulset_step_reporting h : reporting (statefulset_step h).
Proof. unfold statefulset_step, return_ok. reporting_go. Qed.

(** The end of a pass that got that far. *)
Lemma observe_result ctx sts n h c t c' fin :
  exec (observe ctx sts n h c) t (Done (c', fin)) → fin = (requeue_after (30 * Second)%Z, None).
Proof.
  unfold observe. intros He.
  repeat (apply exec_m_bind in He as [(? & ? & ? & ? & -> & _ & He)|[_ ?]]; [|done]).
  destruct He as [_ ?]. by simplify_eq.
Qed.

Lemma converge_result ctx sts p n h c t c' fin :
  exec (converge ctx sts p n h c) t (Done (c', inr fin)) →
  fin = (requeue_after (30 * Second)%Z, None).
Proof.
  unfold converge. intros He.
  do 8 (apply exec_rbind_ok in He as (? & ? & ? & ? & -> & _ & He)).
  apply exec_m_bind in He as [(? & ? & ? & ? & -> & He & [_ ?])|[_ ?]]; [|done]. simplify_eq.
  by apply observe_result in He.
Qed.
End PassFailures.
