(* ===== verification/ScaleDownTheorems.v ===== *)
(** Scaling down: the properties. *)

From S2P Require Import Prelude GoStrings Messages Lib ApiTypes Image Compat Config K8s Prog Go Client Controller ScaleDown ScaleDownProofs Demo.
#[local] Open Scope string_scope.

Section Gate.
Context `{Lib}.
Implicit Types (c : HyperbytedbCluster) (ctx : Ctx) (t : list (entry Ans)).

(** C2: the hooks let [.spec.replicas] shrink from [prev] to [desired] only when
    every departing ordinal, asked in this pass, was unreachable or reported
    "leaving" (all its regions evacuated), and every departing node id has
    been removed from the Raft voters by a successful request to a host that a
    member named the leader. *)
Theorem scale_down_gate ctx c prev desired t :
  in_int32 prev → (0 <= desired < prev)%Z →
  exec (runScaleDownClusterHooks ctx c prev desired) t (Done true) →
  ∀ i, (desired <= i < prev)%Z →
    (∃ n, observed ctx c t i n ∧ (dn_reachable n = false ∨ dn_state n = nodeStateLeaving)) ∧
    voter_removed ctx (host_map c prev) (ServerPort c) t (i + 1).
Proof.
  intros Hp Hd He i Hi. destruct (hooks_gate _ _ _ _ _ He i) as [Ho Hv]; [lia..|].
  split; [done|]. by rewrite <- (uint64_id (i + 1)) by (unfold in_int32 in Hp; lia).
Qed.

(** C29: without the evacuate-together annotation a pass tells at most one node to
    decommission, and only when it answered that it still holds data and every
    higher departing ordinal is unreachable or has evacuated. *)
Theorem one_node_at_a_time ctx c prev desired t o :
  EvacuateTogether c = false → (desired < prev)%Z → (1 <= prev)%Z →
  exec (runScaleDownClusterHooks ctx c prev desired) t o →
  decommissions t = [] ∨
  ∃ i n, (desired <= i < prev)%Z ∧ decommissions t = [decommission_url c i] ∧
    observed ctx c t i n ∧ to_tell n = true ∧
    ∀ j, (i < j < prev)%Z →
      ∃ m, observed ctx c t j m ∧ (dn_reachable m = false ∨ dn_state m = nodeStateLeaving).
Proof.
  intros Htog Hlt Hpos He.
  apply hooks_exec in He as (t1 & t2 & t3 & l & -> & H1 & Hrest); [|done..].
  apply probe_exec in H1 as (Hd1 & l' & Hl & Hlook & _). simplify_eq.
  rewrite Htog in Hrest. unfold departurePlan in Hrest.
  destruct (departure_loop 0 l'.*1 false) as [tell ev] eqn:Hplan.
  destruct Hrest as (Hd2 & Hd3 & _). rewrite !decommissions_app, Hd1, Hd2, Hd3, app_nil_r.
  assert (∀ i n, observed ctx c t1 i n → observed ctx c (t1 ++ t2 ++ t3) i n) as Hmono.
  { intros i n. apply observed_mono. intros x Hx. apply elem_of_app. by left. }
  destruct (departure_sequential 0 l'.*1) as [Ht|(k & n & Ht & Hn & Htell & Hbefore)];
    rewrite Hplan in Ht; simpl in Ht; subst tell; [by left|right].
  apply list_lookup_fmap_Some in Hn as ([n' h] & -> & Hk).
  destruct (Hlook k n' h Hk) as (i & Hi & -> & Ho). apply ordinals_down_lookup in Hi as [-> Hi].
  simpl. rewrite list_lookup_fmap, Hk. simpl.
  eexists _, n'. split; [done|]. split; [done|]. split; [by apply Hmono|]. split; [done|].
  intros j Hj.
  assert (ordinals_down desired prev !! Z.to_nat (prev - 1 - j) = Some j) as Hjl
    by (apply ordinals_down_lookup; lia).
  assert (is_Some (l' !! Z.to_nat (prev - 1 - j))) as [[m h'] Hm].
  { apply lookup_lt_is_Some. apply lookup_lt_Some in Hk. lia. }
  destruct (Hlook _ _ _ Hm) as (j' & Hj' & _ & Hom). simplify_eq.
  exists m. split; [by apply Hmono|].
  assert (gates m = false) as Hg.
  { eapply (Hbefore (Z.to_nat (prev - 1 - j))); [lia|]. by rewrite list_lookup_fmap, Hm. }
  destruct (dn_reachable m) eqn:Hr; [right|by left].
  destruct (decide (dn_state m = nodeStateLeaving)); [done|].
  assert (gates m = true) by by apply gates_spec. congruence.
Qed.
(** C30: Stopping the probes at the first node that still gates is an
    optimisation only: the plan made from the probed nodes is the plan made from
    the answers of all departing nodes. *)
Theorem early_stop_same_plan ctx c together ordinals t l (a : Z → GoErr + Response) :
  exec (probe_departing ctx c together ordinals) t (Done l) →
  (∀ i r, i ∈ ordinals → @Entry Ev Ans (Http (health_req ctx c i)) r ∈ t → r = a i) →
  departurePlan l.*1 together =
    departurePlan ((λ i, departing_of (health_answer (a i))) <$> ordinals) together.
Proof.
  intros He Ha.
  destruct (probe_prefix ctx c together ordinals t l a He Ha)
    as [->|(-> & pre & n & post & -> & -> & Hn & Hpre)]; [done|].
  symmetry. by apply departure_prefix.
Qed.

(** The plan of [departurePlan]: evacuated iff every node is unreachable or
    leaving; together, the nodes told are exactly the reachable ones that are
    neither leaving nor decommissioning; one at a time, at most the first node
    that gates. *)
Theorem departurePlan_correct nodes together :
  ((departurePlan nodes together).2 = true ↔
     Forall (λ n, dn_reachable n = false ∨ dn_state n = nodeStateLeaving) nodes) ∧
  (together = true → ∀ k, k ∈ (departurePlan nodes together).1 ↔
     ∃ n, nodes !! k = Some n ∧ dn_reachable n = true ∧ dn_state n ≠ nodeStateLeaving ∧
          dn_state n ≠ nodeStateDecommissioning) ∧
  (together = false → ∀ k, k ∈ (departurePlan nodes together).1 →
     (departurePlan nodes together).1 = [k] ∧
     ∀ j n, (j < k)%nat → nodes !! j = Some n →
            dn_reachable n = false ∨ dn_state n = nodeStateLeaving).
Proof.
  assert (∀ n, gates n = false ↔ dn_reachable n = false ∨ dn_state n = nodeStateLeaving) as Hg.
  { intros n. rewrite <- not_true_iff_false, gates_spec.
    destruct (dn_reachable n), (decide (dn_state n = nodeStateLeaving)); naive_solver. }
  split; [|split].
  - unfold departurePlan. rewrite departure_evacuated. by setoid_rewrite Hg.
  - intros -> k. unfold departurePlan. rewrite departure_together. setoid_rewrite to_tell_spec.
    split; [intros (j & n & -> & ?); by exists n|intros (n & ?); by exists k, n].
  - intros -> k Hk. unfold departurePlan in *.
    destruct (departure_sequential 0 nodes) as [Hn|(j & n & Ht & _ & _ & Hb)].
    + rewrite Hn in Hk. by apply not_elem_of_nil in Hk.
    + rewrite Ht in Hk |- *. apply list_elem_of_singleton in Hk as ->. split; [done|].
      intros j' n' Hlt Hl. apply Hg. by apply (Hb j').
Qed.
(** C31: a pass over the pods a scale-down left behind deletes only pods read at an
    ordinal in [spec.replicas, status.replicas) that are not Ready and not
    already terminating; when it returns no error it deleted every such pod. *)
Theorem only_stuck_pods_deleted c sts t o :
  exec (deleteStuckDepartedPods c sts) t o →
  (∀ d, d ∈ deletions t → ∃ i pod,
     (srr_SpecReplicas sts <= i < srr_StatusReplicas sts)%Z ∧ pod_at c t i pod ∧
     om_DeletionTimestamp (pod_Meta pod) = None ∧ isPodReady pod = false ∧
     d = (KPod, om_Namespace (pod_Meta pod), pod_Name pod)) ∧
  (o = Done nil_err → ∀ i, (srr_SpecReplicas sts <= i < srr_StatusReplicas sts)%Z →
     no_pod_at c t i ∨ ∃ pod, pod_at c t i pod ∧
       (om_DeletionTimestamp (pod_Meta pod) = None → isPodReady pod = false →
        (KPod, om_Namespace (pod_Meta pod), pod_Name pod) ∈ deletions t)).
Proof.
  intros He. unfold deleteStuckDepartedPods in He. case_bool_decide.
  { destruct He as [-> ->]. split; [|lia]. intros d Hd. by apply not_elem_of_nil in Hd. }
  set (key := λ pod, (KPod, om_Namespace (pod_Meta pod), pod_Name pod)).
  apply exec_pbind in He as [(t1 & t2 & pods & -> & H1 & H2)|[(e & H1 & ->)|[H1 ->]]];
    apply exec_make_slice in H1 as [[_ H1]|(_ & -> & ?)]; simplify_eq;
    try (split; [|done]; intros d Hd; by apply not_elem_of_nil in Hd);
    apply get_pods_exec in H1 as (Hd1 & r & Hr & Hpods); simplify_eq.
  2: { split; [|done]. intros d Hd. rewrite Hd1 in Hd. by apply not_elem_of_nil in Hd. }
  destruct (Hpods pods eq_refl) as [Hfound Hall].
  destruct (for_each_deletions (stuckDepartedPods pods) delete_departed key _ _
              (λ a t o, delete_departed_exec a t o) H2) as [[k Hk] Hdone].
  assert (∀ i p, pod_at c t1 i p → pod_at c (t1 ++ t2) i p) as Hmono.
  { intros i p Hp. apply elem_of_app. by left. }
  rewrite deletions_app, Hd1. simpl. split.
  - intros d Hd. rewrite Hk in Hd. apply list_elem_of_fmap in Hd as (pod & -> & Hin).
    apply elem_of_take in Hin as (j & Hin & _). apply list_elem_of_lookup_2 in Hin.
    apply stuckDepartedPods_spec in Hin as (Hp & Hdel & Hready).
    destruct (Hfound pod Hp) as (i & Hi%ordinals_up_elem & Hat). exists i, pod. auto 10.
  - intros Ho i Hi%ordinals_up_elem.
    destruct (Hall i Hi) as [(e & He & Hnf)|(pod & Hp & Hat)].
    + left. exists e. split; [apply elem_of_app; by left|done].
    + right. exists pod. split; [by apply Hmono|]. intros Hdel Hready.
      rewrite (Hdone Ho). apply list_elem_of_fmap. exists pod. split; [done|].
      by apply stuckDepartedPods_spec.
Qed.
(** C32: the cleanup after a scale-down deletes the claims of ordinals in
    [desired, current) only - never the volume of an ordinal that stays - and
    without an error each of them is deleted or was already gone. *)
Theorem only_orphan_pvcs_deleted c current desired t o :
  exec (CleanupOrphanPVCs c current desired) t o → Forall pvc_honest t →
  (∀ d, d ∈ deletions t →
     ∃ i, (desired <= i < current)%Z ∧ d = (KPVC, cl_Namespace c, pvc_name c i)) ∧
  (∀ j, (j < desired)%Z → (KPVC, cl_Namespace c, pvc_name c j) ∉ deletions t) ∧
  (o = Done nil_err → ∀ i, (desired <= i < current)%Z →
     (KPVC, cl_Namespace c, pvc_name c i) ∈ deletions t ∨
     ∃ e, @Entry Ev Ans (Get KPVC (cl_Namespace c) (pvc_name c i)) (inl e) ∈ t ∧
          IsNotFound e = true).
Proof.
  intros He Hh. destruct (cleanup_exec _ _ _ _ He Hh) as [Hsub Hall].
  setoid_rewrite ordinals_up_elem in Hsub. setoid_rewrite ordinals_up_elem in Hall.
  split; [done|]. split; [|done].
  intros j Hj Hd. destruct (Hsub _ Hd) as (i & Hi & Heq).
  assert (pvc_name c j = pvc_name c i) as ->%pvc_name_inj by congruence. lia.
Qed.
End Gate.

(** ** Witnesses *)

(** Nodes answer their health with [state], and name node 1 the leader. *)
Definition scale_world (state : string) : World := {|
  w_now := 0%Z;
  w_get k name :=
    match k with
    | KPod => Some (mkPod (demo_meta name) "" [("Ready", ConditionFalse)] [])
    | KPVC => Some (mkPVC (demo_meta name))
    | _ => None
    end;
  w_pods := [];
  w_http r := if Contains (rq_URL r) "/health" then mkRsp 200 (Some (health_body state))
              else mkRsp 200 (Some leader_body) |}.

Definition three_to_two : HyperbytedbCluster := demo_cluster 2 None.
Definition hooks_trace (state : string) : list (entry Ans) :=
  trace_of (scale_world state) (runScaleDownClusterHooks "" three_to_two 3 2).

Lemma scale_down_gate_witness :
  (∃ n, observed "" three_to_two (hooks_trace "leaving") 2 n ∧
     (dn_reachable n = false ∨ dn_state n = nodeStateLeaving)) ∧
  voter_removed "" (host_map three_to_two 3) (ServerPort three_to_two)
    (hooks_trace "leaving") (2 + 1).
Proof.
  apply (scale_down_gate "" three_to_two 3 2); [unfold in_int32; lia|lia| |lia].
  apply world_done. vm_compute. reflexivity.
Defined.

Lemma one_node_at_a_time_witness :
  decommissions (hooks_trace "active") = [decommission_url three_to_two 2] ∧
  (decommissions (hooks_trace "active") = [] ∨
   ∃ i n, (2 <= i < 3)%Z ∧ decommissions (hooks_trace "active") = [decommission_url three_to_two i] ∧
    observed "" three_to_two (hooks_trace "active") i n ∧ to_tell n = true ∧
    ∀ j, (i < j < 3)%Z → ∃ m, observed "" three_to_two (hooks_trace "active") j m ∧
      (dn_reachable m = false ∨ dn_state m = nodeStateLeaving)).
Proof.
  split; [vm_compute; reflexivity|].
  eapply (one_node_at_a_time "" three_to_two 3 2);
    [vm_compute; reflexivity|lia|lia|apply world_exec].
Defined.

Lemma early_stop_same_plan_witness :
  let a := λ _ : Z, inr (mkRsp 200 (Some (health_body "active"))) : GoErr + Response in
  let l := [(mkDeparting "active" true, pod_host three_to_two 2)] in
  departurePlan l.*1 false =
    departurePlan ((λ i, departing_of (health_answer (a i))) <$> ordinals_down 0 3) false.
Proof.
  cbv zeta.
  eapply (early_stop_same_plan "" three_to_two false (ordinals_down 0 3)
    [@Entry Ev Ans (Http (health_req "" three_to_two 2)) (inr (mkRsp 200 (Some (health_body "active"))))]).
  - exists (inr (mkRsp 200 (Some (health_body "active")))), []. split; [reflexivity|]. split; reflexivity.
  - intros i r _ Hin. apply list_elem_of_singleton in Hin.
    exact (f_equal (λ x : entry Ans, match x with
      | @Entry _ _ (Http _) y => y | _ => inr (mkRsp 200 (Some (health_body "active"))) end) Hin).
Defined.

Lemma only_stuck_pods_deleted_witness :
  let sts := mkStsResult 2 2 3 false in
  let t := trace_of (scale_world "") (deleteStuckDepartedPods three_to_two sts) in
  deletions t = [(KPod, "ns", "db-2")] ∧
  (∀ d, d ∈ deletions t → ∃ i pod,
     (srr_SpecReplicas sts <= i < srr_StatusReplicas sts)%Z ∧ pod_at three_to_two t i pod ∧
     om_DeletionTimestamp (pod_Meta pod) = None ∧ isPodReady pod = false ∧
     d = (KPod, om_Namespace (pod_Meta pod), pod_Name pod)).
Proof.
  cbv zeta. split; [vm_compute; reflexivity|].
  eapply only_stuck_pods_deleted. apply world_exec.
Defined.

Lemma only_orphan_pvcs_deleted_witness :
  let t := trace_of (scale_world "") (CleanupOrphanPVCs three_to_two 3 2) in
  deletions t = [(KPVC, "ns", "data-db-2")] ∧
  ∀ j, (j < 2)%Z → (KPVC, cl_Namespace three_to_two, pvc_name three_to_two j) ∉ deletions t.
Proof.
  cbv zeta. split; [vm_compute; reflexivity|].
  eapply (only_orphan_pvcs_deleted three_to_two 3 2); [apply world_exec|].
  vm_compute. repeat constructor.
Defined.
