(* ===== verification/ScaleDownLiveness.v ===== *)
(** A scale-down whose nodes do as they are told gets through its gate. *)

From stdpp Require Import sorting.
From S2P Require Import Prelude GoStrings Messages Lib ApiTypes Image Compat Config K8s Prog Go Client Controller ScaleDown ScaleDownProofs Demo ScaleDownTheorems.
#[local] Open Scope string_scope.

(** ** Counting *)

Section Counting.
Context {A : Type} (P Q : A → Prop) `{!∀ x, Decision (P x), !∀ x, Decision (Q x)}.

Lemma count_mono l : (∀ x, x ∈ l → P x → Q x) → length (filter P l) <= length (filter Q l).
Proof.
  induction l as [|x l IH]; intros Hpq; [done|].
  assert (length (filter P l) <= length (filter Q l)) by (apply IH; intros; apply Hpq; [by right|done]).
  rewrite !filter_cons. destruct (decide (P x)) as [HP|]; [|destruct (decide (Q x)); cbn; lia].
  rewrite decide_True by (apply Hpq; [left|done]). cbn. lia.
Qed.

Lemma count_strict l y : (∀ x, x ∈ l → P x → Q x) → y ∈ l → ¬ P y → Q y →
  length (filter P l) < length (filter Q l).
Proof.
  induction l as [|x l IH]; intros Hpq Hy HP HQ; [by apply not_elem_of_nil in Hy|].
  assert (∀ x, x ∈ l → P x → Q x) as Hpq' by (intros; apply Hpq; [by right|done]).
  rewrite !filter_cons. apply elem_of_cons in Hy as [->|Hy].
  - rewrite (decide_False (P := P x)), (decide_True (P := Q x)) by done. cbn.
    pose proof (count_mono l Hpq'). lia.
  - specialize (IH Hpq' Hy HP HQ). destruct (decide (P x)) as [Hx|]; [|destruct (decide (Q x)); cbn; lia].
    rewrite decide_True by (apply Hpq; [left|done]). cbn. lia.
Qed.
End Counting.

Section Liveness.
Context `{Lib}.
Implicit Types (c : HyperbytedbCluster) (ctx : Ctx) (t : list (entry Ans)).

(** ** What the surroundings have to do *)

(** An answer that names a member of [hosts] the leader. *)
Definition names_leader (hosts : gmap Z string) (a : GoErr + Response) : Prop :=
  ∃ resp info l h, a = inr resp ∧ rsp_Code resp = StatusOK ∧
    rsp_Body resp ≫= json_LeaderInfo = Some info ∧ li_LeaderID info = Some l ∧ hosts !! l = Some h.

(** Some member of [hosts] knows the leader whenever it is asked. *)
Definition leader_known ctx (hosts : gmap Z string) (port : Z) t : Prop :=
  ∃ id h, hosts !! id = Some h ∧
    ∀ a, @Entry Ev Ans (Http (RoundTrip ctx MethodGet (url h port "/cluster/leader") NoBody)) a ∈ t →
         names_leader hosts a.

(** The leader agrees to remove a voter. *)
Definition removals_accepted ctx (port : Z) t : Prop :=
  ∀ h id a, @Entry Ev Ans (Http (RoundTrip ctx MethodPost
                (url h port "/cluster/membership/remove-node") (NodeIDBody id))) a ∈ t →
    ∃ resp, a = inr resp ∧ rsp_Code resp = StatusOK ∧
            is_Some (rsp_Body resp ≫= json_RemoveNodeResponse).

Lemma leader_known_sub ctx hosts port t u : t ⊆ u → leader_known ctx hosts port u → leader_known ctx hosts port t.
Proof. intros Hs (id & h & Hh & Ha). exists id, h. split; [done|]. intros a Hin. by apply Ha, Hs. Qed.
Lemma removals_sub ctx port t u : t ⊆ u → removals_accepted ctx port u → removals_accepted ctx port t.
Proof. intros Hs Ha h id a Hin. by eapply Ha, Hs. Qed.

(** ** The Raft requests succeed *)

Lemma leader_found ctx hosts port id h ids t r :
  hosts !! id = Some h → id ∈ ids →
  (∀ a, @Entry Ev Ans (Http (RoundTrip ctx MethodGet (url h port "/cluster/leader") NoBody)) a ∈ t →
        names_leader hosts a) →
  exec (leader_among ctx hosts port ids) t (Done r) → ∃ l, r = inr l.
Proof.
  intros Hh Hid. revert t. induction ids as [|id' ids IH]; intros t Hk He; [by apply not_elem_of_nil in Hid|].
  cbn [leader_among] in He. destruct He as (a & t' & -> & He).
  assert (∀ u, exec (leader_among ctx hosts port ids) u (Done r) → u ⊆ t' → id' ≠ id → ∃ l, r = inr l) as Hrest.
  { intros u Hu Hsub Hne. apply elem_of_cons in Hid as [->|Hid]; [done|].
    apply (IH Hid u); [|done]. intros a' Hin. apply Hk. right. by apply Hsub. }
  destruct (decide (id' = id)) as [->|Hne].
  - destruct (Hk a) as (resp & info & l & h' & -> & Hc & Hb & Hl & Hh').
    { rewrite Hh. left. }
    cbn in He. unfold code_in, decode in He. cbn in He. rewrite Hc, Hb in He. cbn in He.
    rewrite Hl in He. cbn in He. rewrite Hh' in He. destruct He as [_ [= ->]]. by eexists.
  - destruct a as [e|resp]; cbn in He; [by apply (Hrest t')|].
    destruct (negb _); cbn in He; [by apply (Hrest t')|].
    destruct (decode _ _ _) as [e|info]; cbn in He; [by apply (Hrest t')|].
    destruct (li_LeaderID info ≫= λ l, hosts !! l); [|by apply (Hrest t')].
    destruct He as [_ [= ->]]. by eexists.
Qed.

Lemma removals_done ctx hosts port ids t r :
  leader_known ctx hosts port t → removals_accepted ctx port t →
  exec (removeDepartedVoters ctx hosts port ids) t (Done r) → r = nil_err.
Proof.
  revert t. induction ids as [|id ids IH]; intros t Hk Ha He; [by destruct He as [_ [= ->]]|].
  cbn [removeDepartedVoters] in He.
  assert (∀ t1 r1, exec (raftLeaderHost ctx hosts port) t1 (Done r1) → t1 ⊆ t → ∃ l, r1 = inr l) as Hl.
  { intros t1 r1 H1 Hs. destruct Hk as (i & h & Hh & Hin). eapply (leader_found _ _ _ i h); [done| | |exact H1].
    - unfold sorted_ids. rewrite merge_sort_Permutation, elem_of_elements, elem_of_dom. by exists h.
    - intros a Hin'. by apply Hin, Hs. }
  apply exec_pbind in He as [(t1 & t2 & h & -> & H1 & H2)|[(e & H1 & _)|[_ ?]]]; [| |done].
  2: { by destruct (Hl _ _ H1 ltac:(done)) as [l ?]. }
  destruct H2 as (a & t' & -> & H2).
  destruct (Ha h id a) as (resp & -> & Hc & [x Hx]); [apply elem_of_app; right; left|].
  cbn in H2. unfold code_in, decode in H2. cbn in H2. rewrite Hc, Hx in H2. cbn in H2.
  apply (IH t'); [|by eapply removals_sub; [|exact Ha]; intros z Hz; apply elem_of_app; right; right|done].
  eapply leader_known_sub; [|exact Hk]. intros z Hz. apply elem_of_app. by right; right.
Qed.

(** ** One pass *)

(** Some node that gates is told, unless it is decommissioning already. *)
Lemma departure_told i nodes together :
  (departure_loop i nodes together).2 = false →
  ∃ j n, nodes !! j = Some n ∧ gates n = true ∧
    (to_tell n = true → (i + j)%nat ∈ (departure_loop i nodes together).1).
Proof.
  revert i. induction nodes as [|n nodes IH]; intros i; simpl; [done|].
  destruct (departingNodeAction (dn_state n) (dn_reachable n)) as [d g] eqn:Ha. destruct g.
  - intros _. exists 0, n. unfold gates, to_tell. rewrite Ha. split; [done|]. split; [done|].
    intros Hd. cbn in Hd. subst d. rewrite Nat.add_0_r. by destruct together; left.
  - destruct (departure_loop (S i) nodes together) as [tell ev] eqn:Hl. cbn. intros ->.
    destruct (IH (S i)) as (j & m & Hj & Hg & Ht); [by rewrite Hl|]. rewrite Hl in Ht.
    exists (S j), m. split; [done|]. split; [done|]. intros Hm. apply elem_of_app. right.
    replace (i + S j)%nat with (S i + j)%nat by lia. by apply Ht.
Qed.

Lemma hooks_progress ctx c prev desired t b :
  in_int32 prev → (0 <= desired < prev)%Z →
  leader_known ctx (host_map c prev) (ServerPort c) t → removals_accepted ctx (ServerPort c) t →
  exec (runScaleDownClusterHooks ctx c prev desired) t (Done b) →
  b = true ∨ b = false ∧ ∃ i n, i ∈ ordinals_down desired prev ∧ observed ctx c t i n ∧ gates n = true ∧
    (to_tell n = true → decommission_url c i ∈ decommissions t).
Proof.
  intros Hp Hd Hk Ha He. apply hooks_exec in He as (t1 & t2 & t3 & l & -> & H1 & Hrest); [|lia..].
  destruct (departurePlan l.*1 (EvacuateTogether c)) as [tell ev] eqn:Hplan.
  destruct Hrest as (Hd2 & _ & [[? _]|[[[= ->] Hf]|([= ->] & _)]]); [done| |by left].
  destruct ev.
  { exfalso. destruct Hf as (e & Hf).
    assert (t3 ⊆ (t1 ++ t2 ++ t3)%list) as Hs by (intros z Hz; rewrite !elem_of_app; tauto).
    apply removals_done in Hf; [done|by eapply leader_known_sub|by eapply removals_sub]. }
  right. split; [done|]. unfold departurePlan in Hplan.
  destruct (departure_told 0 l.*1 (EvacuateTogether c)) as (j & n & Hj & Hg & Ht); [by rewrite Hplan|].
  rewrite Hplan in Ht. cbn in Ht. apply list_lookup_fmap_Some in Hj as ([n' h] & -> & Hj). cbn in *.
  apply probe_exec in H1 as (Hd1 & l' & Hl & Hlook & _). simplify_eq.
  destruct (Hlook j n' h Hj) as (i & Hi & -> & Ho).
  exists i, n'. split; [by eapply list_elem_of_lookup_2|].
  split; [eapply observed_mono; [|exact Ho]; intros z Hz; apply elem_of_app; by left|].
  split; [done|]. intros Htell. rewrite !decommissions_app, Hd2, !elem_of_app. right. left.
  apply list_elem_of_fmap. exists (pod_host c i). split; [done|]. apply list_elem_of_omap.
  exists j. split; [by apply Ht|]. by rewrite list_lookup_fmap, Hj.
Qed.

(** ** Pass after pass *)

(** A pass of the hooks: what the departing nodes answer while it runs, its calls, and
    whether the gate opened. *)
Record DrainPass := mkDrainPass {
  dp_ctx : Ctx;
  dp_health : Z → departingNode;
  dp_calls : list (entry Ans);
  dp_open : bool }.

Section Passes.
Context c (prev desired : Z).

Definition helped_drain (w : DrainPass) : Prop :=
  exec (runScaleDownClusterHooks (dp_ctx w) c prev desired) (dp_calls w) (Done (dp_open w)) ∧
  leader_known (dp_ctx w) (host_map c prev) (ServerPort c) (dp_calls w) ∧
  removals_accepted (dp_ctx w) (ServerPort c) (dp_calls w) ∧
  ∀ i n, observed (dp_ctx w) c (dp_calls w) i n → n = dp_health w i.

(** Between two passes: a node that has evacuated, or is unreachable, stays so, and one
    that is told to decommission, or is at it, evacuates. *)
Definition obeys_drain (w w' : DrainPass) : Prop :=
  ∀ i, i ∈ ordinals_down desired prev →
    gates (dp_health w i) = false ∨
    (to_tell (dp_health w i) = true → decommission_url c i ∈ decommissions (dp_calls w)) →
    gates (dp_health w' i) = false.

Fixpoint drain_passes (l : list DrainPass) : Prop :=
  match l with
  | [] => True
  | w :: l => helped_drain w ∧ from_option (obeys_drain w) True (head l) ∧ drain_passes l
  end.

(** The departing nodes still in the way. *)
Definition in_the_way (w : DrainPass) : list Z :=
  filter (λ i, gates (dp_health w i) = true) (ordinals_down desired prev).

Lemma in_the_way_less w w' : in_int32 prev → (0 <= desired < prev)%Z →
  helped_drain w → dp_open w = false → obeys_drain w w' → length (in_the_way w') < length (in_the_way w).
Proof.
  intros Hp Hd (He & Hk & Ha & Hh) Ho Hob.
  destruct (hooks_progress _ _ _ _ _ _ Hp Hd Hk Ha He) as [|(_ & i & n & Hi & Hobs & Hg & Ht)]; [congruence|].
  apply Hh in Hobs as ->. apply (count_strict _ _ _ i); [| done | | done].
  - intros j Hj Hj'. destruct (gates (dp_health w j)) eqn:Hgj; [done|].
    rewrite (Hob j Hj) in Hj' by (by left). done.
  - rewrite (Hob i Hi) by (by right). done.
Qed.

Lemma in_the_way_none w : in_int32 prev → (0 <= desired < prev)%Z →
  helped_drain w → in_the_way w = [] → dp_open w = true.
Proof.
  intros Hp Hd (He & Hk & Ha & Hh) Hn.
  destruct (hooks_progress _ _ _ _ _ _ Hp Hd Hk Ha He) as [|(_ & i & n & Hi & Hobs & Hg & _)]; [done|].
  exfalso. apply Hh in Hobs as ->. assert (i ∈ in_the_way w) as Hin by by apply list_elem_of_filter.
  rewrite Hn in Hin. by apply not_elem_of_nil in Hin.
Qed.
End Passes.

End Liveness.

(** ** Witness *)

(** Nodes 1 and 2 of three answer their health with the states given; every request to the
    leader is accepted. *)
Definition drain_world (one two : string) : World :=
  mkWorld 0%Z (λ _ _, None) [] (λ r,
    match rq_Method r with
    | MethodGet =>
        if Contains (rq_URL r) "/health"
        then mkRsp 200 (Some (health_body (if Contains (rq_URL r) "db-2." then two else one)))
        else mkRsp 200 (Some leader_body)
    | _ => mkRsp 200 (Some leader_body)
    end).

Lemma world_http {A} w (p : prog Ans A) r a :
  @Entry Ev Ans (Http r) a ∈ trace_of w p → a = inr (w_http w r).
Proof. intros Hx%world_answers. exact Hx. Qed.

Definition three_to_one : HyperbytedbCluster := demo_cluster 1 None.

Definition drain_pass (one two : string) : DrainPass :=
  let w := drain_world one two in
  let p := runScaleDownClusterHooks "" three_to_one 3 1 in
  mkDrainPass "" (λ i, departing_of (health_answer (inr (w_http w (health_req "" three_to_one i)))))
    (trace_of w p) (match result_of w p with Done b => b | Panic => false end).

Lemma drain_pass_helped one two :
  match result_of (drain_world one two) (runScaleDownClusterHooks "" three_to_one 3 1) with
  | Done _ => true | Panic => false end = true →
  helped_drain three_to_one 3 1 (drain_pass one two).
Proof.
  intros Ho. unfold helped_drain, drain_pass. cbn -[runScaleDownClusterHooks trace_of result_of].
  split; [|split; [|split]].
  - apply world_done. by destruct (result_of _ _).
  - exists 1%Z, (pod_host three_to_one 0). split; [vm_compute; reflexivity|].
    intros a Ha%world_http. subst a. do 4 eexists. split; [reflexivity|].
    split; [vm_compute; reflexivity|]. split; [vm_compute; reflexivity|].
    split; vm_compute; reflexivity.
  - intros h id a Ha%world_http. subst a. eexists. split; [reflexivity|].
    split; [reflexivity|]. vm_compute. by eexists.
  - intros i n (a & Ha%world_http & ->). by subst a.
Qed.

