(* ===== verification/MembersTheorems.v ===== *)
(** Members, failover, membership and replication health: the properties. *)

From S2P Require Import Prelude GoStrings Messages Lib ApiTypes Image Compat Config K8s Prog Go Client Controller ScaleDown Members ScaleDownProofs Demo.
#[local] Open Scope string_scope.

(** ** Cluster state *)

Lemma filter_full {A} (f : A → bool) l :
  length (List.filter f l) = length l ↔ Forall (λ a, f a = true) l.
Proof.
  induction l as [|a l IH]; simpl; [by split; [constructor|]|]. rewrite Forall_cons.
  pose proof (filter_length_le f l). destruct (f a); simpl; [rewrite <- IH; naive_solver lia|].
  split; [lia|]. by intros [? _].
Qed.

Lemma filter_none {A} (f : A → bool) l :
  length (List.filter f l) = 0 ↔ Forall (λ a, f a = false) l.
Proof.
  induction l as [|a l IH]; simpl; [by split; [constructor|]|]. rewrite Forall_cons.
  destruct (f a); simpl; [split; [lia|by intros [? _]]|]. rewrite IH. naive_solver.
Qed.

(** Two disjoint tests together cover the list. *)
Lemma count_disjoint {A} (f g : A → bool) l :
  (∀ a, f a = true → g a = false) →
  (count f l + count g l = count (λ a, f a || g a) l)%nat.
Proof.
  intros Hfg. unfold count. induction l as [|a l IH]; [done|]. simpl.
  specialize (Hfg a). destruct (f a), (g a); simpl; rewrite <- ?IH; lia.
Qed.

(** A member that is neither healthy nor on its way. *)
Definition down_member (m : MemberStatus) : bool :=
  negb (ms_Health m) && negb (syncing_state (ms_State m)).

(** The cluster state of [DeriveClusterState] in terms of the members: Unknown
    without members, Healthy iff all are healthy, Recovering iff some are not but
    all those are syncing or joining, Degraded iff some member is down and some is
    healthy, Unavailable iff some member is down and none is healthy. *)
Theorem DeriveClusterState_correct ms :
  DeriveClusterState ms =
    if decide (ms = []) then "Unknown"
    else if decide (Forall (λ m, ms_Health m = true) ms) then "Healthy"
    else if decide (Forall (λ m, down_member m = false) ms) then "Recovering"
    else if decide (Forall (λ m, ms_Health m = false) ms) then "Unavailable"
    else "Degraded".
Proof.
  unfold DeriveClusterState. destruct ms as [|m0 ms]; [done|].
  rewrite decide_False by done. generalize (m0 :: ms). clear m0 ms. intros ms. cbv zeta.
  set (syncing := λ m, negb (ms_Health m) && syncing_state (ms_State m)).
  assert (count ms_Health ms + count syncing ms = count (λ m, negb (down_member m)) ms)%nat as Hsum.
  { rewrite count_disjoint.
    - unfold count. f_equal. apply filter_ext. intros m. unfold syncing, down_member.
      by destruct (ms_Health m), (syncing_state (ms_State m)).
    - intros m Hm. unfold syncing. by rewrite Hm. }
  assert (count (λ m, negb (down_member m)) ms = length ms ↔ Forall (λ m, down_member m = false) ms)
    as Hall.
  { unfold count. rewrite filter_full. apply Forall_iff. intros m. by rewrite negb_true_iff. }
  pose proof (filter_full ms_Health ms) as Hfull. pose proof (filter_none ms_Health ms) as Hnone.
  rewrite Hsum. unfold count in *.
  destruct (Nat.eqb_spec (length (List.filter ms_Health ms)) (length ms)) as [Hh|Hh].
  { rewrite decide_True by tauto. done. }
  rewrite (decide_False (P := Forall (λ m, ms_Health m = true) ms)) by tauto.
  destruct (Nat.eqb_spec (length (List.filter (λ m, negb (down_member m)) ms)) (length ms)) as [Hd|Hd].
  - rewrite decide_True by tauto.
    destruct (Nat.ltb_spec 0 (length (List.filter syncing ms))); [done|lia].
  - rewrite andb_false_r. rewrite (decide_False (P := Forall (λ m, down_member m = false) ms)) by tauto.
    destruct (Nat.ltb_spec 0 (length (List.filter ms_Health ms))).
    + rewrite decide_False; [done|]. rewrite <- Hnone. lia.
    + rewrite decide_True; [done|]. rewrite <- Hnone. lia.
Qed.

Section Failover.
Context `{Lib}.
Implicit Types (c : HyperbytedbCluster) (ctx : Ctx) (t : list (entry Ans)).

(** Why a pod may be failed over: it belongs to an unhealthy member that is not
    syncing, and a reading of the clock puts its last transition [timeout] back. *)
Definition failover_due (timeout : Z) (members : list MemberStatus) t (m : MemberStatus) : Prop :=
  m ∈ members ∧ ms_Health m = false ∧ ms_State m ≠ "Syncing" ∧ ms_State m ≠ "Joining" ∧
  ∃ now, @Entry Ev Ans Now now ∈ t ∧ (timeout <= Sub now (ms_LastTransitionTime m))%Z.

(** The pod deleted for [m] is the one the API server holds under its name. *)
Definition failover_target c t (m : MemberStatus) (d : Kind * string * string) : Prop :=
  ∃ pod, @Entry Ev Ans (Get KPod (cl_Namespace c) (ms_PodName m)) (inr pod) ∈ t ∧
    d = (KPod, om_Namespace (pod_Meta pod), pod_Name pod).

Definition failovers c : Z := st_FailoverCount (cl_Status c).

Definition failover_post (timeout : Z) (members : list MemberStatus) c t
    (o : outcome (HyperbytedbCluster * error)) : Prop :=
  (deletions t = [] ∧ ∃ r, o = Done (c, r)) ∨
  (∃ m d, failover_due timeout members t m ∧ failover_target c t m d ∧ deletions t = [d] ∧
     ∃ c' r, o = Done (c', r) ∧
       match r with
       | inr _ => failovers c' = int32 (failovers c + 1)
       | inl _ => c' = c
       end).

Lemma failover_post_cons timeout all c x t o :
  deletion_of (entry_ev x) = None →
  failover_post timeout all c t o → failover_post timeout all c (x :: t) o.
Proof.
  intros Hx.
  intros [[Hd Ho]|(m & d & (Hin & Hh & Hs & Hj & now & Hnow & Hage) & (pod & Hp & Hd) & Hdel & Ho)].
  - left. split; [|done]. unfold deletions. simpl. by rewrite Hx.
  - right. exists m, d. split; [repeat (split; [done|]); exists now; split; [by right|done]|].
    split; [exists pod; split; [by right|done]|]. split; [|done].
    unfold deletions. simpl. by rewrite Hx.
Qed.

Lemma failover_loop_post timeout members all c :
  (∀ m, m ∈ members → m ∈ all ∧ ms_Health m = false) →
  wp (failover_loop timeout members c) (failover_post timeout all c).
Proof.
  induction members as [|m rest IH]; intros Hall; [left; by eauto|].
  specialize (IH (λ m' Hm', Hall m' (list_elem_of_further _ _ _ Hm'))).
  destruct (Hall m (list_elem_of_here _ _)) as [Hin Hh].
  cbn [failover_loop]. destruct (_ || _) eqn:Hsync; [done|]. bools.
  unfold failed_over, record_event, modify_status, Since. prog_unfold. cbn.
  intros now. destruct (bool_decide _) eqn:Hage; bools.
  { eapply wp_mono; [apply IH|]. intros t o. by apply failover_post_cons. }
  cbn. intros [e|pod].
  { destruct (IsNotFound e); [|left; cbn; eauto].
    eapply wp_mono; [apply IH|]. intros t o Hp. by do 2 (apply failover_post_cons; [done|]). }
  assert (∀ t, failover_due timeout all (@Entry Ev Ans Now now :: t) m) as Hdue.
  { intros t. repeat (split; [done|]). exists now. split; [left|lia]. }
  cbn. intros [e|[]].
  1: destruct (IsNotFound e).
  1,3: cbn; intros []; right; do 2 eexists; (split; [apply Hdue|]);
    (split; [exists pod; split; [right; left|reflexivity]|]); (split; [reflexivity|]);
    do 2 eexists; split; reflexivity.
  cbn. right. do 2 eexists. split; [apply Hdue|]. split; [exists pod; split; [right; left|reflexivity]|].
  split; [reflexivity|]. do 2 eexists. split; reflexivity.
Qed.

(** What one pass does: see [failover_safe]. *)
Lemma failover_safe_lemma c members t o :
  exec (handleAutoFailover members c) t o →
  (deletions t = [] ∧ ∃ r, o = Done (c, r)) ∨
  ∃ f, sp_Failover (cl_Spec c) = Some f ∧ fo_Enabled f = true ∧
    (failovers c < max_failovers f)%Z ∧
    ∃ m d, failover_due (failover_timeout f) members t m ∧ failover_target c t m d ∧
      deletions t = [d] ∧
      ∃ c' r, o = Done (c', r) ∧
        match r with
        | inr _ => failovers c' = int32 (failovers c + 1)
        | inl _ => c' = c
        end.
Proof.
  intros He. revert t o He. apply wp_exec.
  unfold handleAutoFailover. prog_unfold. cbn.
  destruct (sp_Failover (cl_Spec c)) as [f|]; [|left; cbn; eauto].
  destruct (fo_Enabled f) eqn:Hen; cbn; [|left; eauto].
  destruct (bool_decide _) eqn:Hmax; cbn; [left; eauto|]. bools.
  eapply wp_mono; [apply (failover_loop_post _ _ members)|].
  - intros m Hm. unfold FindUnhealthyMembers in Hm.
    apply list_elem_of_In, filter_In in Hm as [Hm Hh]. bools. by rewrite list_elem_of_In.
  - intros t o [?|Hd]; [by left|]. right. exists f. repeat (split; [done|]).
    split; [unfold failovers; lia|done].
Qed.

(** C35: one pass of auto-failover deletes at most one pod; only with failover
    enabled and fewer failovers counted than the maximum; only the pod of an
    unhealthy member that is neither Syncing nor Joining and whose last
    transition is at least the timeout old; and it counts exactly that one
    deletion. *)
Theorem failover_safe c members t o :
  exec (handleAutoFailover members c) t o →
  (deletions t = [] ∧ ∃ r, o = Done (c, r)) ∨
  ∃ f, sp_Failover (cl_Spec c) = Some f ∧ fo_Enabled f = true ∧
    (failovers c < max_failovers f)%Z ∧
    ∃ m d, failover_due (failover_timeout f) members t m ∧ failover_target c t m d ∧
      deletions t = [d] ∧
      ∃ c' r, o = Done (c', r) ∧
        match r with
        | inr _ => failovers c' = int32 (failovers c + 1)
        | inl _ => c' = c
        end.
Proof. apply failover_safe_lemma. Qed.

(** The readings of the clock in a trace. *)
Definition clock_of (x : entry Ans) : option Time :=
  match entry_ev x as e return Ans e → option Time with
  | Now => Some
  | _ => λ _, None
  end (entry_ans x).
Definition clocks t : list Time := omap clock_of t.

Lemma clocks_elem t now : @Entry Ev Ans Now now ∈ t → now ∈ clocks t.
Proof. intros Hin. unfold clocks. apply list_elem_of_omap. by eexists. Qed.

(** The status of ordinal [i], given the time and the answer to its health check. *)
Definition member_of c (i : Z) (now : Time) (r : GoErr + Response) (m : MemberStatus) : Prop :=
  ms_NodeID m = (i + 1)%Z ∧ ms_PodName m = pod_name c i ∧ ms_LastTransitionTime m = now ∧
  match health_answer r with
  | inl _ => ms_State m = "Unreachable" ∧ ms_Health m = false
  | inr hs => ms_State m = hs_Status hs ∧ ms_Health m = healthy_status (hs_Status hs)
  end.

Definition member_at ctx c t (i : Z) (m : MemberStatus) : Prop :=
  ∃ now r, now ∈ clocks t ∧ @Entry Ev Ans (Http (health_req ctx c i)) r ∈ t ∧
    member_of c i now r m.

Lemma member_at_mono ctx c t u i m : t ⊆ u → clocks t ⊆ clocks u →
  member_at ctx c t i m → member_at ctx c u i m.
Proof. intros Hs Hc (now & r & Hn & Hr & Hm). exists now, r. auto. Qed.

Lemma collect_member_exec ctx c i t o :
  exec (collect_member ctx c (cl_Namespace c) i) t o →
  deletions t = [] ∧ ∃ m, o = Done m ∧ member_at ctx c t i m.
Proof.
  intros (now & t1 & -> & r & t2 & -> & He). split; [by destruct r, He as [-> _]|].
  destruct r as [e|resp]; [|cbn in He; destruct (health_of resp) as [e|hs] eqn:Hh];
    destruct He as [-> ->]; eexists; (split; [reflexivity|]); eexists now, _;
    (split; [left|]); (split; [right; left|]); repeat (split; [reflexivity|]); simpl; by rewrite ?Hh.
Qed.

Lemma collect_members_exec ctx c ordinals t o :
  exec (collect_members ctx c (cl_Namespace c) ordinals) t o →
  deletions t = [] ∧ ∃ ms, o = Done ms ∧ Forall2 (member_at ctx c t) ordinals ms.
Proof.
  revert t o. induction ordinals as [|i rest IH]; intros t o He.
  - destruct He as [-> ->]. split; [done|]. eexists. split; [done|]. constructor.
  - cbn [collect_members] in He. apply exec_mbind in He as [(t1 & t2 & m & -> & H1 & H2)|[H1 _]];
      apply collect_member_exec in H1 as (Hd1 & m' & Hm & Hat); simplify_eq.
    apply exec_mbind in H2 as [(t3 & t4 & ms & -> & H2 & [-> ->])|[H2 _]];
      apply IH in H2 as (Hd & ms' & Hms & Hall); simplify_eq. rewrite app_nil_r.
    split; [by rewrite deletions_app, Hd1, Hd|]. eexists. split; [done|]. constructor.
    + eapply member_at_mono; [| |exact Hat]; [set_solver|]. unfold clocks. rewrite omap_app.
      set_solver.
    + eapply Forall2_impl; [exact Hall|]. intros j m2. apply member_at_mono; [set_solver|].
      unfold clocks. rewrite omap_app. set_solver.
Qed.

(** [CollectMemberStatuses] returns one status per ordinal, in order, with the
    node id, the pod name and the time of the pass, healthy exactly when the node
    answered its health check with a serving status, and Unreachable when it did
    not answer; it deletes nothing. *)
Theorem CollectMemberStatuses_correct ctx c n t o :
  (0 <= n)%Z → exec (CollectMemberStatuses ctx c (cl_Namespace c) n) t o →
  deletions t = [] ∧
  ∃ ms, o = Done ms ∧ length ms = Z.to_nat n ∧
    ∀ k m, ms !! k = Some m → member_at ctx c t (Z.of_nat k) m.
Proof.
  intros Hn He. apply exec_make_slice in He as [[_ He]|[? _]]; [|lia].
  apply collect_members_exec in He as (Hd & ms & -> & Hall). split; [done|].
  exists ms. split; [done|].
  pose proof (Forall2_length _ _ _ Hall) as Hlen. unfold ordinals_up in *.
  rewrite length_seqZ, Z.sub_0_r in Hlen. split; [done|]. intros k m Hk.
  assert (seqZ 0 (n - 0) !! k = Some (Z.of_nat k)) as Hz.
  { apply lookup_seqZ. apply lookup_lt_Some in Hk. lia. }
  by eapply Forall2_lookup_lr in Hall; [|exact Hz|exact Hk].
Qed.

(** The members step of [Reconcile]: collect, then fail over. *)
Definition failover_step ctx c (n : Z) : P (HyperbytedbCluster * error) :=
  members ← CollectMemberStatuses ctx c (cl_Namespace c) n;
  handleAutoFailover members c.

(** The last transition of every member is the time it was collected in the
    same pass, so a pass whose clock readings lie less than the failover timeout
    apart deletes no pod, however long a member has been unhealthy. *)
Theorem failover_never_due ctx c n f t o :
  sp_Failover (cl_Spec c) = Some f → in_int32 (fo_FailoverTimeoutSecs f) →
  exec (failover_step ctx c n) t o →
  (∀ a b, a ∈ clocks t → b ∈ clocks t → (b - a < failover_timeout f)%Z) →
  deletions t = [].
Proof.
  intros Hf Hi He Hclock. unfold failover_step in He.
  apply exec_mbind in He as [(t1 & t2 & ms & -> & H1 & H2)|[H1 ->]];
    apply exec_make_slice in H1 as [[_ H1]|(_ & -> & ?)]; try done;
    apply collect_members_exec in H1 as (Hd & ms' & Hms & Hall); simplify_eq.
  rewrite deletions_app, Hd. simpl.
  apply failover_safe_lemma in H2 as [[? _]|(f' & Hf' & _ & _ & m & d & Hdue & _)]; [done|].
  exfalso. simplify_eq. destruct Hdue as (Hin & _ & _ & _ & now & Hnow & Hage).
  apply list_elem_of_lookup in Hin as [k Hk].
  destruct (Forall2_lookup_r _ _ _ _ _ Hall Hk) as (i & _ & now' & r & Hn' & _ & _ & _ & Hltt & _).
  assert (now - now' < failover_timeout f)%Z as Hlt.
  { apply Hclock; unfold clocks; rewrite omap_app; apply elem_of_app; [by left|].
    right. by apply clocks_elem. }
  rewrite Hltt in Hage. unfold failover_timeout, seconds, Second in *. unfold in_int32 in Hi.
  revert Hage Hlt. rewrite int64_id by (unfold in_int64; case_bool_decide; lia).
  unfold Sub, minDuration, maxDuration. case_bool_decide; lia.
Qed.
End Failover.

Section Membership.
Context `{Lib}.
Implicit Types (c : HyperbytedbCluster) (ctx : Ctx) (t : list (entry Ans)).

(** Pod [i] answered [/cluster/nodes] with [nodes]. *)
Definition lists ctx c t (i : Z) (nodes : list NodeInfo) : Prop :=
  ∃ resp, @Entry Ev Ans (Http (RoundTrip ctx MethodGet
      (url (pod_host c i) (ServerPort c) "/cluster/nodes") NoBody)) (inr resp) ∈ t ∧
    rsp_Code resp = StatusOK ∧ rsp_Body resp ≫= json_nodes = Some nodes.

Lemma lists_mono ctx c t u i nodes : t ⊆ u → lists ctx c t i nodes → lists ctx c u i nodes.
Proof. intros Hs (resp & Hr & Hx). exists resp. split; [by apply Hs|done]. Qed.

Definition view_of ctx c t (i : Z) (v : podView) : Prop :=
  pv_nodeID v = uint64 (i + 1) ∧ pv_host v = pod_host c i ∧
  pv_addr v = pod_host c i +:+ ":" +:+ Itoa (ServerPort c) ∧
  (if pv_reachable v then lists ctx c t i (pv_nodes v) else pv_nodes v = []).

Lemma view_of_mono ctx c t u i v : t ⊆ u → view_of ctx c t i v → view_of ctx c u i v.
Proof.
  intros Hs (H1 & H2 & H3 & H4). repeat (split; [done|]).
  destruct (pv_reachable v); [by eapply lists_mono|done].
Qed.

Lemma view_pod_exec ctx c i t o :
  exec (view_pod ctx c i) t o → ∃ v, o = Done v ∧ view_of ctx c t i v.
Proof.
  intros ([e|resp] & t' & -> & He).
  - destruct He as [-> ->]. by eexists.
  - cbn -[code_in] in He. destruct (negb _) eqn:Hc; [destruct He as [-> ->]; by eexists|].
    apply code_ok in Hc. destruct (rsp_Body resp ≫= json_nodes) as [nodes|] eqn:Hb.
    + unfold decode in He. rewrite Hb in He. destruct He as [-> ->]. eexists. split; [done|].
      repeat (split; [done|]). simpl. exists resp. split; [left|done].
    + unfold decode in He. rewrite Hb in He. destruct He as [-> ->]. by eexists.
Qed.

Lemma view_pods_exec ctx c ordinals t o :
  exec (view_pods ctx c ordinals) t o →
  ∃ vs, o = Done vs ∧ Forall2 (view_of ctx c t) ordinals vs.
Proof.
  revert t o. induction ordinals as [|i rest IH]; intros t o He.
  - destruct He as [-> ->]. by eexists.
  - cbn [view_pods] in He. apply exec_mbind in He as [(t1 & t2 & v & -> & H1 & H2)|[H1 _]];
      apply view_pod_exec in H1 as (v' & Hv & Hat); simplify_eq.
    apply exec_mbind in H2 as [(t3 & t4 & vs & -> & H2 & [-> ->])|[H2 _]];
      apply IH in H2 as (vs' & Hvs & Hall); simplify_eq. rewrite app_nil_r.
    eexists. split; [done|]. constructor.
    + eapply view_of_mono; [|exact Hat]. set_solver.
    + eapply Forall2_impl; [exact Hall|]. intros j v2. apply view_of_mono. set_solver.
Qed.

(** The leader accepted node [v]. *)
Definition add_req ctx (leaderHost : string) (port : Z) (v : podView) : Request :=
  RoundTrip ctx MethodPost (url leaderHost port "/cluster/membership/add-node")
    (AddNodeBody (pv_nodeID v) (pv_addr v) true).
Definition accepted ctx leaderHost port t (v : podView) : Prop :=
  ∃ resp, @Entry Ev Ans (Http (add_req ctx leaderHost port v)) (inr resp) ∈ t ∧
    rsp_Code resp = StatusOK.

Lemma add_node_exec ctx h port v t o :
  exec (AddClusterNode ctx h port (pv_nodeID v) (pv_addr v) true) t o →
  ∃ a r, t = [@Entry Ev Ans (Http (add_req ctx h port v)) a] ∧ o = Done r ∧
    ∀ x, r = inr x → accepted ctx h port t v.
Proof.
  intros ([e|resp] & t' & -> & Ht).
  - destruct Ht as [-> ->]. do 2 eexists. split; [done|]. split; [done|]. discriminate.
  - cbn -[code_in] in Ht. destruct (code_in resp [StatusServiceUnavailable]);
      [|destruct (negb _) eqn:Hc]; destruct Ht as [-> ->];
      do 2 eexists; (split; [done|]); (split; [done|]); [discriminate..|].
    intros x _. exists resp. split; [left|]. by apply code_ok.
Qed.

(** The add-node requests of a trace. *)
Definition add_of (e : Ev) : option (string * Z * string * bool) :=
  match e with
  | Http r => match rq_Body r with
              | AddNodeBody id addr p => Some (rq_URL r, id, addr, p)
              | _ => None
              end
  | _ => None
  end.
Definition adds t : list (string * Z * string * bool) := omap (λ x, add_of (entry_ev x)) t.

Lemma adds_app t u : adds (t ++ u) = (adds t ++ adds u)%list.
Proof. apply omap_app. Qed.

Definition add_key (leaderHost : string) (port : Z) (v : podView) :=
  (url leaderHost port "/cluster/membership/add-node", pv_nodeID v, pv_addr v, true).

(** The views that are asked to join: reachable and unknown. *)
Definition to_add (known : gset Z) (views : list podView) : list podView :=
  List.filter (λ v, pv_reachable v && negb (bool_decide (pv_nodeID v ∈ known))) views.

Lemma add_members_exec ctx h port known views t o :
  exec (add_members ctx h port known views) t o →
  adds t = add_key h port <$> to_add known views ∧
  ∃ b, o = Done b ∧ (b = true → ∀ v, v ∈ views →
    pv_reachable v = true ∧ (pv_nodeID v ∈ known ∨ accepted ctx h port t v)).
Proof.
  revert t o. induction views as [|v rest IH]; intros t o He.
  { destruct He as [-> ->]. split; [done|]. eexists. split; [done|].
    intros _ v Hv. by apply not_elem_of_nil in Hv. }
  cbn [add_members] in He. unfold to_add. cbn [List.filter].
  destruct (pv_reachable v) eqn:Hr; cbn [negb andb] in *.
  - case_bool_decide as Hk; cbn [negb].
    + apply IH in He as (Ha & b & -> & Hall). split; [done|]. exists b. split; [done|].
      intros Hb v' [->|Hv']%elem_of_cons; [by auto|by apply Hall].
    + apply exec_mbind in He as [(t1 & t2 & r & -> & H1 & H2)|[H1 _]];
        apply add_node_exec in H1 as (a & r' & -> & Hr' & Hacc); simplify_eq.
      destruct r' as [e|resp].
      * apply exec_mbind in H2 as [(t3 & t4 & b & -> & H2 & [-> ->])|[H2 _]];
          apply IH in H2 as (Ha & b' & Hb & Hall); simplify_eq. rewrite app_nil_r.
        split; [|by eexists]. simpl. f_equal. done.
      * apply exec_mbind in H2 as [(t3 & t4 & u & -> & H2 & H3)|[H2 _]];
          destruct H2 as (x & t5 & -> & H2); [destruct H2 as [-> _]|by destruct H2].
        apply IH in H3 as (Ha & b & -> & Hall). split; [simpl; f_equal; done|].
        exists b. split; [done|]. intros Hb v' [->|Hv']%elem_of_cons.
        -- split; [done|]. right. destruct (Hacc resp eq_refl) as (rs & Hin & Hc).
           exists rs. split; [apply elem_of_app; by left|done].
        -- destruct (Hall Hb v' Hv') as [? [?|(rs & Hin & Hc)]]; split; [done|by left|done|].
           right. exists rs. split; [|done]. apply elem_of_app. right.
           apply elem_of_app. by right.
  - apply exec_mbind in He as [(t1 & t2 & b & -> & H1 & [-> ->])|[H1 _]];
      apply IH in H1 as (Ha & b' & Hb & Hall); simplify_eq. rewrite app_nil_r.
    split; [done|]. by eexists.
Qed.
Lemma find_leader_exec ctx port all views t o :
  exec (find_leader_among ctx port all views) t o → adds t = [] ∧ ∃ r, o = Done r.
Proof.
  revert t o. induction views as [|v rest IH]; intros t o He.
  { destruct He as [-> ->]. split; [done|]. by eexists. }
  cbn [find_leader_among] in He. destruct (negb (pv_reachable v)); [by apply IH|].
  apply exec_mbind in He as [(t1 & t2 & r & -> & H1 & H2)|[H1 _]];
    apply get_leader_exec in H1 as (a & r' & -> & Hr & _); simplify_eq.
  rewrite adds_app. simpl. destruct r' as [e|info]; [by apply IH|].
  destruct (named_by all v info); [|by apply IH].
  destruct H2 as [-> ->]. split; [done|]. by eexists.
Qed.

Lemma view_pods_adds ctx c ordinals t o : exec (view_pods ctx c ordinals) t o → adds t = [].
Proof.
  revert t o. induction ordinals as [|i rest IH]; intros t o He; [by destruct He as [-> _]|].
  cbn [view_pods] in He.
  assert (∀ t o, exec (view_pod ctx c i) t o → adds t = []) as Hv.
  { intros t' o' ([e|resp] & t2 & -> & Hx); [by destruct Hx as [-> _]|].
    cbn -[code_in] in Hx. destruct (negb _); [by destruct Hx as [-> _]|].
    destruct (decode _ _ _); by destruct Hx as [-> _]. }
  apply exec_mbind in He as [(t1 & t2 & v & -> & H1 & H2)|[H1 _]]; [|by eapply Hv].
  apply Hv in H1. rewrite adds_app, H1. simpl.
  apply exec_mbind in H2 as [(t3 & t4 & vs & -> & H2 & [-> _])|[H2 _]]; [|by eapply IH].
  apply IH in H2. by rewrite adds_app, H2.
Qed.

(** The ClusterFormed condition is true. *)
Definition formed c : Prop :=
  find_condition (st_Conditions (cl_Status c)) conditionClusterFormed ≫= (λ d, Some (cond_Status d))
    = Some ConditionTrue.

Lemma set_formed_exec `{!LibLaws _} status reason message c t c' :
  exec (set_cluster_condition (formed_condition status reason message) c) t (Done (c', tt)) →
  adds t = [] ∧ (formed c' → status = ConditionTrue).
Proof.
  intros (now & t' & -> & He). destruct He as [-> ?]. simplify_eq. split; [done|].
  unfold formed. simpl.
  pose proof (set_condition_same now (st_Conditions (cl_Status c))
    (formed_condition status reason message now)) as Hs. simpl in Hs. rewrite Hs. congruence.
Qed.

Lemma membership_exec `{!LibLaws _} ctx n c t c' :
  exec (reconcileClusterMembership ctx n c) t (Done (c', tt)) →
  ∃ vs leader, Forall2 (view_of ctx c t) (ordinals_up 0 n) vs ∧
    let known := known_ids vs leader.1 leader.2 in
    adds t = (if String.eqb leader.1 "" then []
              else add_key leader.1 (ServerPort c) <$> to_add known vs) ∧
    (formed c' → leader.1 ≠ "" ∧ ∀ v, v ∈ vs →
       pv_reachable v = true ∧
       (pv_nodeID v ∈ known ∨ accepted ctx leader.1 (ServerPort c) t v)).
Proof.
  unfold reconcileClusterMembership. intros He.
  apply exec_bind in He as [(t0 & u & [c0 c0'] & -> & [-> Hc] & He)|[[_ ?] _]]; [|done].
  simplify_eq. simpl in He.
  apply exec_bind in He as [(u1 & u2 & [c1 vs] & -> & Hv & He)|[_ ?]]; [|done].
  apply exec_bind in Hv as [(t1 & t1' & vs' & -> & Hv & [-> ?])|[_ ?]]; [|done]. simplify_eq.
  apply exec_make_slice in Hv as [[_ Hv]|(_ & _ & ?)]; [|done].
  pose proof (view_pods_adds _ _ _ _ _ Hv) as Ha1.
  apply view_pods_exec in Hv as (vs2 & Hvs & Hviews). simplify_eq. simpl in He.
  apply exec_bind in He as [(u3 & u4 & [c2 leader] & -> & Hl & He)|[_ ?]]; [|done].
  apply exec_bind in Hl as [(t2 & t2' & leader' & -> & Hl & [-> ?])|[_ ?]]; [|done]. simplify_eq.
  apply find_leader_exec in Hl as [Ha2 _]. simpl in He. rewrite !app_nil_r.
  exists vs2, leader'. split.
  { eapply Forall2_impl; [exact Hviews|]. intros i v. apply view_of_mono. set_solver. }
  cbv zeta. rewrite !adds_app, Ha1, Ha2. simpl.
  destruct (String.eqb leader'.1 "") eqn:Hle; bools.
  { apply set_formed_exec in He as [Ha3 Hf]. split; [done|]. intros Hx. by apply Hf in Hx. }
  apply exec_bind in He as [(u5 & u6 & [c3 b] & -> & Hm & He)|[_ ?]]; [|done].
  apply exec_bind in Hm as [(t3 & t3' & b' & -> & Hm & [-> ?])|[_ ?]]; [|done]. simplify_eq.
  apply add_members_exec in Hm as (Ha3 & b & Hb & Hall). simplify_eq.
  cbn in He. rewrite adds_app, app_nil_r, Ha3.
  assert (adds u6 = [] ∧ (formed c' → b = true)) as [Ha4 Hf].
  { destruct b; simpl in He; [destruct (bool_decide _)|];
      apply set_formed_exec in He as [Ha Hf]; (split; [done|]); intros Hx; [done|..];
      by apply Hf in Hx. }
  rewrite Ha4, app_nil_r. split; [done|]. intros Hx. split; [done|].
  intros v Hin. destruct (Hall (Hf Hx) v Hin) as [? [?|(rs & Hi & Hcd)]]; split; [done|by left|done|].
  right. exists rs. split; [|done]. set_solver.
Qed.
(** The leader's view lists node [id], and not as departed. *)
Definition listed_by_leader (vs : list podView) (leaderHost : string) (id : Z) : Prop :=
  ∃ w nd, w ∈ vs ∧ pv_host w = leaderHost ∧ nd ∈ pv_nodes w ∧
    isDepartedState (ni_State nd) = false ∧ uint64 (ni_NodeID nd) = id.

Lemma known_ids_elem vs lh lid id :
  id ∈ known_ids vs lh lid ↔ id = lid ∨ listed_by_leader vs lh id.
Proof.
  unfold known_ids, listed_by_leader.
  rewrite elem_of_union, elem_of_singleton, elem_of_list_to_set, list_elem_of_bind.
  apply or_iff_compat_l. split.
  - intros (w & Hin & Hw). destruct (String.eqb (pv_host w) lh) eqn:Hh; bools;
      [|by apply not_elem_of_nil in Hin].
    apply list_elem_of_fmap in Hin as (nd & -> & Hnd).
    apply list_elem_of_In, filter_In in Hnd as [Hnd Hd]. bools.
    rewrite <- list_elem_of_In in Hnd. by exists w, nd.
  - intros (w & nd & Hw & <- & Hnd & Hd & <-). exists w. split; [|done].
    rewrite String.eqb_refl. apply list_elem_of_fmap. exists nd. split; [done|].
    rewrite list_elem_of_In in Hnd |- *. apply filter_In. by rewrite Hd.
Qed.


End Membership.

(** ** Replication health *)

(** With between 1 and 268435455 Parquet files on the fullest node the state
    is Diverged below a half of the maximum, Lagging below eight tenths, and
    Healthy otherwise; without files it is Healthy. *)
Theorem replication_state_correct maxFiles minFiles :
  (0 <= minFiles <= maxFiles)%Z → (maxFiles <= 268435455)%Z →
  (replication_state maxFiles minFiles).1 =
    if decide (minFiles < maxFiles / 2)%Z then "Diverged"
    else if decide (minFiles < (8 * maxFiles) / 10)%Z then "Lagging"
    else replicationStateHealthy.
Proof.
  intros Hm Hb. unfold replication_state.
  rewrite int32_id by (unfold in_int32; lia).
  rewrite !Z.quot_div_nonneg by lia. replace (maxFiles * 8)%Z with (8 * maxFiles)%Z by lia.
  destruct (decide (minFiles < maxFiles / 2)%Z) as [H1|H1].
  - assert (0 < maxFiles)%Z.
    { destruct (decide (0 < maxFiles)%Z); [done|]. assert (maxFiles = 0)%Z as -> by lia.
      change (0 / 2)%Z with 0%Z in H1. lia. }
    rewrite !bool_decide_eq_true_2 by done. done.
  - rewrite (bool_decide_eq_false_2 (minFiles < maxFiles / 2)%Z) by done. rewrite andb_false_r.
    destruct (decide (minFiles < 8 * maxFiles / 10)%Z) as [H2|H2].
    + assert (0 < maxFiles)%Z.
      { destruct (decide (0 < maxFiles)%Z); [done|]. assert (maxFiles = 0)%Z as -> by lia.
        change (8 * 0 / 10)%Z with 0%Z in H2. lia. }
      rewrite !bool_decide_eq_true_2 by done. done.
    + rewrite (bool_decide_eq_false_2 (minFiles < 8 * maxFiles / 10)%Z) by done.
      by rewrite andb_false_r.
Qed.

(** Above 268435455 files the product [maxFiles * 8] leaves int32: with
    268435456 files on one node and 134217728 - half of them - on another the
    state is Healthy, where eight tenths of the maximum would make it Lagging. *)
Theorem replication_state_overflow :
  replication_state 268435456 134217728 = (replicationStateHealthy, "InSync") ∧
  (134217728 < (8 * 268435456) / 10)%Z.
Proof. split; vm_compute; reflexivity. Qed.

(** ** Witnesses *)

Definition demo_member (state : string) (health : bool) (since : Z) : MemberStatus :=
  mkMember "db-1" 2 "db-1" state health 0 0 0 since.

Definition with_failover (c : HyperbytedbCluster) : HyperbytedbCluster :=
  let s := cl_Spec c in
  with_spec c (mkSpec (sp_Replicas s) (sp_Image s) (sp_Version s) (sp_ImagePullPolicy s)
    (sp_ImagePullSecrets s) (sp_Paused s) (sp_Server s) (sp_Storage s) (sp_Flush s) (sp_ChDB s)
    (sp_Auth s) (sp_Logging s) (sp_Resources s) (sp_Cluster s) (sp_Sharding s) (sp_Cardinality s)
    (sp_StatementSummary s) (sp_HintedHandoff s) (sp_RateLimit s) (sp_Retention s)
    (sp_Monitoring s) (sp_Autoscaling s) (Some (mkFailoverSpec true 1 60)) (sp_Proxy s)
    (sp_PodAnnotations s) (sp_PodLabels s) (sp_Affinity s) (sp_TopologySpreadConstraints s)
    (sp_Tolerations s) (sp_AdditionalVolumes s) (sp_AdditionalVolumeMounts s)).

(** Nodes that answer every request with [code] and the body [body url]; the clock
    stands at two minutes. *)
Definition member_world (code : Z) (body : string → string) : World := {|
  w_now := (2 * Minute)%Z;
  w_get k name := match k with KPod => Some (demo_pod name "10.0.0.1" "") | _ => None end;
  w_pods := [];
  w_http r := mkRsp code (Some (body (rq_URL r))) |}.

Definition formed_body (u : string) : string :=
  if Contains u "/cluster/nodes" then nodes_body ["active"; "active"] else leader_body.

Definition failing : HyperbytedbCluster := with_failover (demo_cluster 2 None).

Lemma failover_safe_witness :
  let ms := [demo_member "Unreachable" false 0] in
  let t := trace_of (member_world 500 (λ _, "")) (handleAutoFailover ms failing) in
  let o := result_of (member_world 500 (λ _, "")) (handleAutoFailover ms failing) in
  deletions t = [(KPod, "ns", "db-1")] ∧
  ((deletions t = [] ∧ ∃ r, o = Done (failing, r)) ∨
   ∃ f, sp_Failover (cl_Spec failing) = Some f ∧ fo_Enabled f = true ∧
    (failovers failing < max_failovers f)%Z ∧
    ∃ m d, failover_due (failover_timeout f) ms t m ∧ failover_target failing t m d ∧
      deletions t = [d] ∧
      ∃ c' r, o = Done (c', r) ∧
        match r with
        | inr _ => failovers c' = int32 (failovers failing + 1)
        | inl _ => c' = failing
        end).
Proof.
  cbv zeta. split; [vm_compute; reflexivity|]. apply failover_safe. apply world_exec.
Defined.

Lemma CollectMemberStatuses_correct_witness :
  let t := trace_of (member_world 200 (λ _, health_body "active"))
             (CollectMemberStatuses "" failing (cl_Namespace failing) 2) in
  deletions t = [] ∧
  ∃ ms, result_of (member_world 200 (λ _, health_body "active"))
          (CollectMemberStatuses "" failing (cl_Namespace failing) 2) = Done ms ∧
    length ms = Z.to_nat 2 ∧
    ∀ k m, ms !! k = Some m → member_at "" failing t (Z.of_nat k) m.
Proof. cbv zeta. apply CollectMemberStatuses_correct; [lia|]. apply world_exec. Defined.

Lemma failover_never_due_witness :
  deletions (trace_of (member_world 500 (λ _, "")) (failover_step "" failing 2)) = [].
Proof.
  eapply (failover_never_due "" failing 2 (mkFailoverSpec true 1 60));
    [reflexivity|unfold in_int32; simpl; lia|apply world_exec|].
  assert (clocks (trace_of (member_world 500 (λ _, "")) (failover_step "" failing 2)) =
    repeat (2 * Minute)%Z (length (clocks (trace_of (member_world 500 (λ _, ""))
      (failover_step "" failing 2))))) as -> by (vm_compute; reflexivity).
  assert (0 < failover_timeout (mkFailoverSpec true 1 60))%Z by (vm_compute; reflexivity).
  intros a b Ha%list_elem_of_In%repeat_spec Hb%list_elem_of_In%repeat_spec. lia.
Defined.

Definition formed_pass : P (HyperbytedbCluster * unit) :=
  reconcileClusterMembership "" 2 failing.

Lemma formed_exec : ∃ c', exec formed_pass (trace_of (member_world 200 formed_body) formed_pass)
  (Done (c', tt)) ∧ formed c'.
Proof.
  assert (∃ c', result_of (member_world 200 formed_body) formed_pass = Done (c', tt) ∧ formed c')
    as (c' & Hr & Hf) by (vm_compute; eexists; split; reflexivity).
  exists c'. split; [by apply world_done|done].
Defined.


(** Node 2 has left, and is asked to join again. *)
Definition left_body (u : string) : string :=
  if Contains u "/cluster/nodes" then nodes_body ["active"; "leaving"] else leader_body.


Lemma replication_state_correct_witness :
  (replication_state 100 60).1 = "Lagging" ∧
  (replication_state 100 60).1 =
    if decide (60 < 100 / 2)%Z then "Diverged"
    else if decide (60 < (8 * 100) / 10)%Z then "Lagging" else replicationStateHealthy.
Proof.
  split; [vm_compute; reflexivity|]. apply (replication_state_correct 100 60); lia.
Defined.
