(* ===== verification/RollingRestartSafety.v ===== *)
(** What a pass of the rolling restart does to the outside: which ordinal it
    releases and why, and what the proxies have acknowledged by then. *)

From S2P Require Import Prelude GoStrings Messages Lib ApiTypes Image K8s Prog Go Client Proxy Controller RollingRestart RollingRestartProofs.
#[local] Open Scope string_scope.

(** ** What a pass does before its phase *)

Section Passes.
Context `{Lib}.

(** A pass that reaches the [switch]: the calls [t1] before it, and the
    cluster and state it is run on. *)
Definition reaches (ctx : Ctx) (n : Z) (c : HyperbytedbCluster) (t : list (entry Ans))
    (o : outcome (HyperbytedbCluster * (GoErr + option Result))) : Prop :=
  ∃ t1 t2 c1 st sts,
    t = (t1 ++ t2)%list ∧
    exec (rolling_phase ctx c st (sss_UpdateRevision (sts_Status sts)) c1) t2 o ∧
    @Entry Ev Ans (Get KStatefulSet (cl_Namespace c) (StatefulSetName c)) (inr sts) ∈ t1 ∧
    rolling c1 = Some st ∧ same_object c1 c ∧ patches t1 = [] ∧
    ((rolling c = Some st ∧ c1 = c ∧ written t1 = []) ∨
     (rolling c = None ∧ ∃ now, st = new_rolling_state n now ∧ written t1 = [Some st])).

(** A pass that does not: it lets the reconcile go on, writes at most one state, a
    removal or a fresh rollout, and releases nothing. *)
Definition stops (n : Z) (c : HyperbytedbCluster) (t : list (entry Ans))
    (o : outcome (HyperbytedbCluster * (GoErr + option Result))) : Prop :=
  (∀ c' r, o ≠ Done (c', inr (Some r))) ∧
  patches t = [] ∧
  (written t = [] ∨
   (written t = [None] ∧ ∃ st, rolling c = Some st ∧
      (rr_Phase st = RollingRestartCompleted ∨ rr_Phase st = RollingRestartExcluding)) ∨
   ∃ now, written t = [Some (new_rolling_state n now)] ∧ rolling c = None).

Lemma honest_cons x t : honest (x :: t) ↔ entry_honest x ∧ honest t.
Proof. apply Forall_cons. Qed.

(** Reads off what the honest server answered in an explicit trace. *)
Ltac honesty :=
  repeat match goal with Hh : honest (_ :: _) |- _ => apply honest_cons in Hh as [? Hh] end;
  unfold entry_honest, rolling in *; simpl in *; destruct_and?; simplify_eq.
Ltac stopped :=
  left; unfold stops, patches, written, rolling; simpl; split; [done|]; split; [done|];
  first [ by left
        | right; left; split; [done|]; eexists; split; [eassumption|]; bools; simpl in *; bools; tauto
        | right; right; eexists; split; [reflexivity|assumption] ].
Ltac prefix l :=
  lazymatch l with
  | ?x :: ?l' => let p := prefix l' in constr:(x :: p)
  | _ => constr:(@nil (entry Ans))
  end.

Lemma pass_shape ctx sr n c t o :
  honest t → exec (reconcileRollingRestart ctx sr n c) t o →
  stops n c t o ∨ reaches ctx n c t o.
Proof.
  intros Hh He. revert t o He Hh.
  refine (proj1 (wp_exec _ (λ t o, honest t → stops n c t o ∨ reaches ctx n c t o)) _).
  unfold reconcileRollingRestart, tryClearCompletedRollingRestart, ensureRollingRestartState.
  unfold start_rolling, StatusUpdateCluster, modify_status. prog_go.
  all: try match goal with |- wp _ _ => apply wp_exec; intros t2 o2 He Hh end.
  all: honesty; try congruence.
  all: try match goal with Hn : _ && not_started ?s = true, Hs : ?s = None |- _ =>
    rewrite Hs, andb_false_r in Hn; discriminate end.
  all: try match goal with Hn : _ && not_started ?s = true, Hs : ?s = Some _ |- _ =>
    rewrite Hs in Hn end.
  all: try (stopped; fail).
  all: match goal with |- _ ∨ reaches _ _ _ ?t _ => let p := prefix t in
    right; exists p, t2; do 3 eexists; split; [reflexivity|]; split; [exact He|] end.
  all: split; [left|].
  all: unfold patches, written, rolling; simpl; split; [congruence|].
  all: split; [done|]; split; [done|].
  all: first [left; split; [congruence|done]
             |right; split; [congruence|]; eexists; split; [reflexivity|done]].
Qed.

(** The state a pass works on: the one in the status, or a new rollout. *)
Definition works_on (n : Z) (c : HyperbytedbCluster) (st : RollingRestartState) : Prop :=
  rolling c = Some st ∨ (rolling c = None ∧ ∃ now, st = new_rolling_state n now).

Lemma reached_works_on n c c1 st t :
  (rolling c = Some st ∧ c1 = c ∧ written t = []) ∨
  (rolling c = None ∧ ∃ now, st = new_rolling_state n now ∧ written t = [Some st]) →
  works_on n c st.
Proof. intros [(? & _)|(? & now & ? & _)]; [by left|right; eauto]. Qed.

(** *** The proxies' acknowledgements *)

(** Every running proxy of the cluster answered a request on [path] with a
    response that satisfies [ok]. *)
Definition acked (ctx : Ctx) (c : HyperbytedbCluster) (path : string) (port : Z)
    (ok : Response → Prop) (t : list (entry Ans)) : Prop :=
  ∃ pods,
    @Entry Ev Ans (ListPods (cl_Namespace c) (proxy_selector c)) (inr pods) ∈ t ∧
    ∀ p, p ∈ pods → proxyRunning p = true →
      ∃ resp,
        @Entry Ev Ans (Http (RoundTrip ctx MethodPost (url (pod_IP p) port path) NoBody))
          (inr resp) ∈ t ∧ ok resp.

Definition exclude_path (ip : string) : string := "/admin/backends/" +:+ ip +:+ "/exclude".
Definition include_path (ip : string) : string := "/admin/backends/" +:+ ip +:+ "/include".

Lemma acked_mono ctx c path port ok t u :
  t ⊆ u → acked ctx c path port ok t → acked ctx c path port ok u.
Proof.
  intros Hs (pods & Hl & Hp). exists pods. split; [by apply Hs|].
  intros p Hin Hr. destruct (Hp p Hin Hr) as (resp & He & Hok). eauto.
Qed.

Lemma forEach_acked ctx c path port (ok : Response → Prop) send t :
  (∀ p u, exec (send p) u (Done nil_err) → ∃ resp,
     @Entry Ev Ans (Http (RoundTrip ctx MethodPost (url (pod_IP p) port path) NoBody))
       (inr resp) ∈ u ∧ ok resp) →
  exec (forEachRunningProxy c send) t (Done nil_err) → acked ctx c path port ok t.
Proof.
  intros Hsend He. destruct He as ([e|pods] & t' & -> & He); [by destruct He|].
  exists pods. split; [left|]. intros p Hp Hrun.
  destruct (for_each_err_ok _ _ _ He p Hp) as (u & Hu & Hsub).
  unfold send_to_running in Hu. rewrite Hrun in Hu.
  apply exec_bind in Hu as [(u1 & u2 & r & -> & H1 & [-> Hr])|[_ ?]]; [|done].
  destruct r as [e|[]]; [done|]. destruct (Hsend p u1 H1) as (resp & Hin & Hok).
  exists resp. split; [|done]. right. apply Hsub. set_solver.
Qed.

Lemma exclude_acked ctx c ip port t :
  exec (excludeFromAllProxies ctx c ip port) t (Done nil_err) →
  acked ctx c (exclude_path ip) port (λ r, exclude_result ip r = nil_err) t.
Proof.
  apply forEach_acked. intros p u ([e|resp] & u' & -> & He); [by destruct He|].
  destruct He as [-> Hr]. exists resp. split; [left|congruence].
Qed.

Lemma include_acked ctx c ip port t :
  exec (includeFromAllProxies ctx c ip port) t (Done nil_err) →
  acked ctx c (include_path ip) port (λ r, rsp_Code r = StatusOK) t.
Proof.
  apply forEach_acked. intros p u ([e|resp] & u' & -> & He); [by destruct He|].
  exists resp. split; [left|]. cbn in He. destruct (negb _) eqn:Hc; destruct He; [done|].
  unfold code_in in Hc. simpl in Hc. rewrite orb_false_r in Hc. by bools.
Qed.

(** ** Releases *)

Definition podName (c : HyperbytedbCluster) (st : RollingRestartState) : string :=
  StatefulSetName c +:+ "-" +:+ Itoa (rr_CurrentOrdinal st).

(** Why the ordinal of [st] may be released: its drain is over, or its pod is
    gone or already on the new revision. *)
Definition release_reason (ns : string) (drain : Z) (pod : string) (st : RollingRestartState)
    (updateRevision : string) (t : list (entry Ans)) : Prop :=
  (rr_Phase st = RollingRestartDraining ∧
   ∃ now, @Entry Ev Ans Now now ∈ t ∧ (drain <= Sub now (rr_PhaseStartedAt st))%Z) ∨
  (rr_Phase st = RollingRestartExcluding ∧
   ∃ r, @Entry Ev Ans (Get KPod ns pod) r ∈ t ∧
     match r with
     | inl e => IsNotFound e = true
     | inr p => pod_on_revision p updateRevision = true
     end).

(** At most one write of the partition, to [ordinal], and only to lower it. *)
Definition only_lowers (ordinal : Z) (ps : list (option (option Z) * option (option Z))) : Prop :=
  ps = [] ∨ ∃ base, ps = [(base, Some (Some ordinal))] ∧
                    ∀ q, base = Some (Some q) → (ordinal < q)%Z.

(** The partition writes of an explicit trace. *)
Ltac patching :=
  unfold patches in *; simpl; rewrite ?omap_app; simpl;
  repeat match goal with
  | Hq : Forall _ ?t |- _ =>
      apply patches_quiet in Hq; unfold patches in Hq; rewrite ?Hq; clear Hq
  end; simpl.

Lemma release_lowers st rq c :
  wp (rollingRestartRelease st rq c) (λ t o, only_lowers (rr_CurrentOrdinal st) (patches t)).
Proof.
  rolling_go.
  all: patching; unfold only_lowers.
  all: try by left.
  all: right; eexists; split; [reflexivity|]; intros q Hq; bools; congruence || (simplify_eq; lia).
Qed.

(** As [rolling_go], keeping [rollingRestartRelease] folded. *)
Ltac rolling_go_release :=
  unfold enter_draining, ordinal_done, set_phase_now, next_ordinal, StatusUpdateCluster,
    modify_rolling, modify_status, record_event, Since;
  prog_go; repeat (rolling_proxy; repeat first [progress prog_cbn | progress intros | prog_split]);
  repeat match goal with
  | |- wp (rollingRestartRelease _ _ _) _ => eapply wp_mono; [apply release_lowers|intros]
  end.

(** What the theorem on releases says of one phase. *)
Definition released_right ns drain pod st ur (t : list (entry Ans)) : Prop :=
  only_lowers (rr_CurrentOrdinal st) (patches t) ∧
  (patches t ≠ [] → release_reason ns drain pod st ur t).

Lemma no_release ns drain pod st ur t : patches t = [] → released_right ns drain pod st ur t.
Proof. intros Hp. unfold released_right, only_lowers. rewrite Hp. split; [by left|done]. Qed.

Lemma excluding_released ctx st pn ur pp rq c drain :
  rr_Phase st = RollingRestartExcluding →
  wp (rollingRestartExcluding ctx st pn ur pp rq c)
    (λ t o, released_right (cl_Namespace c) drain pn st ur t).
Proof.
  intros Hp. unfold rollingRestartExcluding. rolling_go_release.
  all: try (apply no_release; patching; done).
  all: split; [done|]; intros _; right; split; [done|]; eexists; split; [left|done].
Qed.

Lemma draining_released st pn ur rq c ns pod :
  rr_Phase st = RollingRestartDraining →
  wp (rollingRestartDraining st pn rq c)
    (λ t o, released_right ns (drain_wait c) pod st ur t).
Proof.
  intros Hp. unfold rollingRestartDraining. rolling_go_release.
  - by apply no_release.
  - split; [done|]. intros _. left. split; [done|]. eexists. split; [left|]. bools. lia.
Qed.

Lemma waiting_released ctx st pn ur pp rq c ns drain pod :
  wp (rollingRestartWaitingReady ctx st pn ur pp rq c)
    (λ t o, released_right ns drain pod st ur t).
Proof.
  unfold rollingRestartWaitingReady. rolling_go_release.
  all: apply no_release; patching; done.
Qed.

Lemma phase_released ctx c0 st ur c :
  wp (rolling_phase ctx c0 st ur c)
    (λ t o, released_right (cl_Namespace c) (drain_wait c) (podName c0 st) st ur t).
Proof.
  unfold rolling_phase. destruct (rr_Phase st) eqn:Hp; try (by apply no_release).
  - by apply excluding_released.
  - by apply draining_released.
  - apply waiting_released.
Qed.

(** ** Excluding before draining, readiness before moving on *)

(** The reading of the clock that ends a wait of [d] since [t0]. *)
Definition waited (d : Z) (t0 : Time) (t : list (entry Ans)) : Prop :=
  ∃ now, @Entry Ev Ans Now now ∈ t ∧ (d <= Sub now t0)%Z.

(** [pod] was read, and every running proxy excludes its address, or the
    proxies had their two minutes. *)
Definition excluded (ctx : Ctx) (c : HyperbytedbCluster) (port : Z) (name : string)
    (st : RollingRestartState) (t : list (entry Ans)) : Prop :=
  ∃ pod, @Entry Ev Ans (Get KPod (cl_Namespace c) name) (inr pod) ∈ t ∧
    (acked ctx c (exclude_path (pod_IP pod)) port
       (λ r, exclude_result (pod_IP pod) r = nil_err) t ∨
     waited proxyCallTimeout (rr_PhaseStartedAt st) t).

(** The replacement was read, runs the new revision, is ready, and every running
    proxy includes its address, or the proxies and the restart had their time. *)
Definition replaced (ctx : Ctx) (c : HyperbytedbCluster) (port : Z) (name ur : string)
    (st : RollingRestartState) (t : list (entry Ans)) : Prop :=
  ∃ pod, @Entry Ev Ans (Get KPod (cl_Namespace c) name) (inr pod) ∈ t ∧
    isPodReady pod = true ∧ om_DeletionTimestamp (pod_Meta pod) = None ∧
    pod_IP pod ≠ "" ∧ (ur = "" ∨ pod_on_revision pod ur = true) ∧
    (acked ctx c (include_path (pod_IP pod)) port (λ r, rsp_Code r = StatusOK) t ∨
     waited (proxyCallTimeout + podRestartAllowance) (rr_PhaseStartedAt st) t).

Ltac timed_out :=
  right; eexists; split; [|bools; apply Z.nlt_ge; eassumption];
  repeat first [ apply list_elem_of_here | apply list_elem_of_further
               | apply elem_of_app; right ].
Ltac acked_by lem :=
  left; eapply acked_mono; [|eapply lem; eassumption];
  intros z Hz; rewrite ?elem_of_cons, ?elem_of_app; tauto.

(** Nothing is written. *)
Ltac unwritten :=
  exfalso; match goal with Hw : Some _ ∈ written _ |- _ =>
    revert Hw; unfold written; simpl; rewrite ?omap_app; simpl;
    repeat match goal with
    | Hq : Forall _ ?t |- _ =>
        apply written_quiet in Hq; unfold written in Hq; rewrite ?Hq; clear Hq
    end; simpl; apply not_elem_of_nil end.
(** Folds the phases' tails, runs up to the proxies, and through them. *)
Ltac rolling_go_tail :=
  unfold enter_draining, ordinal_done, set_phase_now, next_ordinal, StatusUpdateCluster,
    modify_rolling, modify_status, record_event, Since;
  prog_go; repeat (rolling_proxy; repeat first [progress prog_cbn | progress intros | prog_split]);
  try match goal with u : unit |- _ => destruct u end.

Lemma release_waiting st rq c :
  wp (rollingRestartRelease st rq c) (λ t o, ∀ st',
    Some st' ∈ written t → rr_Phase st' = RollingRestartWaitingReady).
Proof.
  rolling_go.
  all: match goal with Hw : Some _ ∈ written _ |- _ =>
    unfold written, rolling in Hw; simpl in Hw; try by apply not_elem_of_nil in Hw end.
  all: match goal with Hw : Some _ ∈ [_] |- _ => apply list_elem_of_singleton in Hw end.
  all: unfold rolling in *; destruct (st_RollingRestart (cl_Status c)); simpl in *; by simplify_eq.
Qed.

Lemma excluding_excluded ctx st pn ur pp rq c :
  wp (rollingRestartExcluding ctx st pn ur pp rq c) (λ t o, ∀ st',
    Some st' ∈ written t → rr_Phase st' = RollingRestartDraining →
    excluded ctx c pp pn st t).
Proof.
  unfold rollingRestartExcluding. rolling_go_tail.
  all: try match goal with |- wp (rollingRestartRelease _ _ _) _ =>
    eapply wp_mono; [apply release_waiting|]; simpl; intros t o' Hw st' Hin Hd;
    rewrite (Hw st' Hin) in Hd; discriminate end.
  all: try (unwritten; fail).
  all: eexists; (split; [left|]). all: first [acked_by exclude_acked | timed_out].
Qed.

Lemma revision_ok ur p :
  negb (String.eqb ur "") && negb (pod_on_revision p ur) = false →
  ur = "" ∨ pod_on_revision p ur = true.
Proof. intros Hr. apply andb_false_iff in Hr as [Hr|Hr]; bools; auto. Qed.

Lemma waiting_replaced ctx st pn ur pp rq c :
  wp (rollingRestartWaitingReady ctx st pn ur pp rq c) (λ t o,
    written t = [] ∨ replaced ctx c pp pn ur st t).
Proof.
  unfold rollingRestartWaitingReady. rolling_go_tail.
  all: try (left; writes; done).
  all: right; bools; eexists; split; [left|].
  all: split; [done|]; split; [by apply eq_None_not_Some|]; split; [done|].
  all: split; [by apply revision_ok|].
  all: first [acked_by include_acked | timed_out].
Qed.

Lemma waiting_draining ctx st pn ur pp rq c :
  wp (rollingRestartWaitingReady ctx st pn ur pp rq c) (λ t o, ∀ st',
    Some st' ∈ written t → rr_Phase st' ≠ RollingRestartDraining).
Proof.
  unfold rollingRestartWaitingReady. rolling_go_tail.
  all: try (unwritten; fail).
  all: match goal with Hw : Some _ ∈ written _ |- _ => revert Hw end.
  all: writes; intros Hw%list_elem_of_singleton.
  all: destruct (st_RollingRestart (cl_Status c)); simpl in *; by simplify_eq.
Qed.

Lemma phase_excluded ctx c0 st ur c :
  wp (rolling_phase ctx c0 st ur c) (λ t o, ∀ st',
    Some st' ∈ written t → rr_Phase st' = RollingRestartDraining →
    excluded ctx c (ProxyAdminPort c0) (podName c0 st) st t).
Proof.
  unfold rolling_phase. destruct (rr_Phase st) eqn:Hp; try (intros st' Hw; unwritten).
  - apply excluding_excluded.
  - unfold rollingRestartDraining. rolling_go_tail; [unwritten|].
    eapply wp_mono; [apply release_waiting|]; simpl; intros t o' Hw st' Hin Hd.
    by rewrite (Hw st' Hin) in Hd.
  - eapply wp_mono; [apply waiting_draining|]. simpl. intros t o Hw st' Hin Hd.
    by destruct (Hw st' Hin).
Qed.

Lemma excluded_mono ctx c c' port name st t u :
  same_object c c' → t ⊆ u → excluded ctx c port name st t → excluded ctx c' port name st u.
Proof.
  unfold excluded, acked, proxy_selector. intros [<- <-] Hs (pod & Hp & Ha).
  exists pod. split; [by apply Hs|]. destruct Ha as [Ha|(now & Hn & Hd)].
  - left. by eapply (acked_mono ctx c).
  - right. exists now. split; [by apply Hs|done].
Qed.

Lemma replaced_mono ctx c port name ur st t u :
  t ⊆ u → replaced ctx c port name ur st t → replaced ctx c port name ur st u.
Proof.
  intros Hs (pod & Hp & H1 & H2 & H3 & H4 & Ha). exists pod.
  do 5 (split; [by auto|]). destruct Ha as [Ha|(now & Hn & Hd)].
  - left. by eapply acked_mono.
  - right. exists now. split; [by apply Hs|done].
Qed.

(** A pass in WaitingReady goes straight to that phase. *)
Lemma waiting_pass ctx sr n c st Q :
  rolling c = Some st → rr_Phase st = RollingRestartWaitingReady →
  let sts_get := Get KStatefulSet (cl_Namespace c) (StatefulSetName c) in
  (∀ e, Q [@Entry Ev Ans sts_get (inl e)] (Done (c, inl e))) →
  (∀ sts, wp (rollingRestartWaitingReady ctx st (podName c st)
                (sss_UpdateRevision (sts_Status sts)) (ProxyAdminPort c) requeue3s c)
            (λ t o, Q (@Entry Ev Ans sts_get (inr sts) :: t) o)) →
  wp (reconcileRollingRestart ctx sr n c) Q.
Proof.
  intros Hc Hp sts_get Herr Hok. unfold rolling in Hc.
  unfold reconcileRollingRestart, tryClearCompletedRollingRestart, ensureRollingRestartState,
    rolling_phase. prog_unfold. prog_cbn. intros [e|sts]; prog_cbn; [apply Herr|].
  rewrite Hc, andb_false_r. prog_cbn. rewrite Hc, Hp, bool_decide_eq_false_2 by done. cbn.
  rewrite Hc. unfold not_started. rewrite Hp, bool_decide_eq_false_2, andb_false_r by done. cbn.
  rewrite Hc. cbn. rewrite Hc. cbn. rewrite Hp. apply Hok.
Qed.

(** ** Sequences of passes *)

(** A rollout: passes one after another, each starting from the state the one
    before left in the API server. *)
Inductive rollout (n : Z) : option RollingRestartState → list (option RollingRestartState) → Prop :=
  | rollout_nil s : rollout n s []
  | rollout_pass s ctx sr c t o l :
      rolling c = s → honest t → exec (reconcileRollingRestart ctx sr n c) t o →
      rollout n (default s (last (written t))) l →
      rollout n s (written t ++ l).

Lemma rolling_inv_chain n s l :
  (1 <= n)%Z → in_int32 n → rolling_inv n s → chain (rr_step n) s l →
  rolling_inv n (default s (last l)).
Proof.
  intros Hn Hi. revert s. induction l as [|s' l IH]; intros s Hs; [done|].
  intros [Hst Hch]. rewrite last_cons.
  pose proof (IH s' (rolling_inv_step n Hn Hi s s' Hst Hs) Hch) as Hl.
  by destruct (last l).
Qed.

Lemma rolling_inv_int32 n s : in_int32 n → rolling_inv n s →
  ∀ st, s = Some st → in_int32 (rr_CurrentOrdinal st).
Proof. intros Hi Hs st ->. destruct Hs as [? _]. unfold in_int32 in *. lia. Qed.

Lemma rollout_chain n s l :
  (1 <= n)%Z → in_int32 n → rolling_inv n s → rollout n s l →
  chain (rr_step n) s l.
Proof.
  intros Hn Hi Hs Hr. induction Hr as [s|s ctx sr c t o l Hc Hh He Hr IH]; [done|].
  pose proof (proj1 (wp_exec _ _)
    (pass_steps ctx sr n c Hi ltac:(rewrite Hc; by apply (rolling_inv_int32 n))) t o He Hh) as Hch.
  simpl in Hch. rewrite Hc in Hch. apply chain_app; [done|].
  apply IH. by apply rolling_inv_chain.
Qed.
End Passes.
