(* ===== verification/RollingRestartTheorems.v ===== *)
(** The rolling restart: the properties. *)

From S2P Require Import Prelude GoStrings Lib ApiTypes Image K8s Prog Go Client Proxy Controller RollingRestart RollingRestartProofs RollingRestartSafety Demo.
#[local] Open Scope string_scope.

Section Theorems.
Context `{Lib}.




(** A pass moves an ordinal to Draining only after it read the pod and every
    running proxy accepted to exclude the pod's address, or after the proxies
    had two minutes to do so. *)
Theorem drain_after_exclude ctx sr n c t o st' :
  honest t → exec (reconcileRollingRestart ctx sr n c) t o →
  Some st' ∈ written t → rr_Phase st' = RollingRestartDraining →
  ∃ st, works_on n c st ∧ excluded ctx c (ProxyAdminPort c) (podName c st) st t.
Proof.
  intros Hh He Hw Hd. destruct (pass_shape ctx sr n c t o Hh He) as [(_ & _ & Hn)|Hr].
  { exfalso. destruct Hn as [Hn|[[Hn _]|(now & Hn & _)]]; rewrite Hn in Hw;
      [by apply not_elem_of_nil in Hw|apply list_elem_of_singleton in Hw; by simplify_eq..]. }
  destruct Hr as (t1 & t2 & c1 & st & sts & -> & He2 & _ & Hc1 & [Hnm Hns] & _ & Hor).
  rewrite written_app in Hw. apply elem_of_app in Hw as [Hw|Hw].
  { exfalso. destruct Hor as [(_ & _ & Hn)|(_ & now & -> & Hn)]; rewrite Hn in Hw;
      [by apply not_elem_of_nil in Hw|apply list_elem_of_singleton in Hw; by simplify_eq]. }
  exists st. split; [by eapply reached_works_on|].
  pose proof (proj1 (wp_exec _ _) (phase_excluded ctx c st _ c1) _ _ He2 _ Hw Hd) as Hx.
  eapply excluded_mono; [done| |exact Hx]. intros x Hin. apply elem_of_app. by right.
Qed.


(** The partition given to the StatefulSet in any reachable state of a
    rollout is below an ordinal exactly when that ordinal has been released: the
    StatefulSet controller may replace pod [k] iff the state machine has handed
    it over. *)
Theorem partition_is_released n l c k :
  (1 <= n)%Z → in_int32 n → rollout n None l → rolling c = default None (last l) →
  (0 <= k < n)%Z →
  (rolloutPartition c n <= k)%Z ↔ released (rolling c) k.
Proof.
  intros Hn Hi Hr Hc Hk. unfold rolloutPartition. change (st_RollingRestart (cl_Status c))
    with (rolling c). apply (partition_released n Hi); [|done]. rewrite Hc.
  apply (rolling_inv_chain n None l); [done..|]. by apply (rollout_chain n None l).
Qed.

(** When the pod of the ordinal in WaitingReady does not exist - as after a
    scale-down below it - a pass writes nothing and only asks to be called
    again in three seconds, whatever the rest of the cluster looks like. *)
Theorem waiting_for_missing_pod ctx sr n c t c' r st :
  rolling c = Some st → rr_Phase st = RollingRestartWaitingReady →
  (∀ x, @Entry Ev Ans (Get KPod (cl_Namespace c) (podName c st)) x ∈ t →
        ∃ e, x = inl e ∧ IsNotFound e = true) →
  exec (reconcileRollingRestart ctx sr n c) t (Done (c', inr r)) →
  c' = c ∧ written t = [] ∧ patches t = [] ∧ r = Some requeue3s.
Proof.
  intros Hc Hp Hpod He.
  enough (wp (reconcileRollingRestart ctx sr n c) (λ t o,
    (∀ x, @Entry Ev Ans (Get KPod (cl_Namespace c) (podName c st)) x ∈ t →
          ∃ e, x = inl e ∧ IsNotFound e = true) →
    ∀ c' r, o = Done (c', inr r) →
    c' = c ∧ written t = [] ∧ patches t = [] ∧ r = Some requeue3s)) as Hw
    by exact (proj1 (wp_exec _ _) Hw _ _ He Hpod c' r eq_refl).
  clear t c' r Hpod He. apply (waiting_pass ctx sr n c st); try done. intros sts.
  unfold rollingRestartWaitingReady. prog_unfold. prog_cbn. intros [e|pod].
  - destruct (IsNotFound e) eqn:Hnf; intros Hpod c' r Ho; [by simplify_eq|].
    destruct (Hpod (inl e)) as (e' & ? & ?); [right; left|]. congruence.
  - apply wp_exec. intros t o _ Hpod. destruct (Hpod (inr pod)) as (e' & ? & _); [right; left|done].
Qed.
End Theorems.
(** ** Witnesses *)

Lemma world_honest {A} (w : World) (p : prog Ans A) : honest (trace_of w p).
Proof.
  unfold trace_of. induction p as [a| |e k IH]; [constructor..|]. simpl.
  specialize (IH (answers w e)). destruct (run _ (k _) tt) as [[[] t] o]. simpl in *.
  constructor; [|done]. destruct e as [| | | | | |[] | | | | |]; simpl; repeat split.
Qed.

Definition demo_result : stsReconcileResult := mkStsResult 3 3 3 false.

(** One pass over a three-pod cluster in state [s], in a world with pod [pod]. *)
Definition demo_trace (s : option RollingRestartState) (pod : option Pod) (now : Z)
    : list (entry Ans) :=
  trace_of (demo_world (demo_sts 3 3) pod now 200)
    (reconcileRollingRestart "" demo_result 3 (demo_cluster 3 s)).

Definition old_pod : option Pod := Some (demo_pod "db-2" "10.0.0.2" "old").
Definition new_pod : option Pod := Some (demo_pod "db-2" "10.0.0.3" "new").
Definition draining_2 : RollingRestartState := mkRR 2 3 RollingRestartDraining 1000%Z "10.0.0.2" true.
Definition waiting_2 : RollingRestartState := mkRR 2 3 RollingRestartWaitingReady 1000%Z "10.0.0.2" true.
Definition excluding_2 : RollingRestartState := mkRR 2 3 RollingRestartExcluding 1000%Z "" false.

Lemma demo_bounds : in_int32 3.
Proof. unfold in_int32. lia. Qed.




Lemma drain_after_exclude_witness : ∃ st,
  works_on 3 (demo_cluster 3 None) st ∧
  excluded "" (demo_cluster 3 None) (ProxyAdminPort (demo_cluster 3 None))
    (podName (demo_cluster 3 None) st) st (demo_trace None old_pod 1000).
Proof.
  assert (written (demo_trace None old_pod 1000) = [Some excluding_2; Some draining_2]) as Hw
    by (vm_compute; reflexivity).
  eapply (drain_after_exclude "" demo_result 3 (demo_cluster 3 None)
            (demo_trace None old_pod 1000) _ draining_2);
    [apply world_honest|apply world_exec|rewrite Hw; right; left|reflexivity].
Defined.


Lemma partition_is_released_witness :
  (rolloutPartition (demo_cluster 3 (Some draining_2)) 3 <= 2)%Z ↔ released (Some draining_2) 2.
Proof.
  apply (partition_is_released 3 [Some excluding_2; Some draining_2]
           (demo_cluster 3 (Some draining_2)));
    [lia|exact demo_bounds| |reflexivity|lia].
  change [Some excluding_2; Some draining_2]
    with (written (demo_trace None old_pod 1000) ++ [])%list.
  eapply (rollout_pass 3 None "" demo_result (demo_cluster 3 None)); [reflexivity|apply world_honest|apply world_exec|apply rollout_nil].
Defined.

Lemma waiting_for_missing_pod_witness :
  let t := demo_trace (Some waiting_2) None (2 ^ 40) in
  demo_cluster 3 (Some waiting_2) = demo_cluster 3 (Some waiting_2) ∧
  written t = [] ∧ patches t = [] ∧ Some requeue3s = Some requeue3s.
Proof.
  assert (demo_trace (Some waiting_2) None (2 ^ 40) =
    [@Entry Ev Ans (Get KStatefulSet "ns" "db") (inr (demo_sts 3 3));
     @Entry Ev Ans (Get KPod "ns" "db-2") (inl not_found)]) as Ht by (vm_compute; reflexivity).
  cbv zeta. rewrite Ht.
  eapply (waiting_for_missing_pod "" demo_result 3 (demo_cluster 3 (Some waiting_2)) _ _ _ waiting_2);
    [reflexivity|reflexivity| |rewrite <- Ht; apply world_done; vm_compute; reflexivity].
  intros x Hx. exists not_found. split; [|reflexivity].
  apply elem_of_cons in Hx as [Hx|Hx%list_elem_of_singleton]; apply (f_equal pod_read) in Hx;
    [discriminate Hx|by injection Hx].
Defined.
