(* ===== verification/RolloutLiveness.v ===== *)
(** A rolling restart that is helped gets done. *)

From S2P Require Import Prelude GoStrings Lib ApiTypes Image K8s Prog Go Client Proxy Controller RollingRestart RollingRestartProofs RollingRestartSafety Demo RollingRestartTheorems.
#[local] Open Scope string_scope.

Section Liveness.
Context `{Lib}.
Implicit Types (c : HyperbytedbCluster) (st : RollingRestartState) (t : list (entry Ans)).

(** ** What the surroundings have to do *)

(** The pod of the ordinal: gone, replaced or with an address while it is to be
    excluded; its replacement up when it is waited for. *)
Definition pod_helps (ur : string) (p : RollingRestartPhase) (a : GoErr + Pod) : Prop :=
  match p, a with
  | RollingRestartWaitingReady, inr pod =>
      isPodReady pod = true ∧ om_DeletionTimestamp (pod_Meta pod) = None ∧ pod_IP pod ≠ "" ∧
      pod_on_revision pod ur = true
  | RollingRestartWaitingReady, inl _ => False
  | _, inr pod => pod_on_revision pod ur = true ∨ pod_IP pod ≠ ""
  | _, inl e => IsNotFound e = true
  end.

(** No request to the API server is refused; an upgrade to the revision [ur] is under way. *)
Definition granted (ur : string) (s : option RollingRestartState) (x : entry Ans) : Prop :=
  match entry_ev x as e return Ans e → Prop with
  | Get k _ _ =>
      match k return GoErr + obj k → Prop with
      | KStatefulSet => λ a, ∃ sts, a = inr sts ∧ sss_UpdateRevision (sts_Status sts) = ur ∧
          (s = None ∨ not_started s = true → rolling_upgrade sts = true)
      | KPod => pod_helps ur (from_option rr_Phase RollingRestartExcluding s)
      | _ => λ _, True
      end
  | StatusUpdate k _ => found
  | PatchSts _ _ => found
  | _ => λ _, True
  end (entry_ans x).

(** The proxies answer, and agree. *)
Definition agreed (x : entry Ans) : Prop :=
  match entry_ev x as e return Ans e → Prop with
  | ListPods _ _ => found
  | Http _ => λ a, ∃ resp, a = inr resp ∧ rsp_Code resp = StatusOK
  | _ => λ _, True
  end (entry_ans x).

(** The clock is at least [d] past [t0]. *)
Definition later (d : Z) (t0 : Time) (x : entry Ans) : Prop :=
  match entry_ev x as e return Ans e → Prop with
  | Now => λ now, (d <= Sub now t0)%Z
  | _ => λ _, True
  end (entry_ans x).

(** What a pass over the state [s] needs: the drain is over when it looks, and the proxies
    agree or had their time. *)
Definition helped c (ur : string) (s : option RollingRestartState) t : Prop :=
  Forall (granted ur s) t ∧
  match s with
  | None => Forall agreed t
  | Some st =>
      match rr_Phase st with
      | RollingRestartDraining => Forall (later (drain_wait c) (rr_PhaseStartedAt st)) t
      | _ => Forall agreed t ∨ Forall (later (proxyCallTimeout + podRestartAllowance) (rr_PhaseStartedAt st)) t
      end
  end.

(** ** The proxies *)

Definition obliging (send : Pod → P error) : Prop :=
  ∀ p t a, exec (send p) t (Done a) → Forall agreed t → a = nil_err.

Lemma forEach_agreed c send t a : obliging send →
  exec (forEachRunningProxy c send) t (Done a) → Forall agreed t → a = nil_err.
Proof.
  intros Hs ([e|pods] & t' & -> & He) [Hx Ha]%Forall_cons; [done|]. cbn in He. clear Hx.
  revert t' He Ha. induction pods as [|p pods IH]; intros t He Ha; cbn [for_each_err] in He.
  { by destruct He as [_ [= ->]]. }
  assert (∀ u b, exec (send_to_running send p) u (Done b) → Forall agreed u → b = nil_err) as Hp.
  { unfold send_to_running. destruct (proxyRunning p); [|by intros u b [_ [= ->]]].
    intros u b Hu Hg. apply exec_mbind in Hu as [(u1 & u2 & r & -> & H1 & H2)|[_ ?]]; [|done].
    apply Forall_app in Hg as [Hg _]. rewrite (Hs _ _ _ H1 Hg) in H2. by destruct H2 as [_ [= ->]]. }
  apply exec_pbind in He as [(t1 & t2 & [] & -> & H1 & H2)|[(e & H1 & He)|[_ ?]]]; [| |done].
  - apply Forall_app in Ha as [_ Ha]. by apply (IH t2).
  - by specialize (Hp _ _ H1 Ha).
Qed.

Lemma exclude_agreed ctx c ip port t a :
  exec (excludeFromAllProxies ctx c ip port) t (Done a) → Forall agreed t → a = nil_err.
Proof.
  apply forEach_agreed. intros p u b (x & u' & -> & He) [Hx _]%Forall_cons.
  destruct Hx as (resp & Hr & Hc). cbn in Hr. subst x. destruct He as [_ [= ->]].
  unfold exclude_result, code_in. by rewrite Hc.
Qed.
Lemma include_agreed ctx c ip port t a :
  exec (includeFromAllProxies ctx c ip port) t (Done a) → Forall agreed t → a = nil_err.
Proof.
  apply forEach_agreed. intros p u b (x & u' & -> & He) [Hx _]%Forall_cons.
  destruct Hx as (resp & Hr & Hc). cbn in Hr. subst x. cbn in He. unfold code_in in He. rewrite Hc in He.
  by destruct He as [_ [= ->]].
Qed.

(** ** One pass *)

Definition underway (s : option RollingRestartState) : Prop :=
  match s with
  | Some st => rr_Phase st ∈ [RollingRestartExcluding; RollingRestartDraining; RollingRestartWaitingReady]
  | None => True
  end.

(** The pass ends without an error, is to be run again, and the last state it wrote is of a
    rollout that is under way or complete. *)
Definition advances t
    (o : outcome (HyperbytedbCluster * (GoErr + option Result))) : Prop :=
  ∃ c' st' r, o = Done (c', inr (Some r)) ∧ (0 < res_RequeueAfter r)%Z ∧ written t = [Some st'] ∧
    (underway (Some st') ∨ rr_Phase st' = RollingRestartCompleted).

(** What the helpful surroundings answered in the trace of a leaf. *)
Ltac helping :=
  repeat match goal with
  | Hx : Forall _ (_ :: _) |- _ => apply Forall_cons in Hx as [? Hx]
  | Hx : Forall _ (_ ++ _) |- _ => apply Forall_app in Hx as [? Hx]
  end;
  repeat match goal with
  | Hx : granted _ _ _ |- _ => unfold granted, found in Hx; cbn [entry_ev entry_ans from_option] in Hx
  | Hx : agreed _ |- _ => clear Hx
  | Hx : later _ _ _ |- _ => unfold later in Hx; cbn [entry_ev entry_ans] in Hx
  | Hx : Forall _ [] |- _ => clear Hx
  | Hx : ∃ _, inl _ = inr _ ∧ _ |- _ => exfalso; destruct Hx as (? & ? & _); discriminate
  end;
  try done.
Ltac advancing Hc :=
  unfold advances; writes; rewrite ?Hc; simpl; eexists _, _, _; split; [reflexivity|];
  split; [unfold requeue3s, requeue_after, Second; simpl; lia|]; split; [reflexivity|]; simpl; first [by right | left; set_solver].

Lemma release_advances st c ur :
  rolling c = Some st →
  wp (rollingRestartRelease st requeue3s c) (λ t o, Forall (granted ur (Some st)) t → advances t o).
Proof. intros Hc. rolling_go. all: helping. all: advancing Hc. Qed.

Lemma advances_quiet x t o : status_write (entry_ev x) = None → advances t o → advances (x :: t) o.
Proof.
  intros Hx (c' & st' & r & Ho & Hr & Hw & Hu). exists c', st', r. split; [done|]. split; [done|].
  split; [|done]. unfold written in *. cbn. by rewrite Hx.
Qed.

(** As [rolling_go], up to a release, which advances. *)
Ltac advance_go ur :=
  unfold enter_draining, ordinal_done, set_phase_now, next_ordinal, StatusUpdateCluster,
    modify_rolling, modify_status, record_event, Since;
  prog_go; repeat (rolling_proxy; repeat first [progress prog_cbn | progress intros | prog_split]);
  try match goal with |- wp (rollingRestartRelease _ _ _) _ =>
    eapply wp_mono; [by apply (release_advances _ _ ur)|]; cbn beta end;
  intros; destruct_and?.
(** The leaves: the helpful surroundings leave only those that advance. *)
Ltac advance_leaf Hc Hp :=
  try match goal with Hx : _ ∨ Forall (later _ _) _ |- _ => destruct Hx as [Hx|Hx] end;
  helping;
  try match goal with Hx : pod_helps _ _ _ |- _ => rewrite Hp in Hx; unfold pod_helps in Hx end;
  first [ by repeat (apply advances_quiet; [reflexivity|]); auto
        | exfalso; rewrite ?orb_true_iff in *; bools; destruct_or?; destruct_and?; bools;
          repeat match goal with Hx : is_Some _ |- _ => destruct Hx end; congruence
        | exfalso; bools; unfold podRestartAllowance, proxyCallTimeout, Minute, Second in *; lia
        | exfalso; match goal with
            | He : exec (excludeFromAllProxies _ _ _ _) _ _ |- _ => by apply exclude_agreed in He
            | He : exec (includeFromAllProxies _ _ _ _) _ _ |- _ => by apply include_agreed in He
            end
        | advancing Hc ].

Lemma excluding_advances ctx c ur pn pp st :
  rolling c = Some st → rr_Phase st = RollingRestartExcluding →
  wp (rollingRestartExcluding ctx st pn ur pp requeue3s c) (λ t o, helped c ur (Some st) t → advances t o).
Proof.
  intros Hc Hp. unfold rollingRestartExcluding, helped. rewrite Hp. advance_go ur.
  all: advance_leaf Hc Hp.
Qed.

Lemma draining_advances c ur pn st :
  rolling c = Some st → rr_Phase st = RollingRestartDraining →
  wp (rollingRestartDraining st pn requeue3s c) (λ t o, helped c ur (Some st) t → advances t o).
Proof.
  intros Hc Hp. unfold rollingRestartDraining, helped. rewrite Hp. advance_go ur.
  all: advance_leaf Hc Hp.
Qed.

Lemma waiting_advances ctx c ur pn pp st :
  rolling c = Some st → rr_Phase st = RollingRestartWaitingReady →
  wp (rollingRestartWaitingReady ctx st pn ur pp requeue3s c) (λ t o, helped c ur (Some st) t → advances t o).
Proof.
  intros Hc Hp. unfold rollingRestartWaitingReady, helped. rewrite Hp. advance_go ur.
  all: advance_leaf Hc Hp.
Qed.

(** *** The pass around its phase *)

(** A pass over a rollout under way goes straight to its phase, unless nothing was done yet
    and no upgrade is under way any more. *)
Lemma underway_pass ctx sr n c st Q :
  rolling c = Some st → underway (Some st) →
  let sts_get := Get KStatefulSet (cl_Namespace c) (StatefulSetName c) in
  (∀ e, Q [@Entry Ev Ans sts_get (inl e)] (Done (c, inl e))) →
  (∀ sts, rolling_upgrade sts = false → not_started (Some st) = true →
          ∀ t o, Q (@Entry Ev Ans sts_get (inr sts) :: t) o) →
  (∀ sts, wp (rolling_phase ctx c st (sss_UpdateRevision (sts_Status sts)) c)
            (λ t o, Q (@Entry Ev Ans sts_get (inr sts) :: t) o)) →
  wp (reconcileRollingRestart ctx sr n c) Q.
Proof.
  intros Hc Hp sts_get Herr Hno Hok. unfold rolling in Hc.
  assert (rr_Phase st ≠ RollingRestartCompleted) as Hph.
  { intros Hx. unfold underway in Hp. rewrite Hx in Hp. set_solver. }
  unfold reconcileRollingRestart, tryClearCompletedRollingRestart, ensureRollingRestartState.
  prog_unfold. prog_cbn. intros [e|sts]; prog_cbn; [apply Herr|].
  rewrite Hc, andb_false_r. prog_cbn. rewrite Hc, bool_decide_eq_false_2 by done. cbn -[not_started].
  rewrite Hc. destruct (negb (rolling_upgrade sts) && not_started (Some st)) eqn:Hb.
  - bools. apply wp_exec. intros t o _. by apply Hno.
  - prog_cbn. rewrite Hc. prog_cbn. rewrite Hc. prog_cbn. apply Hok.
Qed.

Lemma phase_advances ctx c0 c ur st :
  rolling c = Some st → underway (Some st) →
  wp (rolling_phase ctx c0 st ur c) (λ t o, helped c ur (Some st) t → advances t o).
Proof.
  intros Hc Hp. unfold rolling_phase. destruct (rr_Phase st) eqn:Hph;
    try (exfalso; unfold underway in Hp; rewrite Hph in Hp; set_solver).
  - by apply excluding_advances.
  - by apply draining_advances.
  - by apply waiting_advances.
Qed.

Lemma helped_tail c ur st x t : helped c ur (Some st) (x :: t) → helped c ur (Some st) t.
Proof.
  unfold helped. intros [Hg Hr]. apply Forall_cons in Hg as [_ Hg]. split; [done|].
  destruct (rr_Phase st); [destruct Hr as [Hr|Hr]; apply Forall_cons in Hr as [_ Hr]; auto
    |by apply Forall_cons in Hr as [_ Hr]
    |destruct Hr as [Hr|Hr]; apply Forall_cons in Hr as [_ Hr]; auto..].
Qed.

Lemma pass_advances ctx sr n c ur st t o :
  rolling c = Some st → underway (Some st) →
  exec (reconcileRollingRestart ctx sr n c) t o → helped c ur (Some st) t → advances t o.
Proof.
  intros Hc Hp He. revert t o He.
  refine (proj1 (wp_exec _ (λ t o, helped c ur (Some st) t → advances t o)) _).
  apply (underway_pass ctx sr n c st); [done..| | |].
  - intros e [Hg _]. helping.
  - intros sts Hup Hns t o [[Hg _]%Forall_cons _]. exfalso. unfold granted in Hg. cbn in Hg.
    destruct Hg as (sts' & [= ->] & _ & Hup'). rewrite Hup' in Hup; [done|by right].
  - intros sts. apply wp_exec. intros t o He Hh. apply advances_quiet; [done|].
    pose proof (helped_tail _ _ _ _ _ Hh) as Ht. destruct Hh as [Hg _]. apply Forall_cons in Hg as [Hg _].
    destruct Hg as (sts' & Hs & Hur & _). cbn in Hs. injection Hs as <-. rewrite Hur in He.
    exact (proj1 (wp_exec _ _) (phase_advances ctx c c ur st Hc Hp) _ _ He Ht).
Qed.

(** The first pass of a rollout starts it and works on the highest ordinal. *)
Definition starts n t (o : outcome (HyperbytedbCluster * (GoErr + option Result))) : Prop :=
  ∃ now c' st' r, o = Done (c', inr (Some r)) ∧ (0 < res_RequeueAfter r)%Z ∧
    written t = [Some (new_rolling_state n now); Some st'] ∧
    (underway (Some st') ∨ rr_Phase st' = RollingRestartCompleted).

Lemma granted_new ur n now x : granted ur None x → granted ur (Some (new_rolling_state n now)) x.
Proof.
  unfold granted. destruct x as [[| | |k ? ?| | | | | | | |] a]; cbn; try done. destruct k; cbn; try done.
  intros (sts & -> & Hu & Hup). exists sts. auto.
Qed.

Lemma first_pass_starts ctx sr n c ur t o :
  rolling c = None → honest t →
  exec (reconcileRollingRestart ctx sr n c) t o → helped c ur None t → starts n t o.
Proof.
  intros Hc Hh He. revert t o He Hh. unfold rolling in Hc.
  refine (proj1 (wp_exec _ (λ t o, honest t → helped c ur None t → starts n t o)) _).
  unfold reconcileRollingRestart, tryClearCompletedRollingRestart, ensureRollingRestartState,
    start_rolling, StatusUpdateCluster, modify_status. prog_unfold. prog_cbn.
  intros [e|sts]; prog_cbn; [intros _ [Hg _]; helping|].
  rewrite Hc. destruct (rolling_upgrade sts) eqn:Hup; cbn -[not_started].
  2: { intros _ [Hg _]. apply Forall_cons in Hg as [(sts' & [= <-] & _ & Hx) _].
       cbn in Hx. rewrite Hx in Hup; [done|by left]. }
  rewrite Hc. cbn -[not_started]. rewrite Hc. cbn -[rolling_phase new_rolling_state].
  intros now [e|c1]; cbn -[rolling_phase new_rolling_state].
  { intros _ [Hg _]. helping. }
  destruct (st_RollingRestart (cl_Status c1)) as [st|] eqn:Hc1; cbn -[rolling_phase new_rolling_state].
  2: { intros now2 [e|c2]; cbn -[rolling_phase new_rolling_state]; [|apply wp_exec; intros t o _];
       intros Hh; exfalso; unfold honest in Hh; rewrite !Forall_cons in Hh;
       destruct Hh as (_ & _ & [Hr _] & _); cbn in Hr; unfold rolling in Hr; by rewrite Hc1 in Hr. }
  apply wp_exec. intros t o He Hh Hp.
  apply honest_cons in Hh as [_ Hh]. apply honest_cons in Hh as [_ Hh]. apply honest_cons in Hh as [[Hr _] Hh].
  cbn in Hr. unfold rolling in Hr. rewrite Hc1 in Hr. cbn -[new_rolling_state] in Hr. injection Hr as ->.
  destruct Hp as [Hg Ha]. apply Forall_cons in Hg as [(sts' & Hs & Hur & _) Hg]. cbn in Hs. injection Hs as <-.
  apply Forall_cons in Hg as [_ Hg]. apply Forall_cons in Hg as [_ Hg].
  apply Forall_cons in Ha as [_ Ha]. apply Forall_cons in Ha as [_ Ha]. apply Forall_cons in Ha as [_ Ha].
  rewrite Hur in He.
  destruct (proj1 (wp_exec _ _) (phase_advances ctx c c1 ur (new_rolling_state n now) Hc1
    ltac:(unfold underway; cbn; set_solver)) _ _ He) as (c' & st' & r & Ho & Hr & Hw & Hu).
  { split; [|by left]. eapply Forall_impl; [exact Hg|]. intros x. apply granted_new. }
  exists now, c', st', r. split; [done|]. split; [done|]. split; [|done].
  unfold written in *. cbn -[new_rolling_state]. by rewrite Hw.
Qed.

(** ** Pass after pass *)

(** What a pass started from, the calls it made, and how it ended. *)
Record RolloutPass := mkRolloutPass {
  rp_ctx : Ctx;
  rp_sts : stsReconcileResult;
  rp_read : HyperbytedbCluster;
  rp_calls : list (entry Ans);
  rp_end : outcome (HyperbytedbCluster * (GoErr + option Result)) }.

Definition state_after (w : RolloutPass) : option RollingRestartState :=
  default (rolling (rp_read w)) (last (written (rp_calls w))).

Definition helped_pass n (w : RolloutPass) : Prop :=
  exec (reconcileRollingRestart (rp_ctx w) (rp_sts w) n (rp_read w)) (rp_calls w) (rp_end w) ∧
  honest (rp_calls w) ∧ ∃ ur, helped (rp_read w) ur (rolling (rp_read w)) (rp_calls w).

(** Each pass reads the state the one before it left. *)
Fixpoint helped_passes n (s : option RollingRestartState) (l : list RolloutPass) : Prop :=
  match l with
  | [] => True
  | w :: l => rolling (rp_read w) = s ∧ helped_pass n w ∧ helped_passes n (state_after w) l
  end.

(** The pass ends without an error, asking to be called again. *)
Definition calls_again (w : RolloutPass) : Prop :=
  ∃ c' r, rp_end w = Done (c', inr (Some r)) ∧ (0 < res_RequeueAfter r)%Z.

(** The passes a rollout in state [s] needs at most. *)
Definition passes_left n (s : option RollingRestartState) : Z :=
  match s with None => 3 * n | Some _ => rolling_measure s end.

Lemma passes_left_pos n s : (1 <= n)%Z → rolling_inv n s → underway s → (1 <= passes_left n s)%Z.
Proof.
  intros Hn Hinv Hu. destruct s as [st|]; [|cbn -[Z.mul]; lia]. destruct Hinv as [Ho _].
  unfold underway in Hu. cbn -[Z.mul]. destruct (rr_Phase st); try lia; set_solver.
Qed.

Lemma helped_pass_goes n w :
  (1 <= n)%Z → in_int32 n → rolling_inv n (rolling (rp_read w)) → underway (rolling (rp_read w)) →
  helped_pass n w →
  calls_again w ∧ ∃ st, state_after w = Some st ∧ rolling_inv n (Some st) ∧
    (underway (Some st) ∨ rr_Phase st = RollingRestartCompleted) ∧
    (0 <= passes_left n (Some st) < passes_left n (rolling (rp_read w)))%Z.
Proof.
  intros Hn Hi Hinv Hu (He & Hh & ur & Hp). unfold state_after, calls_again.
  assert (chain (rr_step n) (rolling (rp_read w)) (written (rp_calls w))) as Hch.
  { refine (proj1 (wp_exec _ _) (pass_steps _ _ n _ Hi _) _ _ He Hh). by apply (rolling_inv_int32 n). }
  destruct (rolling (rp_read w)) as [st0|] eqn:Hc.
  - destruct (pass_advances _ _ _ _ _ _ _ _ Hc Hu He Hp) as (c' & st' & r & Ho & Hr & Hw & Hu').
    rewrite Hw in *. destruct Hch as [Hst _].
    pose proof (rolling_inv_step n Hn Hi _ _ Hst Hinv) as Hinv'.
    split; [by exists c', r|]. exists st'. split; [done|]. split; [done|]. split; [done|].
    by apply (measure_step n _ _ Hst Hinv).
  - destruct (first_pass_starts _ _ _ _ _ _ _ Hc Hh He Hp) as (now & c' & st' & r & Ho & Hr & Hw & Hu').
    rewrite Hw in *. destruct Hch as (H0 & Hst & _).
    pose proof (rolling_inv_step n Hn Hi _ _ H0 Hinv) as Hinv0.
    pose proof (rolling_inv_step n Hn Hi _ _ Hst Hinv0) as Hinv'.
    split; [by exists c', r|]. exists st'. split; [done|]. split; [done|]. split; [done|].
    pose proof (measure_step n _ _ Hst Hinv0 ltac:(by eexists) ltac:(by eexists)) as Hm.
    assert (rolling_measure (Some (new_rolling_state n now)) = 3 * n)%Z as Hnew; [|unfold passes_left; lia].
    pose proof (new_rolling_ordinal n Hn Hi now) as Ho'. cbn -[Z.mul] in *. lia.
Qed.

(** C6: a rolling restart that is helped gets done.  From no rollout, with an upgrade of
    [n] pods under way, or from any state of one, every sequence of passes that is long
    enough - [3 n] from the start, three for every ordinal and what is left of the current
    one otherwise - completes it, provided that in each pass the API server refuses
    nothing, the pod to be excluded has an address (or is gone, or replaced already), its
    replacement is up when it is waited for, the drain time is over when a draining pass
    looks, and the proxies agree or have had their time.  No pass before ends in an error
    or lets go of the rollout: each asks to be called again; and with the restart Completed
    the partition is 0, so the StatefulSet holds no pod back. *)
Theorem rolling_restart_completes n s l :
  (1 <= n)%Z → in_int32 n → rolling_inv n s → underway s →
  helped_passes n s l → (passes_left n s <= Z.of_nat (length l))%Z →
  ∃ before w after st,
    l = (before ++ w :: after)%list ∧ Forall calls_again (before ++ [w]) ∧
    (Z.of_nat (length (before ++ [w])) <= passes_left n s)%Z ∧
    state_after w = Some st ∧ rr_Phase st = RollingRestartCompleted ∧
    rollout_partition (Some st) n = 0%Z.
Proof.
  intros Hn Hi. revert s. induction l as [|w l IH]; intros s Hinv Hu Hl Hlen;
    pose proof (passes_left_pos n s Hn Hinv Hu) as Hpos; [cbn in Hlen; lia|].
  destruct Hl as (<- & Hw & Hl).
  destruct (helped_pass_goes n w Hn Hi Hinv Hu Hw) as (Hagain & st & Hst & Hinv' & Hor & Hm).
  destruct (decide (rr_Phase st = RollingRestartCompleted)) as [Hcomp|Hcomp].
  { exists [], w, l, st. cbn [app length]. rewrite Forall_singleton.
    split; [done|]. split; [done|]. split; [lia|]. split; [done|]. split; [done|]. cbn. by rewrite Hcomp. }
  destruct Hor as [Hu'|]; [|done]. rewrite Hst in Hl. cbn [length] in Hlen.
  destruct (IH (Some st) Hinv' Hu' Hl) as (before & w' & after & st' & -> & Hb & Hk & Hrest); [lia|].
  exists (w :: before), w', after, st'. split; [done|]. cbn [app]. rewrite Forall_cons. cbn [length].
  split; [done|]. split; [lia|done].
Qed.
End Liveness.

(** ** Witness *)

Definition pod_helps_b (ur : string) (p : RollingRestartPhase) (a : GoErr + Pod) : bool :=
  match p, a with
  | RollingRestartWaitingReady, inr pod =>
      isPodReady pod && bool_decide (om_DeletionTimestamp (pod_Meta pod) = None)
        && negb (String.eqb (pod_IP pod) "") && pod_on_revision pod ur
  | RollingRestartWaitingReady, inl _ => false
  | _, inr pod => pod_on_revision pod ur || negb (String.eqb (pod_IP pod) "")
  | _, inl e => IsNotFound e
  end.
Definition granted_b (ur : string) (s : option RollingRestartState) (x : entry Ans) : bool :=
  match entry_ev x as e return Ans e → bool with
  | Get k _ _ =>
      match k return GoErr + obj k → bool with
      | KStatefulSet => λ a,
          match a with
          | inr sts => String.eqb (sss_UpdateRevision (sts_Status sts)) ur && rolling_upgrade sts
          | inl _ => false
          end
      | KPod => pod_helps_b ur (from_option rr_Phase RollingRestartExcluding s)
      | _ => λ _, true
      end
  | StatusUpdate k _ => found_b
  | PatchSts _ _ => found_b
  | _ => λ _, true
  end (entry_ans x).
Definition agreed_b (x : entry Ans) : bool :=
  match entry_ev x as e return Ans e → bool with
  | ListPods _ _ => found_b
  | Http _ => λ a, match a with inr resp => Z.eqb (rsp_Code resp) StatusOK | inl _ => false end
  | _ => λ _, true
  end (entry_ans x).
Definition later_b (d : Z) (t0 : Time) (x : entry Ans) : bool :=
  match entry_ev x as e return Ans e → bool with
  | Now => λ now, Z.leb d (Sub now t0)
  | _ => λ _, true
  end (entry_ans x).
Definition helped_b (c : HyperbytedbCluster) (ur : string) (s : option RollingRestartState)
    (t : list (entry Ans)) : bool :=
  forallb (granted_b ur s) t &&
  match s with
  | Some (mkRR _ _ RollingRestartDraining t0 _ _) => forallb (later_b (drain_wait c) t0) t
  | _ => forallb agreed_b t
  end.

Lemma pod_helps_sound ur p a : pod_helps_b ur p a = true → pod_helps ur p a.
Proof.
  destruct p, a; cbn; try done; rewrite ?orb_true_iff, ?andb_true_iff; intros; destruct_and?; destruct_or?; bools; auto.
Qed.
Lemma rollout_granted_sound ur s x : granted_b ur s x = true → granted ur s x.
Proof.
  destruct x as [[| | |k ? ?| | | | | | | |] a]; unfold granted, granted_b; cbn; try done;
    try (by destruct a).
  destruct k; cbn; try done; [apply pod_helps_sound|]. destruct a as [|sts]; [done|]. intros Ha. bools.
  by exists sts.
Qed.
Lemma agreed_sound x : agreed_b x = true → agreed x.
Proof.
  destruct x as [[| | | | | | | | | | |] a]; unfold agreed, agreed_b; cbn; try done; destruct a as [|resp]; try done.
  intros Ha%Z.eqb_eq. by exists resp.
Qed.
Lemma later_sound d t0 x : later_b d t0 x = true → later d t0 x.
Proof. destruct x as [[] a]; unfold later, later_b; cbn; try done. apply Z.leb_le. Qed.
Lemma helped_sound c ur s t : helped_b c ur s t = true → helped c ur s t.
Proof.
  unfold helped_b, helped. intros [Hg Hs]%andb_true_iff.
  split; [exact (forallb_sound _ _ _ (rollout_granted_sound ur s) Hg)|].
  destruct s as [[o n [] t0 ip ok]|]; cbn; try left; try (exact (forallb_sound _ _ _ agreed_sound Hs)).
  exact (forallb_sound _ _ _ (later_sound _ _) Hs).
Qed.

(** A pass over a two-pod cluster in state [s], at the time [now]. *)
Definition demo_rollout_pass (s : option RollingRestartState) (pod : option Pod) (now : Time) : RolloutPass :=
  let p := reconcileRollingRestart "" (mkStsResult 2 2 2 false) 2 (demo_cluster 2 s) in
  let w := demo_world (demo_sts 2 2) pod now 200 in
  mkRolloutPass "" (mkStsResult 2 2 2 false) (demo_cluster 2 s) (trace_of w p) (result_of w p).

(** A pass for every entry, each over the state the one before left. *)
Fixpoint demo_rollout (s : option RollingRestartState) (l : list (option Pod * Time)) : list RolloutPass :=
  match l with
  | [] => []
  | (pod, now) :: l =>
      let w := demo_rollout_pass s pod now in w :: demo_rollout (state_after w) l
  end.

Lemma demo_rollout_helped s l :
  forallb (λ w, helped_b (rp_read w) "new" (rolling (rp_read w)) (rp_calls w)) (demo_rollout s l) = true →
  helped_passes 2 s (demo_rollout s l).
Proof.
  revert s. induction l as [|[pod now] l IH]; intros s; [done|]. cbn -[helped_b demo_rollout_pass].
  rewrite andb_true_iff. intros [Hw Hl]. split; [done|]. split; [|by apply IH].
  split; [apply world_exec|]. split; [apply world_honest|]. exists "new". by apply helped_sound.
Qed.

(** Two pods, six passes six seconds apart. *)
Definition two_pods : list (option Pod * Time) :=
  [(old_pod, 6 * Second); (old_pod, 12 * Second); (new_pod, 18 * Second);
   (old_pod, 24 * Second); (old_pod, 30 * Second); (new_pod, 36 * Second)]%Z.

Lemma rolling_restart_completes_witness :
  let l := demo_rollout None two_pods in
  length l = 6 ∧
  ∃ before w after st,
    l = (before ++ w :: after)%list ∧ Forall calls_again (before ++ [w]) ∧
    (Z.of_nat (length (before ++ [w])) <= 3 * 2)%Z ∧
    state_after w = Some st ∧ rr_Phase st = RollingRestartCompleted ∧
    rollout_partition (Some st) 2 = 0%Z.
Proof.
  cbv zeta. split; [reflexivity|].
  apply (rolling_restart_completes 2 None (demo_rollout None two_pods));
    [lia|unfold in_int32; lia|done|done| |cbn; lia].
  apply demo_rollout_helped. vm_compute. reflexivity.
Defined.
