(* ===== verification/ReconcileTheorems.v ===== *)
(** A pass over a cluster: the properties of [Reconcile]. *)

From S2P Require Import Prelude GoStrings Messages Lib ApiTypes Image Compat Config K8s StatefulSet Prog Go Client Proxy Auth Controller RollingRestart Resources ScaleDown ScaleDownProofs Members Reconcile ReconcileProofs Demo.
#[local] Open Scope string_scope.

Section Pass.
Context `{Lib, !LibLaws _}.
Implicit Types (c : HyperbytedbCluster) (ctx : Ctx) (t u v : list (entry Ans)).

(** The cluster [c] is, up to its status, what the API server answered to the read
    that starts the pass or to a write of it. *)
Definition served ns name u c : Prop :=
  ∃ c0 st, c = with_status c0 st ∧
    (@Entry Ev Ans (Get KCluster ns name) (inr c0) ∈ u ∨
     ∃ c1, @Entry Ev Ans (Update KCluster c1) (inr c0) ∈ u).

(** Every call of a pass before and during the step that writes the StatefulSet. *)
Lemma sts_write_split ctx ns name t o u x v :
  exec (Reconcile ctx ns name) t o → t = (u ++ x :: v)%list → sts_write (entry_ev x) = true →
  ∃ c0 c ctx' prev u1 u2 u3 v3 o3,
    u = (@Entry Ev Ans (Get KCluster ns name) (inr c0) :: u1 ++ u2 ++ u3)%list ∧
    exec (prepare ctx c0) u1 (Done (c, inr (ctx', prev, spec_replicas c, ConfigHash c))) ∧
    exec (runScaleDownClusterHooks ctx' c prev (spec_replicas c)) u2 (Done true) ∧
    exec (reconcileStatefulSet c (ConfigHash c)) (u3 ++ x :: v3)%list o3.
Proof.
  intros He Ht Hx. destruct He as (r & t1 & -> & He).
  destruct u as [|y u]; simplify_eq/=.
  destruct r as [e|c0].
  { destruct (IsNotFound e); destruct He as [He _]; by destruct u. }
  assert (∃ o', exec (reconcile_cluster ctx c0) (u ++ x :: v) o') as [o1 Hr].
  { apply exec_bind in He as [(t2 & t3 & a & Ht & Hr & [-> _])|[Hr _]]; [|by eexists].
    rewrite app_nil_r in Ht. rewrite Ht. by eexists. }
  clear He. unfold reconcile_cluster, reconcile_steps in Hr.
  apply exec_bind in Hr as [(t2 & t3 & r & Ht & Hr & [-> _])|[Hr _]];
    [rewrite app_nil_r in Ht; rewrite <- Ht in Hr|];
    (eapply skip_step in Hr as (u1 & w & c & [[[ctx' prev] n] h] & -> & Hp & Hr);
      [|apply prepare_writes|done..]);
    (eapply skip_step in Hr as (u2 & w2 & c' & [] & -> & [-> Hg]%scale_down_step_ok & Hr);
      [|apply scale_down_step_writes|done..]);
    (eapply keep_step in Hr as (v3 & o3 & Hr); [|intros; apply converge_writes|done..]).
  all: destruct (prepare_ok _ _ _ _ _ _ _ _ Hp) as (_ & -> & -> & _);
    destruct (statefulset_step_write _ _ _ _ _ _ Hr Hx) as (w & o4 & Hs);
    exists c0, c, ctx', prev, u1, u2, w2, w, o4; done.
Qed.

Lemma desired_replicas c h : sts_Replicas (desired_sts c h) = Some (spec_replicas c).
Proof. unfold desired_sts. by destruct (ProxyEnabled c). Qed.

Definition update_replicas (e : Ev) : option (option Z) :=
  match e with
  | Update k o =>
      match k return obj k → option (option Z) with
      | KStatefulSet => λ s, Some (sts_Replicas s)
      | _ => λ _, None
      end o
  | _ => None
  end.

Lemma adopted_served ns name c0 u c :
  adopted c0 u c → served ns name (@Entry Ev Ans (Get KCluster ns name) (inr c0) :: u) c.
Proof.
  intros [((st & ->) & _)|(c1 & Hc & _)].
  - exists c0, st. split; [done|]. left. left.
  - exists c, (cl_Status c). split; [by destruct c|]. right. exists c1. by right.
Qed.

(** C1: a pass that writes a StatefulSet with fewer replicas than it found makes
    that write only after it asked every departing node and heard that it is gone or
    has moved all its regions away, and after every one of them was removed from the
    Raft voters.  Nothing else in the pass creates, replaces or deletes the
    StatefulSet before. *)
Theorem no_shrink_before_evacuation ctx ns name t o u s a v :
  exec (Reconcile ctx ns name) t o →
  t = (u ++ @Entry Ev Ans (Update KStatefulSet s) a :: v)%list →
  ∃ c ctx' prev,
    served ns name u c ∧ replicas_read c u prev ∧ sts_Replicas s = Some (spec_replicas c) ∧
    no_sts_write u ∧
    ∀ i, (0 <= i)%Z → (spec_replicas c <= i < prev)%Z →
      (∃ n, observed ctx' c u i n ∧ (dn_reachable n = false ∨ dn_state n = nodeStateLeaving)) ∧
      voter_removed ctx' (host_map c prev) (ServerPort c) u (uint64 (i + 1)).
Proof.
  intros He Ht.
  destruct (sts_write_split _ _ _ _ _ _ _ _ He Ht eq_refl)
    as (c0 & c & ctx' & prev & u1 & u2 & u3 & v3 & o3 & -> & Hp & Hg & Hs).
  exists c, ctx', prev. destruct (prepare_ok _ _ _ _ _ _ _ _ Hp) as (Ha & _ & _ & Hr & _).
  destruct (reconcileStatefulSet_write _ _ _ _ _ _ Hs eq_refl)
    as [Hu3 [?|(s0 & _ & [[Hu _]|[? _]])]]; [done| |done].
  assert (sts_Replicas s = Some (spec_replicas c)) as Hrep.
  { apply (f_equal update_replicas) in Hu.
    change (Some (sts_Replicas s) = Some (sts_Replicas (desired_sts c (ConfigHash c)))) in Hu. rewrite desired_replicas in Hu. congruence. }
  set (u0 := _ :: _). assert (u1 ⊆ u0 ∧ u2 ⊆ u0) as [Hs1 Hs2] by set_solver.
  split_and!; [|exact (replicas_read_mono _ _ _ _ Hs1 Hr)|done| |].
  - apply (adopted_served _ _ c0). eapply adopted_mono; [|done]. set_solver.
  - apply Forall_cons. split; [done|]. apply Forall_app. split; [|apply Forall_app; split; [|done]].
    + by apply (emits_exec _ _ _ _ (emits_spares prepare_kinds _ eq_refl (prepare_writes ctx c0)) Hp).
    + by apply (emits_exec _ _ _ _ (emits_spares [] _ eq_refl (hooks_writes _ _ _ _)) Hg).
  - intros i H0 Hi. destruct (hooks_gate _ _ _ _ _ Hg i H0 Hi) as [(n & Ho & Hn) Hv]. split.
    + exists n. split; [by eapply observed_mono|done].
    + by eapply voter_removed_mono.
Qed.

(** The cluster carried the finalizer when it was read, or was written with it. *)
Definition finalized ns name u : Prop :=
  ∃ c, has_finalizer c ∧
    (@Entry Ev Ans (Get KCluster ns name) (inr c) ∈ u ∨
     ∃ a, @Entry Ev Ans (Update KCluster c) (inr a) ∈ u).

Definition written_template (e : Ev) : option PodTemplate :=
  match e with
  | Create k o | Update k o =>
      match k return obj k → option PodTemplate with
      | KStatefulSet => λ s, Some (sts_Template s)
      | _ => λ _, None
      end o
  | _ => None
  end.

Lemma desired_template c h : h ≠ "" →
  pt_Annotations (sts_Template (desired_sts c h)) !! ConfigHashAnnotation = Some h.
Proof.
  intros Hh. unfold desired_sts, BuildStatefulSet, pod_template, sts_with_rolling.
  destruct (ProxyEnabled c); simpl; rewrite (proj2 (String.eqb_neq _ _) Hh); apply lookup_insert_eq.
Qed.

(** C8: whatever a pass does to the StatefulSet - create it, replace it, delete it
    to change its pod management - it does after the finalizer is on the cluster and
    after the ConfigMap is known to hold the configuration rendered from the same
    cluster object; the pod template it writes carries the hash of that
    configuration. *)
Theorem config_before_rollout ctx ns name t o u x v :
  exec (Reconcile ctx ns name) t o → t = (u ++ x :: v)%list →
  sts_write (entry_ev x) = true →
  ∃ c, served ns name u c ∧ finalized ns name u ∧ config_current c u ∧
    sts_intent c (ConfigHash c) u (entry_ev x) ∧
    ∀ tpl, written_template (entry_ev x) = Some tpl →
      pt_Annotations tpl !! ConfigHashAnnotation = Some (ConfigHash c).
Proof.
  intros He Ht Hx.
  destruct (sts_write_split _ _ _ _ _ _ _ _ He Ht Hx)
    as (c0 & c & ctx' & prev & u1 & u2 & u3 & v3 & o3 & -> & Hp & _ & Hs).
  destruct (prepare_ok _ _ _ _ _ _ _ _ Hp) as (Ha & _ & _ & _ & Hc).
  destruct (reconcileStatefulSet_write _ _ _ _ _ _ Hs Hx) as [_ Hi].
  exists c. split; [apply (adopted_served _ _ c0); eapply adopted_mono; [|done]; set_solver|].
  split; [|split; [eapply config_current_mono; [|done]; set_solver|split]].
  - destruct Ha as [(_ & Hf)|(c1 & Hin & Hf)]; eexists; (split; [exact Hf|]); [left; left|right].
    exists c. set_solver.
  - destruct Hi as [Hi|(s & Hin & Hi)]; [by left|right]. exists s. split; [set_solver|done].
  - intros tpl Htpl. pose proof (desired_template c (ConfigHash c) (ConfigHash_nonempty c)) as Hd.
    destruct Hi as [Hi|(s & _ & [[Hi _]|[Hi _]])]; rewrite Hi in Htpl; simpl in Htpl; by simplify_eq.
Qed.

(** The answer to a read of the cluster. *)
Definition cluster_answer (x : entry Ans) : option (GoErr + HyperbytedbCluster) :=
  match entry_ev x as e return Ans e → option (GoErr + HyperbytedbCluster) with
  | Get k _ _ =>
      match k return GoErr + obj k → option (GoErr + HyperbytedbCluster) with
      | KCluster => Some
      | _ => λ _, None
      end
  | _ => λ _, None
  end (entry_ans x).

(** What a pass does once the cluster is read. *)
Lemma Reconcile_read ctx ns name c t o :
  exec (Reconcile ctx ns name) (@Entry Ev Ans (Get KCluster ns name) (inr c) :: t) o →
  (∃ c' fin, exec (reconcile_cluster ctx c) t (Done (c', fin)) ∧ o = Done fin) ∨
  (exec (reconcile_cluster ctx c) t Panic ∧ o = Panic).
Proof.
  intros (r & t' & Ht & He). pose proof (f_equal head Ht) as Hh.
  assert (t' = t) as -> by (by apply (f_equal tail) in Ht).
  apply (f_equal (mbind cluster_answer)) in Hh. simpl in Hh. simplify_eq.
  change (exec (Prog.bind (reconcile_cluster ctx c) (λ res, Prog.Ret res.2)) t o) in He.
  apply exec_bind in He as [(t1 & t2 & [c' fin] & -> & Hr & [-> ->])|[Hr ->]]; [left|by right].
  exists c', fin. by rewrite app_nil_r.
Qed.

Definition condition_status c (ty : string) : option ConditionStatus :=
  cond_Status <$> find_condition (st_Conditions (cl_Status c)) ty.

(** A pass over a paused cluster writes its status - with the condition Paused -
    and nothing else, whether or not the cluster is being deleted. *)
Theorem paused_pass ctx ns name c t o :
  sp_Paused (cl_Spec c) = true →
  exec (Reconcile ctx ns name) (@Entry Ev Ans (Get KCluster ns name) (inr c) :: t) o →
  ∃ now w r,
    t = [@Entry Ev Ans Now now; @Entry Ev Ans (StatusUpdate KCluster w) r] ∧
    cl_Meta w = cl_Meta c ∧ cl_Spec w = cl_Spec c ∧
    condition_status w "Paused" = Some ConditionTrue ∧ o = Done (no_requeue, None).
Proof.
  intros Hp He. 
  assert (wp (reconcile_cluster ctx c) (λ t o, ∃ now w r c',
    t = [@Entry Ev Ans Now now; @Entry Ev Ans (StatusUpdate KCluster w) r] ∧
    cl_Meta w = cl_Meta c ∧ cl_Spec w = cl_Spec c ∧
    condition_status w "Paused" = Some ConditionTrue ∧ o = Done (c', (no_requeue, None)))) as Hwp.
  { unfold reconcile_cluster, reconcile_steps, prepare, rbind, pause_check, set_cluster_condition, modify_status,
      StatusUpdateCluster. prog_unfold. cbn [Prog.bind fst snd]. rewrite Hp. cbn.
    intros now [e|c'] ; cbn; repeat eexists; apply condition_status_set. }
  destruct (Reconcile_read _ _ _ _ _ _ He) as [(c' & fin & Hr & ->)|[Hr ->]];
    destruct (proj1 (wp_exec _ _) Hwp _ _ Hr) as (now & w & r & c1 & -> & ? & ? & ? & Ho);
    simplify_eq.
  by exists now, w, r.
Qed.

(** A pass over a cluster being deleted (and not paused) touches none of its
    resources: it takes the finalizer off when it is there, and otherwise makes no
    call at all. *)
Theorem deletion_pass ctx ns name c t o :
  sp_Paused (cl_Spec c) = false → is_Some (om_DeletionTimestamp (cl_Meta c)) →
  exec (Reconcile ctx ns name) (@Entry Ev Ans (Get KCluster ns name) (inr c) :: t) o →
  (has_finalizer c → ∃ w r,
     t = [@Entry Ev Ans (Event EventTypeNormal "Deleting" "Cleaning up cluster resources") tt;
          @Entry Ev Ans (Update KCluster w) r] ∧
     ¬ has_finalizer w ∧ cl_Spec w = cl_Spec c ∧
     o = Done (no_requeue, match r with inl e => Some e | inr _ => None end)) ∧
  (¬ has_finalizer c → t = [] ∧ o = Done (no_requeue, None)).
Proof.
  intros Hp [ts Hd] He.
  assert (wp (reconcile_cluster ctx c) (λ t o, ∃ c',
    (has_finalizer c → ∃ w r,
       t = [@Entry Ev Ans (Event EventTypeNormal "Deleting" "Cleaning up cluster resources") tt;
            @Entry Ev Ans (Update KCluster w) r] ∧
       ¬ has_finalizer w ∧ cl_Spec w = cl_Spec c ∧
       o = Done (c', (no_requeue, match r with inl e => Some e | inr _ => None end))) ∧
    (¬ has_finalizer c → t = [] ∧ o = Done (c', (no_requeue, None))))) as Hwp.
  { unfold reconcile_cluster, reconcile_steps, prepare, rbind, pause_check, deletion, modify_status. prog_unfold.
    cbn [Prog.bind fst snd]. rewrite Hp. cbn [Prog.bind fst snd cl_Meta with_status].
    rewrite Hd. unfold has_finalizer. destruct (ContainsFinalizer _ _) eqn:Hf.
    - unfold record_event, modify_finalizers, rbind, or_return, UpdateCluster. prog_unfold. cbn.
      intros [] [e|c']; cbn; eexists; (split; [intros _|done]); repeat eexists;
        simpl; rewrite finalizer_removed; done.
    - cbn. eexists. by split. }
  destruct (Reconcile_read _ _ _ _ _ _ He) as [(c' & fin & Hr & ->)|[Hr ->]];
    destruct (proj1 (wp_exec _ _) Hwp _ _ Hr) as (c1 & Hin & Hout).
  - split; intros Hf; [destruct (Hin Hf) as (w & r & -> & ? & ? & Ho)|destruct (Hout Hf) as [-> Ho]];
      simplify_eq; [by exists w, r|done].
  - destruct (ContainsFinalizer (om_Finalizers (cl_Meta c)) clusterFinalizer) eqn:Hf.
    + by destruct (Hin Hf) as (w & r & _ & _ & _ & ?).
    + destruct (Hout ltac:(unfold has_finalizer; congruence)) as [_ ?]. done.
Qed.


(** The phase of a cluster whose StatefulSet is as [sts] says. *)
Definition phase_of (p : ClusterPhase) (sts : stsReconcileResult) (upgrade : bool) : ClusterPhase :=
  if bool_decide (srr_ReadyReplicas sts = srr_SpecReplicas sts ∧ (0 < srr_SpecReplicas sts)%Z)
  then ClusterPhaseRunning
  else match p with
       | ClusterPhaseFailed => ClusterPhaseFailed
       | ClusterPhaseScaling => ClusterPhaseScaling
       | _ => if upgrade then ClusterPhaseUpgrading else ClusterPhaseInitializing
       end.

(** The status written at the end of a pass: Running and Available exactly when
    every replica of a nonempty StatefulSet is ready; otherwise Failed and Scaling
    stay, and any other phase becomes Upgrading while the revisions differ and
    Initializing when they do not.  The counts and the configuration hash are those
    of the pass. *)
Theorem updateStatus_correct sts h c t o :
  exec (updateStatus sts h c) t o →
  ∃ r now w a,
    t = [@Entry Ev Ans (Get KStatefulSet (cl_Namespace c) (StatefulSetName c)) r;
         @Entry Ev Ans Now now; @Entry Ev Ans (StatusUpdate KCluster w) a] ∧
    cl_Spec w = cl_Spec c ∧
    st_Phase (cl_Status w) =
      phase_of (st_Phase (cl_Status c)) sts (match r with inr s => rolling_upgrade s | inl _ => false end) ∧
    st_Replicas (cl_Status w) = srr_SpecReplicas sts ∧
    st_ReadyReplicas (cl_Status w) = srr_ReadyReplicas sts ∧
    st_ConfigHash (cl_Status w) = h ∧
    (condition_status w "Available" = Some ConditionTrue ↔
     st_Phase (cl_Status w) = ClusterPhaseRunning) ∧
    o ≠ Panic.
Proof.
  intros He. revert t o He. apply wp_exec.
  unfold updateStatus, upgrading, on_cluster, modify_status, set_cluster_condition,
    StatusUpdateCluster. prog_unfold. cbn [Prog.bind fst snd wp]. intros r.
  assert ((Z.eqb (srr_ReadyReplicas sts) (srr_SpecReplicas sts)
     && bool_decide (0 < srr_SpecReplicas sts)%Z) =
    bool_decide (srr_ReadyReplicas sts = srr_SpecReplicas sts ∧ (0 < srr_SpecReplicas sts)%Z)) as ->.
  { apply eq_true_iff_eq. rewrite andb_true_iff, Z.eqb_eq, !bool_decide_eq_true. done. }
  unfold phase_of, condition_status. destruct (bool_decide _); cbn; intros now [e|c']; cbn.
  all: eexists r, now, _, _; split; [done|]; cbn; split_and!; try done.
  1-2: pose proof (condition_status_set now (st_Conditions (cl_Status c))
         (available_condition ConditionTrue "AllReplicasReady" sts now)) as Hs; split; done.
  all: pose proof (condition_status_set now (st_Conditions (cl_Status c))
         (available_condition ConditionFalse "ReplicasNotReady" sts now)) as Hs; split; intros Hx;
    [ assert (Some ConditionFalse = Some ConditionTrue) by (etransitivity; [symmetry; exact Hs|exact Hx]);
      done
    | destruct (st_Phase (cl_Status c)); simpl in Hx; try done;
      by destruct r as [?|s]; [|destruct (rolling_upgrade s)] ].
Qed.
End Pass.

(** ** Witnesses *)

(** The parts of a trace around its first write of the StatefulSet. *)
Fixpoint around_sts_write (t : list (entry Ans))
    : option (list (entry Ans) * entry Ans * list (entry Ans)) :=
  match t with
  | [] => None
  | x :: t' =>
      if sts_write (entry_ev x) then Some ([], x, t')
      else (λ r, (x :: r.1.1, r.1.2, r.2)) <$> around_sts_write t'
  end.

Lemma around_split t u x v :
  around_sts_write t = Some (u, x, v) →
  t = (u ++ x :: v)%list ∧ sts_write (entry_ev x) = true.
Proof.
  revert u. induction t as [|y t IH]; intros u Ht; simplify_eq/=.
  destruct (sts_write (entry_ev y)) eqn:Hy; [by simplify_eq|].
  destruct (around_sts_write t) as [[[u' x'] v']|]; simplify_eq/=.
  destruct (IH _ eq_refl) as [-> ?]. done.
Qed.

Definition is_sts_update (e : Ev) : bool :=
  match e with Update KStatefulSet _ => true | _ => false end.
Lemma sts_update_shape (x : entry Ans) :
  is_sts_update (entry_ev x) = true → ∃ s a, x = @Entry Ev Ans (Update KStatefulSet s) a.
Proof. destruct x as [e a]. destruct e; try done. destruct k; try done. by exists o, a. Qed.

(** The first write of the StatefulSet is [f]. *)
Definition first_write (f : Ev → bool) (t : list (entry Ans)) : bool :=
  match around_sts_write t with Some r => f (entry_ev r.1.2) | None => false end.

Lemma first_write_split f t :
  first_write f t = true → ∃ u x v, t = (u ++ x :: v)%list ∧ sts_write (entry_ev x) = true ∧
    f (entry_ev x) = true.
Proof.
  unfold first_write. destruct (around_sts_write t) as [[[u x] v]|] eqn:Ha; [|done].
  intros Hf. apply around_split in Ha as [-> Hx]. by exists u, x, v.
Qed.

Lemma starts_with (t : list (entry Ans)) x :
  head t = Some x → ∃ t', t = (x :: t')%list.
Proof. destruct t as [|y t']; intros; simplify_eq/=. by exists t'. Qed.

Definition finalized_meta : ObjectMeta := set_finalizers (demo_meta "db") [clusterFinalizer].
Definition pass_cluster (n : Z) : HyperbytedbCluster :=
  mkCluster finalized_meta (demo_spec n) (demo_status None).

Definition pass_sts : StatefulSet :=
  mkSts (demo_meta "db") (Some 3%Z) "db-headless" ∅ OrderedReadyPodManagement None demo_template []
    (mkStsStatus 3 3 3 "old" "old").

(** The cluster [c], a StatefulSet of three ready pods, and nodes in [state]. *)
Definition pass_world (c : HyperbytedbCluster) (state : string) : World := {|
  w_now := 0%Z;
  w_get k name :=
    match k with
    | KCluster => Some c
    | KStatefulSet => Some pass_sts
    | _ => None
    end;
  w_pods := [];
  w_http r := if Contains (rq_URL r) "/health" then mkRsp 200 (Some (health_body state))
              else mkRsp 200 (Some leader_body) |}.

Definition pass_trace (c : HyperbytedbCluster) (state : string) : list (entry Ans) :=
  trace_of (pass_world c state) (Reconcile "" "ns" "db").

(** A pass that shrinks three replicas to two. *)
Lemma no_shrink_before_evacuation_witness :
  ∃ u s a v c ctx' prev,
    pass_trace (pass_cluster 2) "leaving" = (u ++ @Entry Ev Ans (Update KStatefulSet s) a :: v)%list ∧
    served "ns" "db" u c ∧ replicas_read c u prev ∧ sts_Replicas s = Some (spec_replicas c) ∧
    no_sts_write u ∧
    ∀ i, (0 <= i)%Z → (spec_replicas c <= i < prev)%Z →
      (∃ n, observed ctx' c u i n ∧ (dn_reachable n = false ∨ dn_state n = nodeStateLeaving)) ∧
      voter_removed ctx' (host_map c prev) (ServerPort c) u (uint64 (i + 1)).
Proof.
  assert (first_write is_sts_update (pass_trace (pass_cluster 2) "leaving") = true) as Ha
    by (vm_compute; reflexivity).
  apply first_write_split in Ha as (u & x & v & Ht & _ & Hx).
  destruct (sts_update_shape x Hx) as (s & a & Hs). rewrite Hs in Ht.
  destruct (no_shrink_before_evacuation "" "ns" "db" _ _ u s a v (world_exec _ _) Ht)
    as (c & ctx' & prev & Hc).
  exists u, s, a, v, c, ctx', prev. split; [exact Ht|exact Hc].
Defined.

Lemma config_before_rollout_witness :
  ∃ u x v, pass_trace (pass_cluster 3) "active" = (u ++ x :: v)%list ∧
  ∃ c, served "ns" "db" u c ∧ finalized "ns" "db" u ∧ config_current c u ∧
    sts_intent c (ConfigHash c) u (entry_ev x) ∧
    ∀ tpl, written_template (entry_ev x) = Some tpl →
      pt_Annotations tpl !! ConfigHashAnnotation = Some (ConfigHash c).
Proof.
  assert (first_write is_sts_update (pass_trace (pass_cluster 3) "active") = true) as Ha
    by (vm_compute; reflexivity).
  apply first_write_split in Ha as (u & x & v & Ht & Hx & _). exists u, x, v. split; [exact Ht|].
  exact (config_before_rollout "" "ns" "db" _ _ u x v (world_exec _ _) Ht Hx).
Defined.

Definition paused_cluster : HyperbytedbCluster :=
  mkCluster (mkMeta "db" "ns" ∅ ∅ [clusterFinalizer] (Some 5%Z) 1 None)
    (let s := demo_spec 3 in
     {| sp_Replicas := sp_Replicas s; sp_Image := sp_Image s; sp_Version := sp_Version s;
        sp_ImagePullPolicy := sp_ImagePullPolicy s; sp_ImagePullSecrets := sp_ImagePullSecrets s;
        sp_Paused := true; sp_Server := sp_Server s; sp_Storage := sp_Storage s;
        sp_Flush := sp_Flush s; sp_ChDB := sp_ChDB s; sp_Auth := sp_Auth s;
        sp_Logging := sp_Logging s; sp_Resources := sp_Resources s; sp_Cluster := sp_Cluster s;
        sp_Sharding := sp_Sharding s; sp_Cardinality := sp_Cardinality s;
        sp_StatementSummary := sp_StatementSummary s; sp_HintedHandoff := sp_HintedHandoff s;
        sp_RateLimit := sp_RateLimit s; sp_Retention := sp_Retention s;
        sp_Monitoring := sp_Monitoring s; sp_Autoscaling := sp_Autoscaling s;
        sp_Failover := sp_Failover s; sp_Proxy := sp_Proxy s;
        sp_PodAnnotations := sp_PodAnnotations s; sp_PodLabels := sp_PodLabels s;
        sp_Affinity := sp_Affinity s;
        sp_TopologySpreadConstraints := sp_TopologySpreadConstraints s;
        sp_Tolerations := sp_Tolerations s; sp_AdditionalVolumes := sp_AdditionalVolumes s;
        sp_AdditionalVolumeMounts := sp_AdditionalVolumeMounts s |})
    (demo_status None).

(** A cluster that is paused and being deleted keeps its finalizer. *)
Lemma paused_pass_witness :
  ∃ now w r t, pass_trace paused_cluster "active" =
      (@Entry Ev Ans (Get KCluster "ns" "db") (inr paused_cluster) :: t)%list ∧
    t = [@Entry Ev Ans Now now; @Entry Ev Ans (StatusUpdate KCluster w) r] ∧
    cl_Meta w = cl_Meta paused_cluster ∧ cl_Spec w = cl_Spec paused_cluster ∧
    condition_status w "Paused" = Some ConditionTrue.
Proof.
  assert (head (pass_trace paused_cluster "active") =
    Some (@Entry Ev Ans (Get KCluster "ns" "db") (inr paused_cluster))) as Ht
    by (vm_compute; reflexivity).
  apply starts_with in Ht as [t Ht].
  pose proof (world_exec (pass_world paused_cluster "active") (Reconcile "" "ns" "db")) as He.
  fold (pass_trace paused_cluster "active") in He. rewrite Ht in He.
  destruct (paused_pass "" "ns" "db" paused_cluster t _ eq_refl He) as (now & w & r & Hr).
  exists now, w, r, t. split; [exact Ht|]. tauto.
Defined.

Definition deleted_cluster : HyperbytedbCluster :=
  mkCluster (cl_Meta paused_cluster) (demo_spec 3) (demo_status None).

Lemma deletion_pass_witness :
  ∃ t w r, pass_trace deleted_cluster "active" =
      (@Entry Ev Ans (Get KCluster "ns" "db") (inr deleted_cluster) :: t)%list ∧
    t = [@Entry Ev Ans (Event EventTypeNormal "Deleting" "Cleaning up cluster resources") tt;
         @Entry Ev Ans (Update KCluster w) r] ∧ ¬ has_finalizer w.
Proof.
  assert (head (pass_trace deleted_cluster "active") =
    Some (@Entry Ev Ans (Get KCluster "ns" "db") (inr deleted_cluster))) as Ht
    by (vm_compute; reflexivity).
  apply starts_with in Ht as [t Ht].
  pose proof (world_exec (pass_world deleted_cluster "active") (Reconcile "" "ns" "db")) as He.
  fold (pass_trace deleted_cluster "active") in He. rewrite Ht in He.
  destruct (deletion_pass "" "ns" "db" deleted_cluster t _ eq_refl ltac:(eexists; reflexivity) He)
    as [Hf _].
  destruct (Hf ltac:(vm_compute; reflexivity)) as (w & r & ? & ? & _).
  exists t, w, r. tauto.
Defined.

(** The API server refuses every write of a Service. *)
Definition refuse_services (w : World) (e : Ev) : Ans e :=
  match e with
  | Create k o =>
      match k return GoErr + obj k → GoErr + obj k with
      | KService => λ _, inl (mkErr OtherReason "refused")
      | _ => λ r, r
      end (answers w (Create k o))
  | e => answers w e
  end.


Lemma updateStatus_correct_witness :
  ∃ t o, exec (updateStatus (mkStsResult 3 3 3 false) "h" (pass_cluster 3)) t o ∧
    ∃ w a, @Entry Ev Ans (StatusUpdate KCluster w) a ∈ t ∧
      st_Phase (cl_Status w) = ClusterPhaseRunning.
Proof.
  pose proof (world_exec (pass_world (pass_cluster 3) "active")
    (updateStatus (mkStsResult 3 3 3 false) "h" (pass_cluster 3))) as He.
  destruct (updateStatus_correct _ _ _ _ _ He) as (r & now & w & a & Ht & _ & Hp & _).
  do 2 eexists. split; [exact He|]. exists w, a. split; [rewrite Ht; right; right; left|].
  rewrite Hp. reflexivity.
Defined.
