(* ===== verification/PanicFreedom.v ===== *)
(** Run-time panics of a pass over a cluster.

    The code dereferences a pointer of an API answer in two places only, both
    [Spec.Replicas] of a StatefulSet, indexes one slice, and allocates five slices of
    a computed capacity; [guarded p] says that [p] does not panic when the answers of
    the API server are as its validation leaves them. *)

From S2P Require Import Prelude GoStrings Messages Lib ApiTypes Image Compat Config K8s StatefulSet Prog Go Client Proxy Auth Controller RollingRestart RollingRestartProofs Resources ScaleDown ScaleDownProofs Members Reconcile ReconcileProofs Demo ReconcileTheorems.
#[local] Open Scope string_scope.

Ltac tot :=
  intros; foot_start; prog_unfold;
  repeat first [ progress prog_cbn | progress intros | done
               | apply total_bind; [solve [auto with tot]|]
               | lazymatch goal with
                 | |- total (Prog.bind (Prog.bind _ _) _) => apply total_bind
                 end
               | solve [auto with tot] | prog_split ].

Create HintDb tot.
#[export] Hint Resolve total_for_each_err : tot.

Section Totality.
Context `{Lib}.
Implicit Types (c : HyperbytedbCluster) (ctx : Ctx).

Lemma GetNodeHealth_total ctx h p : total (GetNodeHealth ctx h p).
Proof. unfold GetNodeHealth, Do. tot. Qed.
Lemma GetClusterNodes_total ctx h p : total (GetClusterNodes ctx h p).
Proof. unfold GetClusterNodes, Do. tot. Qed.
Lemma GetClusterLeader_total ctx h p : total (GetClusterLeader ctx h p).
Proof. unfold GetClusterLeader, Do. tot. Qed.
Lemma GetSyncManifest_total ctx h p : total (GetSyncManifest ctx h p).
Proof. unfold GetSyncManifest, Do. tot. Qed.
Lemma LeaveNode_total ctx h p i : total (LeaveNode ctx h p i).
Proof. unfold LeaveNode, Do. tot. Qed.
Lemma RemoveClusterNode_total ctx h p i : total (RemoveClusterNode ctx h p i).
Proof. unfold RemoveClusterNode, Do. tot. Qed.
Lemma AddClusterNode_total ctx h p i a b : total (AddClusterNode ctx h p i a b).
Proof. unfold AddClusterNode, Do. tot. Qed.
#[local] Hint Resolve GetNodeHealth_total GetClusterNodes_total GetClusterLeader_total
  GetSyncManifest_total LeaveNode_total RemoveClusterNode_total AddClusterNode_total : tot.

(** The counts the API server stores. *)
Definition small (n : Z) : Prop := (0 <= n <= 2 ^ 31 - 4)%Z.

Lemma BuildSelfSignedTLSSecret_total c ns n : small n → total (BuildSelfSignedTLSSecret c ns n).
Proof.
  intros Hn. apply total_make_slice; [|tot].
  rewrite int32_id; unfold small, in_int32 in *; lia.
Qed.
Lemma reconcileTLS_total c n : small n → total (reconcileTLS c n).
Proof.
  intros Hn. pose proof (BuildSelfSignedTLSSecret_total c (cl_Namespace c) n Hn).
  unfold reconcileTLS, ensure_self_signed. tot.
Qed.
Lemma FillAuthSecret_total s : total (FillAuthSecret s).
Proof. unfold FillAuthSecret, auth_keys, randomSecret. cbn [fill_keys]. tot. Qed.
#[local] Hint Resolve FillAuthSecret_total : tot.
Lemma reconcileAuthSecret_total c : total (reconcileAuthSecret c).
Proof. unfold reconcileAuthSecret, create_auth_secret, BuildAuthSecret. tot. Qed.
Lemma reconcileConfigMap_total c : total (reconcileConfigMap c).
Proof. unfold reconcileConfigMap. tot. Qed.
Lemma cleanupLegacyPeers_total c : total (cleanupLegacyPeersConfigMap c).
Proof. unfold cleanupLegacyPeersConfigMap. tot. Qed.
Lemma reconcileService_total c s : total (reconcileService c s).
Proof. unfold reconcileService. tot. Qed.
Lemma reconcileProxy_total c : total (reconcileProxy c).
Proof. unfold reconcileProxy, reconcile_proxy_service, reconcile_proxy_deployment. tot. Qed.
Lemma reconcileServiceMonitor_total c : total (reconcileServiceMonitor c).
Proof. unfold reconcileServiceMonitor. tot. Qed.
Lemma reconcilePDB_total c : total (reconcilePDB c).
Proof. unfold reconcilePDB. tot. Qed.
Lemma reconcileHPA_total c : total (reconcileHPA c).
Proof. unfold reconcileHPA. tot. Qed.

Lemma get_pods_total c l : total (get_pods c l).
Proof. induction l; cbn [get_pods]; tot. Qed.
Lemma delete_departed_total p : total (delete_departed p).
Proof. unfold delete_departed. tot. Qed.
#[local] Hint Resolve get_pods_total delete_departed_total : tot.
Lemma deleteStuckDepartedPods_total c s :
  small (srr_SpecReplicas s) → small (srr_StatusReplicas s) → total (deleteStuckDepartedPods c s).
Proof.
  intros H1 H2. unfold deleteStuckDepartedPods. case_bool_decide; [done|].
  apply total_bind; [|tot]. apply total_make_slice; [|auto with tot].
  rewrite int32_id; unfold small, in_int32 in *; lia.
Qed.
Lemma cleanup_pvc_total c i : total (cleanup_pvc c i).
Proof. unfold cleanup_pvc. tot. Qed.
#[local] Hint Resolve cleanup_pvc_total : tot.
Lemma CleanupOrphanPVCs_total c a b : total (CleanupOrphanPVCs c a b).
Proof. unfold CleanupOrphanPVCs. tot. Qed.

#[local] Hint Resolve exclude_total include_total : tot.
Lemma release_total st rq c : total (rollingRestartRelease st rq c).
Proof. unfold rollingRestartRelease, releaseOrdinal. tot. Qed.
#[local] Hint Resolve release_total : tot.
Lemma rolling_phase_total ctx c0 st ur c : total (rolling_phase ctx c0 st ur c).
Proof.
  unfold rolling_phase, rollingRestartExcluding, rollingRestartDraining,
    rollingRestartWaitingReady, enter_draining, ordinal_done, next_ordinal. tot.
Qed.
#[local] Hint Resolve rolling_phase_total : tot.
Lemma reconcileRollingRestart_total ctx s n c : total (reconcileRollingRestart ctx s n c).
Proof.
  unfold reconcileRollingRestart, tryClearCompletedRollingRestart, ensureRollingRestartState,
    start_rolling. tot.
Qed.

Lemma CollectMemberStatuses_total ctx c ns n :
  (0 <= n)%Z → total (CollectMemberStatuses ctx c ns n).
Proof.
  intros Hn. apply total_make_slice; [done|]. induction (ordinals_up 0 n); cbn [collect_members];
    unfold collect_member; tot.
Qed.
Lemma failover_loop_total d ms c : total (failover_loop d ms c).
Proof. revert c. induction ms; intros c; cbn [failover_loop]; unfold failed_over; tot. Qed.
#[local] Hint Resolve failover_loop_total : tot.
Lemma handleAutoFailover_total ms c : total (handleAutoFailover ms c).
Proof. unfold handleAutoFailover. tot. Qed.
Lemma view_pods_total ctx c l : total (view_pods ctx c l).
Proof. induction l; cbn [view_pods]; unfold view_pod; tot. Qed.
Lemma find_leader_total ctx p all l : total (find_leader_among ctx p all l).
Proof. induction l; cbn [find_leader_among]; tot. Qed.
Lemma add_members_total ctx h p k l : total (add_members ctx h p k l).
Proof. induction l; cbn [add_members]; tot. Qed.
#[local] Hint Resolve view_pods_total find_leader_total add_members_total : tot.
Lemma reconcileClusterMembership_total ctx n c :
  (0 <= n)%Z → total (reconcileClusterMembership ctx n c).
Proof.
  intros Hn. pose proof (total_make_slice n _ Hn (view_pods_total ctx c (ordinals_up 0 n))).
  unfold reconcileClusterMembership, findLeader. tot.
Qed.
Lemma collect_manifests_total ctx l c : total (collect_manifests ctx l c).
Proof. revert c. induction l; intros c; cbn [collect_manifests]; tot. Qed.
#[local] Hint Resolve collect_manifests_total : tot.
Lemma monitorReplicationHealth_total ctx n c : total (monitorReplicationHealth ctx n c).
Proof. unfold monitorReplicationHealth. tot. Qed.

(** *** The hooks: the indices told are those of probed hosts *)

Lemma leader_among_total ctx hs p l : total (leader_among ctx hs p l).
Proof. induction l; cbn [leader_among]; tot. Qed.
#[local] Hint Resolve leader_among_total : tot.
Lemma removeDepartedVoters_total ctx hs p l : total (removeDepartedVoters ctx hs p l).
Proof. induction l; cbn [removeDepartedVoters]; unfold raftLeaderHost; tot. Qed.
Lemma hooks_no_panic ctx c prev n t :
  small prev → small n → ¬ exec (runScaleDownClusterHooks ctx c prev n) t Panic.
Proof.
  intros Hp Hn0 He. destruct (decide (n < prev ∧ 1 <= prev)%Z) as [[??]|Hn].
  - apply hooks_exec in He as (t1 & t2 & t3 & l & _ & _ & Hr); [|done..].
    destruct (departurePlan _ _). destruct Hr as (_ & _ & [[_ Hr]|[[? _]|[? _]]]); [|done..].
    revert Hr. rewrite int32_id; unfold small, in_int32 in *; lia.
  - unfold runScaleDownClusterHooks in He.
    destruct (bool_decide (prev <= n)%Z) eqn:H1; [by destruct He|].
    destruct (bool_decide (prev < 1)%Z) eqn:H2; [by destruct He|]. bools. lia.
Qed.
End Totality.

(** ** A pass *)

Section Pass.
Context `{Lib, !LibLaws _}.
Implicit Types (c : HyperbytedbCluster) (ctx : Ctx) (t u : list (entry Ans)).

Definition small_count (n : Z) : bool := bool_decide (0 <= n <= 2 ^ 31 - 4)%Z.
Definition sts_ok (s : StatefulSet) : bool :=
  match sts_Replicas s with Some n => small_count n | None => false end
  && small_count (sss_Replicas (sts_Status s)).
Definition cluster_ok c : bool := small_count (spec_replicas c).

(** Whether the answers of the API server are as its validation leaves them: every
    StatefulSet has replicas, and no count is negative or within four of the largest
    32-bit integer. *)
Definition entry_ok (x : entry Ans) : bool :=
  match entry_ev x as e return Ans e → bool with
  | Get k _ _ | Create k _ | Update k _ =>
      match k return GoErr + obj k → bool with
      | KStatefulSet => λ r, match r with inl _ => true | inr s => sts_ok s end
      | KCluster => λ r, match r with inl _ => true | inr c => cluster_ok c end
      | _ => λ _, true
      end
  | _ => λ _, true
  end (entry_ans x).

Definition valid_answers t : bool := forallb entry_ok t.

Lemma valid_app t u : valid_answers (t ++ u) = true → valid_answers t = true ∧ valid_answers u = true.
Proof. unfold valid_answers. rewrite forallb_app, andb_true_iff. done. Qed.
Lemma valid_elem t x : valid_answers t = true → x ∈ t → entry_ok x = true.
Proof. unfold valid_answers. rewrite forallb_forall. intros Ht Hx. apply Ht. by apply list_elem_of_In. Qed.
Lemma small_count_spec n : small_count n = true ↔ small n.
Proof. apply bool_decide_eq_true. Qed.

Definition guarded {A} (p : P A) : Prop := ∀ t, valid_answers t = true → ¬ exec p t Panic.

Lemma total_guarded {A} (p : P A) : total p → guarded p.
Proof. intros Hp t _ He. by apply total_exec in He. Qed.

(** The continuation only has to be guarded for the values [p] yields on valid
    answers. *)
Lemma bind_guarded {A B} (p : P A) (f : A → P B) :
  guarded p → (∀ t a, valid_answers t = true → exec p t (Done a) → guarded (f a)) →
  guarded (Prog.bind p f).
Proof.
  intros Hp Hf t Ht [(t1 & t2 & a & -> & H1 & H2)|[H1 _]]%exec_bind;
    [|exact (Hp t Ht H1)].
  apply valid_app in Ht as [Ht1 Ht2]. exact (Hf _ _ Ht1 H1 _ Ht2 H2).
Qed.

Lemma rbind_guarded {A B} (m : CM (Final + A)) (f : A → CM (Final + B)) c :
  guarded (m c) →
  (∀ a c1 t, valid_answers t = true → exec (m c) t (Done (c1, inr a)) → guarded (f a c1)) →
  guarded (rbind m f c).
Proof.
  intros Hm Hf. apply bind_guarded; [done|]. intros t [c1 [fin|a]] Ht He; [by apply total_guarded|].
  by eapply Hf.
Qed.
Lemma m_bind_guarded {A B} (m : CM A) (f : A → CM B) c :
  guarded (m c) →
  (∀ a c1 t, valid_answers t = true → exec (m c) t (Done (c1, a)) → guarded (f a c1)) →
  guarded ((m ≫= f) c).
Proof. intros Hm Hf. apply bind_guarded; [done|]. intros t [c1 a]. apply Hf. Qed.
Lemma on_cluster_guarded {A} (f : HyperbytedbCluster → P A) c :
  guarded (f c) → guarded (on_cluster f c).
Proof.
  intros Hf. change (guarded (Prog.bind (f c) (λ a, Prog.Ret (c, a)))).
  apply bind_guarded; [done|]. intros t a _ _. by apply total_guarded.
Qed.
Lemma setFailedStatus_total {A} reason e c :
  total (setFailedStatus reason (Some e) c : P (HyperbytedbCluster * (Final + A))).
Proof. unfold setFailedStatus. tot. Qed.
Lemma or_fail_guarded {A} reason (m : CM (GoErr + A)) c :
  guarded (m c) → guarded (or_fail reason m c).
Proof.
  intros Hm. apply m_bind_guarded; [done|]. intros [e|a] c1 t _ _; apply total_guarded; [|done].
  apply setFailedStatus_total.
Qed.
Lemma best_effort_guarded (m : CM error) c : guarded (m c) → guarded (best_effort m c).
Proof. intros Hm. apply m_bind_guarded; [done|]. intros. by apply total_guarded. Qed.

#[local] Hint Resolve reconcileTLS_total reconcileAuthSecret_total reconcileConfigMap_total
  cleanupLegacyPeers_total reconcileService_total reconcileProxy_total
  reconcileServiceMonitor_total reconcilePDB_total reconcileHPA_total
  deleteStuckDepartedPods_total CleanupOrphanPVCs_total reconcileRollingRestart_total
  CollectMemberStatuses_total handleAutoFailover_total reconcileClusterMembership_total
  monitorReplicationHealth_total : tot.

(** Composes [guarded] over the steps. *)
Ltac guarded_go :=
  repeat first
    [ simple apply rbind_guarded; [|intros ? ? ? _ _] | simple apply or_fail_guarded
    | simple apply best_effort_guarded
    | simple apply on_cluster_guarded
    | solve [apply total_guarded; auto with tot]
    | match goal with |- guarded ((if ?x then _ else _) _) => destruct x end
    | progress intros ].

Lemma pause_check_total c : total (pause_check c).
Proof. unfold pause_check, return_ok. tot. Qed.
Lemma deletion_total c : total (deletion c).
Proof. unfold deletion, modify_finalizers, rbind, or_return, UpdateCluster, return_ok, return_err. tot. Qed.
Lemma ensure_finalizer_total c : total (ensure_finalizer c).
Proof. unfold ensure_finalizer, modify_finalizers, or_return, UpdateCluster, return_err. tot. Qed.
#[local] Hint Resolve pause_check_total deletion_total ensure_finalizer_total : tot.

Lemma previous_replicas_guarded c : guarded (previous_replicas c).
Proof.
  intros t Hv ([e|s] & t' & -> & Ht); cbn in Ht.
  - revert Ht. apply total_exec. cbn. destruct (IsNotFound e); [done|]. apply setFailedStatus_total.
  - destruct (sts_Replicas s) eqn:Hs; [by destruct Ht|].
    cbn in Hv. unfold sts_ok in Hv. by rewrite Hs in Hv.
Qed.

(** The counts a pass works with are those of valid answers. *)
Lemma replicas_read_small c t prev :
  valid_answers t = true → replicas_read c t prev → small prev.
Proof.
  intros Hv [(s & Hs & Hr)|(e & _ & _ & ->)]; [|unfold small; lia].
  apply (valid_elem _ _ Hv) in Hs. cbn in Hs. unfold sts_ok in Hs. rewrite Hr in Hs. bools.
  by apply small_count_spec.
Qed.
Lemma adopted_small c t c' :
  cluster_ok c = true → valid_answers t = true → adopted c t c' → small (spec_replicas c').
Proof.
  intros Hc Hv [[(st & ->) _]|(c1 & Hin & _)]; apply small_count_spec; [done|].
  by apply (valid_elem _ _ Hv) in Hin.
Qed.

Lemma auth_step_guarded ctx c : guarded (auth_step ctx c).
Proof.
  unfold auth_step. apply m_bind_guarded; [by apply total_guarded|]. intros a c1 ? _ _.
  guarded_go; by apply total_guarded.
Qed.

Lemma prepare_guarded ctx c : cluster_ok c = true → guarded (prepare ctx c).
Proof.
  intros Hc. unfold prepare.
  apply rbind_guarded; [guarded_go|]. intros [] c1 t1 _ (_ & _ & st & ->)%pause_check_ok.
  apply rbind_guarded; [guarded_go|]. intros [] c2 t2 _ (_ & _ & ->)%deletion_ok.
  apply rbind_guarded; [guarded_go|]. intros [] c3 t3 Hv Ha%ensure_finalizer_ok.
  assert (small (spec_replicas c3)) as Hs by by eapply adopted_small.
  apply m_bind_guarded; [by apply total_guarded|]. intros c4 c5 t4 _ [-> [= -> ->]].
  apply rbind_guarded; [apply previous_replicas_guarded|]. intros n c4 t5 _ _.
  apply rbind_guarded; [guarded_go|]. intros [] c6 t6 _ _.
  apply rbind_guarded; [apply auth_step_guarded|]. intros ctx2 c7 t7 _ _.
  guarded_go; by apply total_guarded.
Qed.

Lemma reconcileStatefulSet_guarded c h : guarded (reconcileStatefulSet c h).
Proof.
  assert (wp (reconcileStatefulSet c h) (λ t o, o = Panic → valid_answers t = false)) as Hwp;
    [|intros t Hv He; pose proof (proj1 (wp_exec _ _) Hwp t Panic He eq_refl); congruence].
  unfold reconcileStatefulSet, lookup_object, delete_object, event, sts_result. prog_go; try done.
  all: cbn; unfold sts_ok;
    match goal with Hr : sts_Replicas _ = None |- _ => rewrite Hr end; by rewrite ?andb_false_r.
Qed.

Lemma reconcileStatefulSet_small c h t res :
  valid_answers t = true → exec (reconcileStatefulSet c h) t (Done (inr res)) →
  srr_Recreating res = true ∨ (small (srr_SpecReplicas res) ∧ small (srr_StatusReplicas res)).
Proof.
  assert (wp (reconcileStatefulSet c h) (λ t o, ∀ res, o = Done (inr res) → valid_answers t = true →
    srr_Recreating res = true ∨ (small (srr_SpecReplicas res) ∧ small (srr_StatusReplicas res)))) as Hwp;
    [|intros Hv He; exact (proj1 (wp_exec _ _) Hwp t _ He _ eq_refl Hv)].
  unfold reconcileStatefulSet, lookup_object, delete_object, event, sts_result. prog_go; try done.
  all: simplify_eq; cbn; first [by left|right].
  all: match goal with
       | Hv : valid_answers _ = true, Hr : sts_Replicas _ = Some _ |- _ =>
           cbn in Hv; unfold sts_ok in Hv; rewrite Hr in Hv
       end; bools; rewrite ?small_count_spec in *; split; first [done|unfold small; lia].
Qed.

Lemma scale_down_step_guarded ctx p n c : small p → small n → guarded (scale_down_step ctx p n c).
Proof.
  intros Hp Hn. unfold scale_down_step. apply m_bind_guarded.
  - apply on_cluster_guarded. intros t _ Ht. by apply hooks_no_panic in Ht.
  - intros [] ? ? _ _; by apply total_guarded.
Qed.

Lemma statefulset_step_guarded h c : guarded (statefulset_step h c).
Proof.
  unfold statefulset_step. apply m_bind_guarded.
  - apply on_cluster_guarded, reconcileStatefulSet_guarded.
  - intros [e|res] ? ? _ _; apply total_guarded.
    + destruct (IsConflict e); [done|apply setFailedStatus_total].
    + by destruct (srr_Recreating res).
Qed.
Lemma statefulset_step_small h c t c' res :
  valid_answers t = true → exec (statefulset_step h c) t (Done (c', inr res)) →
  small (srr_SpecReplicas res) ∧ small (srr_StatusReplicas res).
Proof.
  intros Hv. unfold statefulset_step.
  intros [(t1 & t2 & c1 & r & -> & H1 & H2)|[_ ?]]%exec_m_bind; [|done].
  apply exec_on_cluster_ok in H1 as [-> H1]. apply valid_app in Hv as [Hv _].
  destruct r as [e|res'].
  - destruct (IsConflict e); [by destruct H2|by apply setFailedStatus_returns in H2 as [? ?]].
  - destruct (srr_Recreating res') eqn:Hrec; [by destruct H2|]. destruct H2 as [-> ?]. simplify_eq.
    apply reconcileStatefulSet_small in H1 as [?|?]; [congruence|done..].
Qed.

Lemma proxy_step_guarded c : guarded (proxy_step c).
Proof.
  unfold proxy_step. apply m_bind_guarded; [by apply total_guarded|]. intros ? ? ? _ _.
  guarded_go; by apply total_guarded.
Qed.
Lemma rolling_restart_step_guarded ctx sts n c : guarded (rolling_restart_step ctx sts n c).
Proof.
  unfold rolling_restart_step. apply m_bind_guarded; [by apply total_guarded|]. intros ? ? ? _ _.
  destruct (ProxyEnabled _); [|by apply total_guarded]. guarded_go. apply total_guarded. by case_match.
Qed.
Lemma scaling_step_total sts n c : total (scaling_step sts n c).
Proof. unfold scaling_step, updatePhase, return_ok. tot. Qed.
Lemma members_step_guarded ctx n c : (0 <= n)%Z → guarded (members_step ctx n c).
Proof.
  intros Hn. unfold members_step. apply m_bind_guarded; [by guarded_go|]. intros ms c1 ? _ _.
  apply total_guarded. tot.
Qed.
Lemma updateStatus_total sts h c : total (updateStatus sts h c).
Proof. unfold updateStatus, upgrading, on_cluster. tot. Qed.
#[local] Hint Resolve scaling_step_total updateStatus_total : tot.

Lemma observe_guarded ctx sts n h c : (0 <= n)%Z → guarded (observe ctx sts n h c).
Proof.
  intros Hn. unfold observe. apply m_bind_guarded; [by apply members_step_guarded|]. intros ms c1 ? _ _.
  do 2 (apply m_bind_guarded;
    [destruct (bool_decide _); [by guarded_go|by apply total_guarded]|intros ? ? ? _ _]).
  apply m_bind_guarded; [by guarded_go|]. intros ? ? ? _ _.
  apply total_guarded. apply (total_bind (get _)); [done|]. intros [? ?].
  apply (total_bind (set_cluster_condition _ _)); [tot|]. intros [? []].
  apply (total_bind (updateStatus _ _ _)); [apply updateStatus_total|done].
Qed.

Lemma converge_guarded ctx sts p n h c :
  small (srr_SpecReplicas sts) → small (srr_StatusReplicas sts) → (0 <= n)%Z →
  guarded (converge ctx sts p n h c).
Proof.
  intros Hs1 Hs2 Hn. unfold converge. apply rbind_guarded; [by guarded_go|intros ? ? ? _ _].
  apply rbind_guarded; [apply proxy_step_guarded|intros ? ? ? _ _].
  apply rbind_guarded; [apply rolling_restart_step_guarded|intros ? ? ? _ _].
  apply rbind_guarded; [by guarded_go|intros ? ? ? _ _].
  apply rbind_guarded; [unfold orphan_pvc_step; guarded_go; by apply total_guarded|intros ? ? ? _ _].
  apply rbind_guarded.
  { unfold service_monitor_step. apply m_bind_guarded; [by apply total_guarded|]. intros ? ? ? _ _.
    guarded_go; by apply total_guarded. }
  intros ? ? ? _ _. do 2 (apply rbind_guarded; [by guarded_go|intros ? ? ? _ _]).
  apply m_bind_guarded; [by apply observe_guarded|]. intros. by apply total_guarded.
Qed.

End Pass.

(** ** Witnesses *)


(** Without these assumptions the code does panic: on a StatefulSet without
    [spec.replicas] at the first read of it, and on a cluster with fewer than no
    replicas when the members are collected. *)
Definition nil_world : World :=
  let w := pass_world (pass_cluster 3) "active" in {|
  w_now := w_now w;
  w_get k name :=
    match k with
    | KStatefulSet => Some (sts_with_replicas pass_sts None)
    | k => w_get w k name
    end;
  w_pods := w_pods w;
  w_http := w_http w |}.

Lemma panics_on_nil_replicas : result_of nil_world (Reconcile "" "ns" "db") = Panic.
Proof. vm_compute. reflexivity. Qed.
