(* ===== verification/PassLiveness.v ===== *)
(** A pass that leaves work behind is called again: no early return of the cluster
    controller drops a cluster. *)

From S2P Require Import Prelude GoStrings Lib ApiTypes Image Compat Config K8s StatefulSet Prog Go Client Proxy Auth Controller RollingRestart RollingRestartProofs RollingRestartSafety Resources ScaleDown ScaleDownProofs Members Reconcile ReconcileProofs Demo RollingRestartTheorems ReconcileTheorems.
#[local] Open Scope string_scope.

Section Pass.
Context `{Lib, !LibLaws _}.
Implicit Types (c : HyperbytedbCluster) (ctx : Ctx) (t u : list (entry Ans)).

(** ** Steps that end the pass only with an error or a time to be called again *)

Definition paced t0 {A} (m : CM (Final + A)) c : Prop :=
  ∀ t c' res, t ⊆ t0 → exec (m c) t (Done (c', inl (res, None))) → (0 < res_RequeueAfter res)%Z.

Lemma paced_rbind t0 {A B} (m : CM (Final + A)) (f : A → CM (Final + B)) c :
  paced t0 m c →
  (∀ t a c1, t ⊆ t0 → exec (m c) t (Done (c1, inr a)) → paced t0 (f a) c1) →
  paced t0 (rbind m f) c.
Proof.
  intros Hm Hf t c' res Ht [(t1 & t2 & c1 & a & -> & H1 & H2)|[(c1 & fin & H1 & ?)|[_ ?]]]%exec_rbind;
    simplify_eq; [|by eapply Hm].
  eapply (Hf t1 a c1); [set_solver|done| |done]. set_solver.
Qed.
Lemma paced_bind t0 {A B} (m : CM A) (f : A → CM (Final + B)) c :
  (∀ t a c1, t ⊆ t0 → exec (m c) t (Done (c1, a)) → paced t0 (f a) c1) → paced t0 (m ≫= f) c.
Proof.
  intros Hf t c' res Ht [(t1 & t2 & c1 & a & -> & H1 & H2)|[_ ?]]%exec_m_bind; [|done].
  eapply (Hf t1 a c1); [set_solver|done| |done]. set_solver.
Qed.
Lemma paced_pure t0 {A} (r : Final + A) c :
  match r with inl (res, None) => (0 < res_RequeueAfter res)%Z | _ => True end →
  paced t0 (pure r) c.
Proof. intros Hr t c' res _ [_ ?]. by simplify_eq. Qed.
Lemma paced_setFailed t0 {A} reason e c : paced t0 (setFailedStatus (A := A) reason e) c.
Proof.
  intros t c' res _ He. exfalso. revert t c' res He.
  assert (∀ t o, exec (setFailedStatus (A := A) reason e c) t o →
    ∀ c' res, o ≠ Done (c', inl (res, None))) as Hall; [|intros t c' res He; by eapply Hall].
  refine (proj1 (wp_exec _ (λ t o, ∀ c' res, o ≠ Done (c', inl (res, None)))) _).
  unfold setFailedStatus, modify_status, set_cluster_condition, StatusUpdateCluster,
    record_event. destruct e as [e|]; prog_unfold; cbn; [|done].
  intros now [e1|c1]; cbn; done.
Qed.
Lemma paced_or_fail t0 {A} reason (m : CM (GoErr + A)) c : paced t0 (or_fail reason m) c.
Proof.
  apply paced_bind. intros t [e|a] c1 _ _; [apply paced_setFailed|by apply paced_pure].
Qed.
Lemma paced_best_effort t0 (m : CM error) c : paced t0 (best_effort m) c.
Proof. apply paced_bind. intros. by apply paced_pure. Qed.

Ltac pace :=
  repeat first
    [ simple apply paced_or_fail | simple apply paced_best_effort | apply paced_setFailed
    | apply paced_pure; (done || (cbn; unfold Second; lia))
    | simple apply paced_rbind; [|intros ? ? ? _ _] | apply paced_bind; intros ? ? ? _ _
    | match goal with |- paced _ (match ?x with _ => _ end) _ => destruct x end
    | match goal with |- paced _ (if ?x then _ else _) _ => destruct x end ].

Lemma previous_replicas_paced t0 c : paced t0 previous_replicas c.
Proof. unfold previous_replicas. pace. Qed.
Lemma auth_step_paced t0 ctx c : paced t0 (auth_step ctx) c.
Proof. unfold auth_step. pace. Qed.
Lemma ensure_finalizer_paced t0 c : paced t0 ensure_finalizer c.
Proof. unfold ensure_finalizer, or_return, return_err. pace. Qed.
Lemma scale_down_step_paced t0 ctx p n c : paced t0 (scale_down_step ctx p n) c.
Proof. unfold scale_down_step, return_ok. pace. Qed.
Lemma statefulset_step_paced t0 h c : paced t0 (statefulset_step h) c.
Proof. unfold statefulset_step, return_ok. pace. Qed.
Lemma proxy_step_paced t0 c : paced t0 proxy_step c.
Proof. unfold proxy_step. pace. Qed.
Lemma scaling_step_paced t0 sts n c : paced t0 (scaling_step sts n) c.
Proof. unfold scaling_step, return_ok. pace. Qed.

(** *** The rolling restart *)

(** The drain of a rolling restart started before the pass reads the clock. *)
Definition on_time t c : Prop :=
  in_int32 (ct_DrainWaitSecs (sp_Cluster (cl_Spec c))) ∧
  ∀ st now, rolling c = Some st → @Entry Ev Ans Now now ∈ t → (rr_PhaseStartedAt st <= now)%Z.

Lemma drain_positive c elapsed :
  in_int32 (ct_DrainWaitSecs (sp_Cluster (cl_Spec c))) → (0 <= elapsed < drain_wait c)%Z →
  (0 < int64 (int64 (drain_wait c - elapsed) + Second))%Z.
Proof.
  intros Hi He. assert (0 < drain_wait c <= 2 ^ 31 * Second)%Z as Hd.
  { clear He. unfold drain_wait, seconds, Second. unfold in_int32 in Hi.
    rewrite int64_id by (unfold in_int64; lia). case_bool_decide; lia. }
  unfold Second in *. rewrite (int64_id (drain_wait c - elapsed)) by (unfold in_int64; lia).
  rewrite int64_id by (unfold in_int64; lia). lia.
Qed.

Lemma rolling_phase_paced ctx c0 st ur c t c' r :
  (rr_Phase st = RollingRestartDraining → on_time t c ∧ rolling c = Some st) →
  exec (rolling_phase ctx c0 st ur c) t (Done (c', inr (Some r))) → (0 < res_RequeueAfter r)%Z.
Proof.
  intros Hd He. revert Hd.
  assert (wp (rolling_phase ctx c0 st ur c) (λ t o, ∀ c' r, o = Done (c', inr (Some r)) →
    (rr_Phase st = RollingRestartDraining → on_time t c ∧ rolling c = Some st) →
    (0 < res_RequeueAfter r)%Z)) as Hwp; [|exact (proj1 (wp_exec _ _) Hwp t _ He _ _ eq_refl)].
  unfold rolling_phase. destruct (rr_Phase st) eqn:Hph; cbn [wp pure].
  2: { (* Draining *)
    unfold rollingRestartDraining. rolling_go; intros; simplify_eq; try (cbn; unfold Second; lia).
    bools. match goal with Hd : RollingRestartDraining = _ → _ |- _ =>
      destruct (Hd eq_refl) as [[Hi Ht] Hr] end.
    apply drain_positive; [done|]. split; [|done].
    assert (rr_PhaseStartedAt st <= x)%Z by (apply (Ht st x Hr); left).
    unfold Sub, minDuration, maxDuration. lia. }
  1: unfold rollingRestartExcluding.
  2: unfold rollingRestartWaitingReady.
  all: rolling_go; intros; simplify_eq; cbn; unfold Second; lia.
Qed.

Lemma rolling_restart_paced ctx sts n c t c' r :
  honest t → on_time t c → exec (reconcileRollingRestart ctx sts n c) t (Done (c', inr (Some r))) →
  (0 < res_RequeueAfter r)%Z.
Proof.
  intros Hh Ht He. destruct (pass_shape _ _ _ _ _ _ Hh He) as [Hs|Hs].
  { destruct Hs as [Hs _]. by edestruct Hs. }
  destruct Hs as (t1 & t2 & c1 & st & s & -> & Hr & _ & _ & _ & _ & Hst).
  eapply rolling_phase_paced; [|exact Hr]. intros Hp.
  destruct Hst as [(? & -> & _)|(_ & now & -> & _)]; [|done]. split; [|done].
  destruct Ht as [Hi Ht]. split; [done|]. intros st' now Hst' Hin. eapply Ht; [done|].
  apply elem_of_app. by right.
Qed.

Lemma rolling_restart_step_paced t0 ctx sts n c :
  honest t0 → on_time t0 c → paced t0 (rolling_restart_step ctx sts n) c.
Proof.
  intros Hh [Hi Ht]. unfold rolling_restart_step. apply paced_bind. intros t1 c1 c2 _ [-> [= -> ->]].
  destruct (ProxyEnabled c); [|by apply paced_pure].
  apply paced_rbind; [pace|]. intros t2 r c3 Ht2 He.
  destruct r as [res|]; [|by apply paced_pure]. apply paced_pure. unfold or_fail in He.
  apply exec_m_bind in He as [(t3 & t4 & c4 & [e|r] & -> & He & H2)|[_ ?]]; [| |done].
  { by apply setFailedStatus_returns in H2 as [? ?]. }
  destruct H2 as [-> ?]. simplify_eq. rewrite app_nil_r in Ht2.
  eapply (rolling_restart_paced ctx sts n c t3); [| |exact He].
  - unfold honest in *. rewrite Forall_forall in Hh |- *. intros x Hx. apply Hh. by apply Ht2.
  - split; [done|]. intros st now Hst Hin. eapply Ht; [done|]. by apply Ht2.
Qed.

(** ** The pass *)

(** The first two steps end it only for a paused cluster and one being deleted. *)
Lemma pause_check_ends c t c' fin :
  exec (pause_check c) t (Done (c', inl fin)) → sp_Paused (cl_Spec c) = true ∧ fin = (no_requeue, None).
Proof.
  unfold pause_check. intros [(t1 & t2 & c1 & a & -> & [-> [= -> ->]] & H2)|[_ ?]]%exec_m_bind;
    [|done].
  destruct (sp_Paused _); [|repeat (apply exec_m_bind in H2 as [(? & ? & ? & ? & -> & _ & H2)|[_ ?]];
    [|done]); by destruct H2 as [_ ?]].
  split; [done|].
  repeat (apply exec_m_bind in H2 as [(? & ? & ? & ? & -> & _ & H2)|[_ ?]]; [|done]).
  destruct H2 as [_ ?]. by simplify_eq.
Qed.

Lemma deletion_ends c t c' res :
  exec (deletion c) t (Done (c', inl (res, None))) →
  is_Some (om_DeletionTimestamp (cl_Meta c)) ∧ res = no_requeue.
Proof.
  assert (wp (deletion c) (λ t o, ∀ c' res, o = Done (c', inl (res, None)) →
    is_Some (om_DeletionTimestamp (cl_Meta c)) ∧ res = no_requeue)) as Hwp;
    [|intros He; exact (proj1 (wp_exec _ _) Hwp t _ He _ _ eq_refl)].
  unfold deletion, record_event, modify_finalizers, rbind, or_return, UpdateCluster, return_ok,
    return_err. prog_go; intros; simplify_eq; try done; by split; [eexists|].
Qed.

(** The rest of the preparation keeps the spec and the rolling restart of the cluster,
    or takes over the cluster the API server answered to the finalizer. *)
Definition kept c t c' : Prop :=
  (cl_Spec c' = cl_Spec c ∧ rolling c' = rolling c) ∨
  ∃ c1, @Entry Ev Ans (Update KCluster c1) (inr c') ∈ t.

Lemma kept_mono c t u c' : t ⊆ u → kept c t c' → kept c u c'.
Proof. intros Hs [?|(c1 & Hc)]; [by left|right]. exists c1. by apply Hs. Qed.

Lemma pause_check_kept c t c' :
  exec (pause_check c) t (Done (c', inr tt)) → cl_Spec c' = cl_Spec c ∧ rolling c' = rolling c ∧
    cl_Meta c' = cl_Meta c.
Proof.
  unfold pause_check. intros [(t1 & t2 & c1 & a & -> & [-> [= -> ->]] & H2)|[_ ?]]%exec_m_bind; [|done].
  destruct (sp_Paused _).
  - repeat (apply exec_m_bind in H2 as [(? & ? & ? & ? & -> & _ & H2)|[_ ?]]; [|done]).
    by destruct H2 as [_ ?].
  - destruct H2 as [-> ?]. by simplify_eq.
Qed.

Lemma ensure_finalizer_kept c t c' :
  exec (ensure_finalizer c) t (Done (c', inr tt)) → kept c t c'.
Proof.
  unfold ensure_finalizer. intros [(t1 & t2 & c1 & a & -> & [-> [= -> ->]] & H2)|[_ ?]]%exec_m_bind;
    [|done].
  destruct (ContainsFinalizer _ _); [destruct H2 as [-> ?]; simplify_eq; by left|].
  apply exec_m_bind in H2 as [(t3 & t4 & c1 & [] & -> & [-> [= ->]] & H2)|[_ ?]]; [|done].
  unfold or_return in H2. apply exec_m_bind in H2 as [(t5 & t6 & c2 & r & -> & H1 & H2)|[_ ?]]; [|done].
  apply UpdateCluster_exec in H1 as ([e|c3] & -> & ?); simplify_eq; destruct H2 as [-> ?]; simplify_eq.
  right. eexists. by left.
Qed.

(** The part of the preparation after the finalizer. *)
Lemma prepare_kept ctx c t c' p :
  exec (prepare ctx c) t (Done (c', inr p)) → kept c t c'.
Proof.
  unfold prepare. intros He.
  apply exec_rbind_ok in He as (t1 & t2 & c1 & [] & -> & (Hs & Hr & _)%pause_check_kept & He).
  apply exec_rbind_ok in He as (t3 & t4 & c2 & [] & -> & (_ & _ & ->)%deletion_ok & He).
  apply exec_rbind_ok in He as (t5 & t6 & c3 & [] & -> & Hk%ensure_finalizer_kept & He).
  apply exec_m_bind in He as [(t7 & t8 & c4 & a & -> & [-> [= -> ->]] & He)|[_ ?]]; [|done].
  apply exec_rbind_ok in He as (t9 & t10 & c4 & n & -> & [-> _]%previous_replicas_ok & He).
  apply exec_rbind_ok in He as (t11 & t12 & c4 & [] & -> & [-> _]%or_fail_on_cluster_ok & He).
  apply exec_rbind_ok in He as (t13 & t14 & c4 & ctx2 & -> & ->%auth_step_ok & He).
  apply exec_rbind_ok in He as (t15 & t16 & c4 & [] & -> & [-> _]%or_fail_on_cluster_ok & He).
  apply exec_rbind_ok in He as (t17 & t18 & c4 & [] & -> & [-> _]%best_effort_ok & He).
  apply exec_rbind_ok in He as (t19 & t20 & c4 & [] & -> & [-> _]%or_fail_on_cluster_ok & He).
  apply exec_rbind_ok in He as (t21 & t22 & c4 & [] & -> & [-> _]%or_fail_on_cluster_ok & He).
  destruct He as [-> ?]. simplify_eq. destruct Hk as [[? ?]|(c5 & Hin)].
  - left. split; congruence.
  - right. exists c5. set_solver.
Qed.

(** How the preparation ends a pass without an error. *)
Lemma prepare_ends t0 ctx c t c' res :
  t ⊆ t0 → exec (prepare ctx c) t (Done (c', inl (res, None))) →
  (0 < res_RequeueAfter res)%Z ∨
  (res = no_requeue ∧ (sp_Paused (cl_Spec c) = true ∨ is_Some (om_DeletionTimestamp (cl_Meta c)))).
Proof.
  intros Ht. unfold prepare.
  intros [(t1 & t2 & c1 & [] & -> & Hp%pause_check_kept & He)|[(c1 & fin & Hp & ?)|[_ ?]]]%exec_rbind;
    simplify_eq.
  2: { apply pause_check_ends in Hp as [? ?]. simplify_eq. right. auto. }
  destruct Hp as (_ & _ & Hm).
  apply exec_rbind in He as [(t3 & t4 & c2 & [] & -> & _ & He)|[(c2 & fin & Hd & ?)|[_ ?]]];
    simplify_eq.
  2: { apply deletion_ends in Hd as [? ?]. rewrite Hm in *. right. auto. }
  left. revert He. assert (∀ m : CM (Final + (Ctx * Z * Z * string)), paced t0 m c2 →
    exec (m c2) t4 (Done (c', inl (res, None))) → (0 < res_RequeueAfter res)%Z) as Hpace.
  { intros m Hm' He. eapply Hm'; [|done]. set_solver. }
  refine (Hpace _ _). apply paced_rbind; [apply ensure_finalizer_paced|]. intros ? ? ? _ _.
  apply paced_bind. intros ? ? ? _ _. apply paced_rbind; [apply previous_replicas_paced|].
  intros ? ? ? _ _. apply paced_rbind; [pace|]. intros ? ? ? _ _.
  apply paced_rbind; [apply auth_step_paced|]. intros ? ? ? _ _. pace.
Qed.

Lemma converge_paced t0 ctx sts p n h c :
  honest t0 → on_time t0 c → paced t0 (converge ctx sts p n h) c.
Proof.
  intros Hh Ht. unfold converge. apply paced_rbind; [pace|].
  intros t1 [] c1 _ [-> _]%or_fail_on_cluster_ok.
  apply paced_rbind; [apply proxy_step_paced|]. intros t2 [] c2 _ Hp.
  assert (c2 = c) as ->.
  { unfold proxy_step in Hp. apply exec_m_bind in Hp as [(? & ? & ? & ? & -> & [-> [= -> ->]] & Hp)|[_ ?]];
      [|done].
    destruct (ProxyEnabled c); [by apply best_effort_ok in Hp as [-> _]|by destruct Hp as [_ ?]; simplify_eq]. }
  apply paced_rbind; [by apply rolling_restart_step_paced|]. intros ? ? ? _ _.
  apply paced_rbind; [apply scaling_step_paced|]. intros ? ? ? _ _.
  unfold orphan_pvc_step, service_monitor_step. pace.
Qed.

(** The clusters in the answers of a pass: the clock is not behind the times in their
    status, and the drain wait is a 32-bit integer. *)
Definition clock_ahead t : Prop :=
  ∀ c, ((∃ ns name, @Entry Ev Ans (Get KCluster ns name) (inr c) ∈ t) ∨
        (∃ c1, @Entry Ev Ans (Update KCluster c1) (inr c) ∈ t)) → on_time t c.

End Pass.

(** ** Witness *)

(** An answer with a cluster that is in no rolling restart and drains for five seconds. *)
Definition quiet_cluster (c : HyperbytedbCluster) : bool :=
  match rolling c with None => true | _ => false end &&
  (ct_DrainWaitSecs (sp_Cluster (cl_Spec c)) =? 5)%Z.
Definition quiet_entry (x : entry Ans) : bool :=
  match entry_ev x as e return Ans e → bool with
  | Get k _ _ =>
      match k return GoErr + obj k → bool with
      | KCluster => λ a, match a with inr c => quiet_cluster c | _ => true end
      | _ => λ _, true
      end
  | Update k _ =>
      match k return GoErr + obj k → bool with
      | KCluster => λ a, match a with inr c => quiet_cluster c | _ => true end
      | _ => λ _, true
      end
  | _ => λ _, true
  end (entry_ans x).

Lemma quiet_clock_ahead t : forallb quiet_entry t = true → clock_ahead t.
Proof.
  rewrite forallb_forall. intros Hq c Hc.
  assert (quiet_cluster c = true) as [Hr Hd]%andb_true_iff.
  { destruct Hc as [(ns & name & Hin)|(c1 & Hin)]; exact (Hq _ (proj1 (list_elem_of_In _ _) Hin)). }
  apply Z.eqb_eq in Hd. split; [rewrite Hd; unfold in_int32; lia|].
  intros st now Hst. by rewrite Hst in Hr.
Qed.

