(* ===== verification/Isolation.v ===== *)
(** A controller stays in the namespace of its object, and what it creates it owns. *)

From S2P Require Import Prelude GoStrings Messages Lib ApiTypes Image Compat Config K8s StatefulSet Prog Go Client Proxy Auth Controller RollingRestart Resources ScaleDown Members Reconcile S3 Backup Restore Demo RollingRestartTheorems ReconcileTheorems.
#[local] Open Scope string_scope.

Section Isolation.
Context `{Lib}.

(** ** Namespaces and owners *)

Definition meta_of (k : Kind) : obj k → ObjectMeta :=
  match k with
  | KCluster => cl_Meta | KBackup => bk_Meta | KRestore => re_Meta
  | KPod => pod_Meta | KStatefulSet => sts_Meta | KDeployment => dep_Meta
  | KService => svc_Meta | KConfigMap => cm_Meta | KSecret => sec_Meta
  | KPDB => pdb_Meta | KHPA => hpa_Meta | KServiceMonitor => sm_Meta
  | KPVC => pvc_Meta | KJob => job_Meta | KCronJob => cj_Meta
  end.

(** The API server answers a request with the object it is about. *)
Definition answers_request (e : Ev) : Ans e → Prop :=
  let same k (m : ObjectMeta) (a : GoErr + obj k) :=
    ∀ o, a = inr o → om_Namespace (meta_of k o) = om_Namespace m ∧ om_Name (meta_of k o) = om_Name m in
  match e with
  | Get k ns name => λ a,
      ∀ o, a = inr o → om_Namespace (meta_of k o) = ns ∧ om_Name (meta_of k o) = name
  | Create k o => same k (meta_of k o)
  | Update k o => same k (meta_of k o)
  | StatusUpdate k o => same k (meta_of k o)
  | _ => λ _, True
  end.

Definition truthful (t : list (entry Ans)) : Prop :=
  Forall (λ x, answers_request (entry_ev x) (entry_ans x)) t.

(** A call about the namespace [ns]; an object it creates has the owner [name], or is
    a Secret without an owner under the name the user chose for the credentials. *)
Definition at_home (ns name : string) (e : Ev) : Prop :=
  match e with
  | Get _ ns' _ | Delete _ ns' _ _ | ListPods ns' _ => ns' = ns
  | Create k o =>
      om_Namespace (meta_of k o) = ns ∧
      (om_Owner (meta_of k o) = Some name ∨
       k = KSecret ∧ om_Owner (meta_of k o) = None ∧ om_Name (meta_of k o) ≠ "")
  | Update k o | StatusUpdate k o => om_Namespace (meta_of k o) = ns
  | PatchSts b s => om_Namespace (sts_Meta b) = ns ∧ om_Namespace (sts_Meta s) = ns
  | _ => True
  end.

Abbreviation stays ns name p R := (obeys answers_request (at_home ns name) p R).

(** Calls that are not on the API server. *)
Definition off_server (e : Ev) : Prop :=
  match e with
  | Now | RandRead _ | GenerateCert _ _ | Http _ | Event _ _ _ => True
  | _ => False
  end.

Lemma off_server_stays {A} ns name (p : P A) : emits off_server p → stays ns name p (λ _, True).
Proof.
  intros He. apply emits_obeys. eapply emits_mono; [|exact He]. intros e. by destruct e.
Qed.

(** ** Programs that stay at home *)

Section Home.
Variables ns name : string.
Abbreviation home p R := (stays ns name p R).

(** The object a reconciler works on, and a step over it. *)
Definition here (m : ObjectMeta) : Prop := om_Namespace m = ns ∧ om_Name m = name.
Definition homely {S A} (meta : S → ObjectMeta) (m : M S A) : Prop :=
  ∀ s, here (meta s) → home (m s) (λ r, here (meta r.1)).

Lemma home_bind {A B} (p : P A) (f : A → P B) R R' :
  home p R → (∀ a, R a → home (f a) R') → home (p ≫= f) R'.
Proof. apply obeys_bind. Qed.
Lemma home_pbind {A B} (p : P (GoErr + A)) (f : A → P (GoErr + B)) R (R' : GoErr + B → Prop) :
  home p (λ r, ∀ a, r = inr a → R a) → (∀ e, R' (inl e)) → (∀ a, R a → home (f a) R') →
  home (pbind p f) R'.
Proof.
  intros Hp He Hf. unfold pbind. eapply home_bind; [exact Hp|]. intros [e|a] Ha; [apply He|]. auto.
Qed.
Lemma home_any {A} (p : P A) R : home p R → home p (λ _, True).
Proof. intros Hp. eapply obeys_mono; [exact Hp|done]. Qed.

Section Steps.
Context {S : Type} (meta : S → ObjectMeta).
Lemma homely_bind {A B} (m : M S A) (f : A → M S B) :
  homely meta m → (∀ a, homely meta (f a)) → homely meta (m ≫= f).
Proof. intros Hm Hf s Hs. eapply obeys_bind; [by apply Hm|]. intros [s' a] Hs'. by apply Hf. Qed.
Lemma homely_pure {A} (a : A) : homely meta (pure a).
Proof. by intros s Hs. Qed.
Lemma homely_panic {A} : homely meta (panic (A := A)).
Proof. by intros s Hs. Qed.
Lemma homely_get {A} (f : S → M S A) :
  (∀ s, here (meta s) → homely meta (f s)) → homely meta (get ≫= f).
Proof. intros Hf s Hs. by apply Hf. Qed.
Lemma homely_ebind {A B} (m : M S (GoErr + A)) (f : A → M S (GoErr + B)) :
  homely meta m → (∀ a, homely meta (f a)) → homely meta (ebind m f).
Proof. intros Hm Hf. apply homely_bind; [done|]. intros [e|a]; [apply homely_pure|auto]. Qed.
Lemma homely_modify f : (∀ s, meta (f s) = meta s) → homely meta (modify f).
Proof. intros Hf s Hs. simpl. by rewrite Hf. Qed.
Lemma homely_lift {A} (p : P A) R : home p R → homely meta (lift p).
Proof. intros Hp s Hs. eapply obeys_bind; [exact Hp|]. by intros a _. Qed.
Lemma homely_lift_bind {A B} (p : P A) (f : A → M S B) R :
  home p R → (∀ a, R a → homely meta (f a)) → homely meta (lift p ≫= f).
Proof.
  intros Hp Hf s Hs. eapply obeys_bind; [eapply obeys_bind; [exact Hp|]|].
  - intros a Ha. cbn. exact (conj Hs Ha : (λ r : S * A, here (meta r.1) ∧ R r.2) (s, a)).
  - intros [s' a] [Hs' Ha]. by apply Hf.
Qed.
Lemma homely_off {A} (p : P A) : emits off_server p → homely meta (lift p).
Proof. intros Hp. eapply homely_lift, off_server_stays. exact Hp. Qed.
End Steps.
End Home.
End Isolation.

Create HintDb home.

(** Symbolic execution of a program that should stay at home. *)
Ltac home_scrut :=
  match goal with
  | |- obeys _ _ ?p _ => let x := prog_scrut p in destruct x eqn:?
  end.
Ltac destruct_pairs := repeat match goal with p : (_ * _)%type |- _ => destruct p end.
(** Facts about the value a program returned. *)
Ltac use_results :=
  repeat match goal with
  | Hx : ∀ o, inr ?a = inr o → _ |- _ => specialize (Hx _ eq_refl)
  | Hx : ∀ o, inr (Some ?a) = inr (Some o) → _ |- _ => specialize (Hx _ eq_refl)
  | Hx : ∀ b o, inr (?x, ?y) = inr (b, o) → _ |- _ => specialize (Hx _ _ eq_refl)
  end.
Ltac home_leaf :=
  destruct_pairs; simplify_eq/=; use_results;
  repeat match goal with Hx : sec_Meta ?s = _ |- _ => rewrite Hx in *; clear Hx end;
  cbn [at_home answers_request meta_of sts_Meta svc_Meta cm_Meta sec_Meta pdb_Meta hpa_Meta dep_Meta
       sm_Meta job_Meta cj_Meta] in *;
  unfold cl_Namespace, cl_Name, here, owned, set_owner, new_meta in *;
  cbn [om_Namespace om_Name om_Owner] in *;
  first [congruence|naive_solver congruence].
Ltac home_with leaf :=
  intros; unfold pbind, create, update, delete_object, event, wrapping, make_slice;
  prog_unfold;
  repeat first
    [ progress cbn [obeys Prog.bind fst snd]
    | progress intros
    | lazymatch goal with |- obeys _ _ (Prog.bind (Prog.bind _ _) _) _ => eapply obeys_bind end
    | lazymatch goal with |- obeys _ _ (Prog.bind _ _) _ => eapply obeys_bind; [solve [eauto with home]|] end
    | solve [eauto with home]
    | home_scrut
    | lazymatch goal with |- _ ∧ ∀ _, _ => split; [solve [leaf tt]|] end
    | done ].
Ltac home := home_with ltac:(fun _ => home_leaf).

Section Resources.
Context `{Lib}.
Variables ns name : string.
Implicit Types (c : HyperbytedbCluster) (ctx : Ctx).
Abbreviation home p R := (obeys answers_request (at_home ns name) p R).
Abbreviation mine c := (here ns name (cl_Meta c)).

Lemma lookup_home k ns' n : ns' = ns → home (lookup_object k ns' n)
  (λ r, ∀ o, r = inr (Some o) → om_Namespace (meta_of k o) = ns).
Proof.
  intros ->. unfold lookup_object. prog_unfold. cbn [obeys Prog.bind]. split; [done|].
  intros [e|o'] Ho; [by destruct (IsNotFound e)|]. intros o [= <-]. by destruct (Ho o' eq_refl).
Qed.
#[local] Hint Resolve lookup_home : home.

Lemma BuildTLS_home c ns' n : home (BuildSelfSignedTLSSecret c ns' n)
  (λ r, ∀ s, r = inr s → om_Namespace (sec_Meta s) = ns' ∧ om_Name (sec_Meta s) = TLSSecretName c).
Proof. unfold BuildSelfSignedTLSSecret. home; naive_solver. Qed.
#[local] Hint Resolve BuildTLS_home : home.
Lemma reconcileTLS_home c n : mine c → home (reconcileTLS c n) (λ _, True).
Proof. intros [Hn ?]. unfold reconcileTLS, ensure_self_signed. home. Qed.

Lemma FillAuth_home s : home (FillAuthSecret s)
  (λ r, ∀ b s', r = inr (b, s') → sec_Meta s' = sec_Meta s).
Proof.
  unfold FillAuthSecret. generalize false. revert s.
  assert (Forall (λ kv, home kv.2 (λ _, True)) auth_keys) as Hk.
  { unfold auth_keys, randomSecret. repeat constructor; home. }
  induction Hk as [|[k value] l Hv _ IH]; intros s b; cbn [fill_keys].
  { intros ? ? [= <- <-]. done. }
  destruct (negb _); [apply IH|]. eapply home_pbind; [..|].
  - eapply obeys_mono; [exact Hv|]. intros r _ a _. exact I.
  - done.
  - intros v _. eapply obeys_mono; [apply IH|]. cbn. intros r Hr b' s' ->. by rewrite (Hr b' s').
Qed.
#[local] Hint Resolve FillAuth_home : home.
Lemma BuildAuth_home c : home (BuildAuthSecret c)
  (λ r, ∀ s, r = inr s → sec_Meta s = new_meta (AuthSecretName c) (cl_Namespace c) (CommonLabels c)).
Proof. unfold BuildAuthSecret. home. destruct_pairs. simplify_eq/=. eauto. Qed.
#[local] Hint Resolve BuildAuth_home : home.
Lemma reconcileAuthSecret_home c : mine c → home (reconcileAuthSecret c) (λ _, True).
Proof.
  intros [Hn ?]. unfold reconcileAuthSecret, create_auth_secret. home.
  use_results. unfold AuthSecretName in *. split; [|home].
  destruct (String.eqb (auth_CredentialsSecretName _) "") eqn:E; bools; home_leaf.
Qed.

Lemma reconcileConfigMap_home c : mine c → home (reconcileConfigMap c) (λ _, True).
Proof. intros [Hn ?]. unfold reconcileConfigMap. home. Qed.
Lemma cleanupLegacyPeers_home c : mine c → home (cleanupLegacyPeersConfigMap c) (λ _, True).
Proof. intros [Hn ?]. unfold cleanupLegacyPeersConfigMap. home. Qed.
Lemma reconcileService_home c s :
  mine c → om_Namespace (svc_Meta s) = ns → home (reconcileService c s) (λ _, True).
Proof. intros [Hn ?] Hs. unfold reconcileService, owned_service, service_with. home. Qed.
Lemma desired_sts_home c h : mine c →
  om_Namespace (sts_Meta (desired_sts c h)) = ns ∧ om_Owner (sts_Meta (desired_sts c h)) = Some name.
Proof. intros [<- <-]. unfold desired_sts. destruct (ProxyEnabled c); done. Qed.
Lemma reconcileStatefulSet_home c h : mine c → home (reconcileStatefulSet c h) (λ _, True).
Proof.
  intros Hc. destruct (desired_sts_home c h Hc). destruct Hc as [Hn ?].
  unfold reconcileStatefulSet, sts_with, sts_result. home.
Qed.
Lemma reconcileServiceMonitor_home c : mine c → home (reconcileServiceMonitor c) (λ _, True).
Proof. intros [Hn ?]. unfold reconcileServiceMonitor. home. Qed.
Lemma reconcilePDB_home c : mine c → home (reconcilePDB c) (λ _, True).
Proof. intros [Hn ?]. unfold reconcilePDB. home. Qed.
Lemma reconcileHPA_home c : mine c → home (reconcileHPA c) (λ _, True).
Proof. intros [Hn ?]. unfold reconcileHPA. home. Qed.
Lemma proxy_service_home c : mine c → home (reconcile_proxy_service c) (λ _, True).
Proof.
  intros [Hn ?]. unfold reconcile_proxy_service, owned_service, service_with. cbn zeta.
  eapply obeys_bind; [by apply (lookup_home KService)|]. home.
Qed.
Lemma proxy_deployment_home c : mine c → home (reconcile_proxy_deployment c) (λ _, True).
Proof.
  intros [Hn ?]. unfold reconcile_proxy_deployment, deployment_with. cbn zeta.
  eapply obeys_bind; [by apply (lookup_home KDeployment)|]. home.
Qed.
#[local] Hint Resolve proxy_service_home proxy_deployment_home : home.
Lemma reconcileProxy_home c : mine c → home (reconcileProxy c) (λ _, True).
Proof. intros Hc. unfold reconcileProxy. home. Qed.

(** *** Nodes and proxies *)

Lemma client_home {A} (p : P A) : emits off_server p → home p (λ _, True).
Proof. apply off_server_stays. Qed.
Ltac client := intros; apply client_home; unfold Do; prog_emits.

Lemma GetNodeHealth_home ctx h p : home (GetNodeHealth ctx h p) (λ _, True).
Proof. unfold GetNodeHealth. client. Qed.
Lemma GetClusterNodes_home ctx h p : home (GetClusterNodes ctx h p) (λ _, True).
Proof. unfold GetClusterNodes. client. Qed.
Lemma GetClusterLeader_home ctx h p : home (GetClusterLeader ctx h p) (λ _, True).
Proof. unfold GetClusterLeader. client. Qed.
Lemma GetSyncManifest_home ctx h p : home (GetSyncManifest ctx h p) (λ _, True).
Proof. unfold GetSyncManifest. client. Qed.
Lemma DecommissionNode_home ctx h p : home (DecommissionNode ctx h p) (λ _, True).
Proof. unfold DecommissionNode. client. Qed.
Lemma LeaveNode_home ctx h p i : home (LeaveNode ctx h p i) (λ _, True).
Proof. unfold LeaveNode. client. Qed.
Lemma RemoveClusterNode_home ctx h p i : home (RemoveClusterNode ctx h p i) (λ _, True).
Proof. unfold RemoveClusterNode. client. Qed.
Lemma AddClusterNode_home ctx h p i a b : home (AddClusterNode ctx h p i a b) (λ _, True).
Proof. unfold AddClusterNode. client. Qed.
Lemma ExcludeProxyBackend_home ctx h p i : home (ExcludeProxyBackend ctx h p i) (λ _, True).
Proof. unfold ExcludeProxyBackend. client. Qed.
Lemma IncludeProxyBackend_home ctx h p i : home (IncludeProxyBackend ctx h p i) (λ _, True).
Proof. unfold IncludeProxyBackend. client. Qed.
#[local] Hint Resolve GetNodeHealth_home GetClusterNodes_home GetClusterLeader_home
  GetSyncManifest_home DecommissionNode_home LeaveNode_home RemoveClusterNode_home
  AddClusterNode_home ExcludeProxyBackend_home IncludeProxyBackend_home : home.

Lemma for_each_err_home {A} (l : list A) (body : A → P error) :
  (∀ a, home (body a) (λ _, True)) → home (for_each_err l body) (λ _, True).
Proof. intros Hb. induction l as [|a l IH]; cbn [for_each_err]; [done|]. home. Qed.

(** *** Scaling down *)

Lemma probe_home ctx c b l : home (probe_departing ctx c b l) (λ _, True).
Proof. induction l; cbn [probe_departing]; home. Qed.
Lemma tell_departing_home ctx c hs l : home (tell_departing ctx c hs l) (λ _, True).
Proof. induction l; cbn [tell_departing]; home. Qed.
Lemma leader_among_home ctx hs p l : home (leader_among ctx hs p l) (λ _, True).
Proof. induction l; cbn [leader_among]; home. Qed.
#[local] Hint Resolve probe_home tell_departing_home leader_among_home : home.
Lemma removeDepartedVoters_home ctx hs p l : home (removeDepartedVoters ctx hs p l) (λ _, True).
Proof. induction l; cbn [removeDepartedVoters]; unfold raftLeaderHost; home. Qed.
Lemma tell_survivors_home ctx c i l : home (tell_survivors ctx c i l) (λ _, True).
Proof. induction l; cbn [tell_survivors]; home. Qed.
#[local] Hint Resolve removeDepartedVoters_home tell_survivors_home : home.
Lemma announce_home ctx c d l : home (announce_departed ctx c d l) (λ _, True).
Proof. induction l; cbn [announce_departed]; home. Qed.
#[local] Hint Resolve announce_home : home.
Lemma hooks_home ctx c p d : home (runScaleDownClusterHooks ctx c p d) (λ _, True).
Proof. unfold runScaleDownClusterHooks. home. Qed.

Lemma get_pods_home c l : mine c → home (get_pods c l)
  (λ r, ∀ pods, r = inr pods → Forall (λ p, om_Namespace (pod_Meta p) = ns) pods).
Proof.
  intros Hc. induction l as [|i l IH]; cbn [get_pods]; [by intros ? [= <-]|].
  destruct Hc as [Hn ?]. home. simplify_eq. use_results. constructor; [|done].
  cbn [answers_request meta_of] in *. use_results. unfold cl_Namespace in *. naive_solver.
Qed.
#[local] Hint Resolve get_pods_home : home.
Lemma deleteStuckDepartedPods_home c s : mine c → home (deleteStuckDepartedPods c s) (λ _, True).
Proof.
  intros Hc. unfold deleteStuckDepartedPods. case_bool_decide; [done|].
  eapply home_pbind with (R := Forall (λ p, om_Namespace (pod_Meta p) = ns)); [|done|].
  - unfold make_slice. case_bool_decide; [by apply get_pods_home|done].
  - intros pods Hp. assert (Forall (λ p, om_Namespace (pod_Meta p) = ns) (stuckDepartedPods pods)) as Hs.
    { rewrite Forall_forall in Hp |- *. intros p Hin. apply Hp.
      by apply list_elem_of_In, filter_In in Hin as [?%list_elem_of_In _]. }
    clear Hp. induction Hs as [|p l Hp _ IH]; cbn [for_each_err]; [done|].
    unfold delete_departed. home.
Qed.
Lemma cleanup_pvc_home c i : mine c → home (cleanup_pvc c i) (λ _, True).
Proof. intros [Hn ?]. unfold cleanup_pvc. home. Qed.
Lemma CleanupOrphanPVCs_home c a b : mine c → home (CleanupOrphanPVCs c a b) (λ _, True).
Proof. intros. apply for_each_err_home. intros. by apply cleanup_pvc_home. Qed.

Lemma get_home k ns' n : ns' = ns → home (do (Get k ns' n)) (λ _, True).
Proof. intros ->. by prog_unfold. Qed.
Lemma get_mine k c n : mine c → home (do (Get k (cl_Namespace c) n)) (λ _, True).
Proof. intros [Hn _]. by apply get_home. Qed.

(** *** Steps over the cluster *)

Abbreviation keeps m := (homely ns name cl_Meta m).

Lemma keeps_rbind {A B} (m : CM (Final + A)) (f : A → CM (Final + B)) :
  keeps m → (∀ a, keeps (f a)) → keeps (rbind m f).
Proof. intros Hm Hf. apply homely_bind; [done|]. intros [e|a]; [apply homely_pure|auto]. Qed.
Lemma keeps_on_cluster {A} (f : HyperbytedbCluster → P A) :
  (∀ c, mine c → home (f c) (λ _, True)) → keeps (on_cluster f).
Proof. intros Hf. apply homely_get. intros c Hc. eapply homely_lift. by apply Hf. Qed.
Lemma keeps_lift {A} (p : P A) : home p (λ _, True) → keeps (lift p).
Proof. apply homely_lift. Qed.
Lemma keeps_event ty r m : keeps (record_event ty r m).
Proof. apply homely_off. prog_emits. Qed.
Lemma keeps_status f : keeps (modify_status f).
Proof. by apply homely_modify. Qed.
Lemma keeps_rolling f : keeps (modify_rolling f).
Proof. apply keeps_status. Qed.
Lemma keeps_StatusUpdate : keeps StatusUpdateCluster.
Proof.
  intros c Hc. unfold StatusUpdateCluster. prog_unfold. cbn [obeys Prog.bind fst snd at_home meta_of].
  split; [by destruct Hc|]. intros [e|c'] Hx; cbn; [done|]. destruct (Hx c' eq_refl) as [H1 H2].
  cbn in *. destruct Hc. split; congruence.
Qed.
Lemma keeps_Update : keeps UpdateCluster.
Proof.
  intros c Hc. unfold UpdateCluster. prog_unfold. cbn [obeys Prog.bind fst snd at_home meta_of].
  split; [by destruct Hc|]. intros [e|c'] Hx; cbn; [done|]. destruct (Hx c' eq_refl) as [H1 H2].
  cbn in *. destruct Hc. split; congruence.
Qed.
Lemma keeps_now : keeps (lift (do Now)).
Proof. apply homely_off. prog_emits. Qed.
Lemma keeps_condition mk : keeps (set_cluster_condition mk).
Proof. apply homely_bind; [apply keeps_now|]. intros. apply keeps_status. Qed.
Lemma keeps_phase_now p : keeps (set_phase_now p).
Proof. apply homely_bind; [apply keeps_now|]. intros. apply keeps_rolling. Qed.
Lemma keeps_members f : keeps (update_members f).
Proof. apply keeps_status. Qed.
Lemma keeps_since u : keeps (lift (Since u)).
Proof. apply homely_off. unfold Since. prog_emits. Qed.
Lemma keeps_finalizers f : keeps (modify_finalizers f).
Proof. intros c [? ?]. by split. Qed.
End Resources.

Create HintDb homely.
#[export] Hint Resolve homely_pure homely_panic keeps_event keeps_status keeps_rolling
  keeps_StatusUpdate keeps_Update keeps_now keeps_condition keeps_phase_now keeps_members
  keeps_since keeps_finalizers : homely.
#[export] Hint Resolve reconcileTLS_home reconcileAuthSecret_home reconcileConfigMap_home
  cleanupLegacyPeers_home reconcileStatefulSet_home reconcileServiceMonitor_home
  reconcilePDB_home reconcileHPA_home reconcileProxy_home hooks_home
  deleteStuckDepartedPods_home CleanupOrphanPVCs_home : homely.

(** A step over the cluster, step by step. *)
Ltac homely :=
  intros; unfold or_fail, or_return, best_effort, return_ok, return_err;
  repeat first
    [ solve [eauto with homely]
    | lazymatch goal with
      | |- homely _ _ _ (rbind _ _) => apply keeps_rbind; [|intros]
      | |- homely _ _ _ (ebind _ _) => apply homely_ebind; [|intros]
      | |- homely _ _ _ (get ≫= _) => apply homely_get; intros
      | |- homely _ _ _ (on_cluster _) => apply keeps_on_cluster; intros
      | |- homely _ _ _ (lift _) => apply (homely_lift _ _ _ _ (λ _, True))
      | |- homely _ _ _ (_ ≫= _) => apply homely_bind; [|intros]
      | |- obeys _ _ (do (Get ?k _ _)) _ => apply (get_mine _ _ k); assumption
      end
    | match goal with |- homely _ _ _ (match ?x with _ => _ end) => destruct x end
    | match goal with |- homely _ _ _ (if ?x then _ else _) => destruct x end ].

Section Cluster.
Context `{Lib}.
Variables ns name : string.
Implicit Types (c : HyperbytedbCluster) (ctx : Ctx).
Abbreviation home p R := (obeys answers_request (at_home ns name) p R).
Abbreviation mine c := (here ns name (cl_Meta c)).
Abbreviation keeps m := (homely ns name cl_Meta m).

(** *** The rolling restart *)

Lemma forEach_home c send :
  mine c → (∀ p, home (send p) (λ _, True)) → home (forEachRunningProxy c send) (λ _, True).
Proof.
  intros [Hn ?] Hs. unfold forEachRunningProxy. prog_unfold. cbn [obeys Prog.bind].
  split; [done|]. intros [e|pods] _; [done|]. apply for_each_err_home. intros p.
  unfold send_to_running. destruct (proxyRunning p); [|done].
  eapply obeys_bind; [apply Hs|]. done.
Qed.
Lemma exclude_home ctx c ip p : mine c → home (excludeFromAllProxies ctx c ip p) (λ _, True).
Proof. intros. apply forEach_home; [done|]. intros. apply ExcludeProxyBackend_home. Qed.
Lemma include_home ctx c ip p : mine c → home (includeFromAllProxies ctx c ip p) (λ _, True).
Proof. intros. apply forEach_home; [done|]. intros. apply IncludeProxyBackend_home. Qed.
Lemma releaseOrdinal_home c n : mine c → home (releaseOrdinal c n) (λ _, True).
Proof. intros [Hn ?]. unfold releaseOrdinal, sts_with_rolling. home. Qed.
#[local] Hint Resolve exclude_home include_home releaseOrdinal_home : homely.

Lemma release_keeps st rq : keeps (rollingRestartRelease st rq).
Proof. unfold rollingRestartRelease. homely.
Qed.
#[local] Hint Resolve release_keeps : homely.
Lemma enter_draining_keeps rq : keeps (enter_draining rq).
Proof. unfold enter_draining. homely. Qed.
Lemma ordinal_done_keeps st rq : keeps (ordinal_done st rq).
Proof. unfold ordinal_done, next_ordinal. homely. Qed.
#[local] Hint Resolve enter_draining_keeps ordinal_done_keeps : homely.
Lemma rolling_phase_keeps ctx c0 st ur : keeps (rolling_phase ctx c0 st ur).
Proof.
  unfold rolling_phase, rollingRestartExcluding, rollingRestartDraining, rollingRestartWaitingReady.
  homely.
Qed.
#[local] Hint Resolve rolling_phase_keeps : homely.
Lemma reconcileRollingRestart_keeps ctx s n : keeps (reconcileRollingRestart ctx s n).
Proof.
  unfold reconcileRollingRestart, tryClearCompletedRollingRestart, ensureRollingRestartState,
    start_rolling. homely.
Qed.

(** *** Members *)

Lemma CollectMemberStatuses_home ctx c ns' n : home (CollectMemberStatuses ctx c ns' n) (λ _, True).
Proof.
  apply off_server_stays. unfold CollectMemberStatuses. apply emits_make_slice.
  induction (ordinals_up 0 n); cbn [collect_members]; [done|].
  apply emits_bind; [|intros; apply emits_bind; [done|intros; prog_emits]].
  unfold collect_member, GetNodeHealth, Do. prog_emits.
Qed.
Lemma failover_loop_keeps d ms : keeps (failover_loop d ms).
Proof.
  induction ms as [|m ms IH]; cbn [failover_loop]; [apply homely_pure|].
  destruct (_ || _); [done|]. apply homely_bind; [apply keeps_since|]. intros age.
  case_bool_decide; [done|]. intros c [Hn Hc]. unfold failed_over. prog_unfold.
  cbn [obeys Prog.bind fst snd]. split; [done|]. intros [e|pod] Hp.
  - destruct (IsNotFound e); [by apply IH|by split].
  - cbn [answers_request meta_of] in Hp. use_results. home.
Qed.
Lemma handleAutoFailover_keeps ms : keeps (handleAutoFailover ms).
Proof. unfold handleAutoFailover. pose proof failover_loop_keeps. homely. Qed.
Lemma view_pods_home ctx c l : home (view_pods ctx c l) (λ _, True).
Proof.
  apply off_server_stays. induction l; cbn [view_pods]; [done|].
  apply emits_bind; [|intros; apply emits_bind; [done|intros; prog_emits]].
  unfold view_pod, GetClusterNodes, Do. prog_emits.
Qed.
Lemma findLeader_home ctx vs p : home (findLeader ctx vs p) (λ _, True).
Proof.
  apply off_server_stays. unfold findLeader. generalize vs at 1. intros all.
  induction vs; cbn [find_leader_among]; unfold GetClusterLeader, Do; prog_emits.
Qed.
Lemma add_members_home ctx h p k l : home (add_members ctx h p k l) (λ _, True).
Proof.
  induction l; cbn [add_members]; [done|]. pose proof AddClusterNode_home. home.
Qed.
#[local] Hint Resolve CollectMemberStatuses_home handleAutoFailover_keeps view_pods_home
  findLeader_home add_members_home GetSyncManifest_home : homely.
Lemma slice_home {A} n (p : P A) : home p (λ _, True) → home (make_slice n p) (λ _, True).
Proof. intros Hp. unfold make_slice. by case_bool_decide. Qed.
#[local] Hint Resolve slice_home : homely.
Lemma reconcileClusterMembership_keeps ctx n : keeps (reconcileClusterMembership ctx n).
Proof. unfold reconcileClusterMembership. homely. Qed.
Lemma collect_manifests_keeps ctx l : keeps (collect_manifests ctx l).
Proof. induction l; cbn [collect_manifests]; homely. Qed.
#[local] Hint Resolve reconcileClusterMembership_keeps collect_manifests_keeps : homely.
Lemma monitorReplicationHealth_keeps ctx n : keeps (monitorReplicationHealth ctx n).
Proof. unfold monitorReplicationHealth. homely. Qed.
#[local] Hint Resolve monitorReplicationHealth_keeps reconcileRollingRestart_keeps : homely.

(** *** The pass *)

Lemma setFailedStatus_keeps {A} r e : keeps (setFailedStatus (A := A) r e).
Proof. unfold setFailedStatus. homely. Qed.
#[local] Hint Resolve setFailedStatus_keeps : homely.
Lemma headless_home c : mine c → home (reconcileService c (BuildHeadlessService c)) (λ _, True).
Proof. intros Hc. apply reconcileService_home; [done|]. by destruct Hc. Qed.
Lemma client_service_home c : mine c → home (reconcileService c (BuildClientService c)) (λ _, True).
Proof. intros Hc. apply reconcileService_home; [done|]. by destruct Hc. Qed.
#[local] Hint Resolve headless_home client_service_home : homely.

Lemma prepare_keeps ctx : keeps (prepare ctx).
Proof.
  unfold prepare, pause_check, deletion, ensure_finalizer, previous_replicas, auth_step. homely.
Qed.
#[local] Hint Resolve prepare_keeps : homely.
Lemma converge_keeps ctx s p n h : keeps (converge ctx s p n h).
Proof.
  unfold converge, proxy_step, rolling_restart_step, scaling_step, updatePhase, orphan_pvc_step,
    service_monitor_step, observe, members_step, updateStatus, upgrading. homely.
Qed.
#[local] Hint Resolve converge_keeps : homely.
Lemma reconcile_cluster_keeps ctx : keeps (reconcile_cluster ctx).
Proof. unfold reconcile_cluster, reconcile_steps, scale_down_step, statefulset_step. homely. Qed.
End Cluster.

(** ** Backups and restores *)

Section Jobs.
Context `{Lib}.
Variables ns name : string.
Implicit Types (c : HyperbytedbCluster) (b : HyperbytedbBackup).
Abbreviation home p R := (obeys answers_request (at_home ns name) p R).
Abbreviation backup m := (homely ns name bk_Meta m).
Abbreviation restore m := (homely ns name re_Meta m).
Abbreviation near c := (om_Namespace (cl_Meta c) = ns).

Lemma modify_backup_home f : backup (modify_backup_status f).
Proof. by apply homely_modify. Qed.
Lemma backup_event_home ty r m : backup (backup_event ty r m).
Proof. apply homely_off. prog_emits. Qed.
Lemma backup_now_home : backup (lift (do Now)).
Proof. apply homely_off. prog_emits. Qed.
Lemma StatusUpdateBackup_home : backup StatusUpdateBackup.
Proof.
  intros b [Hn Hb]. unfold StatusUpdateBackup. prog_unfold.
  cbn [obeys Prog.bind fst snd at_home meta_of]. split; [done|].
  intros [e|b'] Hx; cbn; [done|]. destruct (Hx b' eq_refl). cbn in *. split; congruence.
Qed.
#[local] Hint Resolve modify_backup_home backup_event_home backup_now_home StatusUpdateBackup_home : homely.
Lemma backup_condition_home ty st r m : backup (set_backup_condition ty st r m).
Proof. unfold set_backup_condition. homely. Qed.
#[local] Hint Resolve backup_condition_home : homely.

Lemma backup_job_home b c n : here ns name (bk_Meta b) →
  home (create (k := KJob) (owned_job (bk_Name b) (buildBackupJob b c n))) (λ _, True).
Proof. intros [Hn Hb]. home. Qed.
#[local] Hint Resolve backup_job_home : homely.
Lemma start_backup_home c : backup (start_backup c).
Proof. unfold start_backup. homely. Qed.
Lemma backup_succeeded_home : backup backup_succeeded.
Proof. unfold backup_succeeded. homely. Qed.
Lemma backup_failed_home : backup backup_failed.
Proof. unfold backup_failed. homely. Qed.
#[local] Hint Resolve start_backup_home backup_succeeded_home backup_failed_home : homely.
Lemma get_ns k m n : here ns name m → home (do (Get k (om_Namespace m) n))
  (λ r, ∀ o, r = inr o → om_Namespace (meta_of k o) = ns).
Proof.
  intros [Hn _]. prog_unfold. cbn [obeys Prog.bind]. split; [done|]. intros a Ha o Ho.
  rewrite <-Hn. by destruct (Ha o Ho).
Qed.
Lemma lookup_ns k m n : here ns name m → home (lookup_object k (om_Namespace m) n)
  (λ r, ∀ o, r = inr (Some o) → om_Namespace (meta_of k o) = ns).
Proof. intros [Hn _]. by apply lookup_home. Qed.

Lemma reconcileJob_home c : backup (reconcileJob c).
Proof.
  unfold reconcileJob. apply homely_get. intros b Hb.
  eapply homely_lift_bind; [by apply (lookup_ns KJob)|]. intros r _. homely.
Qed.
Lemma reconcileCronJob_home c : backup (reconcileCronJob c).
Proof.
  unfold reconcileCronJob. apply homely_get. intros b Hb.
  eapply homely_lift_bind; [by apply (lookup_ns KCronJob)|]. intros [e|[cj|]] Hcj; [homely| |].
  - use_results. homely. unfold cronjob_with. home.
  - homely. destruct Hb as [Hn ?]. unfold desired_cronjob. home.
Qed.
#[local] Hint Resolve reconcileJob_home reconcileCronJob_home : homely.
Lemma reconcile_backup_home : backup reconcile_backup.
Proof.
  unfold reconcile_backup, cluster_missing. apply homely_get. intros b Hb.
  eapply homely_lift_bind; [by apply get_ns|]. intros r _. homely.
Qed.

(** *** Restores *)

Lemma modify_restore_home f : restore (modify_restore_status f).
Proof. by apply homely_modify. Qed.
Lemma restore_event_home ty r m : restore (restore_event ty r m).
Proof. apply homely_off. prog_emits. Qed.
Lemma restore_now_home : restore (lift (do Now)).
Proof. apply homely_off. prog_emits. Qed.
#[local] Hint Resolve modify_restore_home restore_event_home restore_now_home : homely.
Lemma setRestorePhase_home p r m : restore (setRestorePhase p r m).
Proof.
  intros s [Hn Hs]. unfold setRestorePhase. prog_unfold.
  cbn [obeys Prog.bind fst snd at_home meta_of modify_restore_status].
  split; [done|]. intros now _. split; [done|].
  intros [e|s'] Hx; cbn; [done|]. destruct (Hx s' eq_refl). cbn in *. split; congruence.
Qed.
#[local] Hint Resolve setRestorePhase_home : homely.

Lemma scale_sts_home c n : near c → home (scale_sts c n) (λ _, True).
Proof. intros Hn. unfold scale_sts, get_sts, sts_with_replicas. home. Qed.
Lemma get_sts_home c : near c → home (get_sts c) (λ _, True).
Proof. intros Hn. unfold get_sts. home. Qed.
#[local] Hint Resolve scale_sts_home get_sts_home : homely.
Lemma handleScaleDown_home c : near c → restore (handleScaleDown c).
Proof. intros Hn. unfold handleScaleDown. homely. Qed.
Lemma handleScaleUp_home c : near c → restore (handleScaleUp c).
Proof. intros Hn. unfold handleScaleUp. homely. Qed.
#[local] Hint Resolve handleScaleDown_home handleScaleUp_home : homely.

Lemma create_restore_job_home r c s3 i : here ns name (re_Meta r) →
  home (create_restore_job r c s3 i) (λ _, True).
Proof.
  intros [Hn Hr]. unfold create_restore_job. home.
Qed.
Lemma restore_jobs_home r c s3 l : here ns name (re_Meta r) →
  home (for_each_err l (create_restore_job r c s3)) (λ _, True).
Proof. intros. apply for_each_err_home. intros. by apply create_restore_job_home. Qed.
#[local] Hint Resolve restore_jobs_home : homely.
Lemma checkScaleDown_home c s3 : near c → restore (checkScaleDown c s3).
Proof. intros Hn. unfold checkScaleDown. homely. Qed.
Lemma check_jobs_home r l d f : here ns name (re_Meta r) → home (check_jobs r l d f) (λ _, True).
Proof.
  intros Hr. revert d f. induction l as [|i l IH]; intros d f; cbn [check_jobs]; [done|].
  destruct Hr as [Hn ?]. home.
Qed.
#[local] Hint Resolve check_jobs_home : homely.
Lemma checkRestoreJob_home c : near c → restore (checkRestoreJob c).
Proof. intros Hn. unfold checkRestoreJob. homely. Qed.
#[local] Hint Resolve checkScaleDown_home checkRestoreJob_home : homely.
Lemma resolveS3Source_home r : here ns name (re_Meta r) → home (resolveS3Source r) (λ _, True).
Proof. intros [Hn ?]. unfold resolveS3Source. home. Qed.
#[local] Hint Resolve resolveS3Source_home : homely.
Lemma reconcile_restore_home : restore reconcile_restore.
Proof.
  unfold reconcile_restore. apply homely_get. intros r Hr. destruct (restore_over _); [homely|].
  eapply homely_lift_bind; [by apply (get_ns KCluster)|]. intros [e|c] Hc; unfold fail_restore; [homely|].
  use_results. unfold restore_phase_handler. homely.
Qed.
End Jobs.

(** ** Whole passes *)

Section Passes.
Context `{Lib}.

(** A pass reads its object, and works on it. *)
Lemma pass_home {A} (k : Kind) ns name (f : GoErr + obj k → P A) t o :
  (∀ e, obeys answers_request (at_home ns name) (f (inl e)) (λ _, True)) →
  (∀ s, here ns name (meta_of k s) → obeys answers_request (at_home ns name) (f (inr s)) (λ _, True)) →
  truthful t → exec (do (Get k ns name) ≫= f) t o → Forall (λ x, at_home ns name (entry_ev x)) t.
Proof.
  intros He Hf Ht Hx. refine (proj1 (obeys_exec _ _ _ _ _ _ _ Ht Hx)).
  prog_unfold. cbn [obeys Prog.bind]. split; [done|]. intros [e|s] Hs; [apply He|].
  apply Hf. by destruct (Hs s eq_refl).
Qed.

End Passes.

(** ** Witness *)

Definition same_meta (m m' : ObjectMeta) : bool :=
  String.eqb (om_Namespace m') (om_Namespace m) && String.eqb (om_Name m') (om_Name m).

Definition truthful_entry (x : entry Ans) : bool :=
  let same k (m : ObjectMeta) (a : GoErr + obj k) :=
    match a with inr o => same_meta m (meta_of k o) | inl _ => true end in
  match entry_ev x as e return Ans e → bool with
  | Get k ns name => same k (new_meta name ns ∅)
  | Create k o => same k (meta_of k o)
  | Update k o => same k (meta_of k o)
  | StatusUpdate k o => same k (meta_of k o)
  | _ => λ _, true
  end (entry_ans x).

Lemma truthful_check t : forallb truthful_entry t = true → truthful t.
Proof.
  unfold truthful. rewrite forallb_forall, Forall_forall. intros Ht x Hx.
  apply list_elem_of_In, Ht in Hx. destruct x as [e a]. unfold truthful_entry, same_meta in Hx.
  destruct e; cbn in *; try done; intros o' ->; cbn in Hx; by bools.
Qed.

(** The kinds of the objects a trace creates. *)
Definition created_kinds (t : list (entry Ans)) : list Kind :=
  omap (λ x, match entry_ev x with Create k _ => Some k | _ => None end) t.

