(* ===== verification/Permissions.v ===== *)
(** What the operator may do, and what wakes it: the [+kubebuilder:rbac] markers of
    the three controllers, from which the ClusterRole of the operator's service
    account is generated, and their [SetupWithManager].

    [needs] says which permissions a call takes: those Kubernetes asks for, and for a
    read also [list] and [watch], since the manager's client answers reads from an
    informer of the kind. *)

From S2P Require Import Prelude Lib ApiTypes K8s Prog Go.
#[local] Open Scope string_scope.

(** ** Resources *)

(** [GroupVersion] *)
Definition GroupVersion : string * string := ("hyperbytedb.hyperbyte.cloud", "v1alpha1").

(** API group and plural name of a kind. *)
Definition resource_of (k : Kind) : string * string :=
  match k with
  | KCluster => (GroupVersion.1, "hyperbytedbclusters")
  | KBackup => (GroupVersion.1, "hyperbytedbbackups")
  | KRestore => (GroupVersion.1, "hyperbytedbrestores")
  | KPod => ("", "pods")
  | KStatefulSet => ("apps", "statefulsets")
  | KDeployment => ("apps", "deployments")
  | KService => ("", "services")
  | KConfigMap => ("", "configmaps")
  | KSecret => ("", "secrets")
  | KPDB => ("policy", "poddisruptionbudgets")
  | KHPA => ("autoscaling", "horizontalpodautoscalers")
  | KServiceMonitor => ("monitoring.coreos.com", "servicemonitors")
  | KPVC => ("", "persistentvolumeclaims")
  | KJob => ("batch", "jobs")
  | KCronJob => ("batch", "cronjobs")
  end.

(** ** Rules *)

Inductive Verb := VGet | VList | VWatch | VCreate | VUpdate | VPatch | VDelete.
#[export] Instance Verb_eq_dec : EqDecision Verb.
Proof. solve_decision. Defined.

(** [+kubebuilder:rbac:groups=...,resources=...,verbs=...] *)
Record Rule := mkRule { ru_Group : string; ru_Resource : string; ru_Verbs : list Verb }.

Definition crud : list Verb := [VGet; VList; VWatch; VCreate; VUpdate; VPatch; VDelete].

Definition cluster_rules : list Rule :=
  [mkRule "hyperbytedb.hyperbyte.cloud" "hyperbytedbclusters" crud;
   mkRule "hyperbytedb.hyperbyte.cloud" "hyperbytedbclusters/status" [VGet; VUpdate; VPatch];
   mkRule "hyperbytedb.hyperbyte.cloud" "hyperbytedbclusters/finalizers" [VUpdate];
   mkRule "apps" "statefulsets" crud;
   mkRule "apps" "deployments" crud;
   mkRule "" "services" crud;
   mkRule "" "configmaps" crud;
   mkRule "" "secrets" crud;
   mkRule "" "persistentvolumeclaims" [VGet; VList; VWatch; VDelete];
   mkRule "" "pods" [VGet; VList; VWatch; VDelete];
   mkRule "" "events" [VCreate; VPatch];
   mkRule "autoscaling" "horizontalpodautoscalers" crud;
   mkRule "policy" "poddisruptionbudgets" crud;
   mkRule "monitoring.coreos.com" "servicemonitors" crud].

Definition backup_rules : list Rule :=
  [mkRule "hyperbytedb.hyperbyte.cloud" "hyperbytedbbackups" crud;
   mkRule "hyperbytedb.hyperbyte.cloud" "hyperbytedbbackups/status" [VGet; VUpdate; VPatch];
   mkRule "hyperbytedb.hyperbyte.cloud" "hyperbytedbbackups/finalizers" [VUpdate];
   mkRule "batch" "jobs" crud;
   mkRule "batch" "cronjobs" crud].

Definition restore_rules : list Rule :=
  [mkRule "hyperbytedb.hyperbyte.cloud" "hyperbytedbrestores" crud;
   mkRule "hyperbytedb.hyperbyte.cloud" "hyperbytedbrestores/status" [VGet; VUpdate; VPatch];
   mkRule "hyperbytedb.hyperbyte.cloud" "hyperbytedbrestores/finalizers" [VUpdate];
   mkRule "hyperbytedb.hyperbyte.cloud" "hyperbytedbclusters" [VGet; VList; VWatch];
   mkRule "hyperbytedb.hyperbyte.cloud" "hyperbytedbbackups" [VGet; VList; VWatch];
   mkRule "apps" "statefulsets" [VGet; VList; VWatch; VUpdate; VPatch];
   mkRule "batch" "jobs" [VGet; VList; VWatch; VCreate; VDelete]].

(** The three controllers run under one service account, whose role has all rules. *)
Definition manager_role : list Rule := (cluster_rules ++ backup_rules ++ restore_rules)%list.

(** ** Permissions *)

Record Permission := mkPerm { pe_Group : string; pe_Resource : string; pe_Verb : Verb }.

Definition allows (r : Rule) (p : Permission) : bool :=
  String.eqb (ru_Group r) (pe_Group p) && String.eqb (ru_Resource r) (pe_Resource p)
    && existsb (λ v, bool_decide (v = pe_Verb p)) (ru_Verbs r).
Definition granted_by (role : list Rule) (p : Permission) : bool := existsb (λ r, allows r p) role.

Definition on_kind (k : Kind) (v : Verb) : Permission :=
  mkPerm (resource_of k).1 (resource_of k).2 v.
Definition on_subresource (k : Kind) (sub : string) (v : Verb) : Permission :=
  mkPerm (resource_of k).1 ((resource_of k).2 +:+ "/" +:+ sub) v.

Definition reading (k : Kind) : list Permission := on_kind k <$> [VGet; VList; VWatch].

(** [self] is the kind of the object the controller reconciles: an owner reference to
    it blocks its deletion, for which Kubernetes asks for its finalizers. *)
Definition needs `{Lib} (self : Kind) (e : Ev) : list Permission :=
  match e with
  | Get k _ _ => reading k
  | Create k _ => [on_kind k VCreate; on_subresource self "finalizers" VUpdate]
  | Update k _ => [on_kind k VUpdate; on_subresource self "finalizers" VUpdate]
  | StatusUpdate k _ => [on_subresource k "status" VUpdate]
  | Delete k _ _ _ => [on_kind k VDelete]
  | PatchSts _ _ => [on_kind KStatefulSet VPatch]
  | ListPods _ _ => reading KPod
  | Event _ _ _ => [mkPerm "" "events" VCreate; mkPerm "" "events" VPatch]
  | Now | RandRead _ | GenerateCert _ _ | Http _ => []
  end.

Definition permitted `{Lib} (self : Kind) (e : Ev) : bool :=
  forallb (granted_by manager_role) (needs self e).

(** ** SetupWithManager *)

(** [NewControllerManagedBy(mgr).For(...).Owns(...).Named(...)] *)
Record Setup := mkSetup { su_For : Kind; su_Owns : list Kind; su_Name : string }.

Definition cluster_setup : Setup :=
  mkSetup KCluster [KStatefulSet; KService; KConfigMap; KSecret; KPDB] "hyperbytedbcluster".
Definition backup_setup : Setup := mkSetup KBackup [KJob; KCronJob] "hyperbytedbbackup".
Definition restore_setup : Setup := mkSetup KRestore [KJob] "hyperbytedbrestore".

(** The informers a controller starts. *)
Definition watching (s : Setup) : list Permission :=
  (su_For s :: su_Owns s) ≫= λ k, on_kind k <$> [VList; VWatch].
