(* ===== verification/PermissionTheorems.v ===== *)
(** The calls each controller makes, and that its role and its informers cover them. *)

From S2P Require Import Prelude GoStrings Messages Lib ApiTypes Image Compat Config K8s StatefulSet Prog Go Client Proxy Auth Controller RollingRestart Resources ScaleDown Members Reconcile ReconcileProofs S3 Backup Restore Permissions Demo RollingRestartTheorems ReconcileTheorems.
#[local] Open Scope string_scope.

Definition among (ks : list Kind) (k : Kind) : bool := existsb (λ k', bool_decide (k = k')) ks.

Section Calls.
Context `{Lib}.
Implicit Types (c : HyperbytedbCluster) (ctx : Ctx).

(** ** What each controller calls *)

(** What the cluster controller creates. *)
Definition cluster_parts : list Kind :=
  [KStatefulSet; KService; KConfigMap; KSecret; KPDB; KDeployment; KHPA; KServiceMonitor].

Definition cluster_call (e : Ev) : bool :=
  match e with
  | Get k _ _ => among (KCluster :: KPod :: KPVC :: cluster_parts) k
  | Create k _ => among cluster_parts k
  | Update k _ =>
      among [KCluster; KStatefulSet; KService; KConfigMap; KSecret; KPDB; KDeployment; KHPA] k
  | StatusUpdate k _ => among [KCluster] k
  | Delete k _ _ orphan =>
      if orphan then among [KStatefulSet] k
      else among [KService; KConfigMap; KPDB; KHPA; KPod; KPVC] k
  | _ => true
  end.

Definition backup_call (e : Ev) : bool :=
  match e with
  | Get k _ _ => among [KBackup; KCluster; KJob; KCronJob] k
  | Create k _ => among [KJob; KCronJob] k
  | Update k _ => among [KCronJob] k
  | StatusUpdate k _ => among [KBackup] k
  | Now | Event _ _ _ => true
  | _ => false
  end.

Definition restore_call (e : Ev) : bool :=
  match e with
  | Get k _ _ => among [KRestore; KBackup; KCluster; KStatefulSet; KJob] k
  | Create k _ => among [KJob] k
  | Update k _ => among [KStatefulSet] k
  | StatusUpdate k _ => among [KRestore] k
  | Now | Event _ _ _ => true
  | _ => false
  end.

Abbreviation calls p := (emits (λ e, cluster_call e = true) p).

(** *** Requests to nodes and proxies *)

Lemma GetNodeHealth_calls ctx h p : calls (GetNodeHealth ctx h p).
Proof. unfold GetNodeHealth, Do. foot. Qed.
Lemma GetClusterNodes_calls ctx h p : calls (GetClusterNodes ctx h p).
Proof. unfold GetClusterNodes, Do. foot. Qed.
Lemma GetClusterLeader_calls ctx h p : calls (GetClusterLeader ctx h p).
Proof. unfold GetClusterLeader, Do. foot. Qed.
Lemma GetSyncManifest_calls ctx h p : calls (GetSyncManifest ctx h p).
Proof. unfold GetSyncManifest, Do. foot. Qed.
Lemma DecommissionNode_calls ctx h p : calls (DecommissionNode ctx h p).
Proof. unfold DecommissionNode, Do. foot. Qed.
Lemma LeaveNode_calls ctx h p i : calls (LeaveNode ctx h p i).
Proof. unfold LeaveNode, Do. foot. Qed.
Lemma RemoveClusterNode_calls ctx h p i : calls (RemoveClusterNode ctx h p i).
Proof. unfold RemoveClusterNode, Do. foot. Qed.
Lemma AddClusterNode_calls ctx h p i a b : calls (AddClusterNode ctx h p i a b).
Proof. unfold AddClusterNode, Do. foot. Qed.
#[local] Hint Resolve GetNodeHealth_calls GetClusterNodes_calls GetClusterLeader_calls
  GetSyncManifest_calls DecommissionNode_calls LeaveNode_calls RemoveClusterNode_calls
  AddClusterNode_calls : foot.

(** *** The steps *)

Lemma setFailedStatus_calls {A} reason e c :
  calls (setFailedStatus reason e c : P (HyperbytedbCluster * (Final + A))).
Proof. unfold setFailedStatus. foot. Qed.
#[local] Hint Resolve setFailedStatus_calls : foot.
Lemma or_fail_calls {A} reason (m : CM (GoErr + A)) c : calls (m c) → calls (or_fail reason m c).
Proof. intros Hm. apply m_bind_emits; [done|]. intros [e|a] c1; [apply setFailedStatus_calls|done]. Qed.
Lemma best_effort_calls (m : CM error) c : calls (m c) → calls (best_effort m c).
Proof. intros Hm. by apply m_bind_emits. Qed.

Lemma reconcileTLS_calls c n : calls (reconcileTLS c n).
Proof. unfold reconcileTLS, ensure_self_signed, BuildSelfSignedTLSSecret. foot. Qed.
Lemma FillAuthSecret_calls s : calls (FillAuthSecret s).
Proof. unfold FillAuthSecret, auth_keys, randomSecret. cbn [fill_keys]. foot. Qed.
#[local] Hint Resolve FillAuthSecret_calls : foot.
Lemma reconcileAuthSecret_calls c : calls (reconcileAuthSecret c).
Proof. unfold reconcileAuthSecret, create_auth_secret, BuildAuthSecret. foot. Qed.
Lemma reconcileConfigMap_calls c : calls (reconcileConfigMap c).
Proof. unfold reconcileConfigMap. foot. Qed.
Lemma cleanupLegacyPeers_calls c : calls (cleanupLegacyPeersConfigMap c).
Proof. unfold cleanupLegacyPeersConfigMap. foot. Qed.
Lemma reconcileService_calls c s : calls (reconcileService c s).
Proof. unfold reconcileService. foot. Qed.
Lemma reconcileStatefulSet_calls c h : calls (reconcileStatefulSet c h).
Proof. unfold reconcileStatefulSet, sts_result. foot. Qed.
Lemma reconcileProxy_calls c : calls (reconcileProxy c).
Proof. unfold reconcileProxy, reconcile_proxy_service, reconcile_proxy_deployment. foot. Qed.
Lemma reconcileServiceMonitor_calls c : calls (reconcileServiceMonitor c).
Proof. unfold reconcileServiceMonitor. foot. Qed.
Lemma reconcilePDB_calls c : calls (reconcilePDB c).
Proof. unfold reconcilePDB. foot. Qed.
Lemma reconcileHPA_calls c : calls (reconcileHPA c).
Proof. unfold reconcileHPA. foot. Qed.

Lemma probe_calls ctx c b l : calls (probe_departing ctx c b l).
Proof. induction l; cbn [probe_departing]; foot. Qed.
Lemma tell_departing_calls ctx c hs l : calls (tell_departing ctx c hs l).
Proof. induction l; cbn [tell_departing]; foot. Qed.
Lemma leader_among_calls ctx hs p l : calls (leader_among ctx hs p l).
Proof. induction l; cbn [leader_among]; foot. Qed.
#[local] Hint Resolve probe_calls tell_departing_calls leader_among_calls : foot.
Lemma removeDepartedVoters_calls ctx hs p l : calls (removeDepartedVoters ctx hs p l).
Proof. induction l; cbn [removeDepartedVoters]; unfold raftLeaderHost; foot. Qed.
Lemma tell_survivors_calls ctx c i l : calls (tell_survivors ctx c i l).
Proof. induction l; cbn [tell_survivors]; foot. Qed.
#[local] Hint Resolve removeDepartedVoters_calls tell_survivors_calls : foot.
Lemma announce_calls ctx c d l : calls (announce_departed ctx c d l).
Proof. induction l; cbn [announce_departed]; foot. Qed.
#[local] Hint Resolve announce_calls : foot.
Lemma hooks_calls ctx c p d : calls (runScaleDownClusterHooks ctx c p d).
Proof. unfold runScaleDownClusterHooks. foot. Qed.
Lemma get_pods_calls c l : calls (get_pods c l).
Proof. induction l; cbn [get_pods]; foot. Qed.
Lemma delete_departed_calls p : calls (delete_departed p).
Proof. unfold delete_departed. foot. Qed.
Lemma cleanup_pvc_calls c i : calls (cleanup_pvc c i).
Proof. unfold cleanup_pvc. foot. Qed.
#[local] Hint Resolve get_pods_calls delete_departed_calls cleanup_pvc_calls : foot.
Lemma deleteStuckDepartedPods_calls c s : calls (deleteStuckDepartedPods c s).
Proof. unfold deleteStuckDepartedPods. foot. Qed.
Lemma CleanupOrphanPVCs_calls c a b : calls (CleanupOrphanPVCs c a b).
Proof. unfold CleanupOrphanPVCs. foot. Qed.

Lemma forEach_calls c send : (∀ p, calls (send p)) → calls (forEachRunningProxy c send).
Proof.
  intros Hs. unfold forEachRunningProxy, send_to_running. foot. apply emits_for_each_err. foot.
Qed.
Lemma exclude_calls ctx c ip p : calls (excludeFromAllProxies ctx c ip p).
Proof. apply forEach_calls. unfold ExcludeProxyBackend, Do. foot. Qed.
Lemma include_calls ctx c ip p : calls (includeFromAllProxies ctx c ip p).
Proof. apply forEach_calls. unfold IncludeProxyBackend, Do. foot. Qed.
#[local] Hint Resolve exclude_calls include_calls : foot.
Lemma release_calls st rq c : calls (rollingRestartRelease st rq c).
Proof. unfold rollingRestartRelease, releaseOrdinal. foot. Qed.
#[local] Hint Resolve release_calls : foot.
Lemma rolling_phase_calls ctx c0 st ur c : calls (rolling_phase ctx c0 st ur c).
Proof.
  unfold rolling_phase, rollingRestartExcluding, rollingRestartDraining,
    rollingRestartWaitingReady, enter_draining, ordinal_done, next_ordinal. foot.
Qed.
#[local] Hint Resolve rolling_phase_calls : foot.
Lemma reconcileRollingRestart_calls ctx s n c : calls (reconcileRollingRestart ctx s n c).
Proof.
  unfold reconcileRollingRestart, tryClearCompletedRollingRestart, ensureRollingRestartState,
    start_rolling. foot.
Qed.

Lemma CollectMemberStatuses_calls ctx c ns n : calls (CollectMemberStatuses ctx c ns n).
Proof.
  unfold CollectMemberStatuses. apply emits_make_slice.
  induction (ordinals_up 0 n); cbn [collect_members]; unfold collect_member; foot.
Qed.
Lemma failover_loop_calls d ms c : calls (failover_loop d ms c).
Proof. revert c. induction ms; intros c; cbn [failover_loop]; unfold failed_over; foot. Qed.
#[local] Hint Resolve failover_loop_calls : foot.
Lemma handleAutoFailover_calls ms c : calls (handleAutoFailover ms c).
Proof. unfold handleAutoFailover. foot. Qed.
Lemma view_pods_calls ctx c l : calls (view_pods ctx c l).
Proof. induction l; cbn [view_pods]; unfold view_pod; foot. Qed.
Lemma find_leader_calls ctx p all l : calls (find_leader_among ctx p all l).
Proof. induction l; cbn [find_leader_among]; foot. Qed.
Lemma add_members_calls ctx h p k l : calls (add_members ctx h p k l).
Proof. induction l; cbn [add_members]; foot. Qed.
#[local] Hint Resolve view_pods_calls find_leader_calls add_members_calls : foot.
Lemma reconcileClusterMembership_calls ctx n c : calls (reconcileClusterMembership ctx n c).
Proof. unfold reconcileClusterMembership, findLeader. foot. Qed.
Lemma collect_manifests_calls ctx l c : calls (collect_manifests ctx l c).
Proof. revert c. induction l; intros c; cbn [collect_manifests]; foot. Qed.
#[local] Hint Resolve collect_manifests_calls : foot.
Lemma monitorReplicationHealth_calls ctx n c : calls (monitorReplicationHealth ctx n c).
Proof. unfold monitorReplicationHealth. foot. Qed.

(** ** The passes *)

#[local] Hint Resolve reconcileTLS_calls reconcileAuthSecret_calls reconcileConfigMap_calls
  cleanupLegacyPeers_calls reconcileService_calls reconcileStatefulSet_calls reconcileProxy_calls
  reconcileServiceMonitor_calls reconcilePDB_calls reconcileHPA_calls hooks_calls
  deleteStuckDepartedPods_calls CleanupOrphanPVCs_calls reconcileRollingRestart_calls
  CollectMemberStatuses_calls handleAutoFailover_calls reconcileClusterMembership_calls
  monitorReplicationHealth_calls : foot.

(** Composes the steps of a pass. *)
Ltac pass_calls :=
  repeat first
    [ solve [auto with foot] | apply rbind_emits | apply or_fail_calls | apply best_effort_calls
    | apply on_cluster_emits | apply m_bind_emits
    | progress intros | progress cbv beta zeta
    | match goal with |- emits _ ((if ?b then _ else _) _) => destruct b end
    | match goal with |- emits _ (match ?r with _ => _ end _) => destruct r end | done ].

Lemma prepare_calls ctx c : calls (prepare ctx c).
Proof.
  unfold prepare, pause_check, deletion, ensure_finalizer, previous_replicas, auth_step,
    modify_finalizers, or_return, UpdateCluster, return_ok, return_err.
  pass_calls.
Qed.

Lemma observe_calls ctx sts n h c : calls (observe ctx sts n h c).
Proof.
  unfold observe, members_step, updateStatus, upgrading. pass_calls; foot.
Qed.
#[local] Hint Resolve prepare_calls observe_calls : foot.
Lemma converge_calls ctx sts p n h c : calls (converge ctx sts p n h c).
Proof.
  unfold converge, proxy_step, rolling_restart_step, scaling_step, updatePhase, orphan_pvc_step,
    service_monitor_step, return_ok. pass_calls; foot.
Qed.
#[local] Hint Resolve converge_calls : foot.
Lemma reconcile_cluster_calls ctx c : calls (reconcile_cluster ctx c).
Proof.
  unfold reconcile_cluster, reconcile_steps, scale_down_step, statefulset_step, return_ok.
  apply m_bind_emits; [|done]. apply rbind_emits; [apply prepare_calls|].
  intros [[[ctx' prev] n] h] c1. pass_calls.
Qed.

Lemma Reconcile_calls ctx ns name : calls (Reconcile ctx ns name).
Proof.
  unfold Reconcile. split; [done|]. intros [e|c]; [by cbn; destruct (IsNotFound e)|].
  change (calls (Prog.bind (reconcile_cluster ctx c) (λ res, Prog.Ret res.2))).
  apply emits_bind; [apply reconcile_cluster_calls|done].
Qed.

Ltac job_calls :=
  unfold backup_event, set_backup_condition, StatusUpdateBackup, modify_backup_status,
    restore_event, setRestorePhase, modify_restore_status, scale_sts, get_sts;
  foot.

Lemma ReconcileBackup_calls ns name : emits (λ e, backup_call e = true) (ReconcileBackup ns name).
Proof.
  unfold ReconcileBackup, reconcile_backup, reconcileJob, start_backup, backup_succeeded, backup_failed,
    reconcileCronJob, cluster_missing. job_calls.
Qed.

Lemma check_jobs_calls r l a b : emits (λ e, restore_call e = true) (check_jobs r l a b).
Proof. revert a b. induction l; intros; cbn [check_jobs]; foot. Qed.
Lemma restore_jobs_calls r c s3 l :
  emits (λ e, restore_call e = true) (for_each_err l (create_restore_job r c s3)).
Proof. apply emits_for_each_err. intros i. unfold create_restore_job. job_calls. Qed.
Lemma handleScaleUp_calls c r : emits (λ e, restore_call e = true) (handleScaleUp c r).
Proof. unfold handleScaleUp. job_calls. Qed.
#[local] Hint Resolve check_jobs_calls restore_jobs_calls handleScaleUp_calls : foot.
Lemma ReconcileRestore_calls ns name : emits (λ e, restore_call e = true) (ReconcileRestore ns name).
Proof.
  unfold ReconcileRestore, reconcile_restore, restore_phase_handler, fail_restore, resolveS3Source,
    handleScaleDown, checkScaleDown, checkRestoreJob. job_calls.
Qed.

(** ** Coverage *)

(** Every call of a footprint is permitted, whatever the kinds and objects. *)
Lemma cluster_call_permitted e : cluster_call e = true → permitted KCluster e = true.
Proof. destruct e as [| | |k|k o|k o|k o|k n m []| | | |]; try done; destruct k; done. Qed.
Lemma backup_call_permitted e : backup_call e = true → permitted KBackup e = true.
Proof. destruct e as [| | |k|k o|k o|k o|k n m []| | | |]; try done; destruct k; done. Qed.
Lemma restore_call_permitted e : restore_call e = true → permitted KRestore e = true.
Proof. destruct e as [| | |k|k o|k o|k o|k n m []| | | |]; try done; destruct k; done. Qed.

(** What the controller creates is of a kind it watches, or of the kinds [rest]. *)
Definition watched (s : Setup) (rest : list Kind) (e : Ev) : bool :=
  match e with Create k _ => among (su_Owns s) k || among rest k | _ => true end.

Lemma cluster_call_watched e : cluster_call e = true →
  watched cluster_setup [KDeployment; KHPA; KServiceMonitor] e = true.
Proof. destruct e as [| | | |k o| | | | | | |]; try done; destruct k; done. Qed.
Lemma backup_call_watched e : backup_call e = true → watched backup_setup [] e = true.
Proof. destruct e as [| | | |k o| | | | | | |]; try done; destruct k; done. Qed.
Lemma restore_call_watched e : restore_call e = true → watched restore_setup [] e = true.
Proof. destruct e as [| | | |k o| | | | | | |]; try done; destruct k; done. Qed.

(** A call is covered: the role permits it, and what it creates is watched. *)
Definition covered (s : Setup) (rest : list Kind) (x : entry Ans) : Prop :=
  permitted (su_For s) (entry_ev x) = true ∧ watched s rest (entry_ev x) = true.

Lemma footprint_covered {A} (Q : Ev → bool) s rest (p : P A) t o :
  emits (λ e, Q e = true) p → (∀ e, Q e = true → permitted (su_For s) e = true) →
  (∀ e, Q e = true → watched s rest e = true) → exec p t o → Forall (covered s rest) t.
Proof.
  intros Hp H1 H2 He. eapply Forall_impl; [exact (emits_exec _ _ _ _ Hp He)|].
  intros x Hx. split; auto.
Qed.

(** C10: the operator may do what it does and is woken by what it makes.  Every call of
    every pass of the three controllers is granted by the role generated from their
    RBAC markers - reads with the list and watch of their informer, owner references
    with the owner's finalizers - and so are the informers they start.  What the
    backup and the restore controller create is of a kind they watch; so is what the
    cluster controller creates, the proxy Deployment, the autoscaler and the
    ServiceMonitor apart. *)
Theorem calls_are_covered ctx ns name :
  (∀ t o, exec (Reconcile ctx ns name) t o →
     Forall (covered cluster_setup [KDeployment; KHPA; KServiceMonitor]) t) ∧
  (∀ t o, exec (ReconcileBackup ns name) t o → Forall (covered backup_setup []) t) ∧
  (∀ t o, exec (ReconcileRestore ns name) t o → Forall (covered restore_setup []) t) ∧
  Forall (λ p, granted_by manager_role p = true)
    ([cluster_setup; backup_setup; restore_setup] ≫= watching).
Proof.
  split_and!.
  - intros t o. eapply footprint_covered;
      [apply Reconcile_calls|exact cluster_call_permitted|exact cluster_call_watched].
  - intros t o. eapply footprint_covered;
      [apply ReconcileBackup_calls|exact backup_call_permitted|exact backup_call_watched].
  - intros t o. eapply footprint_covered;
      [apply ReconcileRestore_calls|exact restore_call_permitted|exact restore_call_watched].
  - repeat constructor.
Qed.
End Calls.

(** ** Witness *)

Lemma calls_are_covered_witness :
  let t := pass_trace (pass_cluster 3) "active" in
  length t ≠ 0%nat ∧ Forall (covered cluster_setup [KDeployment; KHPA; KServiceMonitor]) t.
Proof.
  cbv zeta. split; [vm_compute; discriminate|].
  exact (proj1 (calls_are_covered "" "ns" "db") _ _ (world_exec _ _)).
Defined.
