(* ===== verification/Entry.v ===== *)
(** The entry point (cmd/main.go): command-line flags, the options of the manager, and
    the order in which the process is set up.

    The package [flag] of the standard library is modelled as far as [main] uses it.
    The flags third-party packages add ([zap.Options.BindFlags], the kubeconfig flag of
    controller-runtime) are a parameter: their names, whether they take a value, and
    the values they accept.  Starting the process is a sequence of calls: reading the
    environment, and the methods of the manager, each of which may fail. *)

From S2P Require Import Prelude GoStrings Lib ApiTypes K8s Prog Go Permissions.
#[local] Open Scope string_scope.

(** ** The package [flag] *)

(** [strconv.ParseBool] *)
Definition ParseBool (s : string) : option bool :=
  if existsb (String.eqb s) ["1"; "t"; "T"; "true"; "TRUE"; "True"] then Some true
  else if existsb (String.eqb s) ["0"; "f"; "F"; "false"; "FALSE"; "False"] then Some false
  else None.

(** The text before and after the first ["="]. *)
Fixpoint cut_value (s : string) : string * option string :=
  match s with
  | "" => ("", None)
  | String a s' =>
      if Ascii.eqb a "=" then ("", Some s')
      else let '(name, v) := cut_value s' in (String a name, v)
  end.

(** A flag writes its value into the variables [V]. *)
Inductive FlagKind (V : Type) :=
  | BoolVar (set : bool → V → V)
  | StringVar (set : string → V → V)
  (** a flag of a third-party package: [IsBoolFlag], and the values [Set] accepts *)
  | Foreign (isBool : bool) (accepts : string → bool).
Arguments BoolVar {_} _.
Arguments StringVar {_} _.
Arguments Foreign {_} _ _.

(** [flag.ExitOnError]: help exits with 0, any other error with 2. *)
Inductive Parsed (V : Type) := ParsedOk (v : V) (args : list string) | ParseHelp | ParseError.
Arguments ParsedOk {_} _ _.
Arguments ParseHelp {_}.
Arguments ParseError {_}.

Section Flags.
Context {V : Type}.

Definition is_bool_flag (k : FlagKind V) : bool :=
  match k with BoolVar _ => true | StringVar _ => false | Foreign b _ => b end.

(** [flag.Value.Set] *)
Definition set_flag (k : FlagKind V) (value : string) (v : V) : option V :=
  match k with
  | BoolVar set => (λ b, set b v) <$> ParseBool value
  | StringVar set => Some (set value v)
  | Foreign _ accepts => if accepts value then Some v else None
  end.

Definition lookup_flag (flags : list (string * FlagKind V)) (name : string) : option (FlagKind V) :=
  snd <$> List.find (λ f, String.eqb f.1 name) flags.

(** The name after one or two minus signs; [None] when the argument is no flag. *)
Definition flag_text (arg : string) : option string :=
  match arg with
  | String "-" (String "-" s) => Some s
  | String "-" s => if String.eqb s "" then None else Some s
  | _ => None
  end.

(** [FlagSet.Parse]: one flag after another, until the first argument that is none. *)
Fixpoint Parse (flags : list (string * FlagKind V)) (args : list string) (v : V) : Parsed V :=
  match args with
  | [] => ParsedOk v []
  | arg :: rest =>
      match flag_text arg with
      | None => ParsedOk v args
      | Some "" => ParsedOk v rest
      | Some (String a s) =>
          if Ascii.eqb a "-" || Ascii.eqb a "=" then ParseError
          else
            let '(name, value) := cut_value (String a s) in
            match lookup_flag flags name with
            | None => if String.eqb name "help" || String.eqb name "h" then ParseHelp else ParseError
            | Some k =>
                let go value rest :=
                  match set_flag k value v with
                  | Some v' => Parse flags rest v'
                  | None => ParseError
                  end in
                if is_bool_flag k then go (default "true" value) rest
                else match value, rest with
                     | Some value, _ => go value rest
                     | None, value :: rest' =>
                         match set_flag k value v with
                         | Some v' => Parse flags rest' v'
                         | None => ParseError
                         end
                     | None, [] => ParseError
                     end
            end
      end
  end.
End Flags.

(** ** The flags of the operator *)

(** The variables at the top of [main]. *)
Record Options := mkOptions {
  metricsAddr : string;
  metricsCertPath : string; metricsCertName : string; metricsCertKey : string;
  webhookCertPath : string; webhookCertName : string; webhookCertKey : string;
  enableLeaderElection : bool;
  probeAddr : string;
  secureMetrics : bool;
  enableHTTP2 : bool }.

Definition default_options : Options :=
  mkOptions "0" "" "tls.crt" "tls.key" "" "tls.crt" "tls.key" false ":8081" true false.

Definition operator_flags : list (string * FlagKind Options) :=
  [("metrics-bind-address", StringVar (λ x o, mkOptions x (metricsCertPath o) (metricsCertName o)
      (metricsCertKey o) (webhookCertPath o) (webhookCertName o) (webhookCertKey o)
      (enableLeaderElection o) (probeAddr o) (secureMetrics o) (enableHTTP2 o)));
   ("health-probe-bind-address", StringVar (λ x o, mkOptions (metricsAddr o) (metricsCertPath o)
      (metricsCertName o) (metricsCertKey o) (webhookCertPath o) (webhookCertName o)
      (webhookCertKey o) (enableLeaderElection o) x (secureMetrics o) (enableHTTP2 o)));
   ("leader-elect", BoolVar (λ x o, mkOptions (metricsAddr o) (metricsCertPath o)
      (metricsCertName o) (metricsCertKey o) (webhookCertPath o) (webhookCertName o)
      (webhookCertKey o) x (probeAddr o) (secureMetrics o) (enableHTTP2 o)));
   ("metrics-secure", BoolVar (λ x o, mkOptions (metricsAddr o) (metricsCertPath o)
      (metricsCertName o) (metricsCertKey o) (webhookCertPath o) (webhookCertName o)
      (webhookCertKey o) (enableLeaderElection o) (probeAddr o) x (enableHTTP2 o)));
   ("webhook-cert-path", StringVar (λ x o, mkOptions (metricsAddr o) (metricsCertPath o)
      (metricsCertName o) (metricsCertKey o) x (webhookCertName o) (webhookCertKey o)
      (enableLeaderElection o) (probeAddr o) (secureMetrics o) (enableHTTP2 o)));
   ("webhook-cert-name", StringVar (λ x o, mkOptions (metricsAddr o) (metricsCertPath o)
      (metricsCertName o) (metricsCertKey o) (webhookCertPath o) x (webhookCertKey o)
      (enableLeaderElection o) (probeAddr o) (secureMetrics o) (enableHTTP2 o)));
   ("webhook-cert-key", StringVar (λ x o, mkOptions (metricsAddr o) (metricsCertPath o)
      (metricsCertName o) (metricsCertKey o) (webhookCertPath o) (webhookCertName o) x
      (enableLeaderElection o) (probeAddr o) (secureMetrics o) (enableHTTP2 o)));
   ("metrics-cert-path", StringVar (λ x o, mkOptions (metricsAddr o) x
      (metricsCertName o) (metricsCertKey o) (webhookCertPath o) (webhookCertName o)
      (webhookCertKey o) (enableLeaderElection o) (probeAddr o) (secureMetrics o) (enableHTTP2 o)));
   ("metrics-cert-name", StringVar (λ x o, mkOptions (metricsAddr o) (metricsCertPath o) x
      (metricsCertKey o) (webhookCertPath o) (webhookCertName o) (webhookCertKey o)
      (enableLeaderElection o) (probeAddr o) (secureMetrics o) (enableHTTP2 o)));
   ("metrics-cert-key", StringVar (λ x o, mkOptions (metricsAddr o) (metricsCertPath o)
      (metricsCertName o) x (webhookCertPath o) (webhookCertName o) (webhookCertKey o)
      (enableLeaderElection o) (probeAddr o) (secureMetrics o) (enableHTTP2 o)));
   ("enable-http2", BoolVar (λ x o, mkOptions (metricsAddr o) (metricsCertPath o)
      (metricsCertName o) (metricsCertKey o) (webhookCertPath o) (webhookCertName o)
      (webhookCertKey o) (enableLeaderElection o) (probeAddr o) (secureMetrics o) x))].

(** ** The options of the servers *)

(** [tls.Config], of which the options set the protocols offered. *)
Record TLSConfig := mkTLSConfig { NextProtos : list string }.
Definition disableHTTP2 (_ : TLSConfig) : TLSConfig := mkTLSConfig ["http/1.1"].
(** What a server does with its TLS options. *)
Definition apply_opts (opts : list (TLSConfig → TLSConfig)) (c : TLSConfig) : TLSConfig :=
  foldl (λ c f, f c) c opts.

(** [webhook.Options] *)
Record WebhookOptions := mkWebhookOptions {
  wo_TLSOpts : list (TLSConfig → TLSConfig);
  wo_CertDir : string; wo_CertName : string; wo_KeyName : string }.
(** [metricsserver.Options]; [mo_FilterProvider] is set or nil. *)
Record MetricsOptions := mkMetricsOptions {
  mo_BindAddress : string; mo_SecureServing : bool;
  mo_TLSOpts : list (TLSConfig → TLSConfig);
  mo_FilterProvider : bool;
  mo_CertDir : string; mo_CertName : string; mo_KeyName : string }.
(** [ctrl.Options] *)
Record ManagerOptions := mkManagerOptions {
  mgr_Metrics : MetricsOptions;
  mgr_WebhookServer : option WebhookOptions;
  mgr_HealthProbeBindAddress : string;
  mgr_LeaderElection : bool;
  mgr_LeaderElectionID : string }.

Definition tlsOpts (o : Options) : list (TLSConfig → TLSConfig) :=
  if enableHTTP2 o then [] else [disableHTTP2].

Definition webhookServerOptions (o : Options) : WebhookOptions :=
  if String.eqb (webhookCertPath o) "" then mkWebhookOptions (tlsOpts o) "" "" ""
  else mkWebhookOptions (tlsOpts o) (webhookCertPath o) (webhookCertName o) (webhookCertKey o).

Definition metricsServerOptions (o : Options) : MetricsOptions :=
  if String.eqb (metricsCertPath o) ""
  then mkMetricsOptions (metricsAddr o) (secureMetrics o) (tlsOpts o) (secureMetrics o) "" "" ""
  else mkMetricsOptions (metricsAddr o) (secureMetrics o) (tlsOpts o) (secureMetrics o)
         (metricsCertPath o) (metricsCertName o) (metricsCertKey o).

Definition manager_options (o : Options) (enableWebhooks : bool) : ManagerOptions :=
  mkManagerOptions (metricsServerOptions o)
    (if enableWebhooks then Some (webhookServerOptions o) else None)
    (probeAddr o) (enableLeaderElection o) "87d2e674.hyperbytedb.io".

(** ** Starting the process *)

Inductive StartEv :=
  | Getenv (name : string)
  (** [ctrl.GetConfigOrDie] and [ctrl.NewManager] *)
  | NewManager (opts : ManagerOptions)
  | SetupWithManager (s : Setup)
  | SetupWebhook
  | AddHealthzCheck (name : string)
  | AddReadyzCheck (name : string)
  (** [mgr.Start]: returns when the process is told to stop *)
  | StartManager.

(** Whether a step went well. *)
Definition StartAns (e : StartEv) : Type :=
  match e with Getenv _ => string | _ => bool end.

(** [err == nil] *)
Definition succeeded (e : StartEv) : StartAns e → bool :=
  match e with Getenv _ => λ _, true | _ => λ ok, ok end.

(** [if err := step; err != nil { os.Exit(1) }]; what [main] returns is the exit code
    of the process. *)
Definition or_exit (e : StartEv) (k : prog StartAns Z) : prog StartAns Z :=
  Prog.Call e (λ a, if succeeded e a then k else Prog.Ret 1%Z).

Definition main (foreign : list (string * FlagKind Options)) (args : list string) : prog StartAns Z :=
  match Parse (operator_flags ++ foreign)%list args default_options with
  | ParseHelp => Prog.Ret 0%Z
  | ParseError => Prog.Ret 2%Z
  | ParsedOk o _ =>
      Prog.Call (Getenv "ENABLE_WEBHOOKS") (λ v,
        let enableWebhooks := negb (String.eqb v "false") in
        or_exit (NewManager (manager_options o enableWebhooks))
          (or_exit (SetupWithManager cluster_setup)
             (or_exit (SetupWithManager backup_setup)
                (or_exit (SetupWithManager restore_setup)
                   ((if enableWebhooks then or_exit SetupWebhook else id)
                      (or_exit (AddHealthzCheck "healthz")
                         (or_exit (AddReadyzCheck "readyz")
                            (or_exit StartManager (Prog.Ret 0%Z)))))))))
  end.
