(* ===== verification/EntryTheorems.v ===== *)
(** The entry point: what the command line means, and how the process starts. *)

From S2P Require Import Prelude GoStrings Lib ApiTypes K8s Prog Go Permissions Entry.
#[local] Open Scope string_scope.
#[local] Arguments Ascii.eqb : simpl never.

(** ** Flags *)

(** [--name=value] *)
Definition flag_arg (name value : string) : string := "--" +:+ name +:+ "=" +:+ value.

(** A command line that says everything. *)
Definition flag_args (o : Options) : list string :=
  [flag_arg "metrics-bind-address" (metricsAddr o);
   flag_arg "health-probe-bind-address" (probeAddr o);
   flag_arg "leader-elect" (fmt_bool (enableLeaderElection o));
   flag_arg "metrics-secure" (fmt_bool (secureMetrics o));
   flag_arg "webhook-cert-path" (webhookCertPath o);
   flag_arg "webhook-cert-name" (webhookCertName o);
   flag_arg "webhook-cert-key" (webhookCertKey o);
   flag_arg "metrics-cert-path" (metricsCertPath o);
   flag_arg "metrics-cert-name" (metricsCertName o);
   flag_arg "metrics-cert-key" (metricsCertKey o);
   flag_arg "enable-http2" (fmt_bool (enableHTTP2 o))].

(** A name [Parse] can read: not empty, without ["="], not starting with a minus. *)
Fixpoint no_equals (s : string) : bool :=
  match s with "" => true | String a s' => negb (Ascii.eqb a "=") && no_equals s' end.
Definition flag_name (s : string) : bool :=
  match s with "" => false | String a _ => negb (Ascii.eqb a "-") end && no_equals s.

Lemma cut_value_app name value : no_equals name = true →
  cut_value (name +:+ String "=" value) = (name, Some value).
Proof.
  induction name as [|a name IH]; intros Hn; [done|]. simpl in Hn. bools.
  rewrite string_app_cons. cbn [cut_value]. rewrite IH by done.
  by match goal with Ha : Ascii.eqb a "=" = false |- _ => rewrite Ha end.
Qed.

Lemma ParseBool_fmt b : ParseBool (fmt_bool b) = Some b.
Proof. by destruct b. Qed.

(** One flag of the form [--name=value]. *)
Lemma Parse_flag {V} (flags : list (string * FlagKind V)) name value rest v k :
  flag_name name = true → lookup_flag flags name = Some k →
  Parse flags (flag_arg name value :: rest) v =
    match set_flag k value v with
    | Some v' => Parse flags rest v'
    | None => ParseError
    end.
Proof.
  intros Hn Hk. destruct name as [|a name]; [done|]. unfold flag_name in Hn.
  pose proof Hn as Hn'. simpl in Hn'. bools.
  change (flag_arg (String a name) value) with
    (String "-" (String "-" (String a (name +:+ String "=" value)))).
  cbn [Parse flag_text].
  repeat match goal with Ha : Ascii.eqb a _ = false |- _ => rewrite Ha end. cbn [orb].
  rewrite <- (string_app_cons a name), cut_value_app by (simpl; by rewrite !andb_true_iff, !negb_true_iff).
  rewrite Hk. by destruct (is_bool_flag k).
Qed.

(** The command line reads back.  Given a flag for every option, in the form
    [--name=value], the parser gives every option the value it was given, whatever
    flags came before, and goes on with the arguments after them: with none it stops
    there, and of two settings of an option the last one counts. *)
Theorem flags_read_back foreign o rest v :
  Parse (operator_flags ++ foreign)%list (flag_args o ++ rest)%list v =
    Parse (operator_flags ++ foreign)%list rest o.
Proof.
  unfold flag_args. cbn [app].
  do 11 (erewrite Parse_flag by reflexivity;
    cbn [set_flag snd metricsAddr metricsCertPath metricsCertName metricsCertKey webhookCertPath
         webhookCertName webhookCertKey enableLeaderElection probeAddr secureMetrics enableHTTP2];
    rewrite ?ParseBool_fmt; cbn [fmap option_fmap option_map]).
  by destruct o.
Qed.

(** ** Starting *)

(** What is set up, in this order. *)
Definition startup_plan (o : Options) (enableWebhooks : bool) : list StartEv :=
  ([NewManager (manager_options o enableWebhooks);
    SetupWithManager cluster_setup; SetupWithManager backup_setup; SetupWithManager restore_setup]
   ++ (if enableWebhooks then [SetupWebhook] else [])
   ++ [AddHealthzCheck "healthz"; AddReadyzCheck "readyz"; StartManager])%list.

(** A step that can fail went well. *)
Definition step_ok (x : entry StartAns) : bool := succeeded (entry_ev x) (entry_ans x).

(** The trace [l] goes through the steps [es]: all of them, each successful, and the
    process ends with 0; or up to one that fails, and it ends with 1. *)
Definition went_through (es : list StartEv) (l : list (entry StartAns)) (o : outcome Z) : Prop :=
  entry_ev <$> l = take (length l) es ∧
  ((length l = length es ∧ Forall (λ x, step_ok x = true) l ∧ o = Done 0%Z) ∨
   ∃ l' x, l = (l' ++ [x])%list ∧ Forall (λ x, step_ok x = true) l' ∧ step_ok x = false ∧ o = Done 1%Z).

Fixpoint run_plan (es : list StartEv) : prog StartAns Z :=
  match es with [] => Prog.Ret 0%Z | e :: rest => or_exit e (run_plan rest) end.

Lemma run_plan_goes es l o : exec (run_plan es) l o → went_through es l o.
Proof.
  revert l o. induction es as [|e es IH]; intros l o He; simpl in He.
  { destruct He as [-> ->]. split; [done|]. left. by repeat constructor. }
  destruct He as (a & l' & -> & He). set (x := @Entry StartEv StartAns e a).
  change (succeeded e a) with (step_ok x) in He.
  destruct (step_ok x) eqn:Hx.
  - apply IH in He as [Hl Ho]. split; [simpl; by f_equal|].
    destruct Ho as [(Hn & Hf & ->)|(l0 & y & -> & Hf & Hy & ->)].
    + left. simpl. split; [by f_equal|]. split; [by constructor|done].
    + right. exists (x :: l0)%list, y. split; [done|]. split; [by constructor|done].
  - destruct He as [-> ->]. split; [done|]. right. by exists [], x.
Qed.

(** C28: how the process starts.  A command line that is not understood ends it with 2, a
    request for help with 0, before any call.  Otherwise, after one look at the
    environment, the manager, the three controllers, the webhook - unless
    ENABLE_WEBHOOKS is false, and then there is no webhook server either - the health
    and the readiness check are set up in this order and the manager is started; the
    first step that fails ends the process with 1, and nothing after it is done. *)
Theorem main_follows_plan foreign args t o :
  exec (main foreign args) t o →
  match Parse (operator_flags ++ foreign)%list args default_options with
  | ParseHelp => t = [] ∧ o = Done 0%Z
  | ParseError => t = [] ∧ o = Done 2%Z
  | ParsedOk opts _ =>
      ∃ v l, t = @Entry StartEv StartAns (Getenv "ENABLE_WEBHOOKS") v :: l ∧
        went_through (startup_plan opts (negb (String.eqb v "false"))) l o
  end.
Proof.
  unfold main. destruct (Parse _ _ _) as [opts rest| |]; [|done..].
  intros (v & l & -> & He). exists v, l. split; [done|]. apply run_plan_goes.
  cbv zeta in He. unfold startup_plan. by destruct (String.eqb v "false").
Qed.

(** The options those steps get: without [--enable-http2] both servers speak HTTP/1.1
    only, metrics are served over HTTPS and behind authentication unless
    [--metrics-secure=false], and not at all by default. *)
Lemma servers_are_hardened (opts : Options) (webhooks : bool) c :
  (enableHTTP2 opts = false →
   NextProtos (apply_opts (mo_TLSOpts (mgr_Metrics (manager_options opts webhooks))) c) = ["http/1.1"] ∧
   ∀ w, mgr_WebhookServer (manager_options opts webhooks) = Some w →
        NextProtos (apply_opts (wo_TLSOpts w) c) = ["http/1.1"]) ∧
  (mo_FilterProvider (mgr_Metrics (manager_options opts webhooks)) = secureMetrics opts) ∧
  (mo_SecureServing (mgr_Metrics (manager_options opts webhooks)) = secureMetrics opts) ∧
  mo_BindAddress (metricsServerOptions default_options) = "0".
Proof.
  split_and!; [| |by unfold manager_options, metricsServerOptions; simpl; destruct (String.eqb _ _)..|done].
  - intros Hh. unfold manager_options, metricsServerOptions, webhookServerOptions, tlsOpts. rewrite Hh.
    simpl. split; [by destruct (String.eqb _ _)|]. destruct webhooks; [|done]. intros w [= <-].
    by destruct (String.eqb _ _).
  - unfold manager_options, metricsServerOptions. simpl. by destruct (String.eqb _ _).
Qed.

(** ** Witness *)

(** Started with webhooks off; the readiness check cannot be added. *)
Definition demo_answers (e : StartEv) (_ : unit) : unit * StartAns e :=
  (tt, match e return StartAns e with
       | Getenv _ => "false"
       | AddReadyzCheck _ => false
       | _ => true
       end).

Definition demo_args : list string := ["--leader-elect"; "-metrics-bind-address"; ":8443"].
Definition demo_start : unit * list (entry StartAns) * outcome Z :=
  run demo_answers (main [] demo_args) tt.

Lemma main_follows_plan_witness :
  demo_start.2 = Done 1%Z ∧
  ∃ opts v l, Parse (operator_flags ++ []) demo_args default_options = ParsedOk opts [] ∧
    metricsAddr opts = ":8443" ∧ enableLeaderElection opts = true ∧
    demo_start.1.2 = @Entry StartEv StartAns (Getenv "ENABLE_WEBHOOKS") v :: l ∧
    went_through (startup_plan opts (negb (String.eqb v "false"))) l (Done 1%Z).
Proof.
  split; [vm_compute; reflexivity|].
  assert (exec (main [] demo_args) demo_start.1.2 (Done 1%Z)) as He
    by (apply (run_exec demo_answers _ tt tt); vm_compute; reflexivity).
  destruct (Parse (operator_flags ++ []) demo_args default_options) as [opts rest| |] eqn:Hp;
    [|vm_compute in Hp; discriminate..].
  pose proof (main_follows_plan [] demo_args _ _ He) as Hm. rewrite Hp in Hm.
  destruct Hm as (v & l & Ht & Hl). exists opts, v, l.
  vm_compute in Hp. injection Hp as <- <-. split; [vm_compute; reflexivity|].
  split; [reflexivity|]. split; [reflexivity|]. split; [exact Ht|exact Hl].
Defined.
