(* ===== verification/Settled.v ===== *)
(** One pass is enough: what a step leaves behind, the next run of the step finds as it
    should be and leaves alone. *)

From S2P Require Import Prelude GoStrings Lib ApiTypes Image Compat Config K8s StatefulSet Prog Go Client Proxy Auth Controller RollingRestart Resources ScaleDown Reconcile S3 Backup AuthTheorems ReconcileProofs Demo.
#[local] Open Scope string_scope.

Section Settled.
Context `{Lib}.
Implicit Types (c : HyperbytedbCluster) (t u : list (entry Ans)).

(** ** The object of a step *)

(** An object of kind [k'] as one of kind [k], for the kinds the steps write. *)
Definition as_kind (k k' : Kind) : obj k' → option (obj k) :=
  match k, k' with
  | KStatefulSet, KStatefulSet | KDeployment, KDeployment | KService, KService
  | KConfigMap, KConfigMap | KSecret, KSecret | KPDB, KPDB | KHPA, KHPA
  | KServiceMonitor, KServiceMonitor | KCronJob, KCronJob => λ o, Some o
  | _, _ => λ _, None
  end.

(** What the read that starts a step says about the object: it is there, it is not, or
    the read failed. *)
Definition first_read (k : Kind) t : option (option (obj k)) :=
  match t with
  | x :: _ =>
      match entry_ev x as e return Ans e → option (option (obj k)) with
      | Get k' _ _ => λ a,
          match a with
          | inr o => Some <$> as_kind k k' o
          | inl e => if IsNotFound e then Some None else None
          end
      | _ => λ _, None
      end (entry_ans x)
  | [] => None
  end.

(** What a call makes of it. *)
Definition effect (k : Kind) (s : option (obj k)) (x : entry Ans) : option (obj k) :=
  match entry_ev x as e return Ans e → option (obj k) with
  | Create k' o | Update k' o => λ a, match a with inr _ => as_kind k k' o | inl _ => s end
  | Delete _ _ _ _ => λ a, match a with inr _ => None | inl _ => s end
  | _ => λ _, s
  end (entry_ans x).

(** The object after a run of the step. *)
Definition left_by (k : Kind) t : option (option (obj k)) :=
  (λ s, foldl (effect k) s t) <$> first_read k t.

(** No write is refused, certificates can be made, and the random source fills its
    buffers. *)
Definition write_ok (x : entry Ans) : Prop :=
  match entry_ev x as e return Ans e → Prop with
  | RandRead _ => λ a, ∃ bs, a = inr bs
  | GenerateCert _ _ => λ a, ∃ pem, a = inr pem
  | Create _ _ | Update _ _ => λ a, ∃ o, a = inr o
  | Delete _ _ _ _ => λ a, a = nil_err
  | _ => λ _, True
  end (entry_ans x) ∧ rand_honest x.

(** A read finds the object or that there is none. *)
Definition read_ok (x : entry Ans) : Prop :=
  match entry_ev x as e return Ans e → Prop with
  | Get _ _ _ => λ a, match a with inl e => IsNotFound e = true | inr _ => True end
  | _ => λ _, True
  end (entry_ans x).

(** A call that changes nothing: the only write is of the object as it was read, and no
    secret or certificate is generated. *)
Definition keeps (k : Kind) (s : option (obj k)) (e : Ev) : Prop :=
  match e with
  | Create _ _ | Delete _ _ _ _ | PatchSts _ _ | StatusUpdate _ _ => False
  | RandRead _ | GenerateCert _ _ => False
  | Update k' o => as_kind k k' o = s ∧ s ≠ None
  | _ => True
  end.

(** The API server may fill in what the operator does not write: [o'] is [o] in the
    fields the operator sets. *)
Definition agrees (k : Kind) : obj k → obj k → Prop :=
  match k with
  | KStatefulSet => λ o o',
      sts_Replicas o = sts_Replicas o' ∧ sts_RollingUpdate o = sts_RollingUpdate o' ∧
      sts_PodManagementPolicy o = sts_PodManagementPolicy o' ∧ sts_Template o = sts_Template o'
  | KDeployment => λ o o',
      dep_Replicas o = dep_Replicas o' ∧ dep_Selector o = dep_Selector o' ∧
      dep_MaxUnavailable o = dep_MaxUnavailable o' ∧ dep_MaxSurge o = dep_MaxSurge o' ∧
      dep_Template o = dep_Template o'
  | KService => λ o o',
      svc_Type o = svc_Type o' ∧ svc_Selector o = svc_Selector o' ∧ svc_Ports o = svc_Ports o'
  | KConfigMap => λ o o', cm_Data o = cm_Data o'
  | KSecret => λ o o', sec_Data o = sec_Data o'
  | KPDB => λ o o', pdb_MinAvailable o = pdb_MinAvailable o' ∧ pdb_Selector o = pdb_Selector o'
  | KHPA => λ o o',
      hpa_TargetKind o = hpa_TargetKind o' ∧ hpa_TargetName o = hpa_TargetName o' ∧
      hpa_MinReplicas o = hpa_MinReplicas o' ∧ hpa_MaxReplicas o = hpa_MaxReplicas o' ∧
      hpa_TargetCPU o = hpa_TargetCPU o'
  | KServiceMonitor => λ _ _, True
  | KCronJob => λ o o', cj_Schedule o = cj_Schedule o' ∧ cj_JobSpec o = cj_JobSpec o'
  | _ => λ o o', o = o'
  end.

(** The next run reads what the last one left: the object as the server keeps it, or
    that there is none. *)
Definition reads_on (k : Kind) (s s' : option (obj k)) : Prop :=
  match s, s' with
  | Some o, Some o' => agrees k o o'
  | None, None => True
  | _, _ => False
  end.

(** ** Steps that maintain an object *)

(** What a step promises: [wanted] holds of what it leaves behind, does not depend on
    what the server fills in, and an object of which it holds is left alone. *)
Class Maintains {A} (k : Kind) (p : P A) := {
  wanted : option (obj k) → Prop;
  wanted_left t a s :
    exec p t (Done a) → Forall write_ok t → left_by k t = Some s → (k = KStatefulSet → s ≠ None) → wanted s;
  wanted_agrees s s' : wanted s → reads_on k s s' → wanted s';
  wanted_kept t o s :
    exec p t o → first_read k t = Some s → wanted s → Forall (λ x, keeps k s (entry_ev x)) t;
  begins_reading t o : exec p t o → Forall read_ok t → t = [] ∨ is_Some (first_read k t) }.

Lemma maintained_settles {A} k (p : P A) `{!Maintains k p} t a s u o' s' :
  exec p t (Done a) → Forall write_ok t → left_by k t = Some s → (k = KStatefulSet → s ≠ None) →
  exec p u o' → first_read k u = Some s' → reads_on k s s' →
  Forall (λ x, keeps k s' (entry_ev x)) u.
Proof.
  intros He Hw Hl Hs He' Hr Hra. eapply wanted_kept; [exact He'|exact Hr|].
  eapply wanted_agrees; [|exact Hra]. exact (wanted_left t a s He Hw Hl Hs).
Qed.
End Settled.

Section Lookups.
Context `{Lib}.

(** A step that reads its object and goes on with what it found. *)
Definition maintains_lookup {A} k ns name (g : GoErr + option (obj k) → P A)
  (W : option (obj k) → Prop)
  (Hkind : ∀ o, as_kind k k o = Some o)
  (Hfail : ∀ e t o, exec (g (inl e)) t o → t = [])
  (Hleft : ∀ s t a, exec (g (inr s)) t (Done a) → Forall write_ok t →
             (k = KStatefulSet → foldl (effect k) s t ≠ None) → W (foldl (effect k) s t))
  (Hagrees : ∀ s s', W s → reads_on k s s' → W s')
  (Hkept : ∀ s, W s → emits (keeps k s) (g (inr s))) :
  Maintains k (lookup_object k ns name ≫= g).
Proof.
  assert (∀ t o, exec (lookup_object k ns name ≫= g) t o →
    ∃ a t', t = @Entry Ev Ans (Get k ns name) a :: t' ∧
      match first_read k t with Some s => exec (g (inr s)) t' o | None => t' = [] end) as Hrun.
  { intros t o (a & t' & -> & He). exists a, t'. split; [done|]. unfold first_read. cbn.
    destruct a as [e|x]; cbn in He.
    - destruct (IsNotFound e); [exact He|]. by apply Hfail in He.
    - rewrite Hkind. exact He. }
  refine {| wanted := W; wanted_agrees := Hagrees |}.
  - intros t o s He Hw Hl Hs. apply Hrun in He as (a & t' & Ht & He). unfold left_by in Hl.
    destruct (first_read k t) as [s0|]; simplify_eq/=. apply Forall_cons in Hw as [_ Hw].
    by eapply Hleft.
  - intros t o s He Hr HW. apply Hrun in He as (a & t' & Ht & He). rewrite Hr in He. subst t.
    constructor; [done|]. exact (emits_exec _ _ _ _ (Hkept s HW) He).
  - intros t o (a & t' & -> & _) [Hr _]%Forall_cons. right. unfold first_read, read_ok in *. cbn in *.
    destruct a as [e|x]; [rewrite Hr|rewrite Hkind]; by eexists.
Defined.

(** The usual form: an error of the read is returned. *)
Definition maintains_pbind {A} k ns name (f : option (obj k) → P (GoErr + A))
  (W : option (obj k) → Prop)
  (Hkind : ∀ o, as_kind k k o = Some o)
  (Hleft : ∀ s t a, exec (f s) t (Done a) → Forall write_ok t →
             (k = KStatefulSet → foldl (effect k) s t ≠ None) → W (foldl (effect k) s t))
  (Hagrees : ∀ s s', W s → reads_on k s s' → W s')
  (Hkept : ∀ s, W s → emits (keeps k s) (f s)) :
  Maintains k (pbind (lookup_object k ns name) f) :=
  maintains_lookup k ns name (λ r, match r with inl e => mret (inl e) | inr a => f a end) W
    Hkind (λ e t o He, proj1 He) Hleft Hagrees Hkept.

(** A step that makes no call. *)
#[export] Instance maintains_nothing {A} k (a : A) : Maintains k (mret a : P A).
Proof.
  refine {| wanted := λ _, True |}; [done..| |].
  - by intros t o s [-> _].
  - intros t o [-> _]. by left.
Defined.
End Lookups.

Section Instances.
Context `{Lib}.
Implicit Types (c : HyperbytedbCluster) (t u : list (entry Ans)).

(** [return r.Create(ctx, obj)] and [r.Update]: one write, of that object. *)
Lemma create_ok {k} (o : obj k) t r s : exec (create o) t r → Forall write_ok t →
  foldl (effect k) s t = as_kind k k o.
Proof.
  intros (a & t' & -> & He) [[(x & Hx) _] _]%Forall_cons. cbn in *. subst a. by destruct He as [-> _].
Qed.
Lemma update_ok {k} (o : obj k) t r s : exec (update o) t r → Forall write_ok t →
  foldl (effect k) s t = as_kind k k o.
Proof.
  intros (a & t' & -> & He) [[(x & Hx) _] _]%Forall_cons. cbn in *. subst a. by destruct He as [-> _].
Qed.
Lemma delete_ok k m b t r s : exec (delete_object k m b) t r → Forall write_ok t →
  foldl (effect k) s t = None.
Proof. intros (a & t' & -> & He) [[Hx _] _]%Forall_cons. cbn in *. subst a. by destruct He as [-> _]. Qed.
Lemma update_keeps k (o : obj k) s : as_kind k k o = s → s ≠ None → emits (keeps k s) (update o).
Proof. intros Ho Hs. by split. Qed.

#[export] Instance config_maintains c : Maintains KConfigMap (reconcileConfigMap c).
Proof.
  apply (maintains_pbind KConfigMap _ _ _ (λ s, ∃ o, s = Some o ∧ cm_Data o = cm_Data (BuildConfigMap c))).
  - done.
  - intros [cm|] t o He Hw _; [destruct (bool_decide _) eqn:Hd; bools|].
    + destruct He as [-> _]. by exists cm.
    + rewrite (update_ok _ _ _ _ He Hw). eexists. by split.
    + rewrite (create_ok _ _ _ _ He Hw). eexists. by split.
  - intros s [o'|] (o & -> & Hd) Ha; [|done]. exists o'. split; [done|]. by rewrite <- Hd.
  - intros s (o & -> & Hd). by rewrite bool_decide_eq_true_2.
Defined.

(** The ports and the selector are the desired ones. *)
Definition service_wanted (d : Service) (s : option Service) : Prop :=
  ∃ o, s = Some o ∧ svc_Selector o = svc_Selector d ∧ svc_Ports o = svc_Ports d.

Lemma service_with_wanted o d : svc_Selector o = svc_Selector d → svc_Ports o = svc_Ports d →
  service_with o d = o.
Proof. unfold service_with. intros <- <-. by destruct o. Qed.

#[export] Instance service_maintains c d : Maintains KService (reconcileService c d).
Proof.
  apply (maintains_pbind KService _ _ _ (service_wanted d)).
  - done.
  - intros [s|] t o He Hw _.
    + rewrite (update_ok _ _ _ _ He Hw). eexists. by split.
    + rewrite (create_ok _ _ _ _ He Hw). eexists. by split.
  - intros s [o'|] (o & -> & Hs & Hp) Ha; [|done]. destruct Ha as (_ & Has & Hap).
    exists o'. split; [done|]. by rewrite <- Has, <- Hap.
  - intros s (o & -> & Hs & Hp). cbn. rewrite (service_with_wanted o d) by done. by split.
Defined.

#[export] Instance peers_maintains c : Maintains KConfigMap (cleanupLegacyPeersConfigMap c).
Proof.
  apply (maintains_pbind KConfigMap _ _ _ (λ s, s = None)).
  - done.
  - intros [cm|] t o He Hw _; [exact (delete_ok _ _ _ _ _ _ He Hw)|]. by destruct He as [-> _].
  - by intros s [o'|] -> Ha.
  - by intros s ->.
Defined.

#[export] Instance monitor_maintains c : Maintains KServiceMonitor (reconcileServiceMonitor c).
Proof.
  apply (maintains_pbind KServiceMonitor _ _ _ (λ s, s ≠ None)).
  - done.
  - intros [m|] t o He Hw _; [by destruct He as [-> _]|]. by rewrite (create_ok _ _ _ _ He Hw).
  - by intros [o|] [o'|] Hs Ha.
  - by intros [o|] Hs.
Defined.

#[export] Instance pdb_maintains c : Maintains KPDB (reconcilePDB c).
Proof.
  apply (maintains_pbind KPDB _ _ _ (λ s,
    if bool_decide (spec_replicas c < 2)%Z then s = None
    else ∃ o, s = Some o ∧ pdb_MinAvailable o = pdb_MinAvailable (desired_pdb c) ∧
              pdb_Selector o = pdb_Selector (desired_pdb c))).
  - done.
  - intros s t o He Hw _. destruct (bool_decide _), s as [p|].
    + exact (delete_ok _ _ _ _ _ _ He Hw).
    + by destruct He as [-> _].
    + rewrite (update_ok _ _ _ _ He Hw). eexists. by split.
    + rewrite (create_ok _ _ _ _ He Hw). eexists. by split.
  - intros s s' Hs Ha. destruct (bool_decide _); [subst s; by destruct s'|].
    destruct Hs as (o & -> & H1 & H2), s' as [o'|]; [|done]. destruct Ha as [Ha1 Ha2].
    exists o'. split; [done|]. by rewrite <- Ha1, <- Ha2.
  - intros s Hs. destruct (bool_decide _); [by subst s|]. destruct Hs as ([m a l] & -> & H1 & H2).
    cbn in H1, H2. subst a l. by split.
Defined.

#[export] Instance hpa_maintains c : Maintains KHPA (reconcileHPA c).
Proof.
  apply (maintains_pbind KHPA _ _ _ (λ s,
    match autoscaling_enabled c with
    | None => s = None
    | Some a => ∃ o, s = Some o ∧ agrees KHPA o (desired_hpa c a)
    end)).
  - done.
  - intros s t o He Hw _. destruct (autoscaling_enabled c) as [a|], s as [h|].
    + rewrite (update_ok _ _ _ _ He Hw). eexists. by split.
    + rewrite (create_ok _ _ _ _ He Hw). eexists. by split.
    + exact (delete_ok _ _ _ _ _ _ He Hw).
    + by destruct He as [-> _].
  - intros s s' Hs Ha. destruct (autoscaling_enabled c); [|subst s; by destruct s'].
    destruct Hs as (o & -> & Hd), s' as [o'|]; [|done]. exists o'. split; [done|].
    destruct Hd as (? & ? & ? & ? & ?), Ha as (? & ? & ? & ? & ?). repeat split; congruence.
  - intros s Hs. destruct (autoscaling_enabled c) as [a|]; [|by subst s].
    destruct Hs as ([m k n mi ma cpu] & -> & H1 & H2 & H3 & H4 & H5). cbn in H1, H2, H3, H4, H5.
    subst. by split.
Defined.

(** *** Secrets *)

(** There is one. *)
#[export] Instance self_signed_maintains c n : Maintains KSecret (ensure_self_signed c n).
Proof.
  apply (maintains_pbind KSecret _ _ _ (λ s, s ≠ None)).
  - done.
  - intros [s|] t o He Hw _; [by destruct He as [-> _]|]. unfold BuildSelfSignedTLSSecret in He.
    apply exec_mbind in He as [(t1 & t2 & r & -> & H1 & He)|[_ ?]].
    + apply Forall_app in Hw as [Hw1 Hw2]. apply exec_make_slice in H1 as [[_ H1]|(_ & _ & ?)]; [|done].
      apply exec_pbind in H1 as [(t3 & t4 & pem & -> & H3 & H4)|[(e & H3 & _)|[_ ?]]]; [|exfalso|done].
      2: { destruct H3 as (a & t' & -> & _ & ?). simplify_eq.
           apply Forall_cons in Hw1 as [[(? & ?) _] _]. done. }
      destruct pem as [[ca crt] key], H4 as [Ht4 Hr], H3 as (a & t' & Ht3 & Ht' & _). simplify_eq.
      destruct He as ([] & t'' & -> & He). apply Forall_cons in Hw2 as [_ Hw2].
      rewrite app_nil_r, foldl_app. cbn [foldl].
      by rewrite (create_ok _ _ _ _ He Hw2).
    + done.
  - by intros [o|] [o'|] Hs Ha.
  - by intros [o|] Hs.
Defined.

#[export] Instance tls_maintains c n : Maintains KSecret (reconcileTLS c n).
Proof.
  unfold reconcileTLS. destruct (srv_TLS _) as [tls|]; [|apply maintains_nothing].
  destruct (negb (tls_Enabled tls)); [apply maintains_nothing|].
  destruct (negb (String.eqb _ _)); [apply maintains_nothing|].
  destruct (bool_decide _); [apply maintains_nothing|apply self_signed_maintains].
Defined.

(** Every key of the auth Secret has a value. *)
Definition auth_wanted (s : option Secret) : Prop :=
  ∃ o, s = Some o ∧ Forall (λ k, map_get (sec_Data o) k ≠ "") key_names.

Lemma fill_complete s : Forall (λ k, map_get (sec_Data s) k ≠ "") key_names →
  FillAuthSecret s = mret (inr (false, s)).
Proof.
  unfold key_names. rewrite !Forall_cons. intros (H1 & H2 & H3 & _).
  apply String.eqb_neq in H1, H2, H3. unfold FillAuthSecret, auth_keys. cbn [fill_keys].
  by rewrite H1, H2, H3.
Qed.

Lemma random_ok n t e : exec (randomSecret n) t (Done (inl e)) → ¬ Forall write_ok t.
Proof.
  intros (a & t' & -> & He) [[(bs & Hb) _] _]%Forall_cons. cbn in *. subst a. by destruct He.
Qed.

Lemma fill_keys_emits Q keys ch s : Forall (λ kv, emits Q kv.2) keys → emits Q (fill_keys keys ch s).
Proof.
  intros Hk. revert ch s. induction Hk as [|[k value] rest Hv _ IH]; intros ch s; [done|].
  cbn [fill_keys]. destruct (negb _); [done|]. apply emits_bind; [done|]. by intros [e|v].
Qed.

Lemma fill_keys_ok keys ch s t e :
  Forall (λ kv, ∀ t e, exec kv.2 t (Done (inl e)) → ¬ Forall write_ok t) keys →
  exec (fill_keys keys ch s) t (Done (inl e)) → ¬ Forall write_ok t.
Proof.
  intros Hk. revert ch s t. induction Hk as [|[k value] rest Hv _ IH]; intros ch s t He Hw; [by destruct He|].
  cbn [fill_keys] in He. destruct (negb _); [by eapply IH|].
  apply exec_pbind in He as [(t1 & t2 & v & -> & _ & He)|[(e' & H1 & _)|[_ ?]]]; [| |done].
  - apply Forall_app in Hw as [_ Hw]. by eapply IH.
  - by eapply Hv.
Qed.

(** Filling in keys succeeds when the random source does, leaves the object as the
    server has it, and every key with a value. *)
Lemma fill_ok s t r : exec (FillAuthSecret s) t (Done r) → Forall write_ok t →
  (∀ s0, foldl (effect KSecret) s0 t = s0) ∧
  ∃ ch s', r = inr (ch, s') ∧ Forall (λ k, map_get (sec_Data s') k ≠ "") key_names ∧
           (ch = false → s' = s).
Proof.
  intros He Hw. split.
  - assert (emits (λ e, ∃ n, e = RandRead n) (FillAuthSecret s)) as Hr.
    { apply fill_keys_emits. repeat constructor; try (by eexists); by intros [?|?]. }
    pose proof (emits_exec _ _ _ _ Hr He) as Ht. clear -Ht.
    induction Ht as [|[ev a] t (n & Hn) _ IH]; [done|]. cbn in Hn. subst ev. done.
  - assert (∃ p, r = inr p) as [[ch s'] ->].
    { destruct r as [e|p]; [exfalso|by eexists]. eapply fill_keys_ok; [|exact He|exact Hw].
      repeat constructor; intros t' e'; cbn [snd]; [apply random_ok| |apply random_ok]. by intros [_ ?]. }
    destruct (fill_keys_exec auth_keys false s t (ch, s') auth_keys_give
      (Forall_impl _ _ _ Hw (λ x Hx, proj2 Hx)) He) as ((_ & _ & _ & _ & Hk) & Hc & _).
    exists ch, s'. split; [done|]. split; [by apply Forall_forall|]. intros Hch. by apply Hc.
Qed.

#[export] Instance auth_maintains c : Maintains KSecret (reconcileAuthSecret c).
Proof.
  apply (maintains_pbind KSecret _ _ _ auth_wanted).
  - done.
  - intros [s|] t o He Hw _.
    + apply exec_pbind in He as [(t1 & t2 & [ch s'] & -> & H1 & He)|[(e & H1 & _)|[_ ?]]]; [| |done].
      2: { destruct (fill_ok _ _ _ H1 Hw) as (_ & ? & ? & ? & _). done. }
      apply Forall_app in Hw as [Hw1 Hw2].
      destruct (fill_ok _ _ _ H1 Hw1) as (Heff & ch' & s'' & Hr & Hall & Hsame). simplify_eq.
      rewrite foldl_app, Heff. destruct ch'; cbn in He.
      * destruct He as (a & t' & -> & He). apply Forall_cons in Hw2 as [[(x & Hx) _] _].
        cbn in Hx. subst a. destruct He as ([] & t'' & -> & [-> _]). by eexists.
      * destruct He as [-> _]. exists s. rewrite (Hsame eq_refl) in Hall. done.
    + apply exec_mbind in He as [(t1 & t2 & r & -> & H1 & He)|[_ ?]]; [|done].
      apply Forall_app in Hw as [Hw1 Hw2].
      apply exec_pbind in H1 as [(t3 & t4 & [ch s'] & -> & H1 & H4)|[(e & H1 & _)|[_ ?]]]; [|exfalso|done].
      2: { destruct (fill_ok _ _ _ H1 Hw1) as (_ & ? & ? & ? & _). done. }
      destruct H4 as [-> Hr]. simplify_eq. rewrite app_nil_r in *.
      destruct (fill_ok _ _ _ H1 Hw1) as (Heff & ch' & s'' & Hr & Hall & _). simplify_eq.
      rewrite foldl_app, Heff. cbn in He. destruct He as (a & t' & -> & He).
      apply Forall_cons in Hw2 as [[(x & Hx) _] _]. cbn in Hx. subst a.
      destruct He as ([] & t'' & -> & [-> _]). eexists. split; [done|]. by destruct (String.eqb _ _).
  - intros s [o'|] (o & -> & Hd) Ha; [|done]. exists o'. split; [done|]. cbn in Ha. by rewrite <- Ha.
  - intros s (o & -> & Hd). by rewrite (fill_complete o Hd).
Defined.

(** *** StatefulSet *)

Definition sts_wanted (d : StatefulSet) (s : option StatefulSet) : Prop :=
  ∃ o, s = Some o ∧ sts_PodManagementPolicy o = sts_PodManagementPolicy d ∧
       sts_Replicas o = sts_Replicas d ∧ sts_RollingUpdate o = sts_RollingUpdate d ∧
       template_with (sts_Template o) (sts_Template d) = sts_Template o.

Lemma template_with_idem a d : template_with (template_with a d) d = template_with a d.
Proof. done. Qed.
Lemma template_with_self d : template_with d d = d.
Proof. by destruct d as [? ? []]. Qed.
Lemma sts_with_wanted o d : sts_wanted d (Some o) → sts_with o d = o.
Proof.
  intros (o' & [= <-] & _ & H1 & H2 & H3). unfold sts_with. rewrite <- H1, <- H2, H3. by destruct o.
Qed.

#[export] Instance sts_maintains c h : Maintains KStatefulSet (reconcileStatefulSet c h).
Proof.
  apply (maintains_pbind KStatefulSet _ _ _ (sts_wanted (desired_sts c h))).
  - done.
  - intros [s|] t o He Hw Hs.
    + destruct (negb _) eqn:Hp; bools.
      * destruct He as ([] & t' & -> & a & t'' & -> & He). apply Forall_cons in Hw as [_ Hw].
        apply Forall_cons in Hw as [[Hd _] _]. cbn in Hd. subst a. destruct He as [-> _].
        by destruct (Hs eq_refl).
      * destruct He as (a & t' & -> & He). apply Forall_cons in Hw as [[(x & Hx) _] _].
        cbn in Hx. subst a. cbn in He. unfold sts_result in He.
        destruct (sts_Replicas x); destruct He as [-> He]; [|done].
        eexists. split; [done|]. by repeat split.
    + destruct He as ([] & t' & -> & a & t'' & -> & He). apply Forall_cons in Hw as [_ Hw].
      apply Forall_cons in Hw as [[(x & Hx) _] _]. cbn in Hx. subst a. cbn in He.
      destruct (sts_Replicas x); destruct He as [-> He]; [|done].
      eexists. split; [done|]. repeat split. apply template_with_self.
  - intros s [o'|] (o & -> & H1 & H2 & H3 & H4) Ha; [|done]. destruct Ha as (A1 & A2 & A3 & A4).
    exists o'. rewrite <- A1, <- A2, <- A3, <- A4. done.
  - intros s Hs. destruct Hs as (o & -> & Hs). assert (sts_wanted (desired_sts c h) (Some o)) as HW by by exists o.
    destruct Hs as (Hp & _). rewrite bool_decide_eq_true_2 by done. cbn.
    rewrite (sts_with_wanted _ _ HW). split; [done|]. intros [e|x]; [done|]. cbn. unfold sts_result. by destruct (sts_Replicas x).
Defined.

(** *** The proxy *)

Lemma wrapping_exec w p t r : exec (wrapping w p) t (Done r) → ∃ r', exec p t (Done r').
Proof.
  intros He. apply exec_mbind in He as [(t1 & t2 & a & -> & H1 & [-> _])|[_ ?]]; [|done].
  rewrite app_nil_r. by exists a.
Qed.

#[export] Instance proxy_service_maintains c : Maintains KService (reconcile_proxy_service c).
Proof.
  apply (maintains_lookup KService _ _ _ (λ s, ∃ o, s = Some o ∧
    svc_Type o = svc_Type (BuildProxyService c) ∧ service_wanted (BuildProxyService c) s)).
  - done.
  - by intros e t o [-> _].
  - intros [s|] t o He Hw _.
    + cbn zeta in He. destruct (String.eqb _ _) eqn:Ht; bools.
      * apply wrapping_exec in He as [r He]. rewrite (update_ok _ _ _ _ He Hw).
        eexists. split; [done|]. split; [done|]. eexists. by split.
      * apply exec_pbind in He as [(t1 & t2 & v & -> & H1 & He)|[(e & H1 & _)|[_ ?]]]; [|exfalso|done].
        { apply Forall_app in Hw as [Hw1 Hw2]. apply wrapping_exec in He as [r He].
          rewrite foldl_app, (create_ok _ _ _ _ He Hw2). eexists. split; [done|]. split; [done|].
          eexists. by split. }
        destruct H1 as (a & t' & -> & [-> Hr]). apply Forall_cons in Hw as [[Hd _] _]. cbn in Hd.
        by subst a.
    + apply wrapping_exec in He as [r He]. rewrite (create_ok _ _ _ _ He Hw).
      eexists. split; [done|]. split; [done|]. eexists. by split.
  - intros s [o'|] (o & -> & Ht & o2 & [= <-] & Hs & Hp) Ha; [|done]. destruct Ha as (Hat & Has & Hap).
    exists o'. split; [done|]. rewrite <- Hat. split; [done|]. exists o'. by rewrite <- Has, <- Hap.
  - intros s (o & -> & Ht & o2 & [= <-] & Hs & Hp). cbn.
    rewrite (service_with_wanted o (owned_service c (BuildProxyService c))) by done.
    apply String.eqb_eq in Ht. cbn in *. rewrite Ht. by split.
Defined.

#[export] Instance proxy_deployment_maintains c : Maintains KDeployment (reconcile_proxy_deployment c).
Proof.
  apply (maintains_lookup KDeployment _ _ _ (λ s, ∃ o, s = Some o ∧
    deployment_with o (BuildProxyDeployment c) = o)).
  - done.
  - by intros e t o [-> _].
  - intros [s|] t o He Hw _.
    + rewrite (update_ok _ _ _ _ He Hw). eexists. split; [done|].
      unfold deployment_with. cbn. f_equal. f_equal. unfold maps_Copy.
      apply map_eq. intros i. rewrite !lookup_union. by destruct (_ !! i), (_ !! i).
    + destruct He as ([] & t' & -> & He). apply Forall_cons in Hw as [_ Hw]. cbn [foldl].
      rewrite (create_ok _ _ _ _ He Hw). eexists. split; [done|].
      unfold deployment_with. cbn. f_equal. destruct (dep_Template _) as [l a p]. cbn. f_equal.
      unfold maps_Copy. apply map_eq. intros i. rewrite !lookup_union. by destruct (_ !! i).
  - intros s [o'|] (o & -> & Hd) Ha; [|done]. destruct Ha as (H1 & H2 & H3 & H4 & H5).
    exists o'. split; [done|]. revert Hd. destruct o, o'. cbn in *. subst. unfold deployment_with. cbn.
    intros [= ????]. by f_equal.
  - intros s (o & -> & Hd). cbn. unfold deployment_with in *. cbn in *. by rewrite Hd.
Defined.
End Instances.

(** ** The steps *)

Section Steps.
Context `{Lib}.
Implicit Types (c : HyperbytedbCluster) (t u : list (entry Ans)).

(** The steps of a pass that maintain an object each, with the kind of it. *)
Inductive object_step c : ∀ (k : Kind) {A : Type}, P A → Prop :=
  | step_tls n : object_step c KSecret (reconcileTLS c n)
  | step_auth : object_step c KSecret (reconcileAuthSecret c)
  | step_config : object_step c KConfigMap (reconcileConfigMap c)
  | step_peers : object_step c KConfigMap (cleanupLegacyPeersConfigMap c)
  | step_service d : object_step c KService (reconcileService c d)
  | step_sts h : object_step c KStatefulSet (reconcileStatefulSet c h)
  | step_monitor : object_step c KServiceMonitor (reconcileServiceMonitor c)
  | step_pdb : object_step c KPDB (reconcilePDB c)
  | step_hpa : object_step c KHPA (reconcileHPA c)
  | step_proxy_service : object_step c KService (reconcile_proxy_service c)
  | step_proxy_deployment : object_step c KDeployment (reconcile_proxy_deployment c).

(** C13: one pass is enough.  Every step of the reconciler that maintains an object -
    the Secrets, the ConfigMaps, the Services, the StatefulSet, the ServiceMonitor, the
    PodDisruptionBudget, the autoscaler and the two proxy objects - is stable: when a run
    of it succeeds with no write refused and leaves the object as [s] (not counting the
    deletion that recreates a StatefulSet under another policy), every later run for the
    same cluster that finds the object as it was left - whatever the server filled in
    besides the fields the operator sets - writes nothing but that same object, unchanged:
    no creation, no deletion, no patch, no new secret or certificate. *)
Theorem steps_settle c k A (p : P A) :
  object_step c k p →
  ∀ t a s, exec p t (Done a) → Forall write_ok t → left_by k t = Some s →
           (k = KStatefulSet → s ≠ None) →
  ∀ u o s', exec p u o → first_read k u = Some s' → reads_on k s s' →
            Forall (λ x, keeps k s' (entry_ev x)) u.
Proof.
  intros Hp. destruct Hp; intros t a s He Hw Hl Hs u o s' He' Hr Hra;
    exact (maintained_settles _ _ t a s u o s' He Hw Hl Hs He' Hr Hra).
Qed.
End Steps.

(** A cluster of three whose StatefulSet has one replica: the first pass scales it, the
    second finds it scaled - with a resource version of its own - and writes it back. *)
Definition settling_world (n : Z) (labels : gmap string string) : World :=
  let d := desired_sts (demo_cluster 3 None) "hash" in
  mkWorld 0%Z
    (λ k _, match k with
            | KStatefulSet =>
                Some (sts_with (mkSts (mkMeta "db" "ns" labels ∅ [] None 7 None) (Some n) "db-headless" ∅
                                  (sts_PodManagementPolicy d) None demo_template [] (mkStsStatus n n n "r" "r"))
                        (if Z.eqb n 3 then d else mkSts (sts_Meta d) (Some n) "" ∅ ParallelPodManagement None
                                                    demo_template [] (mkStsStatus 0 0 0 "" "")))
            | _ => None
            end) [] (λ _, mkRsp 200 None).

Lemma steps_settle_witness :
  let p := reconcileStatefulSet (demo_cluster 3 None) "hash" in
  let u := trace_of (settling_world 3 {[ "seen" := "yes" ]}) p in
  length u = 2 ∧
  Forall (λ x, keeps KStatefulSet (w_get (settling_world 3 {[ "seen" := "yes" ]}) KStatefulSet "db") (entry_ev x)) u.
Proof.
  cbn zeta. split; [vm_compute; reflexivity|].
  set (p := reconcileStatefulSet (demo_cluster 3 None) "hash").
  assert (∃ a, result_of (settling_world 1 ∅) p = Done a) as [a Ha] by (vm_compute; by eexists).
  assert (∃ s, left_by KStatefulSet (trace_of (settling_world 1 ∅) p) = Some (Some s) ∧
    agrees KStatefulSet s (default s (w_get (settling_world 3 {[ "seen" := "yes" ]}) KStatefulSet "db")))
    as (s & Hl & Hag) by (vm_compute; eexists; by repeat split).
  eapply (steps_settle (demo_cluster 3 None) KStatefulSet _ p (step_sts _ _) _ a (Some s) (world_done _ _ _ Ha)).
  - vm_compute. repeat constructor; by eexists.
  - exact Hl.
  - done.
  - apply world_exec.
  - vm_compute. reflexivity.
  - exact Hag.
Defined.
