(* ===== verification/Tokens.v ===== *)
(** The cluster token: which HTTP requests of a pass carry it, and where it comes
    from. *)

From S2P Require Import Prelude GoStrings Messages Lib ApiTypes Image Compat Config K8s StatefulSet Prog Go Client Proxy Auth Controller RollingRestart Resources ScaleDown Members Reconcile ReconcileProofs Demo ReconcileTheorems.
#[local] Open Scope string_scope.

Section Carries.
Context `{Lib}.
Implicit Types (c : HyperbytedbCluster) (ctx : Ctx).

(** The token header of the requests made with a context. *)
Definition token_header (ctx : Ctx) : option string := if String.eqb ctx "" then None else Some ctx.

Definition carries ctx (e : Ev) : Prop :=
  match e with Http r => rq_Token r = token_header ctx | _ => True end.
Definition no_http (e : Ev) : Prop := match e with Http _ => False | _ => True end.

Lemma no_http_carries {A} ctx (p : P A) : emits no_http p → emits (carries ctx) p.
Proof. apply emits_mono. intros e. by destruct e. Qed.

(** *** Calls to the nodes and the proxies *)

Variable tok : Ctx.
Abbreviation sends p := (emits (carries tok) p).

Lemma GetNodeHealth_sends h p : sends (GetNodeHealth tok h p).
Proof. unfold GetNodeHealth, Do. foot. Qed.
Lemma GetClusterNodes_sends h p : sends (GetClusterNodes tok h p).
Proof. unfold GetClusterNodes, Do. foot. Qed.
Lemma GetClusterLeader_sends h p : sends (GetClusterLeader tok h p).
Proof. unfold GetClusterLeader, Do. foot. Qed.
Lemma GetSyncManifest_sends h p : sends (GetSyncManifest tok h p).
Proof. unfold GetSyncManifest, Do. foot. Qed.
Lemma DecommissionNode_sends h p : sends (DecommissionNode tok h p).
Proof. unfold DecommissionNode, Do. foot. Qed.
Lemma LeaveNode_sends h p i : sends (LeaveNode tok h p i).
Proof. unfold LeaveNode, Do. foot. Qed.
Lemma RemoveClusterNode_sends h p i : sends (RemoveClusterNode tok h p i).
Proof. unfold RemoveClusterNode, Do. foot. Qed.
Lemma AddClusterNode_sends h p i a b : sends (AddClusterNode tok h p i a b).
Proof. unfold AddClusterNode, Do. foot. Qed.
#[local] Hint Resolve GetNodeHealth_sends GetClusterNodes_sends GetClusterLeader_sends
  GetSyncManifest_sends DecommissionNode_sends LeaveNode_sends RemoveClusterNode_sends
  AddClusterNode_sends : foot.

Lemma probe_sends c b l : sends (probe_departing tok c b l).
Proof. induction l; cbn [probe_departing]; foot. Qed.
Lemma tell_departing_sends c hs l : sends (tell_departing tok c hs l).
Proof. induction l; cbn [tell_departing]; foot. Qed.
Lemma leader_among_sends hs p l : sends (leader_among tok hs p l).
Proof. induction l; cbn [leader_among]; foot. Qed.
#[local] Hint Resolve probe_sends tell_departing_sends leader_among_sends : foot.
Lemma removeDepartedVoters_sends hs p l : sends (removeDepartedVoters tok hs p l).
Proof. induction l; cbn [removeDepartedVoters]; unfold raftLeaderHost; foot. Qed.
Lemma tell_survivors_sends c i l : sends (tell_survivors tok c i l).
Proof. induction l; cbn [tell_survivors]; foot. Qed.
#[local] Hint Resolve removeDepartedVoters_sends tell_survivors_sends : foot.
Lemma announce_sends c d l : sends (announce_departed tok c d l).
Proof. induction l; cbn [announce_departed]; foot. Qed.
#[local] Hint Resolve announce_sends : foot.
Lemma hooks_sends c p d : sends (runScaleDownClusterHooks tok c p d).
Proof. unfold runScaleDownClusterHooks. foot. Qed.

Lemma forEach_sends c send :
  (∀ p, sends (send p)) → sends (forEachRunningProxy c send).
Proof.
  intros Hs. unfold forEachRunningProxy, send_to_running. foot. apply emits_for_each_err. foot.
Qed.
Lemma exclude_sends c ip p : sends (excludeFromAllProxies tok c ip p).
Proof. apply forEach_sends. unfold ExcludeProxyBackend, Do. foot. Qed.
Lemma include_sends c ip p : sends (includeFromAllProxies tok c ip p).
Proof. apply forEach_sends. unfold IncludeProxyBackend, Do. foot. Qed.
#[local] Hint Resolve exclude_sends include_sends : foot.
Lemma rolling_phase_sends c0 st ur c : sends (rolling_phase tok c0 st ur c).
Proof.
  unfold rolling_phase, rollingRestartExcluding, rollingRestartDraining,
    rollingRestartWaitingReady, rollingRestartRelease, releaseOrdinal, enter_draining, ordinal_done,
    next_ordinal. foot.
Qed.
#[local] Hint Resolve rolling_phase_sends : foot.
Lemma reconcileRollingRestart_sends s n c : sends (reconcileRollingRestart tok s n c).
Proof.
  unfold reconcileRollingRestart, tryClearCompletedRollingRestart, ensureRollingRestartState,
    start_rolling. foot.
Qed.

Lemma CollectMemberStatuses_sends c ns n : sends (CollectMemberStatuses tok c ns n).
Proof.
  unfold CollectMemberStatuses. apply emits_make_slice. induction (ordinals_up 0 n); cbn [collect_members];
    unfold collect_member; foot.
Qed.
Lemma view_pods_sends c l : sends (view_pods tok c l).
Proof. induction l; cbn [view_pods]; unfold view_pod; foot. Qed.
Lemma find_leader_sends p all l : sends (find_leader_among tok p all l).
Proof. induction l; cbn [find_leader_among]; foot. Qed.
Lemma add_members_sends h p k l : sends (add_members tok h p k l).
Proof. induction l; cbn [add_members]; foot. Qed.
#[local] Hint Resolve view_pods_sends find_leader_sends add_members_sends : foot.
Lemma reconcileClusterMembership_sends n c : sends (reconcileClusterMembership tok n c).
Proof. unfold reconcileClusterMembership, findLeader. foot. Qed.
Lemma collect_manifests_sends l c : sends (collect_manifests tok l c).
Proof. revert c. induction l; intros c; cbn [collect_manifests]; foot. Qed.
#[local] Hint Resolve collect_manifests_sends : foot.
Lemma monitorReplicationHealth_sends n c : sends (monitorReplicationHealth tok n c).
Proof. unfold monitorReplicationHealth. foot. Qed.
End Carries.

(** ** Steps that make no request *)

Section Quiet.
Context `{Lib}.
Implicit Types (c : HyperbytedbCluster) (ctx : Ctx).
Abbreviation quiet p := (emits no_http p).

Lemma reconcileTLS_quiet c n : quiet (reconcileTLS c n).
Proof. unfold reconcileTLS, ensure_self_signed, BuildSelfSignedTLSSecret. foot. Qed.
Lemma FillAuthSecret_quiet s : quiet (FillAuthSecret s).
Proof. unfold FillAuthSecret, auth_keys, randomSecret. cbn [fill_keys]. foot. Qed.
#[local] Hint Resolve FillAuthSecret_quiet : foot.
Lemma reconcileAuthSecret_quiet c : quiet (reconcileAuthSecret c).
Proof. unfold reconcileAuthSecret, create_auth_secret, BuildAuthSecret. foot. Qed.
Lemma reconcileConfigMap_quiet c : quiet (reconcileConfigMap c).
Proof. unfold reconcileConfigMap. foot. Qed.
Lemma cleanupLegacyPeers_quiet c : quiet (cleanupLegacyPeersConfigMap c).
Proof. unfold cleanupLegacyPeersConfigMap. foot. Qed.
Lemma reconcileService_quiet c s : quiet (reconcileService c s).
Proof. unfold reconcileService. foot. Qed.
Lemma reconcileStatefulSet_quiet c h : quiet (reconcileStatefulSet c h).
Proof. unfold reconcileStatefulSet, sts_result. foot. Qed.
Lemma reconcileProxy_quiet c : quiet (reconcileProxy c).
Proof. unfold reconcileProxy, reconcile_proxy_service, reconcile_proxy_deployment. foot. Qed.
Lemma reconcileServiceMonitor_quiet c : quiet (reconcileServiceMonitor c).
Proof. unfold reconcileServiceMonitor. foot. Qed.
Lemma reconcilePDB_quiet c : quiet (reconcilePDB c).
Proof. unfold reconcilePDB. foot. Qed.
Lemma reconcileHPA_quiet c : quiet (reconcileHPA c).
Proof. unfold reconcileHPA. foot. Qed.
Lemma get_pods_quiet c l : quiet (get_pods c l).
Proof. induction l; cbn [get_pods]; foot. Qed.
Lemma delete_departed_quiet p : quiet (delete_departed p).
Proof. unfold delete_departed. foot. Qed.
#[local] Hint Resolve get_pods_quiet delete_departed_quiet : foot.
Lemma deleteStuckDepartedPods_quiet c s : quiet (deleteStuckDepartedPods c s).
Proof. unfold deleteStuckDepartedPods. foot. Qed.
Lemma cleanup_pvc_quiet c i : quiet (cleanup_pvc c i).
Proof. unfold cleanup_pvc. foot. Qed.
#[local] Hint Resolve cleanup_pvc_quiet : foot.
Lemma CleanupOrphanPVCs_quiet c a b : quiet (CleanupOrphanPVCs c a b).
Proof. unfold CleanupOrphanPVCs. foot. Qed.
Lemma failover_loop_quiet d ms c : quiet (failover_loop d ms c).
Proof. revert c. induction ms; intros c; cbn [failover_loop]; unfold failed_over; foot. Qed.
#[local] Hint Resolve failover_loop_quiet : foot.
Lemma handleAutoFailover_quiet ms c : quiet (handleAutoFailover ms c).
Proof. unfold handleAutoFailover. foot. Qed.
Lemma setFailedStatus_quiet {A} reason e c :
  quiet (setFailedStatus reason e c : P (HyperbytedbCluster * (Final + A))).
Proof. unfold setFailedStatus. foot. Qed.
End Quiet.

(** ** The pass *)

Section Pass.
Context `{Lib}.
Implicit Types (c : HyperbytedbCluster) (ctx : Ctx) (t u v : list (entry Ans)).

(** A predicate on calls that the bookkeeping of a step satisfies. *)
Lemma or_fail_sends {A} Q reason (m : CM (GoErr + A)) c :
  (∀ e, no_http e → Q e) → emits Q (m c) → emits Q (or_fail reason m c).
Proof.
  intros HQ Hm. apply m_bind_emits; [done|]. intros [e|a] c1; [|done].
  eapply emits_mono; [exact HQ|apply setFailedStatus_quiet].
Qed.
Lemma best_effort_sends Q (m : CM error) c : emits Q (m c) → emits Q (best_effort m c).
Proof. intros Hm. by apply m_bind_emits. Qed.
Lemma no_http_sends tok e : no_http e → carries tok e.
Proof. by destruct e. Qed.

#[local] Hint Resolve reconcileTLS_quiet reconcileAuthSecret_quiet reconcileConfigMap_quiet
  cleanupLegacyPeers_quiet reconcileService_quiet reconcileStatefulSet_quiet reconcileProxy_quiet
  reconcileServiceMonitor_quiet reconcilePDB_quiet reconcileHPA_quiet deleteStuckDepartedPods_quiet
  CleanupOrphanPVCs_quiet handleAutoFailover_quiet setFailedStatus_quiet
  hooks_sends reconcileRollingRestart_sends CollectMemberStatuses_sends
  reconcileClusterMembership_sends monitorReplicationHealth_sends no_http_sends : foot.

(** Composes the calls of the steps. *)
Ltac pass_sends :=
  unfold return_ok, return_err;
  repeat first
    [ done
    | solve [auto with foot]
    | solve [apply no_http_carries; auto with foot]
    | apply rbind_emits; [|intros ? ?] | apply or_fail_sends; [solve [auto with foot]|]
    | apply best_effort_sends | apply on_cluster_emits
    | match goal with |- emits _ ((match ?x with _ => _ end) _) => destruct x end
    | match goal with |- emits _ ((if ?x then _ else _) _) => destruct x end
    | apply m_bind_emits; [|intros ? ?]
    | solve [foot] ].

Lemma prepare_quiet ctx c : emits no_http (prepare ctx c).
Proof.
  assert (∀ e, no_http e → no_http e) as Hid by done.
  unfold prepare, pause_check, deletion, ensure_finalizer, previous_replicas, auth_step, or_return,
    modify_finalizers, UpdateCluster, modify_status. pass_sends.
Qed.

Lemma statefulset_step_sends tok h c : emits (carries tok) (statefulset_step h c).
Proof. unfold statefulset_step. pass_sends. Qed.
Lemma scale_down_step_sends tok p n c : emits (carries tok) (scale_down_step tok p n c).
Proof. unfold scale_down_step. pass_sends. Qed.
Lemma converge_sends tok sts p n h c : emits (carries tok) (converge tok sts p n h c).
Proof.
  unfold converge, proxy_step, rolling_restart_step, scaling_step, updatePhase, orphan_pvc_step,
    service_monitor_step, observe, members_step, updateStatus, upgrading. pass_sends.
Qed.

(** The API server answered with the auth Secret of [c]. *)
Definition secret_answered c u (s : Secret) : Prop :=
  @Entry Ev Ans (Get KSecret (cl_Namespace c) (AuthSecretName c)) (inr s) ∈ u ∨
  (∃ s0, om_Name (sec_Meta s0) = AuthSecretName c ∧ @Entry Ev Ans (Create KSecret s0) (inr s) ∈ u) ∨
  (∃ s1 s0, @Entry Ev Ans (Get KSecret (cl_Namespace c) (AuthSecretName c)) (inr s1) ∈ u ∧
     sec_Meta s0 = sec_Meta s1 ∧ @Entry Ev Ans (Update KSecret s0) (inr s) ∈ u).

(** The token a pass works with. *)
Definition token_read c u tok : Prop :=
  if ClusterAuthEnabled c then ∃ s, secret_answered c u s ∧ tok = token_of s else tok = "".

Lemma fill_keys_meta keys : ∀ b s t b' s',
  exec (fill_keys keys b s) t (Done (inr (b', s'))) →
  sec_Meta s' = sec_Meta s ∧ (b = true → b' = true) ∧ (b' = false → s' = s).
Proof.
  induction keys as [|[k value] keys IH]; intros b s t b' s'; cbn [fill_keys].
  { intros [_ ?]. by simplify_eq. }
  destruct (negb _); [apply IH|]. intros [(t1 & t2 & v & -> & _ & H2)|[(e & _ & ?)|[_ ?]]]%exec_pbind;
    [|done..].
  apply IH in H2 as (Hm & Hb & _). split; [done|]. split; [auto|]. intros ->. by specialize (Hb eq_refl).
Qed.
Lemma FillAuth_meta s t b s' : exec (FillAuthSecret s) t (Done (inr (b, s'))) →
  sec_Meta s' = sec_Meta s ∧ (b = false → s' = s).
Proof. intros (? & _ & ?)%fill_keys_meta. done. Qed.

Lemma BuildAuth_name c t s : exec (BuildAuthSecret c) t (Done (inr s)) →
  om_Name (sec_Meta s) = AuthSecretName c.
Proof.
  unfold BuildAuthSecret. intros [(t1 & t2 & [b s'] & -> & H1 & H2)|[(e & _ & ?)|[_ ?]]]%exec_pbind; [|done..].
  destruct H2 as [_ ?]. simplify_eq/=. apply FillAuth_meta in H1 as [-> _]. done.
Qed.

Lemma create_auth_token c t tok : exec (create_auth_secret c) t (Done (inr tok)) →
  ∃ s, secret_answered c t s ∧ tok = token_of s.
Proof.
  unfold create_auth_secret. intros [(t1 & t2 & [e|s0] & -> & H1 & H2)|[_ ?]]%exec_mbind; [..|done].
  { by destruct H2. }
  apply BuildAuth_name in H1.
  set (s1 := if String.eqb _ "" then _ else s0) in H2.
  assert (om_Name (sec_Meta s1) = AuthSecretName c) as Hs1.
  { unfold s1. by destruct (String.eqb _ ""). }
  clearbody s1. prog_unfold. destruct H2 as ([e|s] & t3 & -> & H2); cbn in H2.
  { by destruct H2. }
  destruct H2 as (? & ? & -> & -> & ?). simplify_eq. exists s. split; [|done]. right. left.
  exists s1. split; [done|]. set_solver.
Qed.

Lemma auth_token c t tok : exec (reconcileAuthSecret c) t (Done (inr tok)) →
  ∃ s, secret_answered c t s ∧ tok = token_of s.
Proof.
  unfold reconcileAuthSecret, lookup_object. intros (x & t1 & -> & He). cbn in He.
  destruct x as [e|s].
  { destruct (IsNotFound e); cbn in He; [|by destruct He].
    apply create_auth_token in He as (s & Hs & ->). exists s. split; [|done].
    destruct Hs as [?|[(s0 & ? & ?)|(s1 & s0 & ? & ? & ?)]]; [left|right; left|right; right].
    - set_solver.
    - exists s0. set_solver.
    - exists s1, s0. set_solver. }
  cbn in He. apply exec_pbind in He as [(t2 & t3 & [b s'] & -> & H1 & H2)|[(e & _ & ?)|[_ ?]]]; [|done..].
  apply FillAuth_meta in H1 as [Hm Hb]. destruct b; cbn in H2.
  - destruct H2 as ([e|s2] & t4 & -> & H2); cbn in H2; [by destruct H2|].
    destruct H2 as (? & ? & -> & -> & ?). simplify_eq. exists s2. split; [|done]. right. right.
    exists s, s'. split; [set_solver|]. split; [done|]. set_solver.
  - destruct H2 as [-> ?]. simplify_eq. rewrite Hb by done. exists s. split; [|done]. left. set_solver.
Qed.

Lemma secret_answered_mono c u v s : u ⊆ v → secret_answered c u s → secret_answered c v s.
Proof.
  intros Hs [?|[(s0 & ? & ?)|(s1 & s0 & ? & ? & ?)]]; [left|right; left|right; right]; eauto 10.
Qed.

(** What the first steps leave: the context of the rest of the pass. *)
Lemma prepare_token ctx c t c' ctx' p n h :
  exec (prepare ctx c) t (Done (c', inr (ctx', p, n, h))) →
  if ClusterAuthEnabled c' then ∃ s, secret_answered c' t s ∧ ctx' = token_of s else ctx' = ctx.
Proof.
  unfold prepare. intros He. do 3 apply exec_rbind_ok in He as (? & ? & ? & [] & -> & _ & He).
  apply exec_m_bind in He as [(? & ? & c2 & a & -> & [-> [= -> ->]] & He)|[_ ?]]; [|done].
  apply exec_rbind_ok in He as (? & ? & c2 & m & -> & [-> _]%previous_replicas_ok & He).
  apply exec_rbind_ok in He as (? & ? & c2 & [] & -> & [-> _]%or_fail_on_cluster_ok & He).
  apply exec_rbind_ok in He as (t1 & ? & c2 & ctx2 & -> & Ha & He).
  pose proof (auth_step_ok _ _ _ _ _ Ha) as ->.
  do 2 (apply exec_rbind_ok in He as (? & ? & c2 & [] & -> & [-> _]%or_fail_on_cluster_ok & He) ||
        apply exec_rbind_ok in He as (? & ? & c2 & [] & -> & [-> _]%best_effort_ok & He)).
  do 2 apply exec_rbind_ok in He as (? & ? & c2 & [] & -> & [-> _]%or_fail_on_cluster_ok & He).
  destruct He as [-> ?]. simplify_eq. unfold auth_step in Ha.
  apply exec_m_bind in Ha as [(? & ? & c2 & a & -> & [-> [= -> ->]] & Ha)|[_ ?]]; [|done].
  destruct (ClusterAuthEnabled _); [|by destruct Ha as [_ ?]; simplify_eq].
  apply exec_rbind_ok in Ha as (? & ? & ? & tok & -> & [-> Hs%auth_token]%or_fail_on_cluster_ok & [_ ?]).
  simplify_eq. destruct Hs as (s & Hs & ->). exists s. split; [|done].
  eapply secret_answered_mono; [|exact Hs]. set_solver.
Qed.
End Pass.

Section Theorems.
Context `{Lib, !LibLaws _}.
Implicit Types (c : HyperbytedbCluster) (t u v : list (entry Ans)).

(** The two parts of a pass. *)
Definition split_by_token ns name t : Prop :=
  ∃ u v tok, t = (u ++ v)%list ∧ Forall (λ x, no_http (entry_ev x)) u ∧
    Forall (λ x, carries tok (entry_ev x)) v ∧
    (v = [] ∨ ∃ c, served ns name u c ∧ token_read c u tok).

Lemma quiet_split ns name t : Forall (λ x, no_http (entry_ev x)) t → split_by_token ns name t.
Proof. intros Ht. exists t, [], "". rewrite app_nil_r. auto. Qed.

(** [prepare] and what follows it, for a cluster that was read. *)
Lemma prepared_split {B} (f : Ctx * Z * Z * string → CM (Final + B)) ns name c0 t o :
  (∀ ctx' p n h c, emits (carries ctx') (f (ctx', p, n, h) c)) →
  exec (rbind (prepare background) f c0) t o →
  split_by_token ns name (@Entry Ev Ans (Get KCluster ns name) (inr c0) :: t).
Proof.
  intros Hf. set (g := @Entry Ev Ans (Get KCluster ns name) (inr c0)).
  assert (∀ t2 o2, exec (prepare background c0) t2 o2 → Forall (λ x, no_http (entry_ev x)) (g :: t2)) as Hq.
  { intros t2 o2 Hp. constructor; [done|]. eapply emits_exec; [apply prepare_quiet|exact Hp]. }
  intros [(t3 & t4 & c & [[[ctx' p] n] h] & -> & Hp & H4)|[(c & fin & Hp & _)|[Hp _]]]%exec_rbind;
    [|by eapply quiet_split, Hq..].
  exists (g :: t3), t4, ctx'. split; [done|]. split; [by eapply Hq|].
  split; [by eapply emits_exec; [apply Hf|exact H4]|]. right. exists c. split.
  - apply adopted_served. by apply prepare_ok in Hp as [? _].
  - apply prepare_token in Hp. unfold token_read. destruct (ClusterAuthEnabled c); [|done].
    destruct Hp as (s & Hs & ->). exists s. split; [|done].
    eapply secret_answered_mono; [|exact Hs]. set_solver.
Qed.

(** C22: nodes and proxies are only ever called with the cluster's token.  A pass splits
    into a part without any HTTP request and a rest in which every request, to every
    node and proxy, carries one and the same token header: the token of the cluster's
    auth Secret as the API server answered it in the first part when authentication is
    enabled, and no header otherwise. *)
Theorem requests_carry_token ns name t o :
  exec (Reconcile background ns name) t o →
  ∃ u v tok, t = (u ++ v)%list ∧ Forall (λ x, no_http (entry_ev x)) u ∧
    Forall (λ x, carries tok (entry_ev x)) v ∧
    (v = [] ∨ ∃ c, served ns name u c ∧ token_read c u tok).
Proof.
  intros He. change (split_by_token ns name t). destruct He as ([e|c0] & t1 & -> & He).
  { apply quiet_split. cbn in He. destruct (IsNotFound e); destruct He as [-> _]; by constructor. }
  assert (∃ o', exec (reconcile_cluster background c0) t1 o') as [o1 Hr].
  { cbn in He. apply exec_bind in He as [(t2 & t3 & a & -> & Hr & [-> _])|[Hr _]]; [|by eexists].
    rewrite app_nil_r. by eexists. }
  unfold reconcile_cluster, reconcile_steps in Hr.
  apply exec_m_bind in Hr as [(t2 & t3 & c & r & -> & Hr & [-> _])|[Hr _]]; [rewrite app_nil_r|];
    (eapply prepared_split; [|exact Hr]); intros ctx' p n h c';
    (apply rbind_emits; [apply scale_down_step_sends|intros [] ?]);
    (apply rbind_emits; [apply statefulset_step_sends|intros sts ?]); apply converge_sends.
Qed.
End Theorems.

(** ** Witness *)

Definition demo_secret : Secret :=
  mkSecret (demo_meta "db-auth") "Opaque"
    {[ AuthSecretClusterTokenKey := "t0ken"; AuthSecretAdminUsernameKey := "admin";
       AuthSecretAdminPasswordKey := "pw" ]}.

Definition with_auth (s : HyperbytedbClusterSpec) : HyperbytedbClusterSpec :=
  mkSpec (sp_Replicas s) (sp_Image s) "1.0.0" (sp_ImagePullPolicy s) (sp_ImagePullSecrets s)
    (sp_Paused s) (sp_Server s) (sp_Storage s) (sp_Flush s) (sp_ChDB s) (mkAuthSpec true "")
    (sp_Logging s) (sp_Resources s) (sp_Cluster s) (sp_Sharding s) (sp_Cardinality s)
    (sp_StatementSummary s) (sp_HintedHandoff s) (sp_RateLimit s) (sp_Retention s)
    (sp_Monitoring s) (sp_Autoscaling s) (sp_Failover s) (sp_Proxy s) (sp_PodAnnotations s)
    (sp_PodLabels s) (sp_Affinity s) (sp_TopologySpreadConstraints s) (sp_Tolerations s)
    (sp_AdditionalVolumes s) (sp_AdditionalVolumeMounts s).

(** A pass over a cluster of three with authentication. *)
Definition auth_cluster : HyperbytedbCluster :=
  mkCluster finalized_meta (with_auth (demo_spec 3)) (demo_status None).
Definition auth_world : World := {|
  w_now := 0%Z;
  w_get k name :=
    match k with
    | KCluster => Some auth_cluster
    | KStatefulSet => Some pass_sts
    | KSecret => Some demo_secret
    | _ => None
    end;
  w_pods := [];
  w_http r := if Contains (rq_URL r) "/health" then mkRsp 200 (Some (health_body "active"))
              else mkRsp 200 (Some leader_body) |}.
Definition auth_trace : list (entry Ans) := trace_of auth_world (Reconcile background "ns" "db").

Definition headers (t : list (entry Ans)) : list (option string) :=
  omap (λ x, match entry_ev x with Http r => Some (rq_Token r) | _ => None end) t.

Lemma requests_carry_token_witness :
  headers auth_trace = repeat (Some "t0ken") 12 ∧
  ∃ u v tok, auth_trace = (u ++ v)%list ∧ Forall (λ x, no_http (entry_ev x)) u ∧
    Forall (λ x, carries tok (entry_ev x)) v ∧
    (v = [] ∨ ∃ c, served "ns" "db" u c ∧ token_read c u tok).
Proof.
  split; [vm_compute; reflexivity|]. apply (requests_carry_token "ns" "db" _ _ (world_exec _ _)).
Defined.
