(* ===== verification/WebhookTheorems.v ===== *)
(** The admission webhook: the properties. *)

From S2P Require Import Prelude GoStrings Lib ApiTypes Image Compat Config K8s StatefulSet Prog Go Proxy Webhook Demo.
#[local] Open Scope string_scope.

Section Defaulting.
Context `{Lib}.
Implicit Types c : HyperbytedbCluster.

(** ** What the rest of the operator reads of a defaulted cluster *)

Lemma spec_replicas_Default c : spec_replicas (Default c) = spec_replicas c.
Proof. unfold spec_replicas. simpl. by destruct (sp_Replicas (cl_Spec c)). Qed.

Lemma default_server_tls s : srv_TLS (default_server s) = srv_TLS s.
Proof. unfold default_server. by destruct (Z.eqb _ _). Qed.

Lemma default_server_port s : srv_Port (default_server s) = if Z.eqb (srv_Port s) 0 then 8086%Z else srv_Port s.
Proof. unfold default_server. by destruct (Z.eqb _ _). Qed.

Lemma default_server_timeout s : srv_RequestTimeoutSecs (default_server s) = srv_RequestTimeoutSecs s.
Proof. unfold default_server. by destruct (Z.eqb _ _). Qed.

Lemma ServerPort_Default c : ServerPort (Default c) = ServerPort c.
Proof.
  unfold ServerPort. simpl. rewrite default_server_port.
  destruct (Z.eqb_spec (srv_Port (sp_Server (cl_Spec c))) 0) as [->|]; done.
Qed.

Lemma ControlPort_Default c : ControlPort (Default c) = ControlPort c.
Proof. unfold ControlPort. by rewrite ServerPort_Default. Qed.

Lemma tls_enabled_Default c : tls_enabled (Default c) = tls_enabled c.
Proof. unfold tls_enabled. simpl. by rewrite default_server_tls. Qed.

Lemma clusterMetadataEnabled_Default c : clusterMetadataEnabled (Default c) = clusterMetadataEnabled c.
Proof. unfold clusterMetadataEnabled. by rewrite spec_replicas_Default. Qed.

Lemma ProxyEnabled_Default c : ProxyEnabled (Default c) = ProxyEnabled c.
Proof. unfold ProxyEnabled. simpl. by destruct (sp_Proxy (cl_Spec c)). Qed.

Lemma log_level_Default (l : LoggingSpec) d : d = "info" →
  str_or (log_Level (default_logging l)) d = str_or (log_Level l) d.
Proof. intros ->. unfold str_or. simpl. by destruct (String.eqb (log_Level l) "") eqn:E; rewrite ?E. Qed.

Lemma log_format_Default (l : LoggingSpec) d : d = "text" →
  str_or (log_Format (default_logging l)) d = str_or (log_Format l) d.
Proof. intros ->. unfold str_or. simpl. by destruct (String.eqb (log_Format l) "") eqn:E; rewrite ?E. Qed.

Lemma log_json_Default (l : LoggingSpec) :
  String.eqb (log_Format (default_logging l)) "json" = String.eqb (log_Format l) "json".
Proof. simpl. by destruct (String.eqb_spec (log_Format l) "") as [->|]. Qed.

Lemma data_claim_Default c : data_claim (Default c) = data_claim c.
Proof.
  unfold data_claim. simpl. unfold default_storage.
  destruct (sp_Storage (cl_Spec c)) as [[t|] f]; [done|]. simpl. by destruct (Quantity_IsZero _).
Qed.

Lemma ResolveProxyImage_Default c : ResolveProxyImage (Default c) = ResolveProxyImage c.
Proof. unfold ResolveProxyImage. simpl. by destruct (sp_Proxy (cl_Spec c)). Qed.

Lemma ProxySupports_Default c cap : ProxySupports (Default c) cap = ProxySupports c cap.
Proof. unfold ProxySupports, ResolveProxyVersion. by rewrite ResolveProxyImage_Default. Qed.

Lemma proxyPort_Default c : proxyPort (Default c) = proxyPort c.
Proof.
  unfold proxyPort. rewrite ServerPort_Default. simpl. by destruct (sp_Proxy (cl_Spec c)).
Qed.

Lemma ProxyAdminPort_Default c : ProxyAdminPort (Default c) = ProxyAdminPort c.
Proof. unfold ProxyAdminPort. by rewrite ProxySupports_Default, !proxyPort_Default. Qed.

Lemma pod_spec_Default c b : pod_spec (Default c) b = pod_spec c b.
Proof.
  unfold pod_spec, sts_init_containers, initScript, sts_volumes, main_container, sts_env, startup_probe,
    liveness_probe, readiness_probe, probe_scheme, sts_volume_mounts.
  rewrite ServerPort_Default, ControlPort_Default, tls_enabled_Default.
  change (sp_Server (cl_Spec (Default c))) with (default_server (sp_Server (cl_Spec c))).
  change (sp_Logging (cl_Spec (Default c))) with (default_logging (sp_Logging (cl_Spec c))).
  rewrite default_server_tls, log_level_Default by done. done.
Qed.

Lemma render_Default c b : ret_Interval (sp_Retention (cl_Spec c)) ≠ "" →
  renderConfigTOMLWithClusterEnabled (Default c) b = renderConfigTOMLWithClusterEnabled c b.
Proof.
  intros Hr.
  assert (writeServerSection (cl_Spec (Default c)) = writeServerSection (cl_Spec c)) as Hs.
  { unfold writeServerSection. simpl. rewrite default_server_tls, default_server_port. unfold default_server.
    destruct (Z.eqb_spec (srv_Port (sp_Server (cl_Spec c))) 0) as [->|]; done. }
  assert (writeStorageSection (cl_Spec (Default c)) = writeStorageSection (cl_Spec c)) as Hst.
  { unfold writeStorageSection. simpl. unfold default_storage. by destruct (sto_VolumeClaimTemplate _). }
  assert (writeLoggingSection (cl_Spec (Default c)) = writeLoggingSection (cl_Spec c)) as Hl.
  { unfold writeLoggingSection, defaultLogLevel. cbn [cl_Spec Default with_spec sp_Logging default_spec].
    by rewrite log_level_Default, log_format_Default by done. }
  assert (writeRetentionSection (cl_Spec (Default c)) = writeRetentionSection (cl_Spec c)) as Hre.
  { unfold writeRetentionSection. simpl. unfold default_retention.
    by rewrite (proj2 (String.eqb_neq _ _) Hr). }
  assert (writeClusterSection (Default c) b = writeClusterSection c b) as Hc.
  { unfold writeClusterSection. by rewrite ControlPort_Default. }
  unfold renderConfigTOMLWithClusterEnabled. by rewrite Hs, Hst, Hl, Hre, Hc.
Qed.

(** Defaulting twice is defaulting once: the mutating webhook is stable under
    the re-invocations the API server makes. *)
Theorem Default_idempotent c : Default (Default c) = Default c.
Proof.
  unfold Default, with_spec. f_equal. simpl. destruct c as [m s st]. simpl. unfold default_spec. simpl.
  f_equal.
  - by destruct (sp_Replicas s).
  - unfold default_server. by destruct (Z.eqb (srv_Port (sp_Server s)) 0) eqn:E; simpl; rewrite ?E.
  - unfold default_storage. by destruct (sp_Storage s) as [[t|] f].
  - unfold default_logging. simpl. f_equal.
    + by destruct (String.eqb (log_Level (sp_Logging s)) "") eqn:E; rewrite ?E.
    + by destruct (String.eqb (log_Format (sp_Logging s)) "") eqn:E; rewrite ?E.
  - unfold default_retention. by destruct (String.eqb (ret_Interval (sp_Retention s)) "") eqn:E; simpl; rewrite ?E.
  - by destruct (sp_Failover s).
  - by destruct (sp_Proxy s).
Qed.

(** The values the webhook fills in are the ones the operator would have used
    for the missing fields: the StatefulSet, the Services and the proxy it builds
    are the same before and after defaulting, and so is the configuration - provided
    the retention interval is set, the one field whose two defaults differ. *)
Theorem Default_transparent c h :
  BuildStatefulSet (Default c) h = BuildStatefulSet c h ∧
  BuildHeadlessService (Default c) = BuildHeadlessService c ∧
  BuildClientService (Default c) = BuildClientService c ∧
  BuildProxyService (Default c) = BuildProxyService c ∧
  BuildProxyDeployment (Default c) = BuildProxyDeployment c ∧
  (ret_Interval (sp_Retention (cl_Spec c)) ≠ "" →
   BuildConfigMap (Default c) = BuildConfigMap c).
Proof.
  split_and!.
  - unfold BuildStatefulSet, pod_template, podManagementPolicy.
    rewrite spec_replicas_Default, clusterMetadataEnabled_Default, data_claim_Default, pod_spec_Default. done.
  - unfold BuildHeadlessService, http_service_port. by rewrite ServerPort_Default.
  - unfold BuildClientService, http_service_port. by rewrite ServerPort_Default.
  - unfold BuildProxyService. rewrite proxyPort_Default. simpl. by destruct (sp_Proxy (cl_Spec c)).
  - unfold BuildProxyDeployment, proxy_container, proxy_env, proxy_ports, proxy_probe_port, proxy_request_timeout.
    rewrite !ProxySupports_Default, ProxyAdminPort_Default, proxyPort_Default, ServerPort_Default,
      ResolveProxyImage_Default.
    change (sp_Logging (cl_Spec (Default c))) with (default_logging (sp_Logging (cl_Spec c))).
    rewrite log_json_Default.
    change (sp_Server (cl_Spec (Default c))) with (default_server (sp_Server (cl_Spec c))).
    rewrite default_server_timeout. unfold proxy_spec. simpl. by destruct (sp_Proxy (cl_Spec c)).
  - intros Hr. unfold BuildConfigMap, renderConfigTOML.
    by rewrite clusterMetadataEnabled_Default, render_Default.
Qed.
End Defaulting.

(** ** Validation *)

Section Validation.
Context `{Lib}.
Implicit Types c : HyperbytedbCluster.

(** What an admitted cluster satisfies. *)
Definition valid_port c : Prop :=
  srv_Port (sp_Server (cl_Spec c)) = 0%Z ∨ (1 <= srv_Port (sp_Server (cl_Spec c)) <= 65535)%Z.
Definition valid_autoscaling (a : option AutoscalingSpec) : Prop :=
  match a with
  | Some a => as_Enabled a = true → (1 <= as_MaxReplicas a)%Z ∧ (as_MinReplicas a <= as_MaxReplicas a)%Z
  | None => True
  end.
Definition valid_failover (f : option FailoverSpec) : Prop :=
  match f with
  | Some f => fo_Enabled f = true →
      ((fo_FailoverTimeoutSecs f <= 0)%Z ∨ (60 <= fo_FailoverTimeoutSecs f)%Z) ∧
      (1 <= fo_MaxFailoverCount f)%Z
  | None => True
  end.
Definition valid_tls (t : option TLSSpec) : Prop :=
  match t with
  | Some t => tls_Enabled t = true → match tls_CertManagerIssuerRef t with
                | Some r => ref_Name r ≠ "" ∧ (ref_Kind r = "Issuer" ∨ ref_Kind r = "ClusterIssuer")
                | None => True
                end
  | None => True
  end.
(** Thresholds that are set are ordered: merge < split < max. *)
Definition valid_sharding (s : option ShardingSpec) : Prop :=
  match s with
  | Some s =>
      ((0 < sh_RegionMergeSeries s)%Z → (0 < sh_RegionSplitSeries s)%Z →
       (sh_RegionMergeSeries s < sh_RegionSplitSeries s)%Z) ∧
      ((0 < sh_RegionSplitSeries s)%Z → (0 < sh_RegionMaxSeries s)%Z →
       (sh_RegionSplitSeries s < sh_RegionMaxSeries s)%Z)
  | None => True
  end.
Definition valid c : Prop :=
  (1 <= spec_replicas c)%Z ∧ valid_port c ∧
  valid_autoscaling (sp_Autoscaling (cl_Spec c)) ∧ valid_failover (sp_Failover (cl_Spec c)) ∧
  valid_tls (srv_TLS (sp_Server (cl_Spec c))) ∧ valid_sharding (sp_Sharding (cl_Spec c)).

Lemma validate_autoscaling_ok c :
  validate_autoscaling c = nil_err ↔ valid_autoscaling (sp_Autoscaling (cl_Spec c)).
Proof.
  unfold validate_autoscaling, valid_autoscaling. destruct (sp_Autoscaling _) as [a|]; [|done].
  destruct (as_Enabled a); simpl; [|naive_solver].
  repeat case_bool_decide; naive_solver lia.
Qed.
Lemma validate_failover_ok c :
  validate_failover c = nil_err ↔ valid_failover (sp_Failover (cl_Spec c)).
Proof.
  unfold validate_failover, valid_failover. destruct (sp_Failover _) as [f|]; [|done].
  destruct (fo_Enabled f); simpl; [|naive_solver].
  repeat case_bool_decide; simpl; naive_solver lia.
Qed.
Lemma validate_tls_ok c : validate_tls c = nil_err ↔ valid_tls (srv_TLS (sp_Server (cl_Spec c))).
Proof.
  unfold validate_tls, valid_tls. destruct (srv_TLS _) as [t|]; [|done].
  destruct (tls_Enabled t); simpl; [|naive_solver].
  destruct (tls_CertManagerIssuerRef t) as [r|]; [|done].
  destruct (String.eqb_spec (ref_Name r) ""), (String.eqb_spec (ref_Kind r) "Issuer"),
    (String.eqb_spec (ref_Kind r) "ClusterIssuer"); simpl; naive_solver.
Qed.
Lemma validateSharding_ok c : validateSharding c = nil_err ↔ valid_sharding (sp_Sharding (cl_Spec c)).
Proof.
  unfold validateSharding, valid_sharding. destruct (sp_Sharding _) as [s|]; [|done].
  repeat case_bool_decide; simpl; naive_solver lia.
Qed.
Lemma reject_or_ok (e : error) w k : (reject_or e (w, k)).2 = nil_err ↔ e = nil_err ∧ k = nil_err.
Proof. destruct e as [e|[]]; simpl; naive_solver. Qed.

(** C39: the webhook admits exactly the valid clusters, and warns about an admitted
    cluster when it has two nodes, and only then. *)
Theorem validateCluster_correct c :
  ((validateCluster c).2 = nil_err ↔ valid c) ∧
  (valid c → (validateCluster c).1 = if bool_decide (spec_replicas c = 2%Z) then [two_node_warning] else []).
Proof.
  assert (∀ e1 e2 e3 (w : list string) k,
    (reject_or e1 (reject_or e2 (reject_or e3 (w, k)))).2 = nil_err ↔
    e1 = nil_err ∧ e2 = nil_err ∧ e3 = nil_err ∧ k = nil_err) as Hrej.
  { intros [e1|[]] [e2|[]] [e3|[]] w k; simpl; naive_solver. }
  assert ((negb (Z.eqb (srv_Port (sp_Server (cl_Spec c))) 0) &&
    (bool_decide (srv_Port (sp_Server (cl_Spec c)) < 1)%Z
     || bool_decide (65535 < srv_Port (sp_Server (cl_Spec c)))%Z)) = false ↔ valid_port c) as Hport.
  { unfold valid_port. destruct (Z.eqb_spec (srv_Port (sp_Server (cl_Spec c))) 0); simpl; [naive_solver|].
    repeat case_bool_decide; simpl; naive_solver lia. }
  unfold validateCluster, valid.
  rewrite <- validate_autoscaling_ok, <- validate_failover_ok, <- validate_tls_ok, <- validateSharding_ok, <- Hport.
  destruct (decide (spec_replicas c < 1)%Z) as [Hlt|Hge].
  { rewrite bool_decide_eq_true_2 by done. split; [|lia]. split; [done|]. simpl. lia. }
  rewrite (bool_decide_eq_false_2 (spec_replicas c < 1)%Z) by done.
  destruct (negb _ && _); [split; [split; [done|]; by intros (_ & ? & _)|by intros (_ & ? & _)]|].
  rewrite Hrej. split; [split; [intros; split; [lia|tauto]|tauto]|].
  intros (_ & _ & -> & -> & -> & _). simpl.
  destruct (Z.eqb_spec (spec_replicas c) 2); [by rewrite bool_decide_true|by rewrite bool_decide_false].
Qed.

Lemma valid_Default c : valid (Default c) ↔ valid c.
Proof.
  unfold valid. rewrite spec_replicas_Default. unfold valid_port. simpl.
  rewrite default_server_port, default_server_tls.
  assert (valid_failover (default_failover (sp_Failover (cl_Spec c))) ↔ valid_failover (sp_Failover (cl_Spec c))) as ->.
  { destruct (sp_Failover _); [done|]. simpl. split; [done|]. intros _ _. lia. }
  destruct (Z.eqb_spec (srv_Port (sp_Server (cl_Spec c))) 0) as [->|]; [|done]. split; naive_solver lia.
Qed.

(** C40: what an admitted cluster is: with the defaults filled in it is admitted as
    well; it has at least one replica; its port is a TCP port - but the port of the
    control listener, one higher, is one only if the server does not take the
    last. *)
Theorem admitted_cluster c :
  (validateCluster c).2 = nil_err →
  (validateCluster (Default c)).2 = nil_err ∧
  (1 <= spec_replicas (Default c))%Z ∧
  (1 <= ServerPort c <= 65535)%Z ∧
  ControlPort c = (ServerPort c + 1)%Z ∧
  ((1 <= ControlPort c <= 65535)%Z ↔ ServerPort c ≠ 65535%Z).
Proof.
  intros Hv. pose proof (proj1 (proj1 (validateCluster_correct c)) Hv) as Hval.
  assert (1 <= ServerPort c <= 65535)%Z as Hp.
  { destruct Hval as (_ & Hp & _). unfold valid_port in Hp. unfold ServerPort. case_bool_decide; lia. }
  assert (ControlPort c = (ServerPort c + 1)%Z) as Hcp.
  { unfold ControlPort. apply int32_id. unfold in_int32. lia. }
  rewrite spec_replicas_Default, Hcp.
  split; [apply (proj1 (validateCluster_correct (Default c))); by apply valid_Default|].
  split; [by destruct Hval|]. split; [exact Hp|]. split; [reflexivity|lia].
Qed.
End Validation.

(** ** Witnesses *)

(** A cluster of which only the name is given. *)
Definition bare_spec (port : Z) : HyperbytedbClusterSpec := {|
  sp_Replicas := None; sp_Image := ""; sp_Version := "";
  sp_ImagePullPolicy := ""; sp_ImagePullSecrets := []; sp_Paused := false;
  sp_Server := mkServerSpec port 0 0 0 0 None;
  sp_Storage := mkStorageSpec None "";
  sp_Flush := mkFlushSpec 0 0 0 0 None;
  sp_ChDB := mkChDBSpec "" 0 0 0;
  sp_Auth := mkAuthSpec false "";
  sp_Logging := mkLoggingSpec "" "";
  sp_Resources := Raw "";
  sp_Cluster := demo_tuning;
  sp_Sharding := None;
  sp_Cardinality := mkCardinalitySpec 0 0;
  sp_StatementSummary := mkStatementSummarySpec None 0;
  sp_HintedHandoff := mkHintedHandoffSpec None 0 0;
  sp_RateLimit := mkRateLimitSpec None 0;
  sp_Retention := mkRetentionSpec None "";
  sp_Monitoring := mkMonitoringSpec false false;
  sp_Autoscaling := None; sp_Failover := None; sp_Proxy := None;
  sp_PodAnnotations := ∅; sp_PodLabels := ∅; sp_Affinity := None;
  sp_TopologySpreadConstraints := []; sp_Tolerations := [];
  sp_AdditionalVolumes := []; sp_AdditionalVolumeMounts := [] |}.
Definition bare_cluster (port : Z) : HyperbytedbCluster :=
  mkCluster (demo_meta "db") (bare_spec port) (demo_status None).

(** Port 65535 is admitted, and the control listener gets port 65536. *)
Lemma admitted_cluster_witness :
  (validateCluster (bare_cluster 65535)).2 = nil_err ∧
  ControlPort (bare_cluster 65535) = 65536%Z ∧
  ((1 <= ControlPort (bare_cluster 65535) <= 65535)%Z ↔ ServerPort (bare_cluster 65535) ≠ 65535%Z).
Proof.
  split; [vm_compute; reflexivity|].
  pose proof (admitted_cluster (bare_cluster 65535) ltac:(vm_compute; reflexivity)) as (_ & _ & _ & Hc & Hi).
  split; [rewrite Hc; vm_compute; reflexivity|exact Hi].
Defined.

(** The two defaults of the retention interval differ. *)
Lemma retention_defaults_differ :
  BuildConfigMap (Default (bare_cluster 0)) ≠ BuildConfigMap (bare_cluster 0).
Proof.
  intros He. apply (f_equal (λ m, map_get (cm_Data m) "config.toml")) in He. vm_compute in He. discriminate.
Qed.
