(* ===== verification/RestoreTheorems.v ===== *)
(** Backups and restores: the properties. *)

From S2P Require Import Prelude GoStrings Lib ApiTypes Image Config K8s StatefulSet Prog Go Resources ScaleDown ScaleDownProofs S3 Backup Restore Demo.
#[local] Open Scope string_scope.

(** ** The phases of a restore as an abstract machine *)

Inductive restore_step : RestorePhase → RestorePhase → Prop :=
  | restore_scale_down p :
      p = RestorePhaseNone ∨ p = RestorePhasePending → restore_step p RestorePhaseScaleDown
  | restore_start : restore_step RestorePhaseScaleDown RestorePhaseRestoring
  | restore_complete : restore_step RestorePhaseRestoring RestorePhaseCompleted
  | restore_fail p : restore_over p = false → restore_step p RestorePhaseFailed.

Section Restores.
Context `{Lib}.
Implicit Types (r : HyperbytedbRestore) (c : HyperbytedbCluster) (t u v : list (entry Ans)).

(** The phase of the status a call writes. *)
Definition phase_write (e : Ev) : option RestorePhase :=
  match e with
  | StatusUpdate k o =>
      match k return obj k → option RestorePhase with
      | KRestore => λ r, Some (rst_Phase (re_Status r))
      | _ => λ _, None
      end o
  | _ => None
  end.
Definition phases_written t : list RestorePhase := omap (λ x, phase_write (entry_ev x)) t.

Lemma phases_written_app t u : phases_written (t ++ u)%list = (phases_written t ++ phases_written u)%list.
Proof. apply omap_app. Qed.

(** Calls that write no phase. *)
Definition no_phase (e : Ev) : Prop := phase_write e = None.
Lemma no_phase_written t : Forall (λ x, no_phase (entry_ev x)) t → phases_written t = [].
Proof. unfold phases_written. induction 1 as [|x t Hx _ IH]; simpl; [done|]. by rewrite Hx. Qed.

Lemma create_jobs_no_phase r c s3 l : emits no_phase (for_each_err l (create_restore_job r c s3)).
Proof.
  apply emits_for_each_err. intros i. unfold create_restore_job, create. prog_emits.
Qed.
Lemma create_jobs_total r c s3 l : total (for_each_err l (create_restore_job r c s3)).
Proof.
  apply total_for_each_err. intros i. unfold create_restore_job, create. prog_unfold. prog_cbn.
  by intros [e|o].
Qed.
Lemma check_jobs_no_phase r l a b : emits no_phase (check_jobs r l a b).
Proof.
  revert a b. induction l as [|i l IH]; intros a b; cbn [check_jobs]; [done|]. prog_unfold. prog_cbn.
  split; [done|]. intros [e|j]; [destruct (IsNotFound e); [apply IH|done]|apply IH].
Qed.
Lemma check_jobs_total r l a b : total (check_jobs r l a b).
Proof.
  revert a b. induction l as [|i l IH]; intros a b; cbn [check_jobs]; [done|]. prog_unfold. prog_cbn.
  intros [e|j]; [destruct (IsNotFound e); [apply IH|done]|apply IH].
Qed.

(** Symbolic execution up to the loops over the Jobs. *)
Ltac restore_unfold :=
  unfold fail_restore, handleScaleDown, handleScaleUp, scale_sts, get_sts, setRestorePhase, restore_event,
    modify_restore_status, update.
Ltac restore_go := restore_unfold; prog_go.

(** The Job a call creates. *)
Definition job_created (e : Ev) : option Job :=
  match e with
  | Create k o => match k return obj k → option Job with KJob => Some | _ => λ _, None end o
  | _ => None
  end.
Definition jobs_created t : list Job := omap (λ x, job_created (entry_ev x)) t.
Lemma jobs_created_app t u : jobs_created (t ++ u)%list = (jobs_created t ++ jobs_created u)%list.
Proof. apply omap_app. Qed.

(** Where the backup of a restore is, as the answers in [t] tell. *)
Definition source_of r t (s3 : S3BackupSpec) : Prop :=
  rs_SourceS3 (re_Spec r) = Some s3 ∨
  (rs_SourceS3 (re_Spec r) = None ∧
   ∃ b, @Entry Ev Ans (Get KBackup (re_Namespace r) (rs_BackupName (re_Spec r))) (inr b) ∈ t ∧
        s3 = bs_DestinationS3 (bk_Spec b)).

Lemma resolve_exec r t o :
  exec (resolveS3Source r) t o →
  phases_written t = [] ∧ jobs_created t = [] ∧ ∃ a, o = Done a ∧ ∀ s3, a = inr s3 → source_of r t s3.
Proof.
  unfold resolveS3Source. destruct (rs_SourceS3 (re_Spec r)) as [s3|] eqn:Hs.
  - intros [-> ->]. split; [done|]. split; [done|]. eexists. split; [done|]. intros ? ?. simplify_eq.
    by left.
  - intros ([e|b] & t' & -> & Ht); destruct Ht as [-> ->]; (split; [done|]); (split; [done|]);
      eexists; (split; [done|]); intros s3 ?; simplify_eq.
    right. split; [done|]. exists b. split; [left|]. by destruct (bs_DestinationS3 (bk_Spec b)).
Qed.

(** The parts of a pass over a restore that is not over: the reads, and then one
    phase handler, or the failure to find the cluster or the backup. *)
Lemma pass_cases r t o : restore_over (rst_Phase (re_Status r)) = false →
  exec (reconcile_restore r) t o →
  ∃ t1 t2, t = (t1 ++ t2)%list ∧ phases_written t1 = [] ∧ jobs_created t1 = [] ∧
    ((∃ reason e, exec (fail_restore reason e r) t2 o) ∨
     (∃ c s3, @Entry Ev Ans (Get KCluster (re_Namespace r) (rs_ClusterName (re_Spec r))) (inr c) ∈ t1 ∧
        source_of r t1 s3 ∧
        exec (restore_phase_handler (rst_Phase (re_Status r)) c s3 r) t2 o)).
Proof.
  intros Ho He. unfold reconcile_restore in He. apply exec_bind in He as
    [(t0 & t' & a & -> & [-> [= ->]] & He)|[[_ ?] _]]; [|done]. simpl in He. rewrite Ho in He.
  destruct He as ([e|c] & t1 & -> & He); cbn [Prog.bind fst snd] in He.
  { exists [@Entry Ev Ans (Get KCluster (re_Namespace r) (rs_ClusterName (re_Spec r))) (inl e)], t1.
    do 3 (split; [done|]). left. by eexists _, _. }
  apply exec_bind in He as [(t2 & t3 & a & -> & Hs & He)|[Hs _]];
    apply exec_bind in Hs as [(t4 & t5 & a' & -> & Hs & [-> ?])|[Hs ?]]; simplify_eq;
    apply resolve_exec in Hs as (Hp & Hj & a & ? & Hsrc); simplify_eq.
  rewrite app_nil_r in *. set (g := @Entry Ev Ans (Get KCluster (re_Namespace r) (rs_ClusterName (re_Spec r))) (inr c)).
  exists (g :: t4)%list, t3. split; [done|]. split; [exact Hp|]. split; [exact Hj|].
  destruct a as [e|s3]; [left; by exists "SourceResolutionFailed", e|].
  right. exists c, s3. split; [left|]. split; [|exact He].
  destruct (Hsrc s3 eq_refl) as [?|(? & b & Hb & ?)]; [by left|right]. split; [done|].
  exists b. split; [by right|done].
Qed.

Lemma fail_phases reason e r t o :
  exec (fail_restore reason e r) t o →
  phases_written t = [RestorePhaseFailed] ∧ jobs_created t = [].
Proof.
  intros He. revert t o He. apply wp_exec. unfold fail_restore, setRestorePhase, modify_restore_status.
  prog_unfold. cbn. by intros now [e'|r'].
Qed.

Lemma scale_down_phases c r t o :
  exec (handleScaleDown c r) t o →
  (phases_written t = [] ∨ phases_written t = [RestorePhaseScaleDown]) ∧ jobs_created t = [].
Proof.
  intros He. revert t o He. apply wp_exec. restore_go; (split; [first [by left|by right]|done]).
Qed.

(** *** The Jobs *)

(** The Job of ordinal [i]. *)
Definition restore_job r c (s3 : S3BackupSpec) (i : Z) : Job :=
  owned_job (re_Name r) (buildRestoreJob r c s3 i).

Lemma create_job_exec r c s3 i t o :
  exec (create_restore_job r c s3 i) t o →
  jobs_created t = [restore_job r c s3 i] ∧ phases_written t = [] ∧ ∃ e, o = Done e.
Proof.
  unfold create_restore_job, create. intros He. revert t o He. apply wp_exec. prog_unfold. cbn.
  intros [e|j]; (split; [done|]); (split; [done|]); eauto.
Qed.

Lemma create_jobs_exec r c s3 l t o :
  exec (for_each_err l (create_restore_job r c s3)) t o →
  phases_written t = [] ∧ (∃ k, jobs_created t = restore_job r c s3 <$> take k l) ∧
  ∃ e, o = Done e ∧ (e = nil_err → jobs_created t = restore_job r c s3 <$> l).
Proof.
  revert t o. induction l as [|i l IH]; intros t o He; cbn [for_each_err] in He.
  - destruct He as [-> ->]. split; [done|]. split; [by exists 0|]. by eexists.
  - apply exec_pbind in He as [(t1 & t2 & [] & -> & H1 & H2)|[(e & H1 & ->)|[H1 _]]];
      apply create_job_exec in H1 as (Hj & Hp & e' & ?); simplify_eq.
    + destruct (IH _ _ H2) as (Hp2 & (k & Hk) & e & -> & He).
      rewrite jobs_created_app, phases_written_app, Hj, Hp, Hp2. split; [done|].
      split; [exists (S k); by rewrite Hk|]. exists e. split; [done|]. intros ->. by rewrite He.
    + split; [done|]. split; [exists 1; by rewrite Hj|]. by eexists.
Qed.

(** A pass of the scale-down phase: nothing while a pod is ready, else the Jobs. *)
Lemma checkScaleDown_exec c s3 r t o :
  exec (checkScaleDown c s3 r) t o →
  ∃ x t', t = @Entry Ev Ans (Get KStatefulSet (cl_Namespace c) (StatefulSetName c)) x :: t' ∧
    (t' = [] ∨
     ∃ s t2 t3, x = inr s ∧ (sss_ReadyReplicas (sts_Status s) <= 0)%Z ∧ t' = (t2 ++ t3)%list ∧
       phases_written t2 = [] ∧
       (∃ k, jobs_created t2 = restore_job r c s3 <$> take k (ordinals_up 0 (spec_replicas c))) ∧
       (t3 = [] ∨
        (jobs_created t3 = [] ∧ phases_written t3 = [RestorePhaseRestoring] ∧
         jobs_created t2 = restore_job r c s3 <$> ordinals_up 0 (spec_replicas c)))).
Proof.
  intros ([e|s] & t' & -> & He); cbn in He.
  { destruct He as [-> _]. exists (inl e), []. split; [done|by left]. }
  eexists (inr s), t'. split; [done|]. case_bool_decide as Hr; [left; by destruct He as [-> _]|right].
  apply exec_bind in He as [(t2 & t3 & [r' e] & -> & Hl & He)|[Hl _]];
    apply exec_bind in Hl as [(t4 & t5 & e' & -> & Hl & [-> ?])|[Hl ?]]; simplify_eq;
    apply create_jobs_exec in Hl as (Hp & Hk & e & ? & Hall); simplify_eq.
  rewrite app_nil_r in *. exists s, t4, t3. split; [done|]. split; [lia|]. split; [done|].
  split; [done|]. split; [done|]. simpl in He.
  destruct e as [e|[]]; [left; by destruct He as [-> _]|right].
  revert t3 o He. apply wp_exec. restore_go; eauto.
Qed.

(** *** Reading the Jobs *)

(** The Job of ordinal [i] was read as [j]. *)
Definition job_read r t (i : Z) (j : Job) : Prop :=
  @Entry Ev Ans (Get KJob (re_Namespace r) (restore_job_name r i)) (inr j) ∈ t.

(** It neither failed nor is still running. *)
Definition job_succeeded (j : Job) : Prop :=
  ¬ (job_Succeeded j = 0%Z ∧ job_Failed j = 0%Z) ∧ (job_Failed j <= 0)%Z.

Lemma job_read_cons r x t i j : job_read r t i j → job_read r (x :: t) i j.
Proof. intros Hj. by right. Qed.

Lemma check_jobs_exec r l allDone anyFailed t o :
  exec (check_jobs r l allDone anyFailed) t o →
  phases_written t = [] ∧ jobs_created t = [] ∧
  ∃ a, o = Done a ∧ ∀ d f, a = inr (d, f) →
    (d = true → f = false → allDone = true ∧ anyFailed = false ∧
       ∀ i, i ∈ l → ∃ j, job_read r t i j ∧ job_succeeded j) ∧
    (f = true → anyFailed = true ∨ ∃ i j, i ∈ l ∧ job_read r t i j ∧ (0 < job_Failed j)%Z).
Proof.
  revert allDone anyFailed t o. induction l as [|i l IH]; intros d0 f0 t o He; cbn [check_jobs] in He.
  - destruct He as [-> ->]. split; [done|]. split; [done|]. eexists. split; [done|]. intros d f ?.
    simplify_eq. split; [|by left]. intros -> ->. set_solver.
  - destruct He as ([e|j] & t' & -> & He); cbn in He.
    + destruct (IsNotFound e).
      * destruct (IH _ _ _ _ He) as (Hp & Hj & a & -> & Ha). split; [done|]. split; [done|].
        exists a. split; [done|]. intros d f Heq. destruct (Ha d f Heq) as [Hd Hf].
        split; [by intros ? [? _]%Hd|]. intros [?|(i' & j & ? & ? & ?)]%Hf; [by left|right].
        exists i', j. split; [by right|]. split; [by right|done].
      * destruct He as [-> ->]. split; [done|]. split; [done|]. by eexists.
    + destruct (IH _ _ _ _ He) as (Hp & Hj & a & -> & Ha). split; [done|]. split; [done|].
      exists a. split; [done|]. intros d f Heq. destruct (Ha d f Heq) as [Hd Hf]. split.
      * intros Hdt Hff. destruct (Hd Hdt Hff) as (Hd1 & Hf1 & Hall).
        destruct (Z.eqb _ _ && _) eqn:Hz; [done|]. case_bool_decide; [done|]. split; [done|].
        split; [done|]. intros i' [->|Hi]%elem_of_cons.
        -- exists j. split; [left|]. split; [|lia]. intros [H1 H2]. by rewrite H1, H2 in Hz.
        -- destruct (Hall i' Hi) as (j' & Hj' & ?). exists j'. split; [by right|done].
      * intros Hft. destruct (Hf Hft) as [Hc|(i' & j' & ? & ? & ?)].
        -- case_bool_decide; [right; exists i, j; split; [left|]; split; [left|done]|by left].
        -- right. exists i', j'. split; [by right|]. split; [by right|done].
Qed.

Lemma scale_up_phases c r t o :
  exec (handleScaleUp c r) t o →
  jobs_created t = [] ∧
  (phases_written t = [] ∨
   (phases_written t = [RestorePhaseCompleted] ∧
    ∃ s a, @Entry Ev Ans (Update KStatefulSet s) (inr a) ∈ t ∧
      sts_Replicas s = Some (spec_replicas c))).
Proof.
  intros He. revert t o He. apply wp_exec. restore_go; (split; [done|]); try by left.
  all: right; split; [done|]; destruct x0 as [?|s']; [done|].
  all: eexists _, s'; split; [right; left|done].
Qed.

Lemma checkRestoreJob_exec c r t o :
  exec (checkRestoreJob c r) t o →
  jobs_created t = [] ∧
  (phases_written t = [] ∨
   (phases_written t = [RestorePhaseFailed] ∧
    ∃ i j, (0 <= i < spec_replicas c)%Z ∧ job_read r t i j ∧ (0 < job_Failed j)%Z) ∨
   (phases_written t = [RestorePhaseCompleted] ∧
    (∃ s a, @Entry Ev Ans (Update KStatefulSet s) (inr a) ∈ t ∧
       sts_Replicas s = Some (spec_replicas c)) ∧
    ∀ i, (0 <= i < spec_replicas c)%Z → ∃ j, job_read r t i j ∧ job_succeeded j)).
Proof.
  unfold checkRestoreJob. intros He.
  apply exec_bind in He as [(t0 & t' & a & -> & [-> [= ->]] & He)|[[_ ?] _]]; [|done]. simpl in He.
  apply exec_bind in He as [(t2 & t3 & [r' e] & -> & Hl & He)|[Hl _]];
    apply exec_bind in Hl as [(t4 & t5 & e' & -> & Hl & [-> ?])|[Hl ?]]; simplify_eq;
    apply check_jobs_exec in Hl as (Hp & Hj & a & ? & Ha); simplify_eq.
  rewrite app_nil_r, app_nil_l in *. simpl in He.
  rewrite jobs_created_app, phases_written_app, Hj, Hp, !app_nil_l.
  destruct a as [e|[d f]]; [by destruct He as [-> _]; auto|].
  destruct (Ha d f eq_refl) as [Hd Hf]. destruct f.
  - assert (jobs_created t3 = [] ∧ phases_written t3 = [RestorePhaseFailed]) as [-> ->].
    { revert t3 o He. apply wp_exec. restore_go; done. }
    split; [done|]. right. left. split; [done|].
    destruct (Hf eq_refl) as [?|(i & j & Hi%ordinals_up_elem & Hr & ?)]; [done|].
    exists i, j. split; [done|]. split; [apply elem_of_app; by left|done].
  - destruct d; [|by destruct He as [-> _]; auto].
    apply scale_up_phases in He as [-> [->|[-> (s & a & Hs & ?)]]]; (split; [done|]); [by left|].
    right. right. split; [done|]. split.
    + exists s, a. split; [apply elem_of_app; by right|done].
    + intros i Hi%ordinals_up_elem. destruct (Hd eq_refl eq_refl) as (_ & _ & Hall).
      destruct (Hall i Hi) as (j & Hr & ?). exists j. split; [apply elem_of_app; by left|done].
Qed.

(** *** A pass *)

(** The answer to a read of the restore. *)
Definition restore_answer (x : entry Ans) : option (GoErr + HyperbytedbRestore) :=
  match entry_ev x as e return Ans e → option (GoErr + HyperbytedbRestore) with
  | Get k _ _ =>
      match k return GoErr + obj k → option (GoErr + HyperbytedbRestore) with
      | KRestore => Some
      | _ => λ _, None
      end
  | _ => λ _, None
  end (entry_ans x).

Lemma ReconcileRestore_read ns name r t o :
  exec (ReconcileRestore ns name) (@Entry Ev Ans (Get KRestore ns name) (inr r) :: t) o →
  ∃ o', exec (reconcile_restore r) t o' ∧
    ∀ r' res, o' = Done (r', res) → o = Done res.
Proof.
  intros (r0 & t' & Ht & He). pose proof (f_equal head Ht) as Hh.
  assert (t' = t) as -> by (by apply (f_equal tail) in Ht).
  apply (f_equal (mbind restore_answer)) in Hh. simpl in Hh. simplify_eq.
  change (exec (Prog.bind (reconcile_restore r) (λ res, Prog.Ret res.2)) t o) in He.
  apply exec_bind in He as [(t1 & t2 & [r' res] & -> & Hr & [-> ->])|[Hr ->]].
  - rewrite app_nil_r. eexists. split; [exact Hr|]. intros. by simplify_eq.
  - eexists. by split.
Qed.

Lemma over_pass r t o :
  restore_over (rst_Phase (re_Status r)) = true → exec (reconcile_restore r) t o →
  t = [] ∧ o = Done (r, (no_requeue, None)).
Proof.
  intros Hover He. unfold reconcile_restore in He. apply exec_bind in He as
    [(t0 & t' & a & -> & [-> [= ->]] & He)|[[_ ?] _]]; [|done]. simpl in He.
  rewrite Hover in He. by destruct He as [-> ->].
Qed.

(** C16: a restore moves through its phases in one direction: each pass writes at
    most one phase, and that one is a step of the machine Pending -> ScalingDown ->
    Restoring -> Completed, with Failed reachable from every phase that is not
    final.  A final phase is never left: its pass makes no call. *)
Theorem restore_phases_refine ns name r t o :
  exec (ReconcileRestore ns name) (@Entry Ev Ans (Get KRestore ns name) (inr r) :: t) o →
  (phases_written t = [] ∨
   ∃ p, phases_written t = [p] ∧ restore_step (rst_Phase (re_Status r)) p) ∧
  (restore_over (rst_Phase (re_Status r)) = true → t = [] ∧ o = Done (no_requeue, None)).
Proof.
  intros (o' & He & Ho)%ReconcileRestore_read.
  destruct (restore_over (rst_Phase (re_Status r))) eqn:Hover.
  { apply over_pass in He as [-> ->]; [|done].
    split; [by left|]. by eauto. }
  split; [|done]. apply pass_cases in He as (t1 & t2 & -> & Hp & _ & Hcase); [|done].
  rewrite phases_written_app, Hp, app_nil_l.
  destruct Hcase as [(reason & e & He)|(c & s3 & _ & _ & He)].
  { right. exists RestorePhaseFailed. apply fail_phases in He as [He _]. split; [done|]. by apply restore_fail. }
  destruct (rst_Phase (re_Status r)) eqn:Hph; cbn [restore_phase_handler] in He; try done.
  - apply scale_down_phases in He as [[?|?] _]; [by left|right].
    eexists. split; [done|]. apply restore_scale_down. by left.
  - apply scale_down_phases in He as [[?|?] _]; [by left|right].
    eexists. split; [done|]. apply restore_scale_down. by right.
  - apply checkScaleDown_exec in He as (x & t' & -> & [->|(s & t3 & t4 & _ & _ & -> & Hp3 & _ & Hp4)]);
      [by left|].
    change (_ :: (t3 ++ t4))%list with ([@Entry Ev Ans (Get KStatefulSet (cl_Namespace c) (StatefulSetName c)) x] ++ t3 ++ t4)%list.
    rewrite !phases_written_app, Hp3.
    destruct Hp4 as [->|(_ & -> & _)]; [by left|right]. eexists. split; [done|]. apply restore_start.
  - apply checkRestoreJob_exec in He as (_ & [?|[[? _]|[? _]]]); [by left|right..].
    + eexists. split; [done|]. by apply restore_fail.
    + eexists. split; [done|]. apply restore_complete.
Qed.


(** C18: a restore is reported Completed only after, in the same pass, the Job of
    every ordinal of the cluster was read as succeeded and not failed, and after the
    StatefulSet was written with the replicas of the cluster again. *)
Theorem restore_completes_after_jobs ns name r t o :
  exec (ReconcileRestore ns name) (@Entry Ev Ans (Get KRestore ns name) (inr r) :: t) o →
  phases_written t = [RestorePhaseCompleted] →
  ∃ c,
    @Entry Ev Ans (Get KCluster (re_Namespace r) (rs_ClusterName (re_Spec r))) (inr c) ∈ t ∧
    (∀ i, (0 <= i < spec_replicas c)%Z → ∃ j, job_read r t i j ∧ job_succeeded j) ∧
    ∃ s a, @Entry Ev Ans (Update KStatefulSet s) (inr a) ∈ t ∧ sts_Replicas s = Some (spec_replicas c).
Proof.
  intros (o' & He & _)%ReconcileRestore_read Hw.
  destruct (restore_over (rst_Phase (re_Status r))) eqn:Hover.
  { by apply over_pass in He as [-> _]. }
  apply pass_cases in He as (t1 & t2 & -> & Hp & _ & Hcase); [|done].
  rewrite phases_written_app, Hp, app_nil_l in Hw.
  destruct Hcase as [(reason & e & He)|(c & s3 & Hc & _ & He)].
  { apply fail_phases in He as [Ho _]. by rewrite Ho in Hw. }
  destruct (rst_Phase (re_Status r)) eqn:Hph; cbn [restore_phase_handler] in He; try done.
  1,2: apply scale_down_phases in He as [[Ho|Ho] _]; by rewrite Ho in Hw.
  1: { apply checkScaleDown_exec in He as (x & t' & -> & [->|(s & t3 & t4 & -> & _ & -> & Hp3 & _ & Hp4)]);
         [done|].
       set (g := @Entry Ev Ans (Get KStatefulSet (cl_Namespace c) (StatefulSetName c)) (inr s)) in *.
       change (g :: (t3 ++ t4))%list with ([g] ++ t3 ++ t4)%list in Hw.
       rewrite !phases_written_app, Hp3 in Hw.
       destruct Hp4 as [->|(_ & Ho & _)]; [done|]. by rewrite Ho in Hw. }
  1: { apply checkRestoreJob_exec in He as (_ & [Ho|[[Ho _]|(_ & (s & a & Hs & Hr) & Hall)]]);
         [by rewrite Ho in Hw..|].
       exists c. split; [set_solver|]. split; [|exists s, a; split; [set_solver|done]].
       intros i Hi. destruct (Hall i Hi) as (j & Hj & ?). exists j. split; [|done].
       apply elem_of_app. by right. }
Qed.
End Restores.
