(* ===== verification/BackupTheorems.v ===== *)
(** Backups: the properties, and what backups and restores agree on. *)

From S2P Require Import Prelude GoStrings Lib ApiTypes Image Config K8s StatefulSet Prog Go Resources ScaleDown ScaleDownProofs S3 Backup Restore RestoreTheorems Demo.
#[local] Open Scope string_scope.

Section Backups.
Context `{Lib}.
Implicit Types (b : HyperbytedbBackup) (c : HyperbytedbCluster) (t : list (entry Ans)).

(** The statuses of a backup a trace tries to write. *)
Definition backup_write (e : Ev) : option HyperbytedbBackupStatus :=
  match e with
  | StatusUpdate k o =>
      match k return obj k → option HyperbytedbBackupStatus with
      | KBackup => λ b, Some (bk_Status b)
      | _ => λ _, None
      end o
  | _ => None
  end.
Definition backup_writes t : list HyperbytedbBackupStatus := omap (λ x, backup_write (entry_ev x)) t.

(** C34: a pass over a one-shot backup follows its Job.  A Job that succeeded makes
    the backup Completed, with its path, each time it is seen; one that failed and did
    not succeed makes it Failed; a running one is looked at again after 10 seconds.
    Without a Job, a finished backup is left alone - it is never run twice - and any
    other gets exactly one Job, and becomes Running when the API server accepts it. *)
Theorem backup_follows_job c b t o :
  exec (reconcileJob c b) t o →
  ∃ a rest b' res, t = @Entry Ev Ans (Get KJob (bk_Namespace b) (bk_Name b)) a :: rest ∧
    o = Done (b', res) ∧
    match a with
    | inr job =>
        jobs_created rest = [] ∧
        if bool_decide (0 < job_Succeeded job)%Z then
          res = (no_requeue, None) ∧ ∃ s, backup_writes rest = [s] ∧
            bst_Phase s = BackupPhaseCompleted ∧ is_Some (bst_CompletionTime s) ∧
            bst_BackupPath s = buildBackupS3Path b
        else if bool_decide (0 < job_Failed job)%Z then
          res = (no_requeue, None) ∧ ∃ s, backup_writes rest = [s] ∧ bst_Phase s = BackupPhaseFailed
        else rest = [] ∧ res = (requeue_after (10 * Second)%Z, None)
    | inl e =>
        if IsNotFound e then
          if backup_over (bst_Phase (bk_Status b)) then rest = [] ∧ res = (no_requeue, None)
          else
            ∃ a' rest', rest = @Entry Ev Ans (Create KJob
                (owned_job (bk_Name b) (buildBackupJob b c (bk_Name b)))) a' :: rest' ∧
              jobs_created rest' = [] ∧
              match a' with
              | inl e' => rest' = [] ∧ res = (no_requeue, Some e')
              | inr _ => res = (requeue_after (10 * Second)%Z, None) ∧
                  ∃ s, backup_writes rest' = [s] ∧ bst_Phase s = BackupPhaseRunning ∧
                    is_Some (bst_StartTime s)
              end
        else rest = [] ∧ res = (no_requeue, Some e)
    end.
Proof.
  intros He. revert t o He. apply wp_exec.
  unfold reconcileJob, lookup_object, start_backup, backup_succeeded, backup_failed, backup_event,
    set_backup_condition, modify_backup_status, StatusUpdateBackup, create. prog_unfold. cbn.
  intros [e|job]; cbn.
  - destruct (IsNotFound e) eqn:Hnf; cbn; [|eexists (inl e), [], b, _; by rewrite Hnf].
    destruct (backup_over _) eqn:Hov; cbn.
    { eexists (inl e), [], b, _. by rewrite Hnf. }
    intros [e'|j]; cbn.
    + eexists (inl e), _, b, _. rewrite Hnf. split; [done|]. split; [done|]. eexists (inl e'), []. done.
    + intros now [] [e''|b']; cbn; eexists (inl e), _, _, _; rewrite Hnf; (split; [done|]);
        (split; [done|]); eexists (inr j), _; (split; [done|]); (split; [done|]);
        (split; [done|]); eexists; by split.
  - case_bool_decide; cbn; [intros now now' [] [e|b']|case_bool_decide; cbn; [intros now [] [e|b']|]];
      cbn; eexists (inr job), _, _, _; (split; [done|]); (split; [done|]); (split; [done|]);
      rewrite ?bool_decide_true, ?bool_decide_false by done; try by eauto 10.
  all: rewrite bool_decide_eq_true_2 by done; eauto 10.
Qed.

(** ** Volumes *)

(** What a pod can do with the volumes it mounts under [name]. *)
Definition pod_containers (p : PodSpec) : list Container :=
  (ps_InitContainers p ++ ps_Containers p)%list.
Definition writable (p : PodSpec) (name : string) : bool :=
  existsb (λ k, existsb (λ m, match m with
                              | Mount n _ ro => String.eqb n name && negb ro
                              | UserMount _ => false
                              end) (co_VolumeMounts k)) (pod_containers p).
Definition claim_of (p : PodSpec) : list (string * bool) :=
  omap (λ v, match v with NamedVolume _ (VolPVC n ro) => Some (n, ro) | _ => None end) (ps_Volumes p).

Definition job_spec (j : Job) : PodSpec := js_PodSpec (job_Spec j).

(** A backup reads the volume of ordinal 0 and cannot write it - neither the
    volume nor any mount of it is writable; the restore Job of ordinal [i] can write
    the volume of ordinal [i], the claim the StatefulSet's pod uses, and no other
    Job of the restore shares its claim or its name. *)
Theorem jobs_and_volumes b c (r : HyperbytedbRestore) s3 name i j :
  claim_of (job_spec (buildBackupJob b c name)) = [(pvc_name c 0, true)] ∧
  writable (job_spec (buildBackupJob b c name)) dataVolumeName = false ∧
  claim_of (job_spec (restore_job r c s3 i)) = [(pvc_name c i, false)] ∧
  writable (job_spec (restore_job r c s3 i)) dataVolumeName = true ∧
  (i ≠ j → claim_of (job_spec (restore_job r c s3 i)) ≠ claim_of (job_spec (restore_job r c s3 j)) ∧
     om_Name (job_Meta (restore_job r c s3 i)) ≠ om_Name (job_Meta (restore_job r c s3 j))).
Proof.
  split_and!; try done. intros Hij. split.
  - intros He. apply Hij. apply (pvc_name_inj c). cbn in He. by simplify_eq.
  - intros He. apply Hij. cbn in He. unfold restore_job_name in He.
    apply Itoa_inj. induction (re_Name r) as [|a s IH]; cbn in He; [by simplify_eq|].
    apply IH. by simplify_eq.
Qed.

(** A restore that names a backup looks for the data exactly where that backup
    puts it: the download container gets the environment - endpoint, bucket, prefix,
    region, credentials - of the upload container of the backup's Job. *)
Theorem restore_reads_where_backup_wrote (r : HyperbytedbRestore) s3 t c c' i name :
  rs_SourceS3 (re_Spec r) = None →
  exec (resolveS3Source r) t (Done (inr s3)) →
  ∃ b,
    @Entry Ev Ans (Get KBackup (re_Namespace r) (rs_BackupName (re_Spec r))) (inr b) ∈ t ∧
    co_Env <$> ps_InitContainers (job_spec (restore_job r c s3 i)) =
      co_Env <$> ps_Containers (job_spec (buildBackupJob b c' name)).
Proof.
  intros Hs He. apply resolve_exec in He as (_ & _ & a & Ha & Hsrc). simplify_eq.
  destruct (Hsrc s3 eq_refl) as [?|(_ & b & Hb & ->)]; [congruence|].
  exists b. split; [done|]. reflexivity.
Qed.
End Backups.

(** ** Witnesses *)

Definition demo_s3 (prefix : string) : S3BackupSpec := mkS3 "bucket" prefix "eu-west-1" "" "creds".
Definition demo_backup (prefix : string) (p : BackupPhase) : HyperbytedbBackup :=
  mkBackup (demo_meta "bk") (mkBackupSpec "db" "" (demo_s3 prefix) 7 [])
    (mkBackupStatus p None None "" "" None []).
Definition demo_job (succeeded failed : Z) : Job :=
  mkJob (demo_meta "bk") (mkJobSpec 3 (mkPodSpec None "" [] [] [] [] [] None [])) succeeded failed.
Definition demo_restore (p : RestorePhase) : HyperbytedbRestore :=
  mkRestore (demo_meta "rs") (mkRestoreSpec "db" "bk" None None)
    (mkRestoreStatus p None None 0 []).

(** The API server of the witnesses: Jobs as given, no ready pod. *)
Definition backup_world (p : RestorePhase) (job : option Job) : World := {|
  w_now := 5%Z;
  w_get k name :=
    match k with
    | KCluster => Some (demo_cluster 3 None)
    | KBackup => Some (demo_backup "daily" BackupPhaseCompleted)
    | KRestore => Some (demo_restore p)
    | KJob => job
    | KStatefulSet => Some (mkSts (demo_meta "db") (Some 0%Z) "" ∅ ParallelPodManagement None demo_template []
                              zero_sts_status)
    | _ => None
    end;
  w_pods := [];
  w_http _ := mkRsp 200 None |}.

(** A Job that succeeded, of a backup already Completed: the status is written
    again. *)
Lemma backup_follows_job_witness :
  let t := trace_of (backup_world RestorePhaseNone (Some (demo_job 1 0)))
             (reconcileJob (demo_cluster 3 None) (demo_backup "daily" BackupPhaseCompleted)) in
  ∃ a rest b' res,
    t = @Entry Ev Ans (Get KJob "ns" "bk") a :: rest ∧
    result_of (backup_world RestorePhaseNone (Some (demo_job 1 0)))
      (reconcileJob (demo_cluster 3 None) (demo_backup "daily" BackupPhaseCompleted)) = Done (b', res) ∧
    length (backup_writes t) = 1%nat.
Proof.
  cbv zeta. destruct (backup_follows_job (demo_cluster 3 None) (demo_backup "daily" BackupPhaseCompleted) _ _
    (world_exec (backup_world RestorePhaseNone (Some (demo_job 1 0))) _))
    as (a & rest & b' & res & Ht & Ho & _).
  exists a, rest, b', res. split; [exact Ht|]. split; [exact Ho|]. vm_compute. reflexivity.
Defined.

Lemma restore_reads_where_backup_wrote_witness :
  ∃ b, @Entry Ev Ans (Get KBackup "ns" "bk") (inr b) ∈
      trace_of (backup_world RestorePhaseNone None) (resolveS3Source (demo_restore RestorePhaseNone)) ∧
    co_Env <$> ps_InitContainers (job_spec (restore_job (demo_restore RestorePhaseNone)
                                    (demo_cluster 3 None) (demo_s3 "daily") 1)) =
      co_Env <$> ps_Containers (job_spec (buildBackupJob b (demo_cluster 3 None) "bk")).
Proof.
  apply (restore_reads_where_backup_wrote (demo_restore RestorePhaseNone) (demo_s3 "daily")).
  - reflexivity.
  - apply world_done. vm_compute. reflexivity.
Defined.

Definition restore_trace (p : RestorePhase) (job : option Job) : list (entry Ans) :=
  trace_of (backup_world p job) (ReconcileRestore "ns" "rs").
Lemma restore_head p job :
  ∃ t, restore_trace p job = (@Entry Ev Ans (Get KRestore "ns" "rs") (inr (demo_restore p)) :: t)%list ∧
    exec (ReconcileRestore "ns" "rs") (@Entry Ev Ans (Get KRestore "ns" "rs") (inr (demo_restore p)) :: t)
      (result_of (backup_world p job) (ReconcileRestore "ns" "rs")).
Proof.
  pose proof (world_exec (backup_world p job) (ReconcileRestore "ns" "rs")) as He.
  assert (∃ t, restore_trace p job =
    (@Entry Ev Ans (Get KRestore "ns" "rs") (inr (demo_restore p)) :: t)%list) as [t Ht].
  { unfold restore_trace, trace_of, ReconcileRestore. simpl. destruct (Prog.run _ _ _) as [[? ?] ?].
    by eexists. }
  exists t. split; [exact Ht|]. unfold restore_trace in Ht. by rewrite <- Ht.
Qed.

Lemma restore_phases_refine_witness :
  ∃ t, restore_trace RestorePhaseScaleDown None =
      (@Entry Ev Ans (Get KRestore "ns" "rs") (inr (demo_restore RestorePhaseScaleDown)) :: t)%list ∧
    (phases_written t = [] ∨
     ∃ p, phases_written t = [p] ∧ restore_step RestorePhaseScaleDown p).
Proof.
  destruct (restore_head RestorePhaseScaleDown None) as (t & Ht & He). exists t. split; [exact Ht|].
  exact (proj1 (restore_phases_refine "ns" "rs" (demo_restore RestorePhaseScaleDown) t _ He)).
Defined.


Lemma restore_completes_after_jobs_witness :
  ∃ t, restore_trace RestorePhaseRestoring (Some (demo_job 1 0)) =
      (@Entry Ev Ans (Get KRestore "ns" "rs") (inr (demo_restore RestorePhaseRestoring)) :: t)%list ∧
    ∃ c, (∀ i, (0 <= i < spec_replicas c)%Z →
            ∃ j, job_read (demo_restore RestorePhaseRestoring) t i j ∧ job_succeeded j) ∧
      ∃ s a, @Entry Ev Ans (Update KStatefulSet s) (inr a) ∈ t ∧ sts_Replicas s = Some (spec_replicas c).
Proof.
  destruct (restore_head RestorePhaseRestoring (Some (demo_job 1 0))) as (t & Ht & He).
  exists t. split; [exact Ht|].
  assert (phases_written (restore_trace RestorePhaseRestoring (Some (demo_job 1 0))) =
    [RestorePhaseCompleted]) as Hp by (vm_compute; reflexivity).
  rewrite Ht in Hp.
  destruct (restore_completes_after_jobs "ns" "rs" (demo_restore RestorePhaseRestoring) t _ He Hp)
    as (c & _ & Hall & Hs).
  exists c. split; [exact Hall|exact Hs].
Defined.

(** With a prefix that starts with a slash the path in the status is not the one the
    objects are under. *)
Lemma backup_path_keeps_leading_slash :
  buildBackupS3Path (demo_backup "/daily" BackupPhaseNone) = "bucket//daily" ∧
  s3_Bucket (demo_s3 "/daily") +:+ "/" +:+ s3Prefix (demo_s3 "/daily") = "bucket/daily/".
Proof. vm_compute. split; reflexivity. Qed.
