(* ===== verification/RestoreLiveness.v ===== *)
(** A restore whose cluster stops and whose Jobs succeed is completed. *)

From S2P Require Import Prelude GoStrings Lib ApiTypes Image Config K8s StatefulSet Prog Go Resources ScaleDown ScaleDownProofs S3 Backup Restore Demo RestoreTheorems BackupTheorems.
#[local] Open Scope string_scope.

Section Liveness.
Context `{Lib}.
Implicit Types (r : HyperbytedbRestore) (c : HyperbytedbCluster) (t u v : list (entry Ans)).

(** ** What the surroundings have to do *)

(** No request is refused; a Job that exists already is one of an earlier pass. *)
Definition granted (x : entry Ans) : Prop :=
  match entry_ev x as e return Ans e → Prop with
  | Get k _ _ =>
      match k return GoErr + obj k → Prop with
      | KCluster | KBackup | KStatefulSet => found
      | _ => λ _, True
      end
  | Update k _ => found
  | StatusUpdate k _ => found
  | Create k _ => λ a, ∀ e, a = inl e → IsAlreadyExists e = true
  | _ => λ _, True
  end (entry_ans x).

(** The StatefulSet has no ready pod. *)
Definition stopped (x : entry Ans) : Prop :=
  match entry_ev x as e return Ans e → Prop with
  | Get k _ _ =>
      match k return GoErr + obj k → Prop with
      | KStatefulSet => λ a, ∀ s, a = inr s → (sss_ReadyReplicas (sts_Status s) <= 0)%Z
      | _ => λ _, True
      end
  | _ => λ _, True
  end (entry_ans x).

(** The Jobs are there, and have succeeded. *)
Definition job_done (x : entry Ans) : Prop :=
  match entry_ev x as e return Ans e → Prop with
  | Get k _ _ =>
      match k return GoErr + obj k → Prop with
      | KJob => λ a, ∃ j, a = inr j ∧ job_succeeded j
      | _ => λ _, True
      end
  | _ => λ _, True
  end (entry_ans x).

(** What a pass in a phase needs. *)
Definition helpful (p : RestorePhase) (x : entry Ans) : Prop :=
  granted x ∧ (p = RestorePhaseScaleDown → stopped x) ∧ (p = RestorePhaseRestoring → job_done x).

(** ** One pass *)

Ltac restore_run :=
  unfold handleScaleDown, handleScaleUp, scale_sts, get_sts, setRestorePhase, restore_event,
    modify_restore_status, update; prog_go.
(** A refused request is not granted. *)
Ltac all_granted :=
  repeat match goal with Hx : Forall granted _ |- _ => rewrite !Forall_cons in Hx; cbn in Hx end;
  repeat match goal with x : Ans (Update _ _) |- _ => destruct x end; simplify_eq/=; try tauto.

Definition next_phase (p : RestorePhase) : RestorePhase :=
  match p with
  | RestorePhaseNone | RestorePhasePending => RestorePhaseScaleDown
  | RestorePhaseScaleDown => RestorePhaseRestoring
  | RestorePhaseRestoring => RestorePhaseCompleted
  | p => p
  end.

(** The phase [p] is written, and the pass ends without an error, to be called again
    unless the restore is complete. *)
Definition moves_to (p : RestorePhase) t (o : outcome (HyperbytedbRestore * JobResult)) : Prop :=
  phases_written t = [p] ∧ ∃ r' res, o = Done (r', (res, None)) ∧
    (p ≠ RestorePhaseCompleted → (0 < res_RequeueAfter res)%Z).
Definition moves_if_granted (p : RestorePhase) t (o : outcome (HyperbytedbRestore * JobResult)) : Prop :=
  Forall granted t → moves_to p t o.

Lemma scale_down_goes c r t o :
  exec (handleScaleDown c r) t o → Forall granted t →
  moves_to RestorePhaseScaleDown t o.
Proof.
  refine (proj1 (wp_exec _ (moves_if_granted RestorePhaseScaleDown)) _ t o).
  unfold moves_if_granted, moves_to. restore_run; all_granted.
  all: split; [done|]; eexists _, _; split; [done|]; intros _; cbn; unfold Second; lia.
Qed.

Lemma scale_up_goes c r t o :
  exec (handleScaleUp c r) t o → Forall granted t →
  moves_to RestorePhaseCompleted t o.
Proof.
  refine (proj1 (wp_exec _ (moves_if_granted RestorePhaseCompleted)) _ t o).
  unfold moves_if_granted, moves_to. restore_run; all_granted.
  all: split; [done|]; eexists _, _; split; [done|]; done.
Qed.

Lemma create_jobs_granted r c s3 l t o :
  exec (for_each_err l (create_restore_job r c s3)) t o → Forall granted t → o = Done nil_err.
Proof.
  revert t o. induction l as [|i l IH]; intros t o He Hg; cbn [for_each_err] in He.
  { by destruct He as [_ ->]. }
  assert (∀ t o, exec (create_restore_job r c s3 i) t o → Forall granted t → o = Done nil_err) as Hi.
  { clear. refine (proj1 (wp_exec _ (λ t o, Forall granted t → o = Done nil_err)) _).
    unfold create_restore_job, create. prog_unfold. cbn. intros [e|j]; rewrite Forall_cons; cbn; intros [Hg _]; [|done]. by rewrite (Hg e eq_refl). }
  apply exec_pbind in He as [(t1 & t2 & [] & -> & H1 & H2)|[(e & H1 & ->)|[H1 _]]];
    rewrite ?Forall_app in Hg; [by eapply IH, Hg|by apply Hi in H1..].
Qed.

Lemma check_scale_down_goes c s3 r t o :
  exec (checkScaleDown c s3 r) t o → Forall granted t → Forall stopped t →
  moves_to RestorePhaseRestoring t o.
Proof.
  intros ([e|s] & t' & -> & He) [Hg0 Hg]%Forall_cons [Hs0 _]%Forall_cons; [done|]. cbn in He.
  specialize (Hs0 s eq_refl). rewrite bool_decide_false in He by lia.
  apply exec_bind in He as [(t2 & t3 & [r' e] & -> & Hl & He)|[Hl _]];
    apply exec_bind in Hl as [(t4 & t5 & e' & -> & Hl & [-> ?])|[Hl ?]]; simplify_eq;
    pose proof (create_jobs_exec _ _ _ _ _ _ Hl) as (Hp & _ & _ & _);
    rewrite ?Forall_app in Hg; apply create_jobs_granted in Hl; [|by destruct_and?..]; simplify_eq.
  simpl in He. rewrite !app_nil_r in *. set (g := @Entry Ev Ans _ _).
  change (g :: (t4 ++ t3))%list with ([g] ++ t4 ++ t3)%list.
  unfold moves_to. rewrite !phases_written_app, Hp. change (phases_written [_]) with (@nil RestorePhase).
  rewrite !app_nil_l.
  cbn in He. destruct He as (? & ? & -> & ? & ? & -> & a & ? & -> & He).
  destruct a; cbn in He; destruct He as [-> ->];
    (split; [done|]); eexists _, _; (split; [done|]); intros _; cbn; unfold Second; lia.
Qed.

Lemma check_jobs_done r l t o :
  exec (check_jobs r l true false) t o → Forall job_done t → o = Done (inr (true, false)).
Proof.
  revert t o. induction l as [|i l IH]; intros t o He Hd; cbn [check_jobs] in He.
  { by destruct He as [_ ->]. }
  destruct He as (a & t' & -> & He). apply Forall_cons in Hd as [(j & Ha & Hj) Hd]. cbn in Ha. subst a.
  cbn in He.
  destruct Hj as [Hj Hf]. rewrite (bool_decide_false (0 < _)%Z) in He by lia.
  destruct (Z.eqb (job_Succeeded j) 0 && Z.eqb (job_Failed j) 0) eqn:Hz; [bools; tauto|].
  by eapply IH.
Qed.

Lemma check_restore_goes c r t o :
  exec (checkRestoreJob c r) t o → Forall granted t → Forall job_done t →
  moves_to RestorePhaseCompleted t o.
Proof.
  unfold checkRestoreJob. intros He Hg Hd.
  apply exec_bind in He as [(t0 & t' & a & -> & [-> [= ->]] & He)|[[_ ?] _]]; [|done]. simpl in He.
  apply exec_bind in He as [(t2 & t3 & [r' e] & -> & Hl & He)|[Hl _]];
    apply exec_bind in Hl as [(t4 & t5 & e' & -> & Hl & [-> ?])|[Hl ?]]; simplify_eq;
    pose proof (check_jobs_exec _ _ _ _ _ _ Hl) as (Hp & _ & _);
    cbn [app] in *; rewrite ?Forall_app in *; apply check_jobs_done in Hl; [|by destruct_and?..]; simplify_eq.
  simpl in He. rewrite !app_nil_r in *. unfold moves_to. rewrite phases_written_app, Hp, app_nil_l.
  eapply scale_up_goes; [exact He|by destruct_and?].
Qed.

Lemma resolve_goes r t o :
  exec (resolveS3Source r) t o → Forall granted t → ∃ s3, o = Done (inr s3).
Proof.
  unfold resolveS3Source. destruct (rs_SourceS3 (re_Spec r)) as [s3|].
  { intros [-> ->] _. by eexists. }
  intros ([e|b] & t' & -> & He) [Hg _]%Forall_cons; [done|]. destruct He as [_ ->]. by eexists.
Qed.

Lemma handler_goes c s3 r t o : restore_over (rst_Phase (re_Status r)) = false →
  exec (restore_phase_handler (rst_Phase (re_Status r)) c s3 r) t o →
  Forall (helpful (rst_Phase (re_Status r))) t →
  moves_to (next_phase (rst_Phase (re_Status r))) t o.
Proof.
  unfold helpful. rewrite !Forall_and. intros Ho He (Hg & Hs & Hd).
  destruct (rst_Phase (re_Status r)); try done; cbn [restore_phase_handler next_phase] in *.
  - by eapply scale_down_goes.
  - by eapply scale_down_goes.
  - eapply check_scale_down_goes; [done..|]. eapply Forall_impl; [exact Hs|]. eauto.
  - eapply check_restore_goes; [done..|]. eapply Forall_impl; [exact Hd|]. eauto.
Qed.

(** A pass over a restore that is not over moves it on. *)
Lemma pass_goes r t o : restore_over (rst_Phase (re_Status r)) = false →
  exec (reconcile_restore r) t o → Forall (helpful (rst_Phase (re_Status r))) t →
  moves_to (next_phase (rst_Phase (re_Status r))) t o.
Proof.
  intros Ho He Hh. unfold reconcile_restore in He. apply exec_bind in He as
    [(t0 & t' & a & -> & [-> [= ->]] & He)|[[_ ?] _]]; [|done]. simpl in He. rewrite Ho in He.
  cbn [app] in Hh. destruct He as (a & t1 & -> & He). apply Forall_cons in Hh as [[Hg _] Hh].
  destruct a as [e|c]; [done|]. cbn [Prog.bind fst snd] in He.
  apply exec_bind in He as [(t2 & t3 & a & -> & Hs & He)|[Hs _]];
    apply exec_bind in Hs as [(t4 & t5 & a' & -> & Hs & [-> ?])|[Hs ?]]; simplify_eq;
    pose proof (resolve_exec _ _ _ Hs) as (Hp & _); rewrite ?Forall_app in Hh.
  all: apply resolve_goes in Hs as [s3 ?];
    [simplify_eq|eapply Forall_impl; [by apply Hh|by intros ? []]].
  rewrite !app_nil_r in *. cbn [fst snd] in He.
  destruct (handler_goes c s3 r t3 o Ho He ltac:(tauto)) as [Hp3 Hr].
  split; [|exact Hr]. cbn [app]. set (g := @Entry Ev Ans _ _).
  change (g :: t4 ++ t3)%list with ([g] ++ t4 ++ t3)%list.
  by rewrite !phases_written_app, Hp, Hp3.
Qed.

(** ** Pass after pass *)

(** What a pass read, the calls it then made, and how it ended. *)
Record Pass := mkPass {
  pa_read : HyperbytedbRestore;
  pa_calls : list (entry Ans);
  pa_end : outcome JobResult }.

(** The phase a pass leaves behind. *)
Definition phase_after (w : Pass) : RestorePhase :=
  default (rst_Phase (re_Status (pa_read w))) (last (phases_written (pa_calls w))).

Definition helpful_pass ns name (w : Pass) : Prop :=
  exec (ReconcileRestore ns name)
    (@Entry Ev Ans (Get KRestore ns name) (inr (pa_read w)) :: pa_calls w) (pa_end w) ∧
  Forall (helpful (rst_Phase (re_Status (pa_read w)))) (pa_calls w).

(** Each pass reads the phase the one before it left. *)
Fixpoint passes ns name (p : RestorePhase) (l : list Pass) : Prop :=
  match l with
  | [] => True
  | w :: l => rst_Phase (re_Status (pa_read w)) = p ∧ helpful_pass ns name w ∧ passes ns name (phase_after w) l
  end.

(** The pass wrote just the phase [p], without an error, and asked to be called
    again unless the restore is complete. *)
Definition pass_ends_in (p : RestorePhase) (w : Pass) : Prop :=
  phases_written (pa_calls w) = [p] ∧ ∃ res, pa_end w = Done (res, None) ∧
    (p ≠ RestorePhaseCompleted → (0 < res_RequeueAfter res)%Z).

Lemma helpful_pass_goes ns name w : helpful_pass ns name w →
  restore_over (rst_Phase (re_Status (pa_read w))) = false →
  pass_ends_in (next_phase (rst_Phase (re_Status (pa_read w)))) w.
Proof.
  intros [(o & He & Hres)%ReconcileRestore_read Hh] Ho.
  apply pass_goes in He as (Hp & r' & res & -> & Hq); [|done..].
  split; [done|]. exists res. split; [|done]. by eapply Hres.
Qed.

Lemma passes_cons ns name p w l : passes ns name p (w :: l) → restore_over p = false →
  pass_ends_in (next_phase p) w ∧ passes ns name (next_phase p) l.
Proof.
  intros (<- & Hw & Hl) Ho. apply helpful_pass_goes in Hw; [|done]. split; [done|].
  unfold phase_after in Hl. by rewrite (proj1 Hw) in Hl.
Qed.

(** C19: a restore that is helped gets done: from a new restore, three passes in
    which no request is refused (a Job that exists already apart), the StatefulSet
    has no ready pod when the second pass looks, and the Jobs have succeeded when
    the third one does, write the phases ScalingDown, Restoring and Completed, one
    each.  None ends in an error, and the first two ask to be called again. *)
Theorem restore_completes ns name p w1 w2 w3 :
  p = RestorePhaseNone ∨ p = RestorePhasePending →
  passes ns name p [w1; w2; w3] →
  pass_ends_in RestorePhaseScaleDown w1 ∧
  pass_ends_in RestorePhaseRestoring w2 ∧
  pass_ends_in RestorePhaseCompleted w3.
Proof.
  intros Hp Hl. assert (next_phase p = RestorePhaseScaleDown ∧ restore_over p = false) as [Hn Ho]
    by (by destruct Hp as [-> | ->]).
  apply passes_cons in Hl as [H1 Hl]; [|done]. rewrite Hn in *.
  apply passes_cons in Hl as [H2 Hl]; [|done]. by apply passes_cons in Hl as [H3 _].
Qed.
End Liveness.

(** ** Witness *)

Definition granted_b (x : entry Ans) : bool :=
  match entry_ev x as e return Ans e → bool with
  | Get k _ _ =>
      match k return GoErr + obj k → bool with
      | KCluster | KBackup | KStatefulSet => found_b
      | _ => λ _, true
      end
  | Update k _ => found_b
  | StatusUpdate k _ => found_b
  | Create k _ => λ a, match a with inl e => IsAlreadyExists e | inr _ => true end
  | _ => λ _, true
  end (entry_ans x).
Definition stopped_b (x : entry Ans) : bool :=
  match entry_ev x as e return Ans e → bool with
  | Get k _ _ =>
      match k return GoErr + obj k → bool with
      | KStatefulSet => λ a, match a with inr s => sss_ReadyReplicas (sts_Status s) <=? 0 | _ => true end%Z
      | _ => λ _, true
      end
  | _ => λ _, true
  end (entry_ans x).
Definition job_done_b (x : entry Ans) : bool :=
  match entry_ev x as e return Ans e → bool with
  | Get k _ _ =>
      match k return GoErr + obj k → bool with
      | KJob => λ a, match a with
                     | inr j => negb (Z.eqb (job_Succeeded j) 0) && (job_Failed j <=? 0)%Z
                     | _ => false
                     end
      | _ => λ _, true
      end
  | _ => λ _, true
  end (entry_ans x).
Definition helpful_b (p : RestorePhase) (x : entry Ans) : bool :=
  granted_b x && implb (bool_decide (p = RestorePhaseScaleDown)) (stopped_b x)
    && implb (bool_decide (p = RestorePhaseRestoring)) (job_done_b x).

Lemma granted_sound x : granted_b x = true → granted x.
Proof.
  destruct x as [[] a]; unfold granted, granted_b; cbn in *; try done;
    try (destruct k; cbn in *; try done); destruct a; cbn; try done; intros ? ? ?; by simplify_eq.
Qed.
Lemma stopped_sound x : stopped_b x = true → stopped x.
Proof.
  destruct x as [[] a]; unfold stopped, stopped_b; cbn in *; try done.
  destruct k; cbn in *; try done. intros Ha s ->. lia.
Qed.
Lemma job_done_sound x : job_done_b x = true → job_done x.
Proof.
  destruct x as [[] a]; unfold job_done, job_done_b; cbn in *; try done.
  destruct k; cbn in *; try done. destruct a as [|j]; [done|]. intros Ha. bools.
  exists j. unfold job_succeeded. split; [done|]. lia.
Qed.
Lemma helpful_sound p t : forallb (helpful_b p) t = true → Forall (helpful p) t.
Proof.
  rewrite forallb_forall, Forall_forall. intros Ht x Hx%list_elem_of_In%Ht. unfold helpful_b in Hx.
  rewrite !andb_true_iff in Hx. destruct Hx as [[Hg Hs] Hd].
  split; [by apply granted_sound|]. split; intros ->; cbn in *.
  - by apply stopped_sound.
  - by apply job_done_sound.
Qed.

(** One pass in each phase: before the third one the Jobs have succeeded. *)
Definition demo_pass (p : RestorePhase) (job : option Job) : Pass :=
  mkPass (demo_restore p) (tail (restore_trace p job))
    (result_of (backup_world p job) (ReconcileRestore "ns" "rs")).
Definition demo_done : option Job := Some (demo_job 1 0).

Lemma demo_pass_helpful p job :
  forallb (helpful_b p) (tail (restore_trace p job)) = true → helpful_pass "ns" "rs" (demo_pass p job).
Proof.
  intros Hh. split; [|by apply helpful_sound].
  destruct (restore_head p job) as (t & Ht & He). unfold demo_pass. cbn. by rewrite Ht.
Qed.

Lemma restore_completes_witness :
  let w1 := demo_pass RestorePhaseNone None in
  let w2 := demo_pass RestorePhaseScaleDown None in
  let w3 := demo_pass RestorePhaseRestoring demo_done in
  passes "ns" "rs" RestorePhaseNone [w1; w2; w3] ∧
  pass_ends_in RestorePhaseScaleDown w1 ∧
  pass_ends_in RestorePhaseRestoring w2 ∧
  pass_ends_in RestorePhaseCompleted w3.
Proof.
  cbv zeta.
  assert (passes "ns" "rs" RestorePhaseNone [demo_pass RestorePhaseNone None;
    demo_pass RestorePhaseScaleDown None; demo_pass RestorePhaseRestoring demo_done]) as Hp.
  { repeat split; try (apply demo_pass_helpful; vm_compute; reflexivity); vm_compute; reflexivity. }
  split; [exact Hp|]. exact (restore_completes "ns" "rs" RestorePhaseNone _ _ _ (or_introl eq_refl) Hp).
Defined.
