(* ===== verification/CompatTheorems.v ===== *)
(** The compatibility matrix and what is rendered for a version: the properties. *)

From S2P Require Import Prelude GoStrings Lib ApiTypes Image Compat Config K8s StatefulSet Prog Go Proxy Demo.
#[local] Open Scope string_scope.

(** ** Versions *)

Section Versions.
Context `{L : Lib, !LibLaws L, !KnownVersions L}.
Implicit Types (c : HyperbytedbCluster) (v w : Version).

Lemma first_version_Some l d :
  first_version l = Some d →
  ∃ pre post, l = (pre ++ (dv_Source d, dv_Raw d) :: post)%list ∧
    dv_Version d = parseDatabaseVersion (dv_Raw d) ∧ is_Some (dv_Version d) ∧ dv_Raw d ≠ "" ∧
    Forall (λ x, x.2 = "" ∨ parseDatabaseVersion x.2 = None) pre.
Proof.
  induction l as [|[src r] l IH]; [done|]. simpl.
  destruct (String.eqb_spec r "") as [->|Hr].
  - intros (pre & post & -> & ? & ? & ? & ?)%IH. eexists ((src, "") :: pre)%list, post.
    split_and!; try done. constructor; [by left|done].
  - destruct (parseDatabaseVersion r) as [v|] eqn:Hp.
    + intros [= <-]. exists [], l. simpl. rewrite Hp. by split_and!.
    + intros (pre & post & -> & ? & ? & ? & ?)%IH. eexists ((src, r) :: pre)%list, post.
      split_and!; try done. constructor; [by right|done].
Qed.

Lemma parse_known s : is_Some (semver_NewVersion s) → TrimPrefix (TrimSpace s) "v" = s →
  is_Some (parseDatabaseVersion s).
Proof. intros Hs Ht. unfold parseDatabaseVersion. by rewrite Ht. Qed.


Lemma since_parses e : e ∈ CompatibilityMatrix → is_Some (parseDatabaseVersion (ce_Since e)).
Proof.
  intros He. apply parse_known; [by apply known_since|].
  unfold CompatibilityMatrix in He. set_unfold. destruct_or!; subst; vm_compute; reflexivity.
Qed.

(** The row of a capability. *)
Lemma matrix_row cap : ∃ e, list_find (λ e, ce_Capability e = cap) CompatibilityMatrix = Some e ∧
  e.2 ∈ CompatibilityMatrix.
Proof.
  destruct (list_find (λ e, ce_Capability e = cap) CompatibilityMatrix) as [[i e]|] eqn:Hf.
  - exists (i, e). split; [done|]. apply list_find_Some in Hf as (Hl & _). by eapply list_elem_of_lookup_2.
  - exfalso. destruct cap; vm_compute in Hf; discriminate.
Qed.

(** What a version supports, every later version supports; and a version
    supports a capability exactly when it is not older than the one the matrix names
    (the capability's row exists and its version parses). *)
Theorem capabilities_monotone v w cap :
  (semver_Compare v w <= 0)%Z →
  (versionSupports (Some v) cap = true → versionSupports (Some w) cap = true) ∧
  ∃ e since, e ∈ CompatibilityMatrix ∧ ce_Capability e = cap ∧
    parseDatabaseVersion (ce_Since e) = Some since ∧
    (versionSupports (Some v) cap = true ↔ (0 <= semver_Compare v since)%Z).
Proof.
  intros Hvw. destruct (matrix_row cap) as ([i e] & Hf & He). simpl in He.
  destruct (since_parses e He) as [since Hs]. unfold versionSupports. rewrite Hf, Hs. split.
  - rewrite !bool_decide_eq_true. intros Hv.
    assert (semver_Compare since v <= 0)%Z as H1 by (rewrite semver_compare_antisym; lia).
    pose proof (semver_compare_trans _ _ _ H1 Hvw). rewrite semver_compare_antisym. lia.
  - exists e, since. apply list_find_Some in Hf as (_ & Hc & _). rewrite bool_decide_eq_true. done.
Qed.
End Versions.

(** ** Scaling *)

Section Scaling.
Context `{Lib}.
Implicit Types c : HyperbytedbCluster.

Definition with_replicas c (n : Z) : HyperbytedbCluster :=
  let s := cl_Spec c in
  with_spec c {|
    sp_Replicas := Some n; sp_Image := sp_Image s; sp_Version := sp_Version s;
    sp_ImagePullPolicy := sp_ImagePullPolicy s; sp_ImagePullSecrets := sp_ImagePullSecrets s;
    sp_Paused := sp_Paused s; sp_Server := sp_Server s; sp_Storage := sp_Storage s;
    sp_Flush := sp_Flush s; sp_ChDB := sp_ChDB s; sp_Auth := sp_Auth s;
    sp_Logging := sp_Logging s; sp_Resources := sp_Resources s; sp_Cluster := sp_Cluster s;
    sp_Sharding := sp_Sharding s; sp_Cardinality := sp_Cardinality s;
    sp_StatementSummary := sp_StatementSummary s; sp_HintedHandoff := sp_HintedHandoff s;
    sp_RateLimit := sp_RateLimit s; sp_Retention := sp_Retention s;
    sp_Monitoring := sp_Monitoring s; sp_Autoscaling := sp_Autoscaling s;
    sp_Failover := sp_Failover s; sp_Proxy := sp_Proxy s;
    sp_PodAnnotations := sp_PodAnnotations s; sp_PodLabels := sp_PodLabels s;
    sp_Affinity := sp_Affinity s;
    sp_TopologySpreadConstraints := sp_TopologySpreadConstraints s;
    sp_Tolerations := sp_Tolerations s; sp_AdditionalVolumes := sp_AdditionalVolumes s;
    sp_AdditionalVolumeMounts := sp_AdditionalVolumeMounts s |}.

Lemma pod_template_replicas c n b h : pod_template (with_replicas c n) b h = pod_template c b h.
Proof. reflexivity. Qed.

Lemma scaling_hash c n : ConfigHash (with_replicas c n) = ConfigHash c.
Proof. reflexivity. Qed.

(** Scaling does not restart pods: the configuration hash does not depend on the
    replicas, and as long as clustering is on before and after, or off before and
    after, the pod template and the pod management are the same, so that the
    StatefulSet's revision is. *)
Theorem scaling_keeps_pods c n :
  ConfigHash (with_replicas c n) = ConfigHash c ∧
  (clusterMetadataEnabled (with_replicas c n) = clusterMetadataEnabled c →
   ∀ h, sts_Template (BuildStatefulSet (with_replicas c n) h) = sts_Template (BuildStatefulSet c h) ∧
        sts_PodManagementPolicy (BuildStatefulSet (with_replicas c n) h) =
          sts_PodManagementPolicy (BuildStatefulSet c h) ∧
        sts_Replicas (BuildStatefulSet (with_replicas c n) h) = Some n) ∧
  ((1 < n)%Z → (1 < spec_replicas c)%Z →
   clusterMetadataEnabled (with_replicas c n) = clusterMetadataEnabled c).
Proof.
  split; [apply scaling_hash|]. split.
  - intros He h. unfold BuildStatefulSet. cbv zeta. rewrite He.
    split; [apply pod_template_replicas|]. split; reflexivity.
  - intros Hn Hc. unfold clusterMetadataEnabled. rewrite !bool_decide_eq_true_2 by done. reflexivity.
Qed.

(** ** Ports *)

Definition port_names (k : Container) : list string := cp_Name <$> co_Ports k.
Definition probes (k : Container) : list Probe :=
  omap id [co_StartupProbe k; co_LivenessProbe k; co_ReadinessProbe k].

(** Every probe of a database pod and of a proxy pod names a port the container
    declares; the proxy's admin listener never takes the port clients use, and the
    port the operator calls is the one the proxy is told to listen on. *)
Theorem ports_consistent c b :
  (∀ p, p ∈ probes (main_container c b) → pr_Port p ∈ port_names (main_container c b)) ∧
  (∀ p, p ∈ probes (proxy_container c) → pr_Port p ∈ port_names (proxy_container c)) ∧
  (ProxySupports c CapabilityProxyAdminListener = true →
   ProxyAdminPort c ≠ proxyPort c ∧
   mkContainerPort proxyAdminPortName (ProxyAdminPort c) ∈ co_Ports (proxy_container c) ∧
   EnvValue "HYPERBYTEDB_PROXY_ADMIN_LISTEN" (cat ["0.0.0.0:"; Itoa (ProxyAdminPort c)])
     ∈ co_Env (proxy_container c)) ∧
  (ProxySupports c CapabilityProxyAdminListener = false → ProxyAdminPort c = proxyPort c).
Proof.
  unfold probes, port_names. split; [|split; [|split]].
  - intros p Hp. simpl in *. unfold containerPorts, liveness_probe in *.
    destruct (ControlListenerEnabled c b);
      repeat (apply elem_of_cons in Hp as [->|Hp]); try (by apply not_elem_of_nil in Hp);
      simpl; rewrite ?elem_of_cons; auto.
  - intros p Hp. simpl in *. unfold proxy_ports, proxy_probe_port in *.
    destruct (ProxySupports c CapabilityProxyAdminListener);
      repeat (apply elem_of_cons in Hp as [->|Hp]); try (by apply not_elem_of_nil in Hp);
      simpl; rewrite ?elem_of_cons; auto.
  - intros Hs. split; [|split].
    + unfold ProxyAdminPort, proxyAdminListenPort. rewrite Hs. simpl. case_bool_decide; lia.
    + cbn [proxy_container co_Ports]. unfold proxy_ports. rewrite Hs. right. left.
    + cbn [proxy_container co_Env]. unfold proxy_env. rewrite Hs.
      apply elem_of_app. right. apply elem_of_app. right. left.
  - intros Hs. unfold ProxyAdminPort. by rewrite Hs.
Qed.
End Scaling.

(** ** Witnesses *)


Definition demo_v (i : Z) (s : string) : Version := (i, s) : (Z * string).

Lemma capabilities_monotone_witness :
  (versionSupports (Some (demo_v 1 "0.9.0-beta")) CapabilitySharding = true →
   versionSupports (Some (demo_v 4 "0.9.3-beta")) CapabilitySharding = true) ∧
  versionSupports (Some (demo_v 4 "0.9.3-beta")) CapabilitySharding = true ∧
  versionSupports (Some (demo_v 0 "0.8.0")) CapabilitySharding = false.
Proof.
  split; [apply (capabilities_monotone (demo_v 1 "0.9.0-beta") (demo_v 4 "0.9.3-beta")); vm_compute; congruence|].
  split; vm_compute; reflexivity.
Defined.

(** Turning clustering on changes the pods but not the configuration hash. *)
Lemma first_scale_out_rolls :
  let one := demo_cluster 1 None in
  ConfigHash (with_replicas one 3) = ConfigHash one ∧
  sts_Template (BuildStatefulSet (with_replicas one 3) "h") ≠ sts_Template (BuildStatefulSet one "h") ∧
  BuildConfigMap (with_replicas one 3) ≠ BuildConfigMap one.
Proof.
  cbv zeta. split; [apply scaling_hash|]. split.
  - intros He. apply (f_equal (λ t, length (omap co_PreStop (ps_Containers (pt_Spec t))))) in He.
    vm_compute in He. discriminate.
  - intros He. apply (f_equal (λ m, map_get (cm_Data m) "config.toml")) in He. vm_compute in He. discriminate.
Qed.
