(* ===== verification/ConfigTheorems.v ===== *)
(** The configuration file: what the database reads back from it. *)

From S2P Require Import Prelude GoStrings Lib ApiTypes Image Compat Config Toml Prog Go K8s StatefulSet Demo.
#[local] Open Scope string_scope.

Lemma plain_str_or s d : plain s = true → plain d = true → plain (str_or s d) = true.
Proof. unfold str_or. by destruct (String.eqb s ""). Qed.

(** Reads the rows of a table off the [cat] that prints them. *)
Ltac tabled_go :=
  repeat lazymatch goal with
  | |- tabled _ (header _) _ _ => eapply tabled_header; reflexivity
  | |- tabled _ (kv_int _ _) _ _ => eapply tabled_int; reflexivity
  | |- tabled _ (kv_bool _ _) _ _ => eapply tabled_bool; reflexivity
  | |- tabled _ (kv_pos _ _) _ _ => eapply tabled_pos; reflexivity
  | |- tabled _ (kv_str _ _) _ _ => eapply tabled_str;
      [reflexivity|first [assumption | reflexivity | apply plain_str_or; [assumption|reflexivity]]]
  | |- tabled _ (cat []) _ _ => apply tabled_nil
  | |- tabled _ (cat (_ :: _)) _ _ => eapply tabled_cat
  | |- tabled _ (if _ then _ else _) _ _ => eapply tabled_when
  | |- tabled _ (match _ with Some _ => _ | None => _ end) _ _ =>
      first [eassumption | eapply tabled_opt; intros ?]
  | |- tabled _ _ _ _ => eassumption
  end.
Ltac table := eapply tabled_is; [tabled_go|reflexivity].
Ltac sublists :=
  first [apply sublist_nil_l|apply sublist_skip; sublists|apply sublist_cons; sublists].
Ltac no_rows := apply tabled_nothing; by repeat constructor.

Section Sections.
Context `{Lib}.
Implicit Types (c : HyperbytedbCluster) (spec : HyperbytedbClusterSpec).

(** The settings a user can give as free text, none of which the code quotes. *)
Definition plain_settings spec : bool :=
  plain (sto_WALFormat (sp_Storage spec)) && plain (ch_SessionDataPath (sp_ChDB spec)) &&
  plain (log_Level (sp_Logging spec)) && plain (log_Format (sp_Logging spec)) &&
  plain (ret_Interval (sp_Retention spec)) &&
  match ct_Replication (sp_Cluster spec) with
  | None => true
  | Some r =>
      plain (repl_Mode r) &&
      match repl_SyncQuorum r ≫= sq_MinAcks with Some (StrVal s) => plain s | _ => true end
  end.

(** ** The intended settings *)

Definition in_section (section : string) (rows : list (string * option value)) : list row :=
  (λ r, ((section, r.1), r.2)) <$> rows.

Definition server_table c : list row :=
  let s := sp_Server (cl_Spec c) in
  in_section "server"
    [("bind_address", in_quotes "0.0.0.0");
     ("port", number (ServerPort c));
     ("max_body_size_bytes", positive (srv_MaxBodySizeBytes s));
     ("request_timeout_secs", positive (srv_RequestTimeoutSecs s));
     ("query_timeout_secs", positive (srv_QueryTimeoutSecs s));
     ("max_concurrent_queries", positive (srv_MaxConcurrentQueries s));
     ("tls_enabled", only_if (tls_enabled c) (flag true));
     ("tls_cert_path", only_if (tls_enabled c) (in_quotes "/etc/hyperbytedb/tls/tls.crt"));
     ("tls_key_path", only_if (tls_enabled c) (in_quotes "/etc/hyperbytedb/tls/tls.key"))].

Definition storage_table spec : list row :=
  in_section "storage"
    [("wal_dir", in_quotes defaultWalDir);
     ("meta_dir", in_quotes defaultMetaDir);
     ("wal_format", in_quotes (str_or (sto_WALFormat (sp_Storage spec)) "bincode"))].

Definition flush_table spec : list row :=
  let f := sp_Flush spec in
  in_section "flush"
    [("interval_secs", number (pos_or (fl_IntervalSecs f) 10));
     ("max_points_per_batch", number (pos_or (fl_MaxPointsPerBatch f) 50000));
     ("wal_batch_size", positive (fl_WALBatchSize f));
     ("wal_batch_delay_us", positive (fl_WALBatchDelayUs f));
     ("arrow_wal_enabled", flag (default true (fl_ArrowWALEnabled f)))].

(** A database with split pools gets the two sizes that are set, or failing both the
    single size, or failing that one writer (and, unless it can choose the query pool
    itself, one session for everything).  An older one gets a single size. *)
Definition chdb_table c : list row :=
  let ch := sp_ChDB (cl_Spec c) in
  let split := Supports c CapabilitySplitChdbPools in
  let auto := Supports c CapabilityAutoQueryPool in
  let set z := bool_decide (0 < z)%Z in
  let query := ch_QueryPoolSize ch in
  let write := ch_WritePoolSize ch in
  let pool := ch_PoolSize ch in
  in_section "chdb"
    [("session_data_path", in_quotes (str_or (ch_SessionDataPath ch) defaultChdbSessionPath));
     ("query_pool_size", only_if split (positive query));
     ("write_pool_size",
       only_if split
         (if set write then number write
          else only_if (negb (set query) && negb (set pool) && auto) (number 1)));
     ("pool_size",
       if split
       then only_if (negb (set query) && negb (set write))
              (if set pool then number pool else only_if (negb auto) (number 1))
       else number (pos_or pool (pos_or query 1)))].

Definition auth_table spec : list row :=
  in_section "auth" [("enabled", flag (auth_Enabled (sp_Auth spec)))].

Definition cardinality_table spec : list row :=
  let k := sp_Cardinality spec in
  in_section "cardinality"
    [("max_tag_values_per_measurement", number (pos_or (car_MaxTagValuesPerMeasurement k) 100000));
     ("max_measurements_per_database", number (pos_or (car_MaxMeasurementsPerDatabase k) 10000))].

Definition logging_table spec : list row :=
  in_section "logging"
    [("level", in_quotes (str_or (log_Level (sp_Logging spec)) defaultLogLevel));
     ("format", in_quotes (str_or (log_Format (sp_Logging spec)) "text"))].

Definition statement_table spec : list row :=
  let s := sp_StatementSummary spec in
  in_section "statement_summary"
    [("enabled", flag (default true (ss_Enabled s)));
     ("max_entries", number (pos_or (ss_MaxEntries s) 1000))].

Definition handoff_table spec : list row :=
  let h := sp_HintedHandoff spec in
  in_section "hinted_handoff"
    [("enabled", flag (default true (hh_Enabled h)));
     ("max_hints_per_peer", number (pos_or (hh_MaxHintsPerPeer h) 100000));
     ("max_hint_age_secs", number (pos_or (hh_MaxHintAgeSecs h) 3600))].

Definition rate_limit_table spec : list row :=
  let r := sp_RateLimit spec in
  in_section "rate_limit"
    [("enabled", rl_Enabled r ≫= flag);
     ("max_requests_per_second", positive (rl_MaxRequestsPerSecond r))].

Definition retention_table spec : list row :=
  let r := sp_Retention spec in
  in_section "retention"
    [("enabled", flag (default true (ret_Enabled r)));
     ("interval", in_quotes (str_or (ret_Interval r) "12h"))].

Definition acks_value (v : IntOrString) : option value :=
  match v with IntVal z => number z | StrVal s => in_quotes s end.
Definition replication_table (repl : option ReplicationSpec) : list row :=
  (in_section "cluster.replication"
     [("mode", r ← repl; in_quotes (str_or (repl_Mode r) "async"));
      ("ack_timeout_ms", r ← repl; positive (repl_AckTimeoutMs r))] ++
   in_section "cluster.replication.sync_quorum"
     [("min_acks", r ← repl; (repl_SyncQuorum r ≫= sq_MinAcks) ≫= acks_value)])%list.

Definition cluster_table c (b : bool) : list row :=
  let t := sp_Cluster (cl_Spec c) in
  (in_section "cluster"
     [("enabled", flag b);
      ("peers", in_quotes "");
      ("replication_log_dir", in_quotes defaultReplLogDir);
      ("raft_dir", in_quotes defaultRaftDir);
      ("control_port", only_if (ControlListenerEnabled c b) (number (ControlPort c)));
      ("heartbeat_interval_secs", number (pos_or (ct_HeartbeatIntervalSecs t) 2));
      ("heartbeat_miss_threshold", number (pos_or (ct_HeartbeatMissThreshold t) 5));
      ("replication_max_retries", number (pos_or (ct_ReplicationMaxRetries t) 5));
      ("replication_queue_depth", number (pos_or (ct_ReplicationQueueDepth t) 8192));
      ("replication_max_inflight_batches", number (pos_or (ct_ReplicationMaxInflightBatches t) 8));
      ("replication_max_coalesce_body_bytes",
        number (pos_or (ct_ReplicationMaxCoalesceBodyBytes t) 8388608));
      ("replicate_receiver_queue_depth", number (pos_or (ct_ReplicateReceiverQueueDepth t) 1024));
      ("replication_truncate_stale_peer_multiplier",
        number (pos_or (ct_ReplicationTruncateStalePeerMultiplier t) 2));
      ("raft_heartbeat_interval_ms", positive (ct_RaftHeartbeatIntervalMs t));
      ("raft_election_timeout_ms", positive (ct_RaftElectionTimeoutMs t));
      ("raft_snapshot_threshold", positive (ct_RaftSnapshotThreshold t))] ++
   replication_table (ct_Replication t))%list.

(** Sharding, in a database that has it. *)
Definition sharding_on c : option ShardingSpec :=
  if Supports c CapabilitySharding then sp_Sharding (cl_Spec c) else None.
Definition sharding_table c : list row :=
  let set v := s ← sharding_on c; v s in
  in_section "sharding"
    [("enabled", set (λ s, flag (sh_Enabled s)));
     ("replication_factor", set (λ s, positive (sh_ReplicationFactor s)));
     ("region_split_series", set (λ s, positive (sh_RegionSplitSeries s)));
     ("region_max_series", set (λ s, positive (sh_RegionMaxSeries s)));
     ("region_merge_series", set (λ s, positive (sh_RegionMergeSeries s)));
     ("split_merge_interval_secs", set (λ s, positive (sh_SplitMergeIntervalSecs s)));
     ("schedule_limit", set (λ s, positive (sh_ScheduleLimit s)));
     ("heartbeat_interval_secs", set (λ s, positive (sh_HeartbeatIntervalSecs s)));
     ("bootstrap_timeout_ms", set (λ s, positive (sh_BootstrapTimeoutMs s)));
     ("primary_failover_after_secs", set (λ s, positive (sh_PrimaryFailoverAfterSecs s)));
     ("add_peer_proposals_enabled", set (λ s, sh_AddPeerProposalsEnabled s ≫= flag));
     ("remove_peer_proposals_enabled", set (λ s, sh_RemovePeerProposalsEnabled s ≫= flag));
     ("scatter_peer_timeout_ms", set (λ s, positive (sh_ScatterPeerTimeoutMs s)));
     ("scatter_max_peer_attempts", set (λ s, positive (sh_ScatterMaxPeerAttempts s)));
     ("load_split_qps_threshold", set (λ s, sh_LoadSplitQpsThreshold s ≫= number));
     ("max_regions_per_measurement", set (λ s, positive (sh_MaxRegionsPerMeasurement s)))].

(** Every key the file can have, with the value it should have. *)
Definition config_table c (b : bool) : list row :=
  let spec := cl_Spec c in
  concat
    [server_table c; storage_table spec; flush_table spec; chdb_table c; auth_table spec;
     cardinality_table spec; logging_table spec; statement_table spec; handoff_table spec;
     rate_limit_table spec; retention_table spec; cluster_table c b; sharding_table c].

(** ** The writers *)

Lemma server_tabled c cur : tabled cur (writeServerSection (cl_Spec c)) "server" (server_table c).
Proof.
  unfold writeServerSection.
  match goal with |- tabled _ (cat (?a :: ?b :: ?l)) _ _ =>
    change (cat (a :: b :: l)) with (cat (("[" +:+ "server" +:+ "]" +:+ nl) :: l)) end.
  eapply tabled_is; [eapply (tabled_cat _ _ _ _ []); [by apply prints_section|tabled_go]|reflexivity].
Qed.
Lemma storage_tabled spec cur : plain (sto_WALFormat (sp_Storage spec)) = true →
  tabled cur (writeStorageSection spec) "storage" (storage_table spec).
Proof. intros Hp. unfold writeStorageSection. table. Qed.
Lemma flush_tabled spec cur : tabled cur (writeFlushSection spec) "flush" (flush_table spec).
Proof. unfold writeFlushSection. table. Qed.
Lemma auth_tabled spec cur : tabled cur (writeAuthSection spec) "auth" (auth_table spec).
Proof. unfold writeAuthSection. table. Qed.
Lemma cardinality_tabled spec cur :
  tabled cur (writeCardinalitySection spec) "cardinality" (cardinality_table spec).
Proof. unfold writeCardinalitySection. table. Qed.
Lemma logging_tabled spec cur :
  plain (log_Level (sp_Logging spec)) = true → plain (log_Format (sp_Logging spec)) = true →
  tabled cur (writeLoggingSection spec) "logging" (logging_table spec).
Proof. intros Hp Hq. unfold writeLoggingSection. table. Qed.
Lemma statement_tabled spec cur :
  tabled cur (writeStatementSummarySection spec) "statement_summary" (statement_table spec).
Proof. unfold writeStatementSummarySection. table. Qed.
Lemma handoff_tabled spec cur :
  tabled cur (writeHintedHandoffSection spec) "hinted_handoff" (handoff_table spec).
Proof. unfold writeHintedHandoffSection. table. Qed.
Lemma retention_tabled spec cur : plain (ret_Interval (sp_Retention spec)) = true →
  tabled cur (writeRetentionSection spec) "retention" (retention_table spec).
Proof. intros Hp. unfold writeRetentionSection. table. Qed.

(** Whatever the versions and sizes are, the two descriptions of the pools agree. *)
Lemma chdb_tabled c cur : plain (ch_SessionDataPath (sp_ChDB (cl_Spec c))) = true →
  tabled cur (writeChdbSection c) "chdb" (chdb_table c).
Proof.
  intros Hp. unfold writeChdbSection.
  eapply tabled_is;
    [eapply tabled_cat; [by apply tabled_header|]; eapply tabled_cat;
       [by apply tabled_str, plain_str_or|];
       eapply (tabled_cat _ _ _ "chdb" (tail (chdb_table c))); [|apply tabled_nil]
    |reflexivity].
  assert (∀ z, bool_decide (z <= 0)%Z = negb (bool_decide (0 < z)%Z)) as Hneg.
  { intros z. by repeat case_bool_decide; simpl; lia || done. }
  unfold kv_pos, chdb_table, positive, pos_or, only_if. cbv zeta. rewrite !Hneg.
  destruct (Supports c CapabilitySplitChdbPools), (Supports c CapabilityAutoQueryPool),
    (bool_decide (0 < ch_QueryPoolSize _)%Z) eqn:Hq, (bool_decide (0 < ch_WritePoolSize _)%Z),
    (bool_decide (0 < ch_PoolSize _)%Z) eqn:Hs;
    cbn [negb andb]; rewrite ?Hneg, ?Hq, ?Hs; cbn [negb];
    (eapply tabled_rows;
      [repeat first [eapply prints_int; reflexivity|apply prints_cat_nil|eapply prints_cat|apply prints_nil]
      |reflexivity|]).
  all: simpl; sublists.
Qed.

Lemma rate_limit_tabled spec cur :
  ∃ cur', tabled cur (writeRateLimitSection spec) cur' (rate_limit_table spec).
Proof.
  unfold writeRateLimitSection. destruct (_ && _) eqn:Hb; eexists; [|table].
  bools. unfold rate_limit_table. cbv zeta.
  match goal with Hn : rl_Enabled _ = None |- _ => rewrite Hn end.
  match goal with Hz : rl_MaxRequestsPerSecond _ = 0%Z |- _ => rewrite Hz end. no_rows.
Qed.

Lemma acks_tabled (o : option IntOrString) cur :
  match o with Some (StrVal s) => plain s | _ => true end = true →
  ∃ cur', tabled cur
    match o with
    | Some v => cat [ header "cluster.replication.sync_quorum"; writeMinAcks v ]
    | None => ""
    end cur' [(("cluster.replication.sync_quorum", "min_acks"), o ≫= acks_value)].
Proof.
  intros Hp. destruct o as [[z|s]|]; unfold writeMinAcks; eexists; [table..|no_rows].
Qed.

Lemma replication_tabled (r : option ReplicationSpec) cur :
  match r with
  | None => true
  | Some r => plain (repl_Mode r) &&
      match repl_SyncQuorum r ≫= sq_MinAcks with Some (StrVal s) => plain s | _ => true end
  end = true →
  ∃ cur', tabled cur (writeReplicationSubsections r) cur' (replication_table r).
Proof.
  intros Hp. destruct r as [r|]; [|eexists; no_rows]. bools.
  destruct (acks_tabled (repl_SyncQuorum r ≫= sq_MinAcks) "cluster.replication") as [cur' Ha]; [done|].
  exists cur'. unfold writeReplicationSubsections.
  table.
Qed.

Lemma cluster_tabled c b cur : plain_settings (cl_Spec c) = true →
  ∃ cur', tabled cur (writeClusterSection c b) cur' (cluster_table c b).
Proof.
  intros Hp. unfold plain_settings in Hp. bools.
  edestruct (replication_tabled (ct_Replication (sp_Cluster (cl_Spec c))) "cluster") as (cur' & Hr);
    [done|].
  exists cur'. unfold writeClusterSection.
  table.
Qed.

Lemma sharding_tabled c cur : ∃ cur', tabled cur (writeShardingSection c) cur' (sharding_table c).
Proof.
  unfold writeShardingSection, sharding_table, sharding_on.
  destruct (Supports c CapabilitySharding), (sp_Sharding (cl_Spec c)) as [s|]; cbn [negb];
    eexists; [table|no_rows..].
Qed.

(** ** The file *)

(** No key is in the table twice. *)
Lemma config_table_nodup c b : NoDup (config_table c b).*1.
Proof.
  let ks := eval lazy in ((config_table c b).*1) in change (NoDup ks).
  by apply (bool_decide_unpack _); vm_compute.
Qed.

Lemma plain_settings_spec spec : plain_settings spec = true →
  plain (sto_WALFormat (sp_Storage spec)) = true ∧
  plain (ch_SessionDataPath (sp_ChDB spec)) = true ∧
  plain (log_Level (sp_Logging spec)) = true ∧ plain (log_Format (sp_Logging spec)) = true ∧
  plain (ret_Interval (sp_Retention spec)) = true.
Proof. unfold plain_settings. intros. bools. done. Qed.

Lemma config_tabled c b : plain_settings (cl_Spec c) = true →
  ∃ cur', tabled "" (renderConfigTOMLWithClusterEnabled c b) cur' (config_table c b).
Proof.
  intros Hp. pose proof (plain_settings_spec _ Hp) as (Hp1 & Hp2 & Hp3 & Hp4 & Hp5).
  destruct (rate_limit_tabled (cl_Spec c) "hinted_handoff") as [c10 P10].
  destruct (cluster_tabled c b "retention" Hp) as [c12 P12].
  destruct (sharding_tabled c c12) as [c13 P13].
  exists c13. unfold renderConfigTOMLWithClusterEnabled, config_table. cbv zeta.
  repeat (eapply tabled_cat;
    [eauto using server_tabled, storage_tabled, flush_tabled, chdb_tabled, auth_tabled,
       cardinality_tabled, logging_tabled, statement_tabled, handoff_tabled, retention_tabled|]).
  apply tabled_nil.
Qed.

End Sections.
(** ** Witness *)


(** Free text is not quoted: a session path with a quote and a line feed in it adds a
    setting of its own to the file. *)
Definition with_session_path (c : HyperbytedbCluster) (path : string) : HyperbytedbCluster :=
  let s := cl_Spec c in
  with_spec c (mkSpec (sp_Replicas s) (sp_Image s) (sp_Version s) (sp_ImagePullPolicy s)
    (sp_ImagePullSecrets s) (sp_Paused s) (sp_Server s) (sp_Storage s) (sp_Flush s)
    (mkChDBSpec path 0 0 0)
    (sp_Auth s) (sp_Logging s) (sp_Resources s) (sp_Cluster s) (sp_Sharding s) (sp_Cardinality s)
    (sp_StatementSummary s) (sp_HintedHandoff s) (sp_RateLimit s) (sp_Retention s)
    (sp_Monitoring s) (sp_Autoscaling s) (sp_Failover s) (sp_Proxy s) (sp_PodAnnotations s)
    (sp_PodLabels s) (sp_Affinity s) (sp_TopologySpreadConstraints s) (sp_Tolerations s)
    (sp_AdditionalVolumes s) (sp_AdditionalVolumeMounts s)).

Lemma free_text_injects :
  let path := cat ["/data"; dq; nl; "query_timeout = "; dq; "1s"] in
  (es ← read_toml (renderConfigTOML (with_session_path (demo_cluster 3 None) path));
   lookup_setting es "chdb" "query_timeout") = Some (Quoted "1s").
Proof. vm_compute. reflexivity. Qed.
