(* ===== verification/ResourceTheorems.v ===== *)
(** The objects a cluster consists of: the properties of how they are written and of
    how they select each other. *)

From S2P Require Import Prelude GoStrings Lib ApiTypes Image Compat Config K8s StatefulSet Prog Go Client Proxy Auth Controller RollingRestart Resources Reconcile ReconcileProofs Demo.
#[local] Open Scope string_scope.

Section Resources.
Context `{Lib}.
Implicit Types (c : HyperbytedbCluster) (t u v : list (entry Ans)).

(** The StatefulSet a call creates or replaces. *)
Definition written_sts (e : Ev) : option StatefulSet :=
  match e with
  | Create k o | Update k o =>
      match k return obj k → option StatefulSet with KStatefulSet => Some | _ => λ _, None end o
  | _ => None
  end.

Lemma desired_partition c h :
  sts_RollingUpdate (desired_sts c h) =
    if ProxyEnabled c then Some (Some (rolloutPartition c (spec_replicas c))) else None.
Proof. unfold desired_sts. by destruct (ProxyEnabled c). Qed.
Lemma desired_replicas_of c h : sts_Replicas (desired_sts c h) = Some (spec_replicas c).
Proof. unfold desired_sts. by destruct (ProxyEnabled c). Qed.


(** ** Disruption budget *)

Definition pdb_written (e : Ev) : option PodDisruptionBudget :=
  match e with
  | Create k o | Update k o =>
      match k return obj k → option PodDisruptionBudget with KPDB => Some | _ => λ _, None end o
  | _ => None
  end.
Definition pdbs_written t : list PodDisruptionBudget := omap (λ x, pdb_written (entry_ev x)) t.

(** The disruption budget lets one pod be evicted at a time and no more: with two
    replicas or more the step makes one write, a budget that keeps all replicas but
    one available among the database pods; with fewer it writes none and deletes
    the one it finds. *)
Theorem reconcilePDB_correct c t o :
  in_int32 (spec_replicas c) → exec (reconcilePDB c) t o →
  ∃ a rest, t = @Entry Ev Ans (Get KPDB (cl_Namespace c) (pdb_name c)) a :: rest ∧
    (∀ e, a = inl e → IsNotFound e = false → rest = [] ∧ o = Done (inl e)) ∧
    ((∀ e, a = inl e → IsNotFound e = true) →
     if bool_decide (2 <= spec_replicas c)%Z then
       ∃ p, pdbs_written t = [p] ∧ length rest = 1%nat ∧
         pdb_MinAvailable p = (spec_replicas c - 1)%Z ∧ pdb_Selector p = CommonLabels c
     else
       match a with
       | inr q => ∃ r, rest = [@Entry Ev Ans (Delete KPDB (om_Namespace (pdb_Meta q))
                                  (om_Name (pdb_Meta q)) false) r]
       | inl _ => rest = [] ∧ o = Done nil_err
       end).
Proof.
  intros Hn He. assert (in_int32 (spec_replicas c - 1) ∨ (spec_replicas c < 2)%Z) as Hn1
    by (unfold in_int32 in *; lia).
  revert t o He. apply wp_exec. unfold reconcilePDB, lookup_object, create, update, delete_object.
  prog_unfold. cbn [Prog.bind wp fst snd]. intros [e|q]; [destruct (IsNotFound e) eqn:Hnf|]; cbn [Prog.bind wp fst snd].
  - destruct (decide (spec_replicas c < 2)%Z).
    + rewrite bool_decide_eq_true_2 by done. cbn [Prog.bind wp fst snd]. eexists (inl e), []. split; [done|].
      split; [intros ? [= <-]; congruence|]. intros _. by rewrite bool_decide_eq_false_2 by lia.
    + rewrite bool_decide_eq_false_2 by done. cbn [Prog.bind wp fst snd]. intros a. eexists (inl e), _. split; [done|].
      split; [intros ? [= <-]; congruence|]. intros _. rewrite bool_decide_eq_true_2 by lia.
      eexists. split; [done|]. split; [done|]. split; [|done]. simpl. apply int32_id. by destruct Hn1.
  - eexists (inl e), []. split; [done|]. split; [intros ??; by simplify_eq|]. intros Hx.
    specialize (Hx e eq_refl). congruence.
  - destruct (decide (spec_replicas c < 2)%Z).
    + rewrite bool_decide_eq_true_2 by done. cbn [Prog.bind wp fst snd]. intros a. eexists (inr q), _. split; [done|].
      split; [done|]. intros _. rewrite bool_decide_eq_false_2 by lia. by exists a.
    + rewrite bool_decide_eq_false_2 by done. cbn [Prog.bind wp fst snd]. intros a. eexists (inr q), _. split; [done|].
      split; [done|]. intros _. rewrite bool_decide_eq_true_2 by lia.
      eexists. split; [done|]. split; [done|]. split; [|done]. simpl. apply int32_id. by destruct Hn1.
Qed.

(** ** Selectors *)

(** What selects what: every Service, the disruption budget, the ServiceMonitor
    and the StatefulSet select the database pods by the same labels, and those pods
    carry them unless the user's pod labels override one; likewise for the proxy.
    No selector of the database matches a proxy pod or the other way round, so
    clients of one are never sent to the other. *)
Theorem selectors_select c b h (l : gmap string string) :
  sts_Selector (BuildStatefulSet c h) = CommonLabels c ∧
  svc_Selector (BuildHeadlessService c) = CommonLabels c ∧
  svc_Selector (BuildClientService c) = CommonLabels c ∧
  pdb_Selector (desired_pdb c) = CommonLabels c ∧
  smo_Selector (BuildServiceMonitor c) = CommonLabels c ∧
  dep_Selector (BuildProxyDeployment c) = svc_Selector (BuildProxyService c) ∧
  (CommonLabels c ⊆ pt_Labels (pod_template c b h) ↔
   ∀ k v w : string, sp_PodLabels (cl_Spec c) !! k = Some v → CommonLabels c !! k = Some w → v = w) ∧
  (dep_Selector (BuildProxyDeployment c) ⊆ pt_Labels (dep_Template (BuildProxyDeployment c)) ↔
   ∀ k v w : string, px_PodLabels (proxy_spec c) !! k = Some v → proxyLabels c !! k = Some w → v = w) ∧
  ¬ (CommonLabels c ⊆ l ∧ proxyLabels c ⊆ l).
Proof.
  assert (∀ base user : gmap string string, base ⊆ maps_Copy base user ↔
    ∀ k v w : string, user !! k = Some v → base !! k = Some w → v = w) as Hcopy.
  { intros base user. unfold maps_Copy. rewrite map_subseteq_spec. split.
    - intros Hs k v w Hv Hw. specialize (Hs k w Hw). rewrite (lookup_union_Some_l _ _ k v Hv) in Hs.
      congruence.
    - intros Hs k w Hw. destruct (user !! k) as [v|] eqn:Hv.
      + rewrite (lookup_union_Some_l _ _ k v Hv). f_equal. by eapply Hs.
      + by rewrite lookup_union_r. }
  do 6 (split; [reflexivity|]). split; [apply Hcopy|]. split; [apply Hcopy|].
  intros [H1 H2]. rewrite map_subseteq_spec in H1, H2.
  specialize (H1 "app.kubernetes.io/name" "hyperbytedb" eq_refl).
  specialize (H2 "app.kubernetes.io/name" "hyperbytedb-proxy" eq_refl). congruence.
Qed.
End Resources.

(** ** Witnesses *)

(** A StatefulSet under another pod management is deleted and its pods orphaned. *)
Definition sts_world : World := {|
  w_now := 0%Z;
  w_get k name := match k with KStatefulSet => Some (demo_sts 3 3) | _ => None end;
  w_pods := [];
  w_http _ := mkRsp 200 None |}.


Lemma reconcilePDB_correct_witness :
  ∃ p, pdbs_written (trace_of sts_world (reconcilePDB (demo_cluster 3 None))) = [p] ∧
    pdb_MinAvailable p = 2%Z.
Proof.
  pose proof (world_exec sts_world (reconcilePDB (demo_cluster 3 None))) as He.
  destruct (reconcilePDB_correct (demo_cluster 3 None) _ _ ltac:(unfold in_int32; vm_compute; split; congruence) He)
    as (a & rest & Ht & _ & Hn).
  assert (option_map (λ x, match entry_ev x as e return Ans e → bool with
      | Get KPDB _ _ => λ r, match r with inl e => IsNotFound e | inr _ => false end
      | _ => λ _, false end (entry_ans x))
    (head (trace_of sts_world (reconcilePDB (demo_cluster 3 None)))) = Some true) as Hh
    by (vm_compute; reflexivity).
  rewrite Ht in Hh. simpl in Hh.
  destruct Hn as (p & Hp & _ & Hm & _).
  - intros e ->. simpl in Hh. congruence.
  - exists p. split; [exact Hp|exact Hm].
Defined.
