(* ===== verification/Converged.v ===== *)
(** A pass that comes to its end has brought every object of the cluster to what the spec
    asks for. *)

From S2P Require Import Prelude GoStrings Lib ApiTypes Image Compat Config K8s StatefulSet Prog Go Client Proxy Auth Controller RollingRestart Resources RollingRestartProofs ScaleDown Members Reconcile ReconcileProofs Demo AuthTheorems Settled.
#[local] Open Scope string_scope.

Section Converged.
Context `{Lib}.
Implicit Types (c : HyperbytedbCluster) (ctx : Ctx) (t u v w : list (entry Ans)).

(** ** What is asked for *)

(** The two clusters ask for the same: they differ in their status and in metadata the
    operator does not read its orders from. *)
Definition same_request c c' : Prop :=
  cl_Spec c' = cl_Spec c ∧ cl_Name c' = cl_Name c ∧ cl_Namespace c' = cl_Namespace c ∧
  om_Annotations (cl_Meta c') = om_Annotations (cl_Meta c).

(** The API server answers a write of the cluster with a cluster that asks for the same. *)
Definition request_honest (x : entry Ans) : Prop :=
  match entry_ev x as e return Ans e → Prop with
  | Update k o | StatusUpdate k o =>
      match k return ∀ o : obj k, GoErr + obj k → Prop with
      | KCluster => λ o a, ∀ c', a = inr c' → same_request o c'
      | _ => λ _ _, True
      end o
  | _ => λ _, True
  end (entry_ans x).

Lemma same_request_refl c : same_request c c.
Proof. done. Qed.
Lemma same_request_trans c1 c2 c3 : same_request c1 c2 → same_request c2 c3 → same_request c1 c3.
Proof. intros (? & ? & ? & ?) (? & ? & ? & ?). repeat split; congruence. Qed.
Lemma same_request_status c s : same_request c (with_status c s).
Proof. done. Qed.

(** The steps of a pass that keep an object each. *)
Inductive Step :=
  | StepTLS | StepAuth | StepConfig | StepLegacyPeers | StepHeadless | StepClient
  | StepStatefulSet | StepProxyService | StepProxyDeployment | StepMonitor | StepPDB | StepHPA.

#[export] Instance Step_eq_dec : EqDecision Step.
Proof. solve_decision. Defined.

Definition kind_of (s : Step) : Kind :=
  match s with
  | StepTLS | StepAuth => KSecret
  | StepConfig | StepLegacyPeers => KConfigMap
  | StepHeadless | StepClient | StepProxyService => KService
  | StepStatefulSet => KStatefulSet
  | StepProxyDeployment => KDeployment
  | StepMonitor => KServiceMonitor
  | StepPDB => KPDB
  | StepHPA => KHPA
  end.

(** The operator makes the certificates itself. *)
Definition self_signed c : bool :=
  match srv_TLS (sp_Server (cl_Spec c)) with
  | None => false
  | Some tls => tls_Enabled tls && String.eqb (tls_SecretName tls) ""
                  && negb (bool_decide (is_Some (tls_CertManagerIssuerRef tls)))
  end.

(** The steps the spec turns on. *)
Definition enabled c (s : Step) : bool :=
  match s with
  | StepTLS => self_signed c
  | StepAuth => ClusterAuthEnabled c
  | StepProxyService | StepProxyDeployment => ProxyEnabled c
  | StepMonitor => mon_ServiceMonitor (sp_Monitoring (cl_Spec c))
  | _ => true
  end.

(** The object as it has to be for [c]. *)
Definition wanted_for c (s : Step) : option (obj (kind_of s)) → Prop :=
  match s with
  | StepTLS => λ o, o ≠ None
  | StepAuth => auth_wanted
  | StepConfig => λ o, ∃ cm, o = Some cm ∧ cm_Data cm = cm_Data (BuildConfigMap c)
  | StepLegacyPeers => λ o, o = None
  | StepHeadless => service_wanted (BuildHeadlessService c)
  | StepClient => service_wanted (BuildClientService c)
  | StepStatefulSet => sts_wanted (desired_sts c (ConfigHash c))
  | StepProxyService => λ o, ∃ s, o = Some s ∧ svc_Type s = svc_Type (BuildProxyService c) ∧
                                  service_wanted (BuildProxyService c) o
  | StepProxyDeployment => λ o, ∃ d, o = Some d ∧ deployment_with d (BuildProxyDeployment c) = d
  | StepMonitor => λ o, o ≠ None
  | StepPDB => λ o,
      if bool_decide (spec_replicas c < 2)%Z then o = None
      else ∃ p, o = Some p ∧ pdb_MinAvailable p = pdb_MinAvailable (desired_pdb c) ∧
                pdb_Selector p = pdb_Selector (desired_pdb c)
  | StepHPA => λ o,
      match autoscaling_enabled c with
      | None => o = None
      | Some a => ∃ h, o = Some h ∧ agrees KHPA h (desired_hpa c a)
      end
  end.

(** [u] is the run of the step for [c]. *)
Definition ran c (s : Step) u : Prop :=
  match s with
  | StepTLS => ∃ a, exec (reconcileTLS c (spec_replicas c)) u (Done a)
  | StepAuth => ∃ a, exec (reconcileAuthSecret c) u (Done a)
  | StepConfig => ∃ a, exec (reconcileConfigMap c) u (Done a)
  | StepLegacyPeers => ∃ a, exec (cleanupLegacyPeersConfigMap c) u (Done a)
  | StepHeadless => ∃ a, exec (reconcileService c (BuildHeadlessService c)) u (Done a)
  | StepClient => ∃ a, exec (reconcileService c (BuildClientService c)) u (Done a)
  | StepStatefulSet =>
      ∃ res, exec (reconcileStatefulSet c (ConfigHash c)) u (Done (inr res)) ∧ srr_Recreating res = false
  | StepProxyService => ∃ a, exec (reconcile_proxy_service c) u (Done a)
  | StepProxyDeployment => ∃ a, exec (reconcile_proxy_deployment c) u (Done a)
  | StepMonitor => ∃ a, exec (reconcileServiceMonitor c) u (Done a)
  | StepPDB => ∃ a, exec (reconcilePDB c) u (Done a)
  | StepHPA => ∃ a, exec (reconcileHPA c) u (Done a)
  end.

Definition answered (x : entry Ans) : Prop := write_ok x ∧ read_ok x.

(** ** A step that ran leaves the object as wanted *)

Lemma left_wanted {A} k (p : P A) `{Hm : !Maintains k p} u a :
  exec p u (Done a) → Forall answered u → u ≠ [] →
  (∀ s, left_by k u = Some s → k = KStatefulSet → s ≠ None) →
  ∃ s, left_by k u = Some s ∧ wanted s.
Proof.
  intros He Ha Hu Hs. destruct (begins_reading u (Done a) He) as [->|[s0 Hr]]; [|done|].
  { eapply Forall_impl; [exact Ha|]. by intros x [_ ?]. }
  exists (foldl (effect k) s0 u). assert (left_by k u = Some (foldl (effect k) s0 u)) as Hl
    by (unfold left_by; by rewrite Hr).
  split; [done|]. eapply wanted_left; [exact He| |exact Hl|by apply Hs].
  eapply Forall_impl; [exact Ha|]. by intros x [? _].
Qed.

Lemma sts_not_recreated c h u res s :
  exec (reconcileStatefulSet c h) u (Done (inr res)) → srr_Recreating res = false → Forall write_ok u →
  left_by KStatefulSet u = Some s → s ≠ None.
Proof.
  intros (x & u' & -> & He) Hr [_ Hw]%Forall_cons Hl. unfold left_by, first_read in Hl. cbn in Hl.
  destruct x as [e|s0]; cbn -[desired_sts] in *.
  - destruct (IsNotFound e); [|done]. simplify_eq.
    destruct He as ([] & t' & -> & a & t'' & -> & He). rewrite !Forall_cons in Hw.
    destruct Hw as (_ & [(o & Ho) _] & _). cbn in Ho. subst a. cbn -[desired_sts] in *.
    destruct (sts_Replicas o); destruct He as [-> He]; [by simplify_eq/=|done].
  - injection Hl as <-. destruct (negb _).
    + destruct He as ([] & t' & -> & a & t'' & -> & He).
      destruct a as [e|[]]; cbn in He; [destruct (IsNotFound e)|]; destruct He as [_ He]; simplify_eq; done.
    + destruct He as (a & t' & -> & He). rewrite !Forall_cons in Hw.
      destruct Hw as ([(o & Ho) _] & _). cbn in Ho. subst a. cbn in He. unfold sts_result in He.
      destruct (sts_Replicas o); destruct He as [-> He]; [by simplify_eq/=|done].
Qed.

Lemma ran_wanted c s u :
  ran c s u → enabled c s = true → Forall answered u →
  ∃ o, left_by (kind_of s) u = Some o ∧ wanted_for c s o.
Proof.
  intros Hran Hen Ha. destruct s; cbn [ran kind_of enabled wanted_for] in *.
  7: { destruct Hran as (res & He & Hr). unshelve epose proof (left_wanted _ _ u _ He Ha _ _) as Hx; [..|exact Hx].
       - intros ->. by destruct He as (? & ? & ? & _).
       - intros o Hl _. eapply sts_not_recreated; [done..| |done].
         eapply Forall_impl; [exact Ha|]. by intros x [? _]. }
  all: destruct Hran as [a He].
  1: { assert (exec (ensure_self_signed c (spec_replicas c)) u (Done a)) as He'.
       { unfold self_signed, reconcileTLS in *. destruct (srv_TLS _) as [tls|]; [|done].
         apply andb_true_iff in Hen as [Hen H3]. apply andb_true_iff in Hen as [H1 H2].
         rewrite H1, H2 in He. apply negb_true_iff in H3. by rewrite H3 in He. }
       clear He. rename He' into He. unshelve epose proof (left_wanted _ _ u _ He Ha _ _) as Hx; [..|exact Hx];
         [|done]. intros ->. by destruct He as (? & ? & ? & _). }
  all: unshelve epose proof (left_wanted _ _ u _ He Ha _ _) as Hx; [..|exact Hx]; [|done].
  all: intros ->; by destruct He as (? & ? & ? & _).
Qed.

(** ** The runs of a pass *)

(** [u] is a part of the calls [t]. *)
Definition part u t : Prop := ∃ v w, t = (v ++ u ++ w)%list.

Lemma part_refl t : part t t.
Proof. exists [], []. by rewrite app_nil_r. Qed.
Lemma part_l u t1 t2 : part u t1 → part u (t1 ++ t2).
Proof. intros (v & w & ->). exists v, (w ++ t2)%list. by rewrite <- !app_assoc. Qed.
Lemma part_r u t1 t2 : part u t2 → part u (t1 ++ t2).
Proof. intros (v & w & ->). exists (t1 ++ v)%list, w. by rewrite <- !app_assoc. Qed.
Lemma part_all (Q : entry Ans → Prop) u t : part u t → Forall Q t → Forall Q u.
Proof. intros (v & w & ->) Ht. rewrite !Forall_app in Ht. tauto. Qed.

Definition done_in t c (s : Step) : Prop := ∃ u, part u t ∧ ran c s u.

Lemma done_l t1 t2 c s : done_in t1 c s → done_in (t1 ++ t2) c s.
Proof. intros (u & Hu & Hr). exists u. split; [by apply part_l|done]. Qed.
Lemma done_r t1 t2 c s : done_in t2 c s → done_in (t1 ++ t2) c s.
Proof. intros (u & Hu & Hr). exists u. split; [by apply part_r|done]. Qed.
Lemma done_here t c s : ran c s t → done_in t c s.
Proof. intros Hr. exists t. split; [apply part_refl|done]. Qed.

Lemma best_effort_ran (f : HyperbytedbCluster → P error) c t c' r :
  exec (best_effort (on_cluster f) c) t (Done (c', r)) → c' = c ∧ ∃ a, exec (f c) t (Done a).
Proof.
  unfold best_effort. intros [(t1 & t2 & c1 & b & -> & H1 & H2)|[_ ?]]%exec_m_bind; [|done].
  apply exec_on_cluster_ok in H1 as [-> H1]. destruct H2 as [-> ?]. simplify_eq.
  rewrite app_nil_r. split; [done|by eexists].
Qed.

Lemma auth_step_ran ctx c t c' ctx' :
  exec (auth_step ctx c) t (Done (c', inr ctx')) →
  c' = c ∧ (ClusterAuthEnabled c = true → done_in t c StepAuth).
Proof.
  intros He. split; [by apply auth_step_ok in He|]. revert He. unfold auth_step.
  intros [(t1 & t2 & c1 & a & -> & [-> [= -> ->]] & H2)|[_ ?]]%exec_m_bind Hen; [|done].
  rewrite Hen in H2. apply exec_rbind_ok in H2 as (t3 & t4 & c1 & a & -> & [-> H1]%or_fail_on_cluster_ok & _).
  apply done_r, done_l, done_here. by eexists.
Qed.

Lemma ensure_finalizer_request c t c' :
  exec (ensure_finalizer c) t (Done (c', inr tt)) → Forall request_honest t → same_request c c'.
Proof.
  unfold ensure_finalizer. intros [(t1 & t2 & c1 & a & -> & [-> [= -> ->]] & H2)|[_ ?]]%exec_m_bind Hh;
    [|done].
  destruct (ContainsFinalizer _ _); [by destruct H2 as [_ [= ->]]|].
  apply exec_m_bind in H2 as [(t3 & t4 & c1 & [] & -> & [-> [= ->]] & H2)|[_ ?]]; [|done].
  unfold or_return in H2. apply exec_m_bind in H2 as [(t5 & t6 & c2 & r & -> & H1 & H2)|[_ ?]]; [|done].
  apply UpdateCluster_exec in H1 as ([e|c3] & -> & ?); simplify_eq; destruct H2 as [-> ?]; simplify_eq.
  apply Forall_cons in Hh as [Hx _]. exact (Hx _ eq_refl).
Qed.

(** The steps before and after the StatefulSet's. *)
Definition before_sts (s : Step) : bool :=
  match s with
  | StepTLS | StepAuth | StepConfig | StepLegacyPeers | StepHeadless | StepClient => true
  | _ => false
  end.

Lemma prepare_ran ctx c t c' ctx' prev n h :
  exec (prepare ctx c) t (Done (c', inr (ctx', prev, n, h))) → Forall request_honest t →
  same_request c c' ∧ n = spec_replicas c' ∧ h = ConfigHash c' ∧
  ∀ s, before_sts s = true → enabled c' s = true → done_in t c' s.
Proof.
  unfold prepare. intros He Hh.
  apply exec_rbind_ok in He as (t1 & t2 & c1 & [] & -> & (_ & -> & st & ->)%pause_check_ok & He).
  apply exec_rbind_ok in He as (t3 & t4 & c1 & [] & -> & (_ & -> & ->)%deletion_ok & He).
  apply exec_rbind_ok in He as (t5 & t6 & c1 & [] & -> & Hfin & He).
  apply ensure_finalizer_request in Hfin; [|rewrite !Forall_app in Hh; tauto].
  apply exec_m_bind in He as [(t7 & t8 & c2 & a & -> & [-> [= -> ->]] & He)|[_ ?]]; [|done].
  apply exec_rbind_ok in He as (t9 & t10 & c2 & m & -> & [-> Hr]%previous_replicas_ok & He).
  apply exec_rbind_ok in He as (t11 & t12 & c2 & [] & -> & [-> Htls]%or_fail_on_cluster_ok & He).
  apply exec_rbind_ok in He as (t13 & t14 & c2 & ctx2 & -> & [-> Hauth]%auth_step_ran & He).
  apply exec_rbind_ok in He as (t15 & t16 & c2 & [] & -> & [-> Hc]%or_fail_on_cluster_ok & He).
  apply exec_rbind_ok in He as (t17 & t18 & c2 & [] & -> & [-> [? Hl]]%best_effort_ran & He).
  apply exec_rbind_ok in He as (t19 & t20 & c2 & [] & -> & [-> Hs1]%or_fail_on_cluster_ok & He).
  apply exec_rbind_ok in He as (t21 & t22 & c2 & [] & -> & [-> Hs2]%or_fail_on_cluster_ok & He).
  destruct He as [-> ?]. simplify_eq.
  split; [done|]. split; [done|]. split; [done|]. cbn [app].
  intros s Hs Hen. destruct s; try done;
    repeat first [ by apply Hauth | apply done_here; by eexists | by apply done_l, done_here; eexists
                 | by apply done_l, Hauth | apply done_r ].
Qed.

(** *** After the StatefulSet *)

(** A phase of the rolling restart ends with an error or a time to be called again. *)
Lemma phase_returns_time ctx c0 st ur c :
  wp (rolling_phase ctx c0 st ur c) (λ t o, ∀ c', o = Done (c', inr None) → t = [] ∧ c' = c).
Proof.
  unfold rolling_phase. destruct (rr_Phase st); [..|by intros ? [= ->]].
  - unfold rollingRestartExcluding. rolling_go. all: done.
  - unfold rollingRestartDraining. rolling_go. all: done.
  - unfold rollingRestartWaitingReady. rolling_go. all: done.
  - by intros ? [= ->].
  - done.
Qed.

(** The answers to the writes of the cluster in an explicit trace, and what they ask for. *)
Ltac requested :=
  repeat match goal with Hh : Forall request_honest (_ :: _) |- _ => apply Forall_cons in Hh as [? Hh] end;
  repeat match goal with
  | Hx : request_honest _ |- _ =>
      unfold request_honest in Hx; cbn [entry_ev entry_ans] in Hx;
      first [specialize (Hx _ eq_refl) | clear Hx]
  end;
  repeat match goal with
  | Hx : same_request (with_status ?d _) ?e |- _ => change (same_request d e) in Hx
  end;
  eauto using same_request_trans, same_request_refl.

Lemma rolling_restart_request ctx sts n c t c' :
  exec (reconcileRollingRestart ctx sts n c) t (Done (c', inr None)) → Forall request_honest t →
  same_request c c'.
Proof.
  intros He. enough (wp (reconcileRollingRestart ctx sts n c) (λ t o,
    ∀ c', o = Done (c', inr None) → Forall request_honest t → same_request c c')) as Hw
    by exact (proj1 (wp_exec _ _) Hw _ _ He c' eq_refl).
  clear. unfold reconcileRollingRestart, tryClearCompletedRollingRestart, ensureRollingRestartState,
    start_rolling, StatusUpdateCluster, modify_status. prog_go.
  all: try match goal with |- wp _ _ =>
    eapply wp_mono; [apply phase_returns_time|]; intros t o' Hq c' Ho Hh; destruct (Hq c' Ho) as [-> ->] end.
  all: try discriminate; simplify_eq; requested.
Qed.

Lemma rolling_restart_step_ran ctx sts n c t c' :
  exec (rolling_restart_step ctx sts n c) t (Done (c', inr tt)) → Forall request_honest t →
  same_request c c'.
Proof.
  unfold rolling_restart_step. intros [(t1 & t2 & c1 & a & -> & [-> [= -> ->]] & H2)|[_ ?]]%exec_m_bind Hh;
    [|done].
  destruct (ProxyEnabled c); [|by destruct H2 as [_ [= ->]]].
  apply exec_rbind_ok in H2 as (t3 & t4 & c1 & r & -> & H1%or_fail_ok & H2).
  destruct r as [r|]; destruct H2 as [-> [= <-]]. cbn [app] in Hh. apply Forall_app in Hh as [Hh _].
  by eapply rolling_restart_request.
Qed.

Lemma proxy_service_fine c t e :
  exec (reconcile_proxy_service c) t (Done (inl e)) → ¬ Forall answered t.
Proof.
  intros He. enough (wp (reconcile_proxy_service c) (λ t o, ∀ e, o = Done (inl e) → ¬ Forall answered t))
    as Hw by exact (proj1 (wp_exec _ _) Hw _ _ He e eq_refl).
  clear. unfold reconcile_proxy_service, wrapping, lookup_object, create, update, delete_object. prog_go.
  all: intros Ha; rewrite ?Forall_cons in Ha; unfold answered, write_ok, read_ok in Ha; cbn in Ha.
  all: destruct_and?; repeat match goal with Hx : ∃ _, _ |- _ => destruct Hx end; simplify_eq; try congruence.
  by destruct x as [e|o]; [destruct (IsNotFound e)|].
Qed.

Lemma proxy_ran c t a :
  exec (reconcileProxy c) t (Done a) → Forall answered t →
  done_in t c StepProxyService ∧ done_in t c StepProxyDeployment.
Proof.
  intros [(t1 & t2 & [] & -> & H1 & H2)|[(e & H1 & _)|[_ ?]]]%exec_pbind Ha; [| |done].
  - split; [by apply done_l, done_here; eexists|by apply done_r, done_here; eexists].
  - by apply proxy_service_fine in H1.
Qed.

Lemma scaling_step_ok sts n c t c' :
  exec (scaling_step sts n c) t (Done (c', inr tt)) → c' = c.
Proof.
  unfold scaling_step. destruct (Z.eqb _ _); [by intros [_ [= ->]]|].
  intros [(? & ? & ? & ? & -> & _ & He)|[_ ?]]%exec_m_bind; [|done].
  apply exec_m_bind in He as [(? & ? & ? & ? & -> & _ & He)|[_ ?]]; [|done]. by destruct He.
Qed.

Lemma orphan_pvc_step_ok prev n c t c' r :
  exec (orphan_pvc_step prev n c) t (Done (c', r)) → c' = c.
Proof.
  unfold orphan_pvc_step. case_bool_decide; [by intros [-> _]%best_effort_ok|by intros [_ [= ->]]].
Qed.

(** The steps after the StatefulSet's, each with the cluster it ran for. *)
Definition after_sts (s : Step) : bool :=
  match s with
  | StepProxyService | StepProxyDeployment | StepMonitor | StepPDB | StepHPA => true
  | _ => false
  end.

Lemma enabled_same c c1 s : same_request c c1 → enabled c1 s = enabled c s.
Proof.
  intros (Hs & Hn & Hns & Ha). unfold enabled, self_signed, ClusterAuthEnabled, ProxyEnabled, Supports,
    ResolveDatabaseVersion, candidates, cl_annotation, ResolveHyperbytedbImage. by rewrite Hs, Ha.
Qed.

Lemma converge_ran ctx sts prev n h c t c' fin :
  exec (converge ctx sts prev n h c) t (Done (c', inr fin)) →
  Forall request_honest t → Forall answered t →
  ∀ s, after_sts s = true → ∃ c1, same_request c c1 ∧ (enabled c1 s = true → done_in t c1 s).
Proof.
  unfold converge. intros He Hh Ha.
  apply exec_rbind_ok in He as (t1 & t2 & c1 & [] & -> & [-> _]%or_fail_on_cluster_ok & He).
  apply exec_rbind_ok in He as (t3 & t4 & c1 & [] & -> & Hp & He).
  apply exec_rbind_ok in He as (t5 & t6 & c2 & [] & -> & Hr & He).
  apply exec_rbind_ok in He as (t7 & t8 & c3 & [] & -> & ->%scaling_step_ok & He).
  apply exec_rbind_ok in He as (t9 & t10 & c3 & [] & -> & ->%orphan_pvc_step_ok & He).
  apply exec_rbind_ok in He as (t11 & t12 & c3 & [] & -> & Hm & He).
  apply exec_rbind_ok in He as (t13 & t14 & c4 & [] & -> & [-> [? Hpdb]]%best_effort_ran & He).
  apply exec_rbind_ok in He as (t15 & t16 & c4 & [] & -> & [-> [? Hhpa]]%best_effort_ran & _).
  rewrite !Forall_app in Hh, Ha.
  assert (c1 = c ∧ (ProxyEnabled c = true → done_in t3 c StepProxyService ∧ done_in t3 c StepProxyDeployment))
    as [-> Hp'].
  { unfold proxy_step in Hp. apply exec_m_bind in Hp as [(u1 & u2 & d & a & -> & [-> [= -> ->]] & Hp)|[_ ?]]; [|done].
    destruct (ProxyEnabled c); [|by destruct Hp as [_ [= ->]]].
    apply best_effort_ran in Hp as [-> [b Hp]]. split; [done|]. intros _. eapply proxy_ran; [exact Hp|tauto]. }
  apply rolling_restart_step_ran in Hr; [|tauto].
  assert (c3 = c2 ∧ (enabled c2 StepMonitor = true → done_in t11 c2 StepMonitor)) as [-> Hm'].
  { unfold service_monitor_step in Hm.
    apply exec_m_bind in Hm as [(u1 & u2 & d & a & -> & [-> [= -> ->]] & Hm)|[_ ?]]; [|done]. cbn [enabled].
    destruct (mon_ServiceMonitor _); [|by destruct Hm as [_ [= ->]]].
    apply best_effort_ran in Hm as [-> Hm]. split; [done|]. intros _. by apply done_here. }
  intros s Hs. destruct s; try done.
  - exists c. split; [done|]. intros Hen. by apply done_r, done_l, Hp'.
  - exists c. split; [done|]. intros Hen. by apply done_r, done_l, Hp'.
  - exists c2. split; [done|]. intros Hen. do 5 apply done_r. by apply done_l, Hm'.
  - exists c2. split; [done|]. intros _. do 6 apply done_r. by apply done_l, done_here; eexists.
  - exists c2. split; [done|]. intros _. do 7 apply done_r. by apply done_l, done_here; eexists.
Qed.

End Converged.

(** ** Witness *)

Lemma world_request_honest {A} w (p : prog Ans A) : Forall request_honest (trace_of w p).
Proof.
  apply world_Forall. intros []; unfold request_honest; cbn; try done; destruct k; try done; by intros c' [= <-].
Qed.
Lemma world_answered {A} w (p : prog Ans A) : Forall answered (trace_of w p).
Proof.
  apply world_Forall. intros []; unfold answered, write_ok, read_ok, rand_honest; cbn; eauto 10.
  - split; [|done]. split; [by eexists|]. apply repeat_length.
  - split; [done|]. by destruct (w_get w k name).
Qed.

(** Three ready pods on the present revision, and nothing else yet. *)
Definition settled_sts (c : HyperbytedbCluster) : StatefulSet :=
  mkSts (demo_meta "db") (Some 3%Z) "db-headless" ∅ (sts_PodManagementPolicy (desired_sts c "")) None
    demo_template [] (mkStsStatus 3 3 3 "r" "r").
Definition fresh_world (c : HyperbytedbCluster) : World :=
  mkWorld 0%Z (λ k _, match k with KStatefulSet => Some (settled_sts c) | _ => None end) []
    (λ r, if Contains (rq_URL r) "/health" then mkRsp 200 (Some (health_body "active"))
          else mkRsp 200 (Some leader_body)).
Definition fresh_cluster : HyperbytedbCluster := demo_cluster 3 None.

