(* ===== verification/Conflicts.v ===== *)
(** What is written from two sides: the replicas of the StatefulSet by two controllers, a
    Service by two clusters. *)

From S2P Require Import Prelude GoStrings Lib ApiTypes Image Config K8s StatefulSet Proxy Prog Go Controller RollingRestart Resources S3 Backup Restore Demo RestoreTheorems BackupTheorems ResourceTheorems Settled.
#[local] Open Scope string_scope.

Section Conflicts.
Context `{Lib}.
Implicit Types (c : HyperbytedbCluster) (r : HyperbytedbRestore) (t u : list (entry Ans)).

(** Whatever the replicas of the StatefulSet a pass of the cluster controller reads, it
    writes those of the spec. *)
Lemma replicas_set_back c h s u o :
  sts_PodManagementPolicy s = sts_PodManagementPolicy (desired_sts c h) →
  exec (reconcileStatefulSet c h)
    (@Entry Ev Ans (Get KStatefulSet (cl_Namespace c) (StatefulSetName c)) (inr s) :: u) o →
  ∃ s' a, u = [@Entry Ev Ans (Update KStatefulSet s') a] ∧ sts_Replicas s' = Some (spec_replicas c).
Proof.
  intros Hp (x & t' & Ht & He). 
  pose proof (f_equal (first_read KStatefulSet) Ht) as Hx. pose proof (f_equal tail Ht) as Hu. cbn in Hx, Hu.
  assert (x = inr s) as -> by (destruct x as [e|s0]; [destruct (IsNotFound e)|]; by simplify_eq).
  subst t'. clear Ht Hx. cbn -[desired_sts] in He. rewrite bool_decide_eq_true_2 in He by done. destruct He as (a & t'' & -> & He).
  exists (sts_with s (desired_sts c h)), a. split; [f_equal|apply desired_replicas_of].
  destruct a as [e|s']; [by destruct He as [-> _]|]. cbn in He. unfold sts_result in He.
  destruct (sts_Replicas s'); by destruct He as [-> _].
Qed.

Lemma scale_down_writes_zero c r t o :
  exec (handleScaleDown c r) t o →
  Forall (λ x, ∀ s, written_sts (entry_ev x) = Some s → sts_Replicas s = Some 0%Z) t.
Proof.
  apply (emits_exec (λ e, ∀ s, written_sts e = Some s → sts_Replicas s = Some 0%Z)). unfold handleScaleDown, scale_sts, get_sts, setRestorePhase, restore_event,
    modify_restore_status, update. prog_emits.
  all: repeat (split; [intros s Hs; cbn in Hs; by simplify_eq|]; prog_emits).
Qed.

(** C20: a restore and the cluster controller do not agree on the replicas.  The pass that
    starts a restore writes the StatefulSet with zero replicas; the next pass of the cluster
    controller that comes to the StatefulSet and reads it as it was stored - before the
    restore's Jobs are made or while they run - writes it back with the replicas of the
    spec. *)
Theorem restore_scale_undone c r h t o s s' u o' :
  exec (handleScaleDown c r) t o → Some s ∈ (λ x, written_sts (entry_ev x)) <$> t →
  sts_Replicas s' = sts_Replicas s →
  sts_PodManagementPolicy s' = sts_PodManagementPolicy (desired_sts c h) →
  exec (reconcileStatefulSet c h)
    (@Entry Ev Ans (Get KStatefulSet (cl_Namespace c) (StatefulSetName c)) (inr s') :: u) o' →
  sts_Replicas s' = Some 0%Z ∧
  ∃ s'' a, u = [@Entry Ev Ans (Update KStatefulSet s'') a] ∧ sts_Replicas s'' = Some (spec_replicas c).
Proof.
  intros He Hs Hr Hp Hu. split; [|by eapply replicas_set_back].
  apply scale_down_writes_zero in He. rewrite Forall_forall in He.
  apply list_elem_of_fmap in Hs as (x & Hx & Hin). rewrite Hr. exact (He x Hin s (eq_sym Hx)).
Qed.

(** A cluster named after another's proxy has its Service in common with it: one Service
    cannot be what both want, so the two take turns at writing it. *)
Lemma service_shared c c' o :
  cl_Name c' = cl_Name c +:+ "-proxy" →
  ClientServiceName c' = ProxyServiceName c ∧
  ¬ (service_wanted (BuildClientService c') o ∧ service_wanted (BuildProxyService c) o).
Proof.
  intros Hn. split; [exact Hn|]. intros [(s & -> & Hs & _) (s' & [= <-] & Hs' & _)].
  rewrite Hs in Hs'. by apply (f_equal (λ m, m !! "app.kubernetes.io/component")) in Hs'.
Qed.
End Conflicts.

(** ** Witness *)

Definition conflict_cluster : HyperbytedbCluster := demo_cluster 3 None.
Definition stored : StatefulSet :=
  mkSts (demo_meta "db") (Some 0%Z) "" ∅ (sts_PodManagementPolicy (desired_sts conflict_cluster "h")) None
    demo_template [] zero_sts_status.
Definition conflict_world : World :=
  mkWorld 5%Z (λ k _, match k with KStatefulSet => Some stored | _ => None end) [] (λ _, mkRsp 200 None).

Lemma restore_scale_undone_witness :
  let q := reconcileStatefulSet conflict_cluster "h" in
  ∃ s'' a, tail (trace_of conflict_world q) = [@Entry Ev Ans (Update KStatefulSet s'') a] ∧
           sts_Replicas s'' = Some 3%Z.
Proof.
  cbv zeta.
  set (t := trace_of conflict_world (handleScaleDown conflict_cluster (demo_restore RestorePhaseNone))).
  assert (∃ s, Some s ∈ (λ x, written_sts (entry_ev x)) <$> t ∧ sts_Replicas stored = sts_Replicas s)
    as (s & Hs & Hr) by (eexists; split; [vm_compute; right; left|reflexivity]).
  apply (restore_scale_undone conflict_cluster (demo_restore RestorePhaseNone) "h" t _ s stored
           (tail (trace_of conflict_world (reconcileStatefulSet conflict_cluster "h"))) _
           (world_exec _ _) Hs Hr eq_refl (world_exec conflict_world (reconcileStatefulSet conflict_cluster "h"))).
Defined.
