(* ===== verification/Memory.v ===== *)
(** Go's memory, as far as the generated copy functions see it: objects, pointers,
    slices and maps, and the statements those functions are made of.

    The rest of the library has a custom resource as a value ([ApiTypes.v]): a pointer
    field is an [option], a slice a [list].  Here the same objects are laid out in a
    heap, where two of them can share a part. *)

From S2P Require Import Prelude.
#[local] Set Warnings "-register-all".

(** ** Values, addresses and the heap *)

Definition loc : Type := positive.

(** A step into an object: a field of a struct, an element of an array. *)
Inductive sel := Field (f : string) | Index (i : nat).

(** An address: an object of the heap and a path to a part of it, as in
    [&out.Spec.Members[3]]. *)
Record addr := mkAddr { root : loc; path : list sel }.

Inductive lit := LInt (z : Z) | LString (s : string) | LBool (b : bool).

Inductive val :=
  | VLit (b : lit)
  | VNil                                   (* a nil pointer, slice or map *)
  | VPtr (p : addr)
  | VSlice (p : addr) (off len : nat)      (* a window of the array at [p] *)
  | VMap (l : loc)
  | VStruct (fs : list (string * val))
  | VArray (vs : list val).

(** An object of the heap: a variable, or the table of a [map[string]string]. *)
Inductive cell := Obj (v : val) | Mapping (m : gmap string string).

Abbreviation heap := (gmap loc cell).

Definition is_nil (v : val) : bool := match v with VNil => true | _ => false end.

(** *** Paths *)

Fixpoint assoc {A} (k : string) (l : list (string * A)) : option A :=
  match l with
  | [] => None
  | (k', a) :: l => if String.eqb k k' then Some a else assoc k l
  end.

Fixpoint set_assoc {A} (k : string) (a : A) (l : list (string * A)) : option (list (string * A)) :=
  match l with
  | [] => None
  | (k', b) :: l =>
      if String.eqb k k' then Some ((k', a) :: l) else cons (k', b) <$> set_assoc k a l
  end.

Definition sel_read (s : sel) (v : val) : option val :=
  match s, v with
  | Field f, VStruct fs => assoc f fs
  | Index i, VArray vs => vs !! i
  | _, _ => None
  end.

Definition sel_write (s : sel) (v w : val) : option val :=
  match s, v with
  | Field f, VStruct fs => VStruct <$> set_assoc f w fs
  | Index i, VArray vs => if decide (i < length vs) then Some (VArray (<[i:=w]> vs)) else None
  | _, _ => None
  end.

Fixpoint read_path (π : list sel) (v : val) : option val :=
  match π with [] => Some v | s :: π => sel_read s v ≫= read_path π end.

Fixpoint write_path (π : list sel) (v w : val) : option val :=
  match π with
  | [] => Some w
  | s :: π => u ← sel_read s v; u' ← write_path π u w; sel_write s v u'
  end.

Definition deeper (p : addr) (s : sel) : addr := mkAddr (root p) (path p ++ [s]).

Definition load (h : heap) (p : addr) : option val :=
  match h !! root p with Some (Obj v) => read_path (path p) v | _ => None end.

Definition store (h : heap) (p : addr) (w : val) : option heap :=
  match h !! root p with
  | Some (Obj v) => v' ← write_path (path p) v w; Some (<[root p := Obj v']> h)
  | _ => None
  end.

(** ** Types *)

(** The types of other modules the custom resources are made of.  Their layout is not
    read; what is in a value of one is a parameter. *)
Inductive foreign :=
  | TypeMeta | ObjectMeta | ListMeta | Condition | Time | Quantity | LocalObjectReference
  | ResourceRequirements | Affinity | TopologySpreadConstraint | Toleration | Volume
  | VolumeMount | IntOrString.

(** Those without a pointer, slice or map in them. *)
Definition flat (n : foreign) : bool :=
  match n with TypeMeta | LocalObjectReference | IntOrString => true | _ => false end.

(** [TStrMap] is [map[string]string], the only map type of the custom resources. *)
Inductive ty :=
  | TInt | TString | TBool
  | TForeign (n : foreign)
  | TPtr (t : ty) | TSlice (t : ty) | TStrMap
  | TStruct (fs : list (string * ty)).

(** What is in a value, with all it points to and nothing about where it is: two
    values with the same [data] are [reflect.DeepEqual]. *)
Inductive data (F : Type) :=
  | DLit (b : lit) | DForeign (f : F) | DNil
  | DPtr (d : data F) | DSlice (ds : list (data F)) | DMap (m : gmap string string)
  | DStruct (ds : list (string * data F)).
Arguments DLit {_} _.
Arguments DForeign {_} _.
Arguments DNil {_}.
Arguments DPtr {_} _.
Arguments DSlice {_} _.
Arguments DMap {_} _.
Arguments DStruct {_} _.

(** The types of other modules: what a value of one holds, which can only depend on
    the objects it reaches, and its zero value. *)
Class Foreign := {
  fdata : Type;
  fcontent : foreign → heap → val → option fdata;
  fzero : foreign → val;
  fcontent_mono n h h' v d : h ⊆ h' → fcontent n h v = Some d → fcontent n h' v = Some d;
  flat_content n h h' v : flat n → fcontent n h v = fcontent n h' v }.

Section Content.
Context `{Foreign}.

Definition zero : ty → val :=
  fix go t :=
    match t with
    | TInt => VLit (LInt 0) | TString => VLit (LString "") | TBool => VLit (LBool false)
    | TForeign n => fzero n
    | TPtr _ | TSlice _ | TStrMap => VNil
    | TStruct fs => VStruct ((λ '(k, t), (k, go t)) <$> fs)
    end.

Definition in_window (off len : nat) (v : val) : option (list val) :=
  match v with
  | VArray vs => if decide (off + len ≤ length vs) then Some (take len (drop off vs)) else None
  | _ => None
  end.

(** The fields of a struct, in the order of its type. *)
Fixpoint fields_content {D} (c : ty → val → option D) (fs : list (string * ty))
    (ws : list (string * val)) : option (list (string * D)) :=
  match fs, ws with
  | [], [] => Some []
  | (k, t) :: fs, (k', w) :: ws =>
      if String.eqb k k' then d ← c t w; ds ← fields_content c fs ws; Some ((k, d) :: ds)
      else None
  | _, _ => None
  end.

(** The content of a value of type [t], when it is one: every pointer leads to an
    object of the right type. *)
Fixpoint content (h : heap) (t : ty) (v : val) {struct t} : option (data fdata) :=
  match t, v with
  | TInt, VLit (LInt z) => Some (DLit (LInt z))
  | TString, VLit (LString s) => Some (DLit (LString s))
  | TBool, VLit (LBool b) => Some (DLit (LBool b))
  | TForeign n, v => DForeign <$> fcontent n h v
  | TPtr _, VNil | TSlice _, VNil | TStrMap, VNil => Some DNil
  | TPtr t, VPtr p => w ← load h p; DPtr <$> content h t w
  | TSlice t, VSlice p off len =>
      w ← load h p; ws ← in_window off len w; DSlice <$> mapM (content h t) ws
  | TStrMap, VMap l => match h !! l with Some (Mapping m) => Some (DMap m) | _ => None end
  | TStruct fs, VStruct ws => DStruct <$> fields_content (content h) fs ws
  | _, _ => None
  end.

(** Types without a reference in them: a shallow copy is a copy. *)
Fixpoint plain (t : ty) : bool :=
  match t with
  | TInt | TString | TBool => true
  | TForeign n => flat n
  | TPtr _ | TSlice _ | TStrMap => false
  | TStruct fs => forallb (λ '(_, t), plain t) fs
  end.
End Content.

(** ** Statements *)

(** A computation on the heap; [None] is a run-time panic. *)
Definition mem (A : Type) : Type := heap → option (A * heap).

#[export] Instance mem_ret : MRet mem := λ A a h, Some (a, h).
#[export] Instance mem_bind : MBind mem := λ A B f m h, m h ≫= λ '(a, h), f a h.

Definition load_ (p : addr) : mem val := λ h, v ← load h p; Some (v, h).
Definition store_ (p : addr) (v : val) : mem unit := λ h, h' ← store h p v; Some (tt, h').
Definition alloc (c : cell) : mem loc := λ h, let l := fresh (dom h) in Some (l, <[l:=c]> h).

Definition pointer (v : val) : mem addr :=
  λ h, match v with VPtr p => Some (p, h) | _ => None end.

(** [len] of a slice, and the address of an element: out of range is a panic. *)
Definition slice_len (v : val) : nat := match v with VSlice _ _ n => n | _ => 0 end.
Definition element (v : val) (i : nat) : mem addr :=
  λ h, match v with
       | VSlice p off len => if decide (i < len) then Some (deeper p (Index (off + i)), h) else None
       | _ => None
       end.

Fixpoint for_each_ {A} (l : list A) (f : A → mem unit) : mem unit :=
  match l with [] => mret tt | a :: l => _ ← f a; for_each_ l f end.

(** [for key, val := range m]: the language leaves the order open. *)
Class RangeOrder := {
  range_of : gmap string string → list (string * string);
  range_of_perm m : range_of m ≡ₚ map_to_list m }.

Definition map_entries `{RangeOrder} (v : val) : mem (list (string * string)) :=
  λ h, match v with
       | VNil => Some ([], h)
       | VMap l => match h !! l with Some (Mapping m) => Some (range_of m, h) | _ => None end
       | _ => None
       end.

(** [m[k] = x]; a write into a nil map is a panic. *)
Definition map_set (v : val) (k x : string) : mem unit :=
  λ h, match v with
       | VMap l => match h !! l with
                   | Some (Mapping m) => Some (tt, <[l := Mapping (<[k:=x]> m)]> h)
                   | _ => None
                   end
       | _ => None
       end.

(** A statement about a source and a destination, [in] and [out]. *)
Definition stmt : Type := addr → addr → mem unit.

Section Statements.
Context `{Foreign} `{RangeOrder}.

(** [*out = *in] *)
Definition assign : stmt := λ inp out, v ← load_ inp; store_ out v.

(** [if in.X != nil { in, out := &in.X, &out.X; s }], at the field's addresses. *)
Definition if_set (s : stmt) : stmt :=
  λ inp out, v ← load_ inp; if is_nil v then mret tt else s inp out.

(** [*out = new(T); s( *in, *out)], where [s] is [( *in).DeepCopyInto( *out)] or, with
    [assign], [**out = **in]. *)
Definition new_ (t : ty) (s : stmt) : stmt := λ inp out,
  l ← alloc (Obj (zero t));
  _ ← store_ out (VPtr (mkAddr l []));
  v ← load_ inp; p ← pointer v;
  w ← load_ out; q ← pointer w;
  s p q.

(** [*out = make([]T, len( *in)); for i := range *in { s(&( *in)[i], &( *out)[i]) }], or
    with [assign] the loop of [copy( *out, *in)]. *)
Definition new_slice (t : ty) (s : stmt) : stmt := λ inp out,
  v ← load_ inp;
  l ← alloc (Obj (VArray (replicate (slice_len v) (zero t))));
  _ ← store_ out (VSlice (mkAddr l []) 0 (slice_len v));
  for_each_ (seq 0 (slice_len v)) (λ i,
    v ← load_ inp; p ← element v i;
    w ← load_ out; q ← element w i;
    s p q).

(** [*out = make(map[string]string, len( *in)); for key, val := range *in { ( *out)[key] = val }] *)
Definition new_map : stmt := λ inp out,
  l ← alloc (Mapping ∅);
  _ ← store_ out (VMap l);
  v ← load_ inp;
  es ← map_entries v;
  for_each_ es (λ '(key, val), w ← load_ out; map_set w key val).

(** [*out = ( *in).DeepCopy()] *)
Definition copied (f : val → mem val) : stmt := λ inp out,
  v ← load_ inp; w ← f v; store_ out w.

(** The body of a [DeepCopyInto]: [*out = *in], then the statements for some fields. *)
Definition field (k : string) (s : stmt) : stmt :=
  λ inp out, s (deeper inp (Field k)) (deeper out (Field k)).
Definition copy_struct (steps : list (string * stmt)) : stmt := λ inp out,
  _ ← assign inp out;
  for_each_ steps (λ '(k, s), field k s inp out).

(** [if in == nil { return nil }; out := new(T); in.DeepCopyInto(out); return out] *)
Definition DeepCopy_of (t : ty) (into : stmt) (inp : val) : mem val :=
  if is_nil inp then mret VNil
  else
    l ← alloc (Obj (zero t));
    p ← pointer inp;
    _ ← into p (mkAddr l []);
    mret (VPtr (mkAddr l [])).

(** [if c := in.DeepCopy(); c != nil { return c }; return nil]: an interface value is
    nil, or a type with a value. *)
Definition DeepCopyObject_of (t : ty) (copy : val → mem val) (inp : val) : mem (option (ty * val)) :=
  c ← copy inp; mret (if is_nil c then None else Some (t, c)).
End Statements.
