(* ===== verification/MemoryProofs.v ===== *)
(** Reading and writing through addresses, the content of values, and what it takes for
    a statement to copy: the lemmas about [Memory.v]. *)

From S2P Require Import Prelude Memory.

(** ** Paths *)

Lemma assoc_elem {A} k (a : A) l : assoc k l = Some a → (k, a) ∈ l.
Proof.
  induction l as [|[j b] l IH]; cbn; [done|].
  destruct (String.eqb_spec k j) as [->|]; [intros [= ->]|intros ?%IH]; set_solver.
Qed.

Lemma assoc_key {A} k (a : A) l : assoc k l = Some a → k ∈ l.*1.
Proof. intros Ha%assoc_elem. by apply (list_elem_of_fmap_2 fst) in Ha. Qed.

Lemma set_assoc_Some {A} k (a b : A) l : assoc k l = Some b → ∃ l', set_assoc k a l = Some l'.
Proof.
  induction l as [|[k' c] l IH]; cbn; [done|]. case_match; [by eauto|].
  intros [l' ->]%IH. cbn. eauto.
Qed.

Lemma set_assoc_lookup {A} k (a : A) l l' k' :
  set_assoc k a l = Some l' → assoc k' l' = if String.eqb k' k then Some a else assoc k' l.
Proof.
  revert l'. induction l as [|[j c] l IH]; cbn; [done|]. intros l'.
  destruct (String.eqb_spec k j) as [->|Hj]; [intros [= <-]|intros (l1 & ? & ->)%fmap_Some];
    cbn; [by case_match|].
  rewrite (IH l1) by done.
  destruct (String.eqb_spec k' j) as [->|]; [|done].
  by destruct (String.eqb_spec j k) as [->|].
Qed.

Lemma set_assoc_keys {A} k (a : A) l l' : set_assoc k a l = Some l' → l'.*1 = l.*1.
Proof.
  revert l'. induction l as [|[j c] l IH]; cbn; [done|]. intros l'.
  case_match; [by intros [= <-]|]. intros (l1 & ? & ->)%fmap_Some. cbn. by rewrite (IH l1).
Qed.

Lemma set_assoc_twice {A} k (a b : A) l l' :
  set_assoc k a l = Some l' → set_assoc k b l' = set_assoc k b l.
Proof.
  revert l'. induction l as [|[j c] l IH]; cbn; [done|]. intros l'.
  case_match eqn:Hk; [intros [= <-]|intros (l1 & Hl & ->)%fmap_Some]; cbn; rewrite Hk; [done|].
  by rewrite (IH l1 Hl).
Qed.

Lemma set_assoc_same {A} k (a : A) l : assoc k l = Some a → set_assoc k a l = Some l.
Proof.
  induction l as [|[j c] l IH]; cbn; [done|]. case_match; [by intros [= ->]|].
  by intros ->%IH.
Qed.

Lemma sel_write_Some s v u w : sel_read s v = Some u → ∃ v', sel_write s v w = Some v'.
Proof.
  destruct s, v; cbn; try done.
  - intros [l' ->]%(set_assoc_Some _ w). cbn. eauto.
  - intros ?%lookup_lt_Some. rewrite decide_True by done. eauto.
Qed.

Lemma sel_read_write s v w v' : sel_write s v w = Some v' → sel_read s v' = Some w.
Proof.
  destruct s, v; cbn; try done.
  - intros (l' & Hl & ->)%fmap_Some. cbn. by rewrite (set_assoc_lookup _ _ _ _ _ Hl), String.eqb_refl.
  - case_decide; [|done]. intros [= <-]. cbn. by apply list_lookup_insert_eq.
Qed.

Lemma sel_write_write s v w v' w' : sel_write s v w = Some v' → sel_write s v' w' = sel_write s v w'.
Proof.
  destruct s, v; cbn; try done.
  - intros (l' & Hl & ->)%fmap_Some. cbn. by rewrite (set_assoc_twice _ _ _ _ _ Hl).
  - case_decide; [|done]. intros [= <-]. cbn. rewrite length_insert, list_insert_insert_eq.
    by case_decide.
Qed.

Lemma sel_write_same s v u : sel_read s v = Some u → sel_write s v u = Some v.
Proof.
  destruct s, v; cbn; try done.
  - by intros ->%set_assoc_same.
  - intros Hu. rewrite decide_True by (by apply lookup_lt_Some in Hu).
    by rewrite list_insert_id.
Qed.

Lemma sel_write_index i vs w :
  i < length vs → sel_write (Index i) (VArray vs) w = Some (VArray (<[i:=w]> vs)).
Proof. intros Hi. unfold sel_write. by rewrite decide_True. Qed.

Lemma read_path_snoc π s v : read_path (π ++ [s]) v = read_path π v ≫= sel_read s.
Proof.
  revert v. induction π as [|s' π IH]; intros v; cbn; [by destruct (sel_read s v)|].
  destruct (sel_read s' v); cbn; [apply IH|done].
Qed.

Lemma write_path_snoc π s v w :
  write_path (π ++ [s]) v w = u ← read_path π v; u' ← sel_write s u w; write_path π v u'.
Proof.
  revert v. induction π as [|s' π IH]; intros v; cbn.
  - destruct (sel_read s v) eqn:Hr; cbn; [by destruct (sel_write s v w)|].
    destruct s, v; cbn in *; try done.
    + destruct (set_assoc f w fs) eqn:Hs; [|done].
      apply set_assoc_lookup with (k' := f) in Hs as Hf. revert Hr Hs. clear.
      intros Hr Hs. exfalso. revert l Hs. induction fs as [|[k a] fs IH]; [done|].
      cbn in *. case_match; [done|]. intros l (l1 & Hl & _)%fmap_Some. by eapply IH.
    + rewrite decide_False; [done|]. by apply Nat.le_ngt, lookup_ge_None.
  - destruct (sel_read s' v) as [u|]; cbn; [|done]. rewrite IH.
    destruct (read_path π u) as [x|]; cbn; [|done]. by destruct (sel_write s x w).
Qed.

Lemma write_path_Some π v u w : read_path π v = Some u → ∃ v', write_path π v w = Some v'.
Proof.
  revert v. induction π as [|s π IH]; intros v; cbn; [eauto|].
  destruct (sel_read s v) as [x|] eqn:Hx; cbn; [|done]. intros [x' ->]%IH. cbn.
  by eapply sel_write_Some.
Qed.

Lemma read_path_write π v w v' : write_path π v w = Some v' → read_path π v' = Some w.
Proof.
  revert v v'. induction π as [|s π IH]; intros v v'; cbn; [by intros [= ->]|].
  destruct (sel_read s v) as [x|]; cbn; [|done].
  destruct (write_path π x w) as [x'|] eqn:Hx; cbn; [|done].
  intros ->%sel_read_write. cbn. by eapply IH.
Qed.

Lemma write_path_write π v w v' w' :
  write_path π v w = Some v' → write_path π v' w' = write_path π v w'.
Proof.
  revert v v'. induction π as [|s π IH]; intros v v'; cbn; [done|].
  destruct (sel_read s v) as [x|]; cbn; [|done].
  destruct (write_path π x w) as [x'|] eqn:Hx; cbn; [|done].
  intros Hv. rewrite (sel_read_write _ _ _ _ Hv). cbn. rewrite (IH _ _ Hx).
  destruct (write_path π x w'); cbn; [|done]. by rewrite (sel_write_write _ _ _ _ _ Hv).
Qed.

Lemma write_path_same π v u : read_path π v = Some u → write_path π v u = Some v.
Proof.
  revert v. induction π as [|s π IH]; intros v; cbn; [by intros [= ->]|].
  destruct (sel_read s v) as [x|] eqn:Hx; cbn; [|done]. intros ->%IH. cbn.
  by apply sel_write_same.
Qed.

(** ** The heap *)

Lemma load_mono h h' p v : h ⊆ h' → load h p = Some v → load h' p = Some v.
Proof.
  unfold load. intros Hs. destruct (h !! root p) as [c|] eqn:Hc; [|done].
  by rewrite (lookup_weaken _ _ _ _ Hc Hs).
Qed.

Lemma load_deeper h p s : load h (deeper p s) = load h p ≫= sel_read s.
Proof. unfold load. cbn. repeat case_match; try done. apply read_path_snoc. Qed.

Lemma store_deeper h p s w :
  store h (deeper p s) w = u ← load h p; u' ← sel_write s u w; store h p u'.
Proof.
  unfold store, load. cbn. destruct (h !! root p) as [[v|]|]; [|done|done].
  rewrite write_path_snoc. destruct (read_path (path p) v) as [u|]; cbn; [|done].
  by destruct (sel_write s u w).
Qed.

Lemma store_Some h p u w : load h p = Some u → ∃ h', store h p w = Some h'.
Proof.
  unfold load, store. repeat case_match; try done. intros [v' ->]%(write_path_Some _ _ _ w).
  cbn. eauto.
Qed.

(** What a write does to the heap. *)
Lemma store_inv h p w h' : store h p w = Some h' →
  ∃ v v', h !! root p = Some (Obj v) ∧ write_path (path p) v w = Some v' ∧
    h' = <[root p := Obj v']> h.
Proof.
  unfold store. destruct (h !! root p) as [[v|]|]; try done.
  destruct (write_path (path p) v w) eqn:Hw; cbn; [|done]. intros [= <-]. eauto.
Qed.

Lemma load_store h p w h' : store h p w = Some h' → load h' p = Some w.
Proof.
  intros (v & v' & Hv & Hw & ->)%store_inv. unfold load. rewrite lookup_insert_eq.
  by eapply read_path_write.
Qed.

Lemma store_store h p w h' w' : store h p w = Some h' → store h' p w' = store h p w'.
Proof.
  intros (v & v' & Hv & Hw & ->)%store_inv. unfold store. rewrite lookup_insert_eq, Hv.
  rewrite (write_path_write _ _ _ _ _ Hw). destruct (write_path _ v w'); cbn; [|done].
  by rewrite insert_insert_eq.
Qed.

Lemma store_same h p u : load h p = Some u → store h p u = Some h.
Proof.
  unfold load, store. destruct (h !! root p) as [[v|]|] eqn:Hp; try done.
  intros ->%write_path_same. cbn. by rewrite insert_id.
Qed.

Lemma store_dom h p w h' : store h p w = Some h' → dom h' = dom h.
Proof.
  intros (v & v' & Hv & _ & ->)%store_inv. apply set_eq. intros l.
  rewrite !elem_of_dom. rewrite lookup_insert. case_decide; subst; naive_solver.
Qed.

Lemma store_disjoint h p w h' hx : store h p w = Some h' → hx ##ₘ h ↔ hx ##ₘ h'.
Proof. intros Hd%store_dom. rewrite !map_disjoint_dom. by rewrite Hd. Qed.

Lemma store_union h p w h' hx : store h p w = Some h' → store (h ∪ hx) p w = Some (h' ∪ hx).
Proof.
  intros (v & v' & Hv & Hw & ->)%store_inv. unfold store.
  rewrite (lookup_union_Some_l _ _ _ _ Hv), Hw. cbn. by rewrite insert_union_l.
Qed.

Lemma load_store_ne h p q w h' : store h p w = Some h' → root q ≠ root p → load h' q = load h q.
Proof.
  intros (v & v' & _ & _ & ->)%store_inv Hq. unfold load. by rewrite lookup_insert_ne by done.
Qed.

(** ** After a copy

    [after h o w hx h']: [h'] is [h] with [w] written at [o] and, beside it, the new
    objects [hx]. *)

Definition after (h : heap) (o : addr) (w : val) (hx h' : heap) : Prop :=
  ∃ h1, store h o w = Some h1 ∧ hx ##ₘ h ∧ h' = h1 ∪ hx.

Lemma after_load h o w hx h' : after h o w hx h' → load h' o = Some w.
Proof.
  intros (h1 & H1%load_store & _ & ->). by eapply load_mono; [apply map_union_subseteq_l|].
Qed.

Lemma after_other h o w hx h' p v :
  after h o w hx h' → root p ≠ root o → load h p = Some v → load h' p = Some v.
Proof.
  intros (h1 & H1 & _ & ->) Hp Hv. eapply load_mono; [apply map_union_subseteq_l|].
  by rewrite (load_store_ne _ _ _ _ _ H1 Hp).
Qed.

Lemma after_sub h o w hx h' hi : after h o w hx h' → hi ⊆ h → hi !! root o = None → hi ⊆ h'.
Proof.
  intros (h1 & (v & v' & _ & _ & ->)%store_inv & _ & ->) Hs Ho.
  etransitivity; [|apply map_union_subseteq_l].
  apply map_subseteq_spec. intros l c Hc. rewrite lookup_insert_ne by congruence.
  by eapply lookup_weaken.
Qed.

Lemma after_new_sub h o w hx h' : after h o w hx h' → hx ⊆ h'.
Proof.
  intros (h1 & H1 & Hd & ->). apply map_union_subseteq_r.
  by apply (store_disjoint _ _ _ _ _ H1), symmetry in Hd.
Qed.

(** A part of what was written is written anew. *)
Lemma after_deeper h o v hx h' s w v' hx' h'' :
  after h o v hx h' → sel_write s v w = Some v' → after h' (deeper o s) w hx' h'' →
  after h o v' (hx ∪ hx') h'' ∧ hx ##ₘ hx'.
Proof.
  intros Ha Hv (h2 & H2 & Hd' & ->). rewrite store_deeper, (after_load _ _ _ _ _ Ha) in H2.
  cbn in H2. rewrite Hv in H2. cbn in H2. destruct Ha as (h1 & H1 & Hd & ->).
  apply map_disjoint_union_r in Hd' as [Hd1 Hd2].
  destruct (store_Some h1 o v v' (load_store _ _ _ _ H1)) as [h3 H3].
  rewrite (store_union _ _ _ _ hx H3) in H2. injection H2 as <-. split; [|done].
  rewrite (store_store _ _ _ _ _ H1) in H3. exists h3. split; [done|].
  rewrite map_union_assoc, (map_disjoint_union_l hx hx' h).
  by rewrite (store_disjoint _ _ _ _ hx' H1).
Qed.

(** An object made for the copy is part of it. *)
Lemma after_alloc h o w h1 l v0 v hx h' :
  store h o w = Some h1 → h !! l = None →
  after (<[l:=Obj v0]> h1) (mkAddr l []) v hx h' → after h o w (<[l:=Obj v]> hx) h'.
Proof.
  intros H1 Hl (h2 & (? & ? & _ & Hv & ->)%store_inv & Hd & ->). cbn in *.
  injection Hv as <-. rewrite insert_insert_eq.
  apply map_disjoint_insert_r in Hd as [Hx Hd]. exists h1. split; [done|].
  assert (hx ##ₘ h) by by apply (store_disjoint _ _ _ _ _ H1).
  split; [by apply map_disjoint_insert_l_2|].
  rewrite <-insert_union_l, insert_union_r; [done|].
  by rewrite <-(not_elem_of_dom), (store_dom _ _ _ _ H1), not_elem_of_dom.
Qed.

Lemma store_alloc h o w h1 l c :
  store h o w = Some h1 → h !! l = None → store (<[l:=c]> h) o w = Some (<[l:=c]> h1).
Proof.
  intros (v & v' & Hv & Hw & ->)%store_inv Hl. unfold store.
  assert (root o ≠ l) by congruence.
  rewrite lookup_insert_ne, Hv, Hw by done. cbn. by rewrite insert_insert_ne.
Qed.

(** ** Content *)

Section Content.
Context `{Foreign}.

Lemma ty_nested_ind (Q : ty → Prop) :
  Q TInt → Q TString → Q TBool → (∀ n, Q (TForeign n)) → (∀ t, Q t → Q (TPtr t)) →
  (∀ t, Q t → Q (TSlice t)) → Q TStrMap → (∀ fs, Forall (λ kt, Q kt.2) fs → Q (TStruct fs)) →
  ∀ t, Q t.
Proof.
  intros Hi Hs Hb Hf Hp Hsl Hm Hst. fix IH 1. intros [| | |n|t|t| |fs];
    [exact Hi|exact Hs|exact Hb|apply Hf|apply Hp, IH|apply Hsl, IH|exact Hm|].
  apply Hst. induction fs as [|[k t] fs IHf]; constructor; [apply IH|exact IHf].
Qed.

(** Two ways to read a value that agree on its parts. *)
Lemma fields_content_impl {D} (c c' : ty → val → option D) fs ws ds :
  Forall (λ kt, ∀ w d, c kt.2 w = Some d → c' kt.2 w = Some d) fs →
  fields_content c fs ws = Some ds → fields_content c' fs ws = Some ds.
Proof.
  intros Hf. revert ws ds. induction Hf as [|[k t] fs Ht Hf IH]; intros [|[k' w] ws] ds; cbn;
    try done. case_match; [|done].
  intros (d & Hd & (ds' & Hds & [= <-])%bind_Some)%bind_Some.
  cbn in Ht. by rewrite (Ht _ _ Hd); cbn; rewrite (IH _ _ Hds).
Qed.

Lemma fields_content_keys {D} (c : ty → val → option D) fs ws ds :
  fields_content c fs ws = Some ds → ws.*1 = fs.*1 ∧ ds.*1 = fs.*1.
Proof.
  revert ws ds. induction fs as [|[k t] fs IH]; intros [|[k' w] ws] ds; cbn; try done.
  - by intros [= <-].
  - destruct (String.eqb_spec k k') as [->|]; [|done].
    intros (d & _ & (ds' & Hds & [= <-])%bind_Some)%bind_Some. cbn.
    by destruct (IH _ _ Hds) as [-> ->].
Qed.

Lemma fields_content_lookup {D} (c : ty → val → option D) fs ws ds k t :
  fields_content c fs ws = Some ds → assoc k fs = Some t →
  ∃ w d, assoc k ws = Some w ∧ assoc k ds = Some d ∧ c t w = Some d.
Proof.
  revert ws ds. induction fs as [|[j u] fs IH]; intros [|[k' w] ws] ds; cbn; try done.
  destruct (String.eqb_spec j k') as [->|]; [|done].
  intros (d & Hd & (ds' & Hds & [= <-])%bind_Some)%bind_Some. cbn.
  case_match; [intros [= ->]; eauto|]. by apply IH.
Qed.

Lemma fields_content_intro {D} (c : ty → val → option D) fs ws ds :
  NoDup fs.*1 → ws.*1 = fs.*1 → ds.*1 = fs.*1 →
  (∀ k t, assoc k fs = Some t →
     ∃ w d, assoc k ws = Some w ∧ assoc k ds = Some d ∧ c t w = Some d) →
  fields_content c fs ws = Some ds.
Proof.
  revert ws ds. induction fs as [|[k t] fs IH]; intros [|[k1 w] ws] [|[k2 d] ds]; cbn; try done.
  intros [Hk Hn]%NoDup_cons [= -> Hws] [= -> Hds] Hall. rewrite String.eqb_refl.
  destruct (Hall k t) as (w' & d' & Hw & Hd & Hc); [by rewrite String.eqb_refl|].
  rewrite String.eqb_refl in Hw, Hd. simplify_eq. rewrite Hc. cbn.
  rewrite (IH ws ds); [done..|]. intros k' t' Ht. specialize (Hall k' t').
  destruct (String.eqb_spec k' k) as [->|]; [|by apply Hall].
  by apply assoc_key in Ht.
Qed.

Lemma content_mono h h' t : h ⊆ h' → ∀ v d, content h t v = Some d → content h' t v = Some d.
Proof.
  intros Hs. induction t using ty_nested_ind; intros v d.
  1-3: by destruct v as [[]| | | | | |].
  - cbn. intros (x & Hx & ->)%fmap_Some. by rewrite (fcontent_mono _ _ _ _ _ Hs Hx).
  - destruct v; try done. cbn. intros (w & Hw & (x & Hx & ->)%fmap_Some)%bind_Some.
    rewrite (load_mono _ _ _ _ Hs Hw). cbn. by rewrite (IHt _ _ Hx).
  - destruct v; try done. cbn.
    intros (w & Hw & (ws & Hws & (x & Hx & ->)%fmap_Some)%bind_Some)%bind_Some.
    rewrite (load_mono _ _ _ _ Hs Hw). cbn. rewrite Hws. cbn.
    apply fmap_Some. exists x. split; [|done]. apply mapM_Some. apply mapM_Some in Hx.
    eapply Forall2_impl; [done|]. intros a b. apply IHt.
  - destruct v; try done. cbn. destruct (h !! l) as [c|] eqn:Hc; [|done].
    by rewrite (lookup_weaken _ _ _ _ Hc Hs).
  - destruct v as [| | | | |ws|]; try done. cbn. intros (x & Hx & ->)%fmap_Some.
    by erewrite fields_content_impl.
Qed.

Lemma content_plain h h' t : plain t → ∀ v d, content h t v = Some d → content h' t v = Some d.
Proof.
  induction t using ty_nested_ind; intros Hp v d; cbn in Hp; try done.
  - cbn. by rewrite (flat_content n h h').
  - destruct v as [| | | | |ws|]; try done. cbn. intros (x & Hx & ->)%fmap_Some.
    erewrite fields_content_impl; [done| |done].
    apply forallb_True in Hp. rewrite Forall_forall in *.
    intros [k t] Hin. by apply (H0 _ Hin), (Hp _ Hin).
Qed.
End Content.

(** ** Running a statement *)

Lemma run_load {A} h p v (f : val → mem A) : load h p = Some v → (load_ p ≫= f) h = f v h.
Proof. intros Hv. cbv [mbind mem_bind load_]. by rewrite Hv. Qed.
Lemma run_store {A} h p w h' (f : unit → mem A) :
  store h p w = Some h' → (store_ p w ≫= f) h = f tt h'.
Proof. intros Hw. cbv [mbind mem_bind store_]. by rewrite Hw. Qed.
Lemma end_store h p w h' : store h p w = Some h' → store_ p w h = Some (tt, h').
Proof. intros Hw. unfold store_. by rewrite Hw. Qed.
Lemma run_alloc {A} h c (f : loc → mem A) :
  (alloc c ≫= f) h = f (fresh (dom h)) (<[fresh (dom h) := c]> h).
Proof. done. Qed.
Lemma run_element {A} h p off len i (f : addr → mem A) :
  i < len → (element (VSlice p off len) i ≫= f) h = f (deeper p (Index (off + i))) h.
Proof. intros Hi. cbv [mbind mem_bind]. unfold element. by rewrite decide_True. Qed.
Lemma run_then {A B} (m : mem A) (f : A → mem B) h a h' : m h = Some (a, h') → (m ≫= f) h = f a h'.
Proof. intros Hm. cbv [mbind mem_bind]. by rewrite Hm. Qed.
Lemma run_pointer {A} h p (f : addr → mem A) : (pointer (VPtr p) ≫= f) h = f p h.
Proof. done. Qed.
