(* ===== verification/Copying.v ===== *)
(** What a copy is, and that the statements of the generated functions make one.

    [CopiesInto t s]: wherever [s] is run on a source that holds a value of type [t] and
    a destination that is not part of it, it writes a value with the same content whose
    objects are all new. *)

From S2P Require Import Prelude Memory MemoryProofs.

Section Copying.
Context `{Fo : Foreign} `{Ro : RangeOrder}.

(** The source is read in a part [hi] of the heap the destination is not in. *)
Definition copies (pre : val → val → Prop) (t : ty) (s : stmt) : Prop :=
  ∀ h hi i o v d w0,
    hi ⊆ h → hi !! root o = None → load hi i = Some v → content hi t v = Some d →
    load h o = Some w0 → pre v w0 →
    ∃ w hx h', s i o h = Some (tt, h') ∧ after h o w hx h' ∧ content hx t w = Some d.

Class CopiesInto (t : ty) (s : stmt) : Prop := copies_into : copies (λ _ _, True) t s.

(** ... when the source is not nil; when the destination holds a shallow copy. *)
Class CopiesSet (t : ty) (s : stmt) : Prop := copies_set : copies (λ v _, is_nil v = false) t s.
Class Completes (t : ty) (s : stmt) : Prop := completes : copies (λ v w0, w0 = v) t s.

(** A function that returns the copy. *)
Class CopiesNew (t : ty) (f : val → mem val) : Prop :=
  copies_new : ∀ h hi v d, hi ⊆ h → content hi t v = Some d →
    ∃ w hx, f v h = Some (w, h ∪ hx) ∧ hx ##ₘ h ∧ content hx t w = Some d.

#[export] Instance into_set t s : CopiesInto t s → CopiesSet t s.
Proof. intros Hs h hi i o v d w0 ? ? ? ? ? _. by eapply Hs. Qed.
#[export] Instance into_completes t s : CopiesInto t s → Completes t s | 5.
Proof. intros Hs h hi i o v d w0 ? ? ? ? ? _. by eapply Hs. Qed.

(** ** The statements *)

(** Nothing is left to do for a nil field. *)
Class Nilable (t : ty) : Prop :=
  nil_content : ∀ h h' d, content h t VNil = Some d → content h' t VNil = Some d.
#[export] Instance ptr_nilable t : Nilable (TPtr t).
Proof. by intros h h'. Qed.
#[export] Instance slice_nilable t : Nilable (TSlice t).
Proof. by intros h h'. Qed.
#[export] Instance map_nilable : Nilable TStrMap.
Proof. by intros h h'. Qed.

#[export] Instance if_set_completes t s : Nilable t → CopiesSet t s → Completes t (if_set s).
Proof.
  intros Hn Hs h hi i o v d w0 Hsub Ho Hv Hd Hw ->.
  unfold if_set. rewrite (run_load _ _ _ _ (load_mono _ _ _ _ Hsub Hv)).
  destruct (is_nil v) eqn:Hi; [|by eapply Hs].
  destruct v; try done. exists VNil, ∅, h. split; [done|]. split; [|by eapply Hn].
  exists h. rewrite map_union_empty. split; [by apply store_same|]. split; [|done].
  apply map_disjoint_empty_l.
Qed.

#[export] Instance assign_into t : TCEq (plain t) true → CopiesInto t assign.
Proof.
  intros Hp h hi i o v d w0 Hsub Ho Hv Hd Hw _. apply TCEq_eq in Hp.
  destruct (store_Some h o w0 v Hw) as [h1 H1].
  exists v, ∅, h1. unfold assign. rewrite (run_load _ _ _ _ (load_mono _ _ _ _ Hsub Hv)).
  split; [by apply end_store|]. split.
  - exists h1. rewrite map_union_empty. split; [done|]. split; [|done]. apply map_disjoint_empty_l.
  - eapply content_plain; [|done]. by rewrite Hp.
Qed.

#[export] Instance copied_into t f : CopiesNew t f → CopiesInto t (copied f).
Proof.
  intros Hf h hi i o v d w0 Hsub Ho Hv Hd Hw _.
  destruct (Hf h hi v d Hsub Hd) as (w & hx & Hr & Hx & Hc).
  destruct (store_Some h o w0 w Hw) as [h1 H1].
  exists w, hx, (h1 ∪ hx). unfold copied.
  rewrite (run_load _ _ _ _ (load_mono _ _ _ _ Hsub Hv)), (run_then _ _ _ _ _ Hr).
  split; [by apply end_store, store_union|]. split; [|done]. by exists h1.
Qed.

(** [*out = <new object>]: the object, and the heap it is filled in. *)
Lemma new_object h o w0 hi c w :
  hi ⊆ h → hi !! root o = None → load h o = Some w0 →
  let l := fresh (dom h) in
  ∃ h1, store h o w = Some h1 ∧ store (<[l:=c]> h) o w = Some (<[l:=c]> h1) ∧
    h !! l = None ∧ hi !! l = None ∧ root o ≠ l ∧ hi ⊆ <[l:=c]> h1 ∧
    load (<[l:=c]> h1) o = Some w.
Proof.
  intros Hsub Ho Hw l. destruct (store_Some h o w0 w Hw) as [h1 H1].
  assert (h !! l = None) as Hl by (apply not_elem_of_dom, is_fresh).
  assert (root o ≠ l) as Hol.
  { intros <-. unfold load in Hw. by rewrite Hl in Hw. }
  pose proof (store_alloc _ _ _ _ _ c H1 Hl) as H2.
  assert (hi !! l = None) as Hil by (by eapply lookup_weaken_None).
  exists h1. do 5 (split; [done|]). split; [|by eapply load_store].
  apply store_inv in H1 as (v1 & v2 & _ & _ & ->).
  apply map_subseteq_spec. intros k x Hk.
  rewrite !lookup_insert_ne by congruence. by eapply lookup_weaken.
Qed.

#[export] Instance new_set t s : CopiesInto t s → CopiesSet (TPtr t) (new_ t s).
Proof.
  intros Hs h hi i o v d w0 Hsub Ho Hv Hd Hw Hn.
  destruct v as [| |p| | | |]; try done. cbn in Hd.
  apply bind_Some in Hd as (v & Hp & (d' & Hd & ->)%fmap_Some).
  set (l := fresh (dom h)).
  destruct (new_object h o w0 hi (Obj (zero t)) (VPtr (mkAddr l [])) Hsub Ho Hw)
    as (h1 & H1 & H2 & Hl & Hil & Hol & Hsub1 & Hlo). fold l in H2, Hl, Hil, Hol, Hsub1, Hlo.
  destruct (Hs (<[l:=Obj (zero t)]> h1) hi p (mkAddr l []) v d' (zero t))
    as (w & hx & h' & Hr & Ha & Hc); try done.
  { unfold load. cbn. by rewrite lookup_insert_eq. }
  exists (VPtr (mkAddr l [])), (<[l:=Obj w]> hx), h'.
  unfold new_. rewrite run_alloc. fold l.
  rewrite (run_store _ _ _ _ _ H2), (run_load _ _ _ _ (load_mono _ _ _ _ Hsub1 Hv)).
  rewrite run_pointer, (run_load _ _ _ _ Hlo).
  rewrite run_pointer. split; [done|].
  split; [by eapply after_alloc|]. cbn. unfold load. cbn. rewrite lookup_insert_eq. cbn.
  destruct Ha as (h2 & _ & [Hx _]%map_disjoint_insert_r & _).
  by rewrite (content_mono _ _ t (insert_subseteq _ _ (Obj w) Hx) _ _ Hc).
Qed.

(** *** Slices *)

(** The elements below [k] are copied. *)
Definition copied_below (hx : heap) t (ws : list val) (ds : list (data fdata)) (k : nat) : Prop :=
  ∀ j, j < k → ∃ w d, ws !! j = Some w ∧ ds !! j = Some d ∧ content hx t w = Some d.

Lemma copied_below_next hx hx' t ws ds k w d :
  copied_below hx t ws ds k → hx ⊆ hx' → k < length ws → ds !! k = Some d →
  content hx' t w = Some d → copied_below hx' t (<[k:=w]> ws) ds (S k).
Proof.
  intros Hk Hsub Hlen Hd Hc j Hj. destruct (decide (j = k)) as [->|Hne].
  - exists w, d. by rewrite list_lookup_insert_eq.
  - destruct (Hk j ltac:(lia)) as (x & e & Hx & He & Hxe). exists x, e.
    rewrite list_lookup_insert_ne by done. eauto using content_mono.
Qed.

Lemma copied_below_all hx t ws ds :
  copied_below hx t ws ds (length ws) → length ws = length ds →
  mapM (content hx t) ws = Some ds.
Proof.
  intros Hk Hlen. apply mapM_Some, Forall2_same_length_lookup. split; [done|].
  intros j w d Hw Hd. destruct (Hk j) as (? & ? & ? & ? & ?); [|congruence].
  by apply lookup_lt_Some in Hw.
Qed.

Section Slices.
Variables (t : ty) (s : stmt) (Hs : CopiesInto t s) (hi hb : heap) (inp o p : addr) (off len : nat).
Variables (l : loc) (vs : list val) (ds : list (data fdata)).
Hypothesis (Hin : load hi inp = Some (VSlice p off len)) (Hp : load hi p = Some (VArray vs)).
Hypothesis (Hil : hi !! l = None) (Hol : root o ≠ l).
Hypothesis Hvs :
  ∀ j, j < len → ∃ v d, vs !! (off + j) = Some v ∧ ds !! j = Some d ∧ content hi t v = Some d.

Let body (i : nat) : mem unit :=
  v ← load_ inp; p ← element v i; w ← load_ o; q ← element w i; s p q.

Lemma slice_loop n : ∀ k ws hx h,
  k + n = len → length ws = len → after hb (mkAddr l []) (VArray ws) hx h → hi ⊆ h →
  load h o = Some (VSlice (mkAddr l []) 0 len) → copied_below hx t ws ds k →
  ∃ ws' hx' h', for_each_ (seq k n) body h = Some (tt, h') ∧ length ws' = len ∧
    after hb (mkAddr l []) (VArray ws') hx' h' ∧ copied_below hx' t ws' ds len.
Proof using Hs Hin Hp Hil Hol Hvs.
  induction n as [|n IH]; intros k ws hx h Hkn Hlen Ha Hsub Ho Hk.
  - assert (k = len) as -> by lia. by exists ws, hx, h.
  - destruct (Hvs k ltac:(lia)) as (v & d & Hv & Hd & Hc).
    destruct (lookup_lt_is_Some_2 ws k ltac:(lia)) as [w0 Hw0].
    destruct (Hs h hi (deeper p (Index (off + k))) (deeper (mkAddr l []) (Index k)) v d w0)
      as (w & hx1 & h1 & Hr & Ha1 & Hc1); try done.
    { by rewrite load_deeper, Hp. }
    { by rewrite load_deeper, (after_load _ _ _ _ _ Ha). }
    destruct (after_deeper _ _ _ _ _ _ _ _ _ _ Ha (sel_write_index k ws w ltac:(lia)) Ha1)
      as [Ha2 Hx].
    destruct (IH (S k) (<[k:=w]> ws) (hx ∪ hx1) h1) as (ws' & hx' & h' & Hr' & Hlen' & Ha' & Hk').
    + lia.
    + by rewrite length_insert.
    + done.
    + exact (after_sub _ _ _ _ _ _ Ha1 Hsub Hil).
    + exact (after_other _ _ _ _ _ _ _ Ha1 Hol Ho).
    + eapply copied_below_next; try done; [apply map_union_subseteq_l|lia|].
      by eapply content_mono; [apply map_union_subseteq_r|].
    + exists ws', hx', h'. split; [|done]. cbn.
      rewrite (run_then _ _ _ tt h1); [done|]. unfold body.
      rewrite (run_load _ _ _ _ (load_mono _ _ _ _ Hsub Hin)), run_element by lia.
      by rewrite (run_load _ _ _ _ Ho), run_element by lia.
Qed.
End Slices.

#[export] Instance slice_set t s : CopiesInto t s → CopiesSet (TSlice t) (new_slice t s).
Proof.
  intros Hs h hi i o v d w0 Hsub Ho Hv Hd Hw Hn.
  destruct v as [| | |p off len| | |]; try done. cbn in Hd.
  apply bind_Some in Hd as (a & Hp & (vs & Hwin & (ds & Hds & ->)%fmap_Some)%bind_Some).
  destruct a as [| | | | | |a]; try done. cbn in Hwin. case_decide as Hle; [|done].
  injection Hwin as <-. apply mapM_Some in Hds.
  assert (length ds = len) as Hlen.
  { apply Forall2_length in Hds. rewrite length_take, length_drop in Hds. lia. }
  set (l := fresh (dom h)). set (zs := replicate len (zero t)).
  destruct (new_object h o w0 hi (Obj (VArray zs)) (VSlice (mkAddr l []) 0 len) Hsub Ho Hw)
    as (h1 & H1 & H2 & Hl & Hil & Hol & Hsub1 & Hlo). fold l in H2, Hl, Hil, Hol, Hsub1, Hlo.
  destruct (slice_loop t s Hs hi (<[l:=Obj (VArray zs)]> h1) i o p off len l a ds Hv Hp Hil Hol)
    with (n := len) (k := 0) (ws := zs) (hx := (∅ : heap)) (h := <[l:=Obj (VArray zs)]> h1)
    as (ws & hx & h' & Hr & Hws & Ha & Hk); try done.
  - intros j Hj. destruct (lookup_lt_is_Some_2 ds j ltac:(lia)) as [e He].
    destruct (Forall2_lookup_r _ _ _ _ _ Hds He) as (x & Hx & Hxe).
    rewrite lookup_take_lt, lookup_drop in Hx by done. eauto.
  - apply length_replicate.
  - eexists. rewrite map_union_empty. split; [|split; [apply map_disjoint_empty_l|done]].
    apply store_same. unfold load. cbn. by rewrite lookup_insert_eq.
  - by intros j Hj%Nat.nlt_0_r.
  - exists (VSlice (mkAddr l []) 0 len), (<[l:=Obj (VArray ws)]> hx), h'.
    unfold new_slice. rewrite (run_load _ _ _ _ (load_mono _ _ _ _ Hsub Hv)), run_alloc.
    fold l. rewrite (run_store _ _ _ _ _ H2). split; [exact Hr|].
    split; [by eapply after_alloc|]. cbn. unfold load. cbn. rewrite lookup_insert_eq. cbn.
    rewrite decide_True by lia. cbn. rewrite drop_0, take_ge by lia.
    destruct Ha as (h2 & _ & [Hx _]%map_disjoint_insert_r & _).
    rewrite (copied_below_all _ t ws ds); [done| |by rewrite Hws].
    intros j Hj. destruct (Hk j ltac:(lia)) as (w & e & ? & ? & ?). exists w, e.
    do 2 (split; [done|]). by eapply content_mono; [apply insert_subseteq|].
Qed.

(** *** Maps *)

Lemma map_loop l o es : root o ≠ l → ∀ acc h,
  h !! l = Some (Mapping acc) → load h o = Some (VMap l) →
  for_each_ es (λ '(key, val), w ← load_ o; map_set w key val) h =
    Some (tt, <[l := Mapping (list_to_map (reverse es) ∪ acc)]> h).
Proof.
  intros Hol. induction es as [|[k x] es IH]; intros acc h Hl Ho; cbn [for_each_].
  - change (list_to_map (reverse [])) with (∅ : gmap string string).
    by rewrite map_empty_union, insert_id.
  - rewrite (run_then _ _ _ tt (<[l:=Mapping (<[k:=x]> acc)]> h)).
    2: { rewrite (run_load _ _ _ _ Ho). cbn. by rewrite Hl. }
    rewrite (IH (<[k:=x]> acc)); [|by rewrite lookup_insert_eq|].
    + rewrite insert_insert_eq, reverse_cons, list_to_map_app. cbn.
      by rewrite <-map_union_assoc, <-insert_union_l, map_empty_union.
    + unfold load in *. by rewrite lookup_insert_ne by done.
Qed.

#[export] Instance map_set_copies : CopiesSet TStrMap new_map.
Proof.
  intros h hi i o v d w0 Hsub Ho Hv Hd Hw Hn.
  destruct v as [| | | |l0| |]; try done. cbn in Hd.
  destruct (hi !! l0) as [[|m]|] eqn:Hm; try done. injection Hd as <-.
  set (l := fresh (dom h)).
  destruct (new_object h o w0 hi (Mapping ∅) (VMap l) Hsub Ho Hw)
    as (h1 & H1 & H2 & Hl & Hil & Hol & Hsub1 & Hlo). fold l in H2, Hl, Hil, Hol, Hsub1, Hlo.
  exists (VMap l), {[l := Mapping m]}, (<[l := Mapping m]> h1).
  unfold new_map. rewrite run_alloc. fold l.
  rewrite (run_store _ _ _ _ _ H2), (run_load _ _ _ _ (load_mono _ _ _ _ Hsub1 Hv)).
  rewrite (run_then (map_entries _) _ _ (range_of m) (<[l:=Mapping ∅]> h1)).
  2: { cbn. by rewrite (lookup_weaken _ _ _ _ Hm Hsub1). }
  split; [|split].
  - rewrite (map_loop l o _ Hol ∅); [|by rewrite lookup_insert_eq|done].
    rewrite map_union_empty, insert_insert_eq.
    rewrite (list_to_map_proper _ (map_to_list m)), list_to_map_to_list; [done| |].
    + rewrite reverse_Permutation, range_of_perm. apply NoDup_fst_map_to_list.
    + by rewrite reverse_Permutation, range_of_perm.
  - exists h1. split; [done|]. split; [by apply map_disjoint_singleton_l|].
    rewrite map_union_comm, insert_union_singleton_l; [done|].
    apply map_disjoint_singleton_r. by rewrite <-not_elem_of_dom, (store_dom _ _ _ _ H1), not_elem_of_dom.
  - cbn. by rewrite lookup_singleton_eq.
Qed.

(** ** Structs *)

Section Structs.
Variables (fs : list (string * ty)) (vs : list (string * val)) (ds : list (string * data fdata)).

(** The copy so far: a field in [done] is copied, one not in it is as [*out = *in]
    left it - which is a copy too when it has no references. *)
Definition copying (hx : heap) (done : list string) (ws : list (string * val)) : Prop :=
  ws.*1 = fs.*1 ∧
  ∀ k t, assoc k fs = Some t → ∃ w d, assoc k ws = Some w ∧ assoc k ds = Some d ∧
    (k ∈ done ∨ plain t → content hx t w = Some d) ∧ (k ∉ done → assoc k vs = Some w).

Lemma copying_start hi : fields_content (content hi) fs vs = Some ds → copying ∅ [] vs.
Proof.
  intros Hc. split; [exact (proj1 (fields_content_keys _ _ _ _ Hc))|]. intros k t Hk.
  destruct (fields_content_lookup _ _ _ _ _ _ Hc Hk) as (w & d & Hw & Hd & Hwd).
  exists w, d. do 2 (split; [done|]). split; [|done].
  intros [[]%not_elem_of_nil|Hp]. by eapply content_plain.
Qed.

Lemma copying_next hx hx' done ws k t w d ws' :
  copying hx done ws → assoc k fs = Some t → assoc k ds = Some d →
  content hx' t w = Some d → set_assoc k w ws = Some ws' → hx ##ₘ hx' →
  copying (hx ∪ hx') (k :: done) ws'.
Proof.
  intros [Hkeys Hc] Hk Hd Hw Hset Hx. split; [by rewrite (set_assoc_keys _ _ _ _ Hset)|].
  intros j u Hj. rewrite (set_assoc_lookup _ _ _ _ j Hset).
  destruct (String.eqb_spec j k) as [->|Hne].
  - exists w, d. simplify_eq. do 2 (split; [done|]). split; [|set_solver]. intros _.
    by eapply content_mono; [apply map_union_subseteq_r|].
  - destruct (Hc j u Hj) as (x & e & Hx1 & He & Hxe & Hxv). exists x, e.
    do 2 (split; [done|]). split; [|set_solver]. intros Hor.
    eapply content_mono; [apply map_union_subseteq_l|]. apply Hxe. set_solver.
Qed.

Lemma copying_end hx done ws :
  NoDup fs.*1 → ds.*1 = fs.*1 → copying hx done ws →
  (∀ k t, assoc k fs = Some t → k ∈ done ∨ plain t) →
  fields_content (content hx) fs ws = Some ds.
Proof.
  intros Hn Hds [Hkeys Hc] Hall. apply fields_content_intro; try done.
  intros k t Hk. destruct (Hc k t Hk) as (w & d & Hw & Hd & Hwd & _).
  exists w, d. do 2 (split; [done|]). apply Hwd, (Hall _ _ Hk).
Qed.

(** A statement for a field of the struct. *)
Definition completes_field (ks : string * stmt) : Prop :=
  ∃ t, assoc ks.1 fs = Some t ∧ Completes t ks.2.

Lemma steps_loop h hi i o steps :
  hi ⊆ h → hi !! root o = None → load hi i = Some (VStruct vs) →
  fields_content (content hi) fs vs = Some ds → Forall completes_field steps →
  ∀ done ws hx h', NoDup steps.*1 → (∀ k, k ∈ steps.*1 → k ∉ done) →
    after h o (VStruct ws) hx h' → copying hx done ws →
    ∃ ws' hx' h'', for_each_ steps (λ '(k, s), field k s i o) h' = Some (tt, h'') ∧
      after h o (VStruct ws') hx' h'' ∧ copying hx' (reverse steps.*1 ++ done) ws'.
Proof.
  intros Hsub Ho Hv Hc Hsteps.
  induction Hsteps as [|[k s] steps (t & Hk & Hs) _ IH];
    intros done ws hx h' Hnd Hnew Ha Hcp; [by exists ws, hx, h'|].
  cbn in Hk, Hs, Hnd, Hnew. apply NoDup_cons in Hnd as [Hks Hnd].
  destruct (fields_content_lookup _ _ _ _ _ _ Hc Hk) as (v & d & Hkv & Hkd & Hvd).
  assert (assoc k ws = Some v) as Hkw.
  { destruct Hcp as [_ Hcp]. destruct (Hcp k t Hk) as (w & ? & Hw & _ & _ & Hwv).
    rewrite Hwv in Hkv by (apply Hnew; set_solver). congruence. }
  destruct (Hs h' hi (deeper i (Field k)) (deeper o (Field k)) v d v)
    as (w & hx1 & h1 & Hr & Ha1 & Hw); try done.
  { by eapply after_sub. }
  { by rewrite load_deeper, Hv. }
  { by rewrite load_deeper, (after_load _ _ _ _ _ Ha). }
  destruct (set_assoc_Some k w v ws Hkw) as [ws' Hws].
  destruct (after_deeper h o (VStruct ws) hx h' (Field k) w (VStruct ws') hx1 h1) as [Ha2 Hx];
    [done|by cbn; rewrite Hws|done|].
  destruct (IH (k :: done) ws' (hx ∪ hx1) h1) as (ws2 & hx2 & h2 & Hr2 & Ha3 & Hcp2);
    [done|set_solver|done|by eapply copying_next|].
  exists ws2, hx2, h2. cbn [for_each_]. rewrite (run_then _ _ _ tt h1) by done.
  split; [done|]. split; [done|]. cbn [fmap list_fmap fst]. rewrite reverse_cons, <-app_assoc.
  done.
Qed.
End Structs.

(** The names of a struct and of the statements are distinct, and every field that has
    references is written by a statement. *)
Definition covered (fs : list (string * ty)) (steps : list (string * stmt)) : bool :=
  bool_decide (NoDup fs.*1) && bool_decide (NoDup steps.*1) &&
  forallb (λ '(k, t), plain t || bool_decide (k ∈ steps.*1)) fs.

Lemma struct_into fs steps :
  covered fs steps = true → Forall (completes_field fs) steps →
  CopiesInto (TStruct fs) (copy_struct steps).
Proof.
  unfold covered. intros [[Hfs Hss]%andb_true_iff Hall]%andb_true_iff Hsteps
    h hi i o v d w0 Hsub Ho Hv Hd Hw _.
  apply bool_decide_eq_true in Hfs, Hss. apply Is_true_true, forallb_True in Hall.
  rewrite Forall_forall in Hall.
  destruct v as [| | | | |vs|]; try done. cbn in Hd. apply fmap_Some in Hd as (ds & Hds & ->).
  destruct (store_Some h o w0 (VStruct vs) Hw) as [h1 H1].
  destruct (steps_loop fs vs ds h hi i o steps Hsub Ho Hv Hds Hsteps [] vs ∅ h1)
    as (ws & hx & h' & Hr & Ha & Hc); try done.
  { set_solver. }
  { exists h1. rewrite map_union_empty. split; [done|]. split; [|done].
    apply map_disjoint_empty_l. }
  { by eapply copying_start. }
  exists (VStruct ws), hx, h'. split.
  - unfold copy_struct. rewrite (run_then _ _ _ tt h1); [done|]. unfold assign.
    rewrite (run_load _ _ _ _ (load_mono _ _ _ _ Hsub Hv)). by apply end_store.
  - split; [done|]. cbn. erewrite copying_end; try done; [exact (proj2 (fields_content_keys _ _ _ _ Hds))|].
    intros k t Hk%assoc_elem. rewrite app_nil_r, elem_of_reverse.
    specialize (Hall _ Hk). cbn in *. destruct (plain t); [by right|left]. by eapply bool_decide_unpack.
Qed.

(** ** Copies of whole objects *)

Lemma DeepCopy_new t s : CopiesInto t s → CopiesNew (TPtr t) (DeepCopy_of t s).
Proof.
  intros Hs h hi v d Hsub Hd. unfold DeepCopy_of. destruct v as [| |p| | | |]; try done.
  - exists VNil, ∅. cbn. rewrite map_union_empty. split; [done|]. split; [|done].
    apply map_disjoint_empty_l.
  - cbn in Hd. apply bind_Some in Hd as (v & Hp & (d' & Hd & ->)%fmap_Some). cbn [is_nil].
    set (l := fresh (dom h)).
    assert (h !! l = None) as Hl by (apply not_elem_of_dom, is_fresh).
    destruct (Hs (<[l:=Obj (zero t)]> h) hi p (mkAddr l []) v d' (zero t))
      as (w & hx & h' & Hr & (h1 & H1 & Hx & ->) & Hc); try done.
    { etransitivity; [done|]. by apply insert_subseteq. }
    { by eapply lookup_weaken_None. }
    { unfold load. cbn. by rewrite lookup_insert_eq. }
    apply map_disjoint_insert_r in Hx as [Hxl Hx].
    exists (VPtr (mkAddr l [])), (<[l:=Obj w]> hx).
    rewrite run_alloc, run_pointer. fold l. rewrite (run_then _ _ _ _ _ Hr).
    unfold store in H1. cbn in H1. rewrite lookup_insert_eq, insert_insert_eq in H1.
    injection H1 as <-. split; [|split].
    + unfold mret, mem_ret. do 2 f_equal. by rewrite <-insert_union_l, insert_union_r.
    + by apply map_disjoint_insert_l_2.
    + cbn. unfold load. cbn. rewrite lookup_insert_eq. cbn.
      by rewrite (content_mono _ _ t (insert_subseteq _ _ (Obj w) Hxl) _ _ Hc).
Qed.
End Copying.
