(* ===== verification/DeepCopy.v ===== *)
(** The generated deep copies (api/v1alpha1/zz_generated.deepcopy.go): for every struct
    [X] of the API its type [XT], [X_DeepCopyInto] and [X_DeepCopy], and for the objects
    and their lists [X_DeepCopyObject].

    The client hands out objects of a cache the whole process shares by copying them
    with these functions; the controllers then change their copy. *)

From S2P Require Import Prelude Memory.
#[local] Open Scope string_scope.

(** The copy functions of the types of other modules. *)
Class ForeignCopies := {
  DeepCopyInto_of : foreign → stmt;
  Time_DeepCopy : val → mem val;             (* of a pointer *)
  Quantity_DeepCopy : val → mem val }.       (* of a value *)

Section Copies.
Context `{Foreign} `{RangeOrder} `{ForeignCopies}.

(** ** Cluster *)

Definition CertManagerIssuerRefT : ty := TStruct [("Name", TString); ("Kind", TString);
  ("Group", TString)].
Definition CertManagerIssuerRef_DeepCopyInto : stmt := copy_struct [].
Definition CertManagerIssuerRef_DeepCopy :=
  DeepCopy_of CertManagerIssuerRefT CertManagerIssuerRef_DeepCopyInto.

Definition TLSSpecT : ty := TStruct [("Enabled", TBool); ("SecretName", TString);
  ("CertManagerIssuerRef", TPtr CertManagerIssuerRefT)].
Definition TLSSpec_DeepCopyInto : stmt := copy_struct [
  ("CertManagerIssuerRef", if_set (new_ CertManagerIssuerRefT assign))].
Definition TLSSpec_DeepCopy := DeepCopy_of TLSSpecT TLSSpec_DeepCopyInto.

Definition ServerSpecT : ty := TStruct [("Port", TInt); ("MaxBodySizeBytes", TInt);
  ("RequestTimeoutSecs", TInt); ("QueryTimeoutSecs", TInt); ("MaxConcurrentQueries", TInt);
  ("TLS", TPtr TLSSpecT)].
Definition ServerSpec_DeepCopyInto : stmt := copy_struct [
  ("TLS", if_set (new_ TLSSpecT TLSSpec_DeepCopyInto))].
Definition ServerSpec_DeepCopy := DeepCopy_of ServerSpecT ServerSpec_DeepCopyInto.

Definition PersistentVolumeClaimSpecT : ty := TStruct [("StorageClassName", TPtr TString);
  ("Size", TForeign Quantity)].
Definition PersistentVolumeClaimSpec_DeepCopyInto : stmt := copy_struct [
  ("StorageClassName", if_set (new_ TString assign));
  ("Size", copied Quantity_DeepCopy)].
Definition PersistentVolumeClaimSpec_DeepCopy :=
  DeepCopy_of PersistentVolumeClaimSpecT PersistentVolumeClaimSpec_DeepCopyInto.

Definition StorageSpecT : ty := TStruct [
  ("VolumeClaimTemplate", TPtr PersistentVolumeClaimSpecT); ("WALFormat", TString)].
Definition StorageSpec_DeepCopyInto : stmt := copy_struct [
  ("VolumeClaimTemplate", if_set (new_ PersistentVolumeClaimSpecT
    PersistentVolumeClaimSpec_DeepCopyInto))].
Definition StorageSpec_DeepCopy := DeepCopy_of StorageSpecT StorageSpec_DeepCopyInto.

Definition FlushSpecT : ty := TStruct [("IntervalSecs", TInt); ("MaxPointsPerBatch", TInt);
  ("WALBatchSize", TInt); ("WALBatchDelayUs", TInt); ("ArrowWALEnabled", TPtr TBool)].
Definition FlushSpec_DeepCopyInto : stmt := copy_struct [
  ("ArrowWALEnabled", if_set (new_ TBool assign))].
Definition FlushSpec_DeepCopy := DeepCopy_of FlushSpecT FlushSpec_DeepCopyInto.

Definition ChDBSpecT : ty := TStruct [("SessionDataPath", TString); ("PoolSize", TInt);
  ("QueryPoolSize", TInt); ("WritePoolSize", TInt)].
Definition ChDBSpec_DeepCopyInto : stmt := copy_struct [].
Definition ChDBSpec_DeepCopy := DeepCopy_of ChDBSpecT ChDBSpec_DeepCopyInto.

Definition AuthSpecT : ty := TStruct [("Enabled", TBool); ("CredentialsSecretName", TString)].
Definition AuthSpec_DeepCopyInto : stmt := copy_struct [].
Definition AuthSpec_DeepCopy := DeepCopy_of AuthSpecT AuthSpec_DeepCopyInto.

Definition LoggingSpecT : ty := TStruct [("Level", TString); ("Format", TString)].
Definition LoggingSpec_DeepCopyInto : stmt := copy_struct [].
Definition LoggingSpec_DeepCopy := DeepCopy_of LoggingSpecT LoggingSpec_DeepCopyInto.

Definition SyncQuorumSpecT : ty := TStruct [("MinAcks", TPtr (TForeign IntOrString))].
Definition SyncQuorumSpec_DeepCopyInto : stmt := copy_struct [
  ("MinAcks", if_set (new_ (TForeign IntOrString) assign))].
Definition SyncQuorumSpec_DeepCopy := DeepCopy_of SyncQuorumSpecT SyncQuorumSpec_DeepCopyInto.

Definition ReplicationSpecT : ty := TStruct [("Mode", TString); ("AckTimeoutMs", TInt);
  ("SyncQuorum", TPtr SyncQuorumSpecT)].
Definition ReplicationSpec_DeepCopyInto : stmt := copy_struct [
  ("SyncQuorum", if_set (new_ SyncQuorumSpecT SyncQuorumSpec_DeepCopyInto))].
Definition ReplicationSpec_DeepCopy := DeepCopy_of ReplicationSpecT ReplicationSpec_DeepCopyInto.

Definition ClusterTuningSpecT : ty := TStruct [("HeartbeatIntervalSecs", TInt);
  ("HeartbeatMissThreshold", TInt); ("ReplicationMaxRetries", TInt);
  ("RaftHeartbeatIntervalMs", TInt); ("RaftElectionTimeoutMs", TInt);
  ("RaftSnapshotThreshold", TInt); ("ReplicationQueueDepth", TInt);
  ("ReplicationMaxInflightBatches", TInt); ("ReplicationMaxCoalesceBodyBytes", TInt);
  ("ReplicateReceiverQueueDepth", TInt); ("ReplicationTruncateStalePeerMultiplier", TInt);
  ("Replication", TPtr ReplicationSpecT); ("TLS", TPtr TLSSpecT); ("DrainWaitSecs", TInt)].
Definition ClusterTuningSpec_DeepCopyInto : stmt := copy_struct [
  ("Replication", if_set (new_ ReplicationSpecT ReplicationSpec_DeepCopyInto));
  ("TLS", if_set (new_ TLSSpecT TLSSpec_DeepCopyInto))].
Definition ClusterTuningSpec_DeepCopy :=
  DeepCopy_of ClusterTuningSpecT ClusterTuningSpec_DeepCopyInto.

Definition ShardingSpecT : ty := TStruct [("Enabled", TBool); ("ReplicationFactor", TInt);
  ("RegionSplitSeries", TInt); ("RegionMaxSeries", TInt); ("RegionMergeSeries", TInt);
  ("SplitMergeIntervalSecs", TInt); ("ScheduleLimit", TInt); ("HeartbeatIntervalSecs", TInt);
  ("BootstrapTimeoutMs", TInt); ("PrimaryFailoverAfterSecs", TInt);
  ("ScatterPeerTimeoutMs", TInt); ("ScatterMaxPeerAttempts", TInt);
  ("AddPeerProposalsEnabled", TPtr TBool); ("RemovePeerProposalsEnabled", TPtr TBool);
  ("LoadSplitQpsThreshold", TPtr TInt); ("MaxRegionsPerMeasurement", TInt)].
Definition ShardingSpec_DeepCopyInto : stmt := copy_struct [
  ("AddPeerProposalsEnabled", if_set (new_ TBool assign));
  ("RemovePeerProposalsEnabled", if_set (new_ TBool assign));
  ("LoadSplitQpsThreshold", if_set (new_ TInt assign))].
Definition ShardingSpec_DeepCopy := DeepCopy_of ShardingSpecT ShardingSpec_DeepCopyInto.

Definition CardinalitySpecT : ty := TStruct [("MaxTagValuesPerMeasurement", TInt);
  ("MaxMeasurementsPerDatabase", TInt)].
Definition CardinalitySpec_DeepCopyInto : stmt := copy_struct [].
Definition CardinalitySpec_DeepCopy := DeepCopy_of CardinalitySpecT CardinalitySpec_DeepCopyInto.

Definition StatementSummarySpecT : ty := TStruct [("Enabled", TPtr TBool);
  ("MaxEntries", TInt)].
Definition StatementSummarySpec_DeepCopyInto : stmt := copy_struct [
  ("Enabled", if_set (new_ TBool assign))].
Definition StatementSummarySpec_DeepCopy :=
  DeepCopy_of StatementSummarySpecT StatementSummarySpec_DeepCopyInto.

Definition HintedHandoffSpecT : ty := TStruct [("Enabled", TPtr TBool);
  ("MaxHintsPerPeer", TInt); ("MaxHintAgeSecs", TInt)].
Definition HintedHandoffSpec_DeepCopyInto : stmt := copy_struct [
  ("Enabled", if_set (new_ TBool assign))].
Definition HintedHandoffSpec_DeepCopy :=
  DeepCopy_of HintedHandoffSpecT HintedHandoffSpec_DeepCopyInto.

Definition RateLimitSpecT : ty := TStruct [("Enabled", TPtr TBool);
  ("MaxRequestsPerSecond", TInt)].
Definition RateLimitSpec_DeepCopyInto : stmt := copy_struct [
  ("Enabled", if_set (new_ TBool assign))].
Definition RateLimitSpec_DeepCopy := DeepCopy_of RateLimitSpecT RateLimitSpec_DeepCopyInto.

Definition RetentionSpecT : ty := TStruct [("Enabled", TPtr TBool); ("Interval", TString)].
Definition RetentionSpec_DeepCopyInto : stmt := copy_struct [
  ("Enabled", if_set (new_ TBool assign))].
Definition RetentionSpec_DeepCopy := DeepCopy_of RetentionSpecT RetentionSpec_DeepCopyInto.

Definition MonitoringSpecT : ty := TStruct [("Enabled", TBool); ("ServiceMonitor", TBool)].
Definition MonitoringSpec_DeepCopyInto : stmt := copy_struct [].
Definition MonitoringSpec_DeepCopy := DeepCopy_of MonitoringSpecT MonitoringSpec_DeepCopyInto.

Definition AutoscalingSpecT : ty := TStruct [("Enabled", TBool); ("MinReplicas", TInt);
  ("MaxReplicas", TInt); ("TargetCPUUtilizationPercentage", TInt)].
Definition AutoscalingSpec_DeepCopyInto : stmt := copy_struct [].
Definition AutoscalingSpec_DeepCopy := DeepCopy_of AutoscalingSpecT AutoscalingSpec_DeepCopyInto.

Definition FailoverSpecT : ty := TStruct [("Enabled", TBool); ("MaxFailoverCount", TInt);
  ("FailoverTimeoutSecs", TInt)].
Definition FailoverSpec_DeepCopyInto : stmt := copy_struct [].
Definition FailoverSpec_DeepCopy := DeepCopy_of FailoverSpecT FailoverSpec_DeepCopyInto.

Definition ProxySpecT : ty := TStruct [("Enabled", TBool); ("Image", TString);
  ("ImagePullPolicy", TString); ("ImagePullSecrets", TSlice (TForeign LocalObjectReference));
  ("Replicas", TPtr TInt); ("Port", TInt); ("HealthPath", TString); ("HoldTimeoutSecs", TInt);
  ("MaxRetries", TInt); ("ShutdownGraceSecs", TInt); ("RequestTimeoutSecs", TInt);
  ("Resources", TForeign ResourceRequirements); ("ServiceType", TString); ("NodePort", TInt);
  ("PodAnnotations", TStrMap); ("PodLabels", TStrMap)].
Definition ProxySpec_DeepCopyInto : stmt := copy_struct [
  ("ImagePullSecrets", if_set (new_slice (TForeign LocalObjectReference) assign));
  ("Replicas", if_set (new_ TInt assign));
  ("Resources", DeepCopyInto_of ResourceRequirements);
  ("PodAnnotations", if_set new_map);
  ("PodLabels", if_set new_map)].
Definition ProxySpec_DeepCopy := DeepCopy_of ProxySpecT ProxySpec_DeepCopyInto.

Definition HyperbytedbClusterSpecT : ty := TStruct [("Replicas", TPtr TInt); ("Image", TString);
  ("Version", TString); ("ImagePullPolicy", TString);
  ("ImagePullSecrets", TSlice (TForeign LocalObjectReference)); ("Paused", TBool);
  ("Server", ServerSpecT); ("Storage", StorageSpecT); ("Flush", FlushSpecT);
  ("ChDB", ChDBSpecT); ("Auth", AuthSpecT); ("Logging", LoggingSpecT);
  ("Resources", TForeign ResourceRequirements); ("Cluster", ClusterTuningSpecT);
  ("Sharding", TPtr ShardingSpecT); ("Cardinality", CardinalitySpecT);
  ("StatementSummary", StatementSummarySpecT); ("HintedHandoff", HintedHandoffSpecT);
  ("RateLimit", RateLimitSpecT); ("Retention", RetentionSpecT); ("Monitoring", MonitoringSpecT);
  ("Autoscaling", TPtr AutoscalingSpecT); ("Failover", TPtr FailoverSpecT);
  ("Proxy", TPtr ProxySpecT); ("PodAnnotations", TStrMap); ("PodLabels", TStrMap);
  ("Affinity", TPtr (TForeign Affinity));
  ("TopologySpreadConstraints", TSlice (TForeign TopologySpreadConstraint));
  ("Tolerations", TSlice (TForeign Toleration));
  ("AdditionalVolumes", TSlice (TForeign Volume));
  ("AdditionalVolumeMounts", TSlice (TForeign VolumeMount))].
Definition HyperbytedbClusterSpec_DeepCopyInto : stmt := copy_struct [
  ("Replicas", if_set (new_ TInt assign));
  ("ImagePullSecrets", if_set (new_slice (TForeign LocalObjectReference) assign));
  ("Server", ServerSpec_DeepCopyInto);
  ("Storage", StorageSpec_DeepCopyInto);
  ("Flush", FlushSpec_DeepCopyInto);
  ("ChDB", assign);
  ("Auth", assign);
  ("Logging", assign);
  ("Resources", DeepCopyInto_of ResourceRequirements);
  ("Cluster", ClusterTuningSpec_DeepCopyInto);
  ("Sharding", if_set (new_ ShardingSpecT ShardingSpec_DeepCopyInto));
  ("Cardinality", assign);
  ("StatementSummary", StatementSummarySpec_DeepCopyInto);
  ("HintedHandoff", HintedHandoffSpec_DeepCopyInto);
  ("RateLimit", RateLimitSpec_DeepCopyInto);
  ("Retention", RetentionSpec_DeepCopyInto);
  ("Monitoring", assign);
  ("Autoscaling", if_set (new_ AutoscalingSpecT assign));
  ("Failover", if_set (new_ FailoverSpecT assign));
  ("Proxy", if_set (new_ ProxySpecT ProxySpec_DeepCopyInto));
  ("PodAnnotations", if_set new_map);
  ("PodLabels", if_set new_map);
  ("Affinity", if_set (new_ (TForeign Affinity) (DeepCopyInto_of Affinity)));
  ("TopologySpreadConstraints", if_set (new_slice (TForeign TopologySpreadConstraint)
    (DeepCopyInto_of TopologySpreadConstraint)));
  ("Tolerations", if_set (new_slice (TForeign Toleration) (DeepCopyInto_of Toleration)));
  ("AdditionalVolumes", if_set (new_slice (TForeign Volume) (DeepCopyInto_of Volume)));
  ("AdditionalVolumeMounts", if_set (new_slice (TForeign VolumeMount)
    (DeepCopyInto_of VolumeMount)))].
Definition HyperbytedbClusterSpec_DeepCopy :=
  DeepCopy_of HyperbytedbClusterSpecT HyperbytedbClusterSpec_DeepCopyInto.

Definition RollingRestartStateT : ty := TStruct [("CurrentOrdinal", TInt);
  ("TotalOrdinals", TInt); ("Phase", TString); ("PhaseStartedAt", TForeign Time);
  ("OldPodIP", TString); ("ExcludeConfirmed", TBool)].
Definition RollingRestartState_DeepCopyInto : stmt := copy_struct [
  ("PhaseStartedAt", DeepCopyInto_of Time)].
Definition RollingRestartState_DeepCopy :=
  DeepCopy_of RollingRestartStateT RollingRestartState_DeepCopyInto.

Definition MemberStatusT : ty := TStruct [("Name", TString); ("NodeID", TInt);
  ("PodName", TString); ("State", TString); ("Health", TBool); ("WALSequence", TInt);
  ("ParquetFiles", TInt); ("PeerCount", TInt); ("LastTransitionTime", TForeign Time)].
Definition MemberStatus_DeepCopyInto : stmt := copy_struct [
  ("LastTransitionTime", DeepCopyInto_of Time)].
Definition MemberStatus_DeepCopy := DeepCopy_of MemberStatusT MemberStatus_DeepCopyInto.

Definition HyperbytedbClusterStatusT : ty := TStruct [("Phase", TString); ("Replicas", TInt);
  ("ReadyReplicas", TInt); ("ClusterState", TString); ("ReplicationState", TString);
  ("Members", TSlice MemberStatusT); ("FailoverCount", TInt); ("ConfigHash", TString);
  ("RollingRestart", TPtr RollingRestartStateT); ("Conditions", TSlice (TForeign Condition))].
Definition HyperbytedbClusterStatus_DeepCopyInto : stmt := copy_struct [
  ("Members", if_set (new_slice MemberStatusT MemberStatus_DeepCopyInto));
  ("RollingRestart", if_set (new_ RollingRestartStateT RollingRestartState_DeepCopyInto));
  ("Conditions", if_set (new_slice (TForeign Condition) (DeepCopyInto_of Condition)))].
Definition HyperbytedbClusterStatus_DeepCopy :=
  DeepCopy_of HyperbytedbClusterStatusT HyperbytedbClusterStatus_DeepCopyInto.

Definition HyperbytedbClusterT : ty := TStruct [("TypeMeta", TForeign TypeMeta);
  ("ObjectMeta", TForeign ObjectMeta); ("Spec", HyperbytedbClusterSpecT);
  ("Status", HyperbytedbClusterStatusT)].
Definition HyperbytedbCluster_DeepCopyInto : stmt := copy_struct [
  ("TypeMeta", assign);
  ("ObjectMeta", DeepCopyInto_of ObjectMeta);
  ("Spec", HyperbytedbClusterSpec_DeepCopyInto);
  ("Status", HyperbytedbClusterStatus_DeepCopyInto)].
Definition HyperbytedbCluster_DeepCopy :=
  DeepCopy_of HyperbytedbClusterT HyperbytedbCluster_DeepCopyInto.
Definition HyperbytedbCluster_DeepCopyObject :=
  DeepCopyObject_of HyperbytedbClusterT HyperbytedbCluster_DeepCopy.

Definition HyperbytedbClusterListT : ty := TStruct [("TypeMeta", TForeign TypeMeta);
  ("ListMeta", TForeign ListMeta); ("Items", TSlice HyperbytedbClusterT)].
Definition HyperbytedbClusterList_DeepCopyInto : stmt := copy_struct [
  ("TypeMeta", assign);
  ("ListMeta", DeepCopyInto_of ListMeta);
  ("Items", if_set (new_slice HyperbytedbClusterT HyperbytedbCluster_DeepCopyInto))].
Definition HyperbytedbClusterList_DeepCopy :=
  DeepCopy_of HyperbytedbClusterListT HyperbytedbClusterList_DeepCopyInto.
Definition HyperbytedbClusterList_DeepCopyObject :=
  DeepCopyObject_of HyperbytedbClusterListT HyperbytedbClusterList_DeepCopy.

(** ** Backups *)

Definition S3BackupSpecT : ty := TStruct [("Bucket", TString); ("Prefix", TString);
  ("Region", TString); ("Endpoint", TString); ("CredentialsSecretName", TString)].
Definition S3BackupSpec_DeepCopyInto : stmt := copy_struct [].
Definition S3BackupSpec_DeepCopy := DeepCopy_of S3BackupSpecT S3BackupSpec_DeepCopyInto.

Definition BackupDestinationT : ty := TStruct [("S3", S3BackupSpecT)].
Definition BackupDestination_DeepCopyInto : stmt := copy_struct [("S3", assign)].
Definition BackupDestination_DeepCopy :=
  DeepCopy_of BackupDestinationT BackupDestination_DeepCopyInto.

Definition HyperbytedbBackupSpecT : ty := TStruct [("ClusterName", TString);
  ("Schedule", TString); ("Destination", BackupDestinationT); ("RetentionDays", TInt);
  ("Databases", TSlice TString)].
Definition HyperbytedbBackupSpec_DeepCopyInto : stmt := copy_struct [
  ("Destination", assign);
  ("Databases", if_set (new_slice TString assign))].
Definition HyperbytedbBackupSpec_DeepCopy :=
  DeepCopy_of HyperbytedbBackupSpecT HyperbytedbBackupSpec_DeepCopyInto.

Definition HyperbytedbBackupStatusT : ty := TStruct [("Phase", TString);
  ("StartTime", TPtr (TForeign Time)); ("CompletionTime", TPtr (TForeign Time));
  ("BackupSize", TString); ("BackupPath", TString); ("LastCleanupTime", TPtr (TForeign Time));
  ("Conditions", TSlice (TForeign Condition))].
Definition HyperbytedbBackupStatus_DeepCopyInto : stmt := copy_struct [
  ("StartTime", if_set (copied Time_DeepCopy));
  ("CompletionTime", if_set (copied Time_DeepCopy));
  ("LastCleanupTime", if_set (copied Time_DeepCopy));
  ("Conditions", if_set (new_slice (TForeign Condition) (DeepCopyInto_of Condition)))].
Definition HyperbytedbBackupStatus_DeepCopy :=
  DeepCopy_of HyperbytedbBackupStatusT HyperbytedbBackupStatus_DeepCopyInto.

Definition HyperbytedbBackupT : ty := TStruct [("TypeMeta", TForeign TypeMeta);
  ("ObjectMeta", TForeign ObjectMeta); ("Spec", HyperbytedbBackupSpecT);
  ("Status", HyperbytedbBackupStatusT)].
Definition HyperbytedbBackup_DeepCopyInto : stmt := copy_struct [
  ("TypeMeta", assign);
  ("ObjectMeta", DeepCopyInto_of ObjectMeta);
  ("Spec", HyperbytedbBackupSpec_DeepCopyInto);
  ("Status", HyperbytedbBackupStatus_DeepCopyInto)].
Definition HyperbytedbBackup_DeepCopy :=
  DeepCopy_of HyperbytedbBackupT HyperbytedbBackup_DeepCopyInto.
Definition HyperbytedbBackup_DeepCopyObject :=
  DeepCopyObject_of HyperbytedbBackupT HyperbytedbBackup_DeepCopy.

Definition HyperbytedbBackupListT : ty := TStruct [("TypeMeta", TForeign TypeMeta);
  ("ListMeta", TForeign ListMeta); ("Items", TSlice HyperbytedbBackupT)].
Definition HyperbytedbBackupList_DeepCopyInto : stmt := copy_struct [
  ("TypeMeta", assign);
  ("ListMeta", DeepCopyInto_of ListMeta);
  ("Items", if_set (new_slice HyperbytedbBackupT HyperbytedbBackup_DeepCopyInto))].
Definition HyperbytedbBackupList_DeepCopy :=
  DeepCopy_of HyperbytedbBackupListT HyperbytedbBackupList_DeepCopyInto.
Definition HyperbytedbBackupList_DeepCopyObject :=
  DeepCopyObject_of HyperbytedbBackupListT HyperbytedbBackupList_DeepCopy.

(** ** Restores *)

Definition RestoreSourceT : ty := TStruct [("S3", S3BackupSpecT)].
Definition RestoreSource_DeepCopyInto : stmt := copy_struct [("S3", assign)].
Definition RestoreSource_DeepCopy := DeepCopy_of RestoreSourceT RestoreSource_DeepCopyInto.

Definition HyperbytedbRestoreSpecT : ty := TStruct [("ClusterName", TString);
  ("BackupName", TString); ("Source", TPtr RestoreSourceT);
  ("RestoreTimestamp", TPtr (TForeign Time))].
Definition HyperbytedbRestoreSpec_DeepCopyInto : stmt := copy_struct [
  ("Source", if_set (new_ RestoreSourceT assign));
  ("RestoreTimestamp", if_set (copied Time_DeepCopy))].
Definition HyperbytedbRestoreSpec_DeepCopy :=
  DeepCopy_of HyperbytedbRestoreSpecT HyperbytedbRestoreSpec_DeepCopyInto.

Definition HyperbytedbRestoreStatusT : ty := TStruct [("Phase", TString);
  ("StartTime", TPtr (TForeign Time)); ("CompletionTime", TPtr (TForeign Time));
  ("RestoredPVCs", TInt); ("Conditions", TSlice (TForeign Condition))].
Definition HyperbytedbRestoreStatus_DeepCopyInto : stmt := copy_struct [
  ("StartTime", if_set (copied Time_DeepCopy));
  ("CompletionTime", if_set (copied Time_DeepCopy));
  ("Conditions", if_set (new_slice (TForeign Condition) (DeepCopyInto_of Condition)))].
Definition HyperbytedbRestoreStatus_DeepCopy :=
  DeepCopy_of HyperbytedbRestoreStatusT HyperbytedbRestoreStatus_DeepCopyInto.

Definition HyperbytedbRestoreT : ty := TStruct [("TypeMeta", TForeign TypeMeta);
  ("ObjectMeta", TForeign ObjectMeta); ("Spec", HyperbytedbRestoreSpecT);
  ("Status", HyperbytedbRestoreStatusT)].
Definition HyperbytedbRestore_DeepCopyInto : stmt := copy_struct [
  ("TypeMeta", assign);
  ("ObjectMeta", DeepCopyInto_of ObjectMeta);
  ("Spec", HyperbytedbRestoreSpec_DeepCopyInto);
  ("Status", HyperbytedbRestoreStatus_DeepCopyInto)].
Definition HyperbytedbRestore_DeepCopy :=
  DeepCopy_of HyperbytedbRestoreT HyperbytedbRestore_DeepCopyInto.
Definition HyperbytedbRestore_DeepCopyObject :=
  DeepCopyObject_of HyperbytedbRestoreT HyperbytedbRestore_DeepCopy.

Definition HyperbytedbRestoreListT : ty := TStruct [("TypeMeta", TForeign TypeMeta);
  ("ListMeta", TForeign ListMeta); ("Items", TSlice HyperbytedbRestoreT)].
Definition HyperbytedbRestoreList_DeepCopyInto : stmt := copy_struct [
  ("TypeMeta", assign);
  ("ListMeta", DeepCopyInto_of ListMeta);
  ("Items", if_set (new_slice HyperbytedbRestoreT HyperbytedbRestore_DeepCopyInto))].
Definition HyperbytedbRestoreList_DeepCopy :=
  DeepCopy_of HyperbytedbRestoreListT HyperbytedbRestoreList_DeepCopyInto.
Definition HyperbytedbRestoreList_DeepCopyObject :=
  DeepCopyObject_of HyperbytedbRestoreListT HyperbytedbRestoreList_DeepCopy.

(** ** The webhook *)

Definition HyperbytedbClusterWebhookT : ty := TStruct [].
Definition HyperbytedbClusterWebhook_DeepCopyInto : stmt := copy_struct [].
Definition HyperbytedbClusterWebhook_DeepCopy :=
  DeepCopy_of HyperbytedbClusterWebhookT HyperbytedbClusterWebhook_DeepCopyInto.

(** ** All of them *)

Definition deep_copies : list (ty * (val → mem val)) := [
  (CertManagerIssuerRefT, CertManagerIssuerRef_DeepCopy);
  (TLSSpecT, TLSSpec_DeepCopy);
  (ServerSpecT, ServerSpec_DeepCopy);
  (PersistentVolumeClaimSpecT, PersistentVolumeClaimSpec_DeepCopy);
  (StorageSpecT, StorageSpec_DeepCopy);
  (FlushSpecT, FlushSpec_DeepCopy);
  (ChDBSpecT, ChDBSpec_DeepCopy);
  (AuthSpecT, AuthSpec_DeepCopy);
  (LoggingSpecT, LoggingSpec_DeepCopy);
  (SyncQuorumSpecT, SyncQuorumSpec_DeepCopy);
  (ReplicationSpecT, ReplicationSpec_DeepCopy);
  (ClusterTuningSpecT, ClusterTuningSpec_DeepCopy);
  (ShardingSpecT, ShardingSpec_DeepCopy);
  (CardinalitySpecT, CardinalitySpec_DeepCopy);
  (StatementSummarySpecT, StatementSummarySpec_DeepCopy);
  (HintedHandoffSpecT, HintedHandoffSpec_DeepCopy);
  (RateLimitSpecT, RateLimitSpec_DeepCopy);
  (RetentionSpecT, RetentionSpec_DeepCopy);
  (MonitoringSpecT, MonitoringSpec_DeepCopy);
  (AutoscalingSpecT, AutoscalingSpec_DeepCopy);
  (FailoverSpecT, FailoverSpec_DeepCopy);
  (ProxySpecT, ProxySpec_DeepCopy);
  (HyperbytedbClusterSpecT, HyperbytedbClusterSpec_DeepCopy);
  (RollingRestartStateT, RollingRestartState_DeepCopy);
  (MemberStatusT, MemberStatus_DeepCopy);
  (HyperbytedbClusterStatusT, HyperbytedbClusterStatus_DeepCopy);
  (HyperbytedbClusterT, HyperbytedbCluster_DeepCopy);
  (HyperbytedbClusterListT, HyperbytedbClusterList_DeepCopy);
  (S3BackupSpecT, S3BackupSpec_DeepCopy);
  (BackupDestinationT, BackupDestination_DeepCopy);
  (HyperbytedbBackupSpecT, HyperbytedbBackupSpec_DeepCopy);
  (HyperbytedbBackupStatusT, HyperbytedbBackupStatus_DeepCopy);
  (HyperbytedbBackupT, HyperbytedbBackup_DeepCopy);
  (HyperbytedbBackupListT, HyperbytedbBackupList_DeepCopy);
  (RestoreSourceT, RestoreSource_DeepCopy);
  (HyperbytedbRestoreSpecT, HyperbytedbRestoreSpec_DeepCopy);
  (HyperbytedbRestoreStatusT, HyperbytedbRestoreStatus_DeepCopy);
  (HyperbytedbRestoreT, HyperbytedbRestore_DeepCopy);
  (HyperbytedbRestoreListT, HyperbytedbRestoreList_DeepCopy);
  (HyperbytedbClusterWebhookT, HyperbytedbClusterWebhook_DeepCopy)].

Definition object_copies : list (ty * (val → mem (option (ty * val)))) := [
  (HyperbytedbClusterT, HyperbytedbCluster_DeepCopyObject);
  (HyperbytedbClusterListT, HyperbytedbClusterList_DeepCopyObject);
  (HyperbytedbBackupT, HyperbytedbBackup_DeepCopyObject);
  (HyperbytedbBackupListT, HyperbytedbBackupList_DeepCopyObject);
  (HyperbytedbRestoreT, HyperbytedbRestore_DeepCopyObject);
  (HyperbytedbRestoreListT, HyperbytedbRestoreList_DeepCopyObject)].
End Copies.
