(* ===== verification/DeepCopyTheorems.v ===== *)
(** The generated deep copies copy everything and share nothing. *)

From S2P Require Import Prelude Memory MemoryProofs Copying DeepCopy.
#[local] Open Scope string_scope.

(** What the copy functions of other modules promise. *)
Class ForeignCopyLaws `{Foreign} `{ForeignCopies} : Prop := {
  foreign_into n :: TCEq (flat n) false → CopiesInto (TForeign n) (DeepCopyInto_of n);
  time_new :: CopiesNew (TPtr (TForeign Time)) Time_DeepCopy;
  quantity_new :: CopiesNew (TForeign Quantity) Quantity_DeepCopy }.

(** The body of a [DeepCopyInto]: its fields, by the instances for their statements. *)
Ltac copy_fields :=
  lazymatch goal with
  | |- CopiesInto ?t ?s =>
      let t := get_head t in let s := get_head s in unfold t, s; apply struct_into;
      [vm_compute; reflexivity
      |repeat (apply Forall_cons; split; [eexists; split; [reflexivity|cbn [snd]; apply _]|]);
       apply Forall_nil; exact I]
  end.

Section DeepCopies.
Context `{Foreign} `{RangeOrder} `{ForeignCopies} `{!ForeignCopyLaws}.

#[local] Hint Extern 10 (CopiesInto _ _) => copy_fields : typeclass_instances.

Definition copies_well (tf : ty * (val → mem val)) : Prop := CopiesNew (TPtr tf.1) tf.2.

Lemma deep_copies_copy : Forall copies_well deep_copies.
Proof.
  repeat (apply Forall_cons; split; [apply DeepCopy_new, _|]).
  by apply Forall_nil.
Qed.

(** [q], made of the objects [hx] beside the heap [h], is a copy of [p], content [d]:
    whatever becomes of its objects, [p] reads as before, and the other way round. *)
Definition deep_copy_of (T : ty) (h : heap) (p : val) (d : data fdata) (hx : heap) (q : val) : Prop :=
  hx ##ₘ h ∧ content hx (TPtr T) q = Some d ∧
  (∀ hx', content (h ∪ hx') (TPtr T) p = Some d) ∧
  (∀ h', h' ##ₘ hx → content (h' ∪ hx) (TPtr T) q = Some d).

Lemma copy_is_deep T f h p d :
  CopiesNew (TPtr T) f → content h (TPtr T) p = Some d →
  ∃ q hx, f p h = Some (q, h ∪ hx) ∧ deep_copy_of T h p d hx q.
Proof.
  intros Hf Hd. destruct (Hf h h p d (reflexivity h) Hd) as (q & hx & Hr & Hx & Hq).
  exists q, hx. split; [done|]. split; [done|]. split; [done|]. split; intros h'.
  - by eapply content_mono; [apply map_union_subseteq_l|].
  - intros Hh. by eapply content_mono; [by apply map_union_subseteq_r|].
Qed.

(** An object is copied by a [DeepCopy] and given its type. *)
Definition object_well (tf : ty * (val → mem (option (ty * val)))) : Prop :=
  ∃ s, tf.2 = DeepCopyObject_of tf.1 (DeepCopy_of tf.1 s) ∧ CopiesInto tf.1 s.

Lemma object_copies_copy : Forall object_well object_copies.
Proof.
  repeat (apply Forall_cons; split; [eexists; split; [reflexivity|cbn [fst]; apply _]|]).
  by apply Forall_nil.
Qed.

Lemma object_is_deep T f h p d :
  object_well (T, f) → content h (TPtr T) p = Some d →
  (p = VNil ∧ f p h = Some (None, h)) ∨
  (p ≠ VNil ∧ ∃ q hx, f p h = Some (Some (T, q), h ∪ hx) ∧ deep_copy_of T h p d hx q).
Proof.
  intros (s & Hf & Hs) Hd. cbn in Hf, Hs. subst f. unfold DeepCopyObject_of.
  assert (p = VNil ∨ p ≠ VNil) as [->|Hp] by (destruct p; auto); [by left|right].
  split; [done|].
  destruct (copy_is_deep T _ h p d (DeepCopy_new _ _ Hs) Hd) as (q & hx & Hr & Hq).
  exists q, hx. rewrite (run_then _ _ _ _ _ Hr). split; [|done].
  destruct Hq as (_ & Hq & _). destruct q; try done.
  cbn in Hd, Hq. destruct p; try done. injection Hq as <-.
  by apply bind_Some in Hd as (? & _ & (? & _ & [=])%fmap_Some).
Qed.

(** C21: The deep copies are deep. For every struct of the API, [DeepCopy] of a pointer
    to a well-typed value ends without a panic and returns a pointer with the same
    content all of whose objects are new: no later change of the copy shows in the
    original, and none of the original in the copy. [DeepCopyObject] of the three kinds
    and their lists returns that copy as an object, and no object for a nil pointer. The
    copy functions of the types of other modules are assumed to be such copies. *)
Theorem copies_are_deep T h p d :
  content h (TPtr T) p = Some d →
  (∀ f, (T, f) ∈ deep_copies →
     ∃ q hx, f p h = Some (q, h ∪ hx) ∧ deep_copy_of T h p d hx q) ∧
  (∀ f, (T, f) ∈ object_copies →
     (p = VNil ∧ f p h = Some (None, h)) ∨
     (p ≠ VNil ∧ ∃ q hx, f p h = Some (Some (T, q), h ∪ hx) ∧ deep_copy_of T h p d hx q)).
Proof.
  intros Hd. split; intros f Hin.
  - by apply copy_is_deep; [apply (proj1 (Forall_forall _ _) deep_copies_copy _ Hin)|].
  - by apply object_is_deep; [apply (proj1 (Forall_forall _ _) object_copies_copy _ Hin)|].
Qed.
End DeepCopies.

(** ** A concrete heap

    The types of other modules, as an example: a text, a number, a pointer to a text,
    and a struct with a map and a pointer for the others. *)

#[local] Instance demo_basic : Foreign.
Proof.
  refine {| fdata := lit;
            fcontent n h v := match v with VLit b => Some b | _ => None end;
            fzero n := VLit (LString "") |}; done.
Defined.

Definition demo_layout (n : foreign) : ty :=
  match n with
  | TypeMeta | LocalObjectReference | IntOrString => TString
  | Time => TInt
  | Quantity => TPtr TString
  | _ => TStruct [("Labels", TStrMap); ("Text", TPtr TString)]
  end.

#[local] Instance demo_foreign : Foreign.
Proof.
  refine {| fdata := data lit;
            fcontent n h v := @content demo_basic h (demo_layout n) v;
            fzero n := @zero demo_basic (demo_layout n) |}.
  - intros n h h' v d Hs. exact (@content_mono demo_basic h h' (demo_layout n) Hs v d).
  - by intros [] h h' v.
Defined.

#[local] Instance demo_order : RangeOrder := {| range_of m := map_to_list m; range_of_perm m := reflexivity _ |}.

Definition demo_into (n : foreign) : stmt :=
  match n with
  | TypeMeta | LocalObjectReference | IntOrString | Time => assign
  | Quantity => copied (@DeepCopy_of demo_basic TString assign)
  | _ => copy_struct [("Labels", if_set new_map); ("Text", if_set (@new_ demo_basic TString assign))]
  end.

#[local] Instance demo_copies : ForeignCopies := {|
  DeepCopyInto_of := demo_into;
  Time_DeepCopy := DeepCopy_of (TForeign Time) assign;
  Quantity_DeepCopy := @DeepCopy_of demo_basic TString assign |}.

(** A copy of the layout is a copy of the type. *)
Lemma demo_into_copies n : @CopiesInto demo_basic (demo_layout n) (demo_into n).
Proof.
  destruct n; cbn [demo_layout demo_into];
    first [by apply assign_into|apply copied_into, DeepCopy_new; by apply assign_into|idtac];
    (apply struct_into; [vm_compute; reflexivity|];
     repeat (apply Forall_cons; split; [eexists; split; [reflexivity|cbn [snd]; apply _]|]);
     by apply Forall_nil).
Qed.

Lemma demo_foreign_copies n s :
  @CopiesInto demo_basic (demo_layout n) s → @CopiesInto demo_foreign (TForeign n) s.
Proof.
  intros Hs h hi i o v d w0 Hsub Ho Hv Hd Hw Hpre. cbn in Hd. apply fmap_Some in Hd as (e & He & ->).
  destruct (Hs h hi i o v e w0 Hsub Ho Hv He Hw Hpre) as (w & hx & h' & Hr & Ha & Hc).
  exists w, hx, h'. do 2 (split; [done|]). cbn. by rewrite Hc.
Qed.

#[local] Instance demo_laws : ForeignCopyLaws.
Proof.
  split.
  - intros n _. apply demo_foreign_copies, demo_into_copies.
  - apply DeepCopy_new, (demo_foreign_copies Time assign), (demo_into_copies Time).
  - intros h hi v d Hsub Hd. cbn in Hd. apply fmap_Some in Hd as (e & He & ->).
    destruct (@DeepCopy_new demo_basic TString assign _ h hi v e Hsub He) as (w & hx & Hr & Hx & Hc).
    exists w, hx. do 2 (split; [done|]). cbn in *. by rewrite Hc.
Qed.

(** A cluster with a TLS Secret, a label for its pods and one member. *)
Definition demo_at (l : loc) : addr := mkAddr l [].
Definition demo_write (v : val) (π : list string) (w : val) : val :=
  default VNil (write_path (Field <$> π) v w).
Definition demo_heap : heap :=
  {[ 1%positive := Obj (demo_write (demo_write (demo_write (zero HyperbytedbClusterT)
        ["Spec"; "Cluster"; "TLS"] (VPtr (demo_at 2%positive)))
        ["Spec"; "PodLabels"] (VMap 3%positive))
        ["Status"; "Members"] (VSlice (demo_at 4%positive) 1 1));
     2%positive := Obj (demo_write (zero TLSSpecT) ["SecretName"] (VLit (LString "tls")));
     3%positive := Mapping {[ "tier" := "db" ]};
     4%positive := Obj (VArray [zero MemberStatusT;
        demo_write (zero MemberStatusT) ["Name"] (VLit (LString "db-0"))]) ]}.
Definition demo_pointer : val := VPtr (demo_at 1%positive).
Definition demo_content : data fdata :=
  default DNil (content demo_heap (TPtr HyperbytedbClusterT) demo_pointer).

Example copies_are_deep_witness :
  content demo_heap (TPtr HyperbytedbClusterT) demo_pointer = Some demo_content ∧
  ∃ q hx, HyperbytedbCluster_DeepCopyObject demo_pointer demo_heap =
      Some (Some (HyperbytedbClusterT, q), demo_heap ∪ hx) ∧
    deep_copy_of HyperbytedbClusterT demo_heap demo_pointer demo_content hx q.
Proof.
  assert (content demo_heap (TPtr HyperbytedbClusterT) demo_pointer = Some demo_content) as Hc
    by (vm_compute; reflexivity).
  split; [exact Hc|].
  destruct (copies_are_deep _ _ _ _ Hc) as [_ Ho].
  destruct (Ho HyperbytedbCluster_DeepCopyObject) as [[[=] _]|[_ Hq]]; [|exact Hq].
  unfold object_copies. apply list_elem_of_here.
Defined.
