(* ===== verification/Slots.v ===== *)
(** One object of the API server over time: which object each step of a pass writes, and
    what the calls of a run make of it. *)

From S2P Require Import Prelude GoStrings Lib ApiTypes Image Compat Config K8s StatefulSet Prog Go Client Proxy Auth Controller RollingRestart Resources ScaleDown Members Reconcile ReconcileProofs Demo AuthTheorems Settled Converged Isolation.
#[local] Open Scope string_scope.

(** ** Which object a step writes *)

Section Keys.
Context `{Lib}.
Implicit Types (c : HyperbytedbCluster) (t u : list (entry Ans)).

(** A call that creates, replaces or deletes the object [ns/name] of kind [k]. *)
Definition writes_key (k : Kind) (ns name : string) (e : Ev) : Prop :=
  match e with
  | Create k' o | Update k' o =>
      k' = k ∧ om_Namespace (meta_of k' o) = ns ∧ om_Name (meta_of k' o) = name
  | Delete k' ns' name' _ => k' = k ∧ ns' = ns ∧ name' = name
  | _ => False
  end.

(** ... and one that, if it writes, writes that object. *)
Definition only_key (k : Kind) (ns name : string) (e : Ev) : Prop :=
  written_kind e = None ∨ writes_key k ns name e.

Abbreviation keyed k ns name p := (obeys answers_request (only_key k ns name) p (λ _, True)).
End Keys.

Ltac keyed_leaf :=
  destruct_pairs; simplify_eq/=; use_results; destruct_and?;
  first [by left | right; cbn [writes_key];
    unfold owned_service, service_with, owned, set_owner, new_meta in *;
    cbn [answers_request meta_of svc_Meta cm_Meta sec_Meta pdb_Meta hpa_Meta dep_Meta
         sm_Meta om_Namespace om_Name] in *;
    repeat match goal with Hx : sec_Meta ?s = _ |- _ => rewrite Hx in *; clear Hx end;
    cbn [om_Namespace om_Name] in *; naive_solver congruence].
Ltac keyed := home_with ltac:(fun _ => keyed_leaf).

Section Steps.
Context `{Lib}.
Implicit Types (c : HyperbytedbCluster) (t u : list (entry Ans)).
Variables (k : Kind) (ns name : string).
Abbreviation keyed p R := (obeys answers_request (only_key k ns name) p R).

Lemma lookup_keyed k' ns' n : keyed (lookup_object k' ns' n)
  (λ r, ∀ o, r = inr (Some o) → om_Namespace (meta_of k' o) = ns' ∧ om_Name (meta_of k' o) = n).
Proof.
  unfold lookup_object. prog_unfold. cbn [obeys Prog.bind]. split; [by left|].
  intros [e|o'] Ho; [by destruct (IsNotFound e)|]. intros o [= <-]. by apply Ho.
Qed.
#[local] Hint Resolve lookup_keyed : home.
End Steps.

Section Keyed.
Context `{Lib}.
Implicit Types (c : HyperbytedbCluster) (t u : list (entry Ans)).
#[local] Hint Resolve lookup_keyed : home.
Abbreviation keyed k ns name p := (obeys answers_request (only_key k ns name) p (λ _, True)).

Lemma config_keyed c : keyed KConfigMap (cl_Namespace c) (ConfigMapName c) (reconcileConfigMap c).
Proof. unfold reconcileConfigMap. keyed. Qed.
Lemma peers_keyed c :
  keyed KConfigMap (cl_Namespace c) (cl_Name c +:+ "-peers") (cleanupLegacyPeersConfigMap c).
Proof. unfold cleanupLegacyPeersConfigMap. keyed. Qed.
Lemma service_keyed c d :
  keyed KService (om_Namespace (svc_Meta d)) (om_Name (svc_Meta d)) (reconcileService c d).
Proof. unfold reconcileService. keyed. Qed.
Lemma monitor_keyed c : keyed KServiceMonitor (cl_Namespace c) (om_Name (sm_Meta (BuildServiceMonitor c))) (reconcileServiceMonitor c).
Proof. unfold reconcileServiceMonitor. keyed. Qed.
Lemma pdb_keyed c : keyed KPDB (cl_Namespace c) (pdb_name c) (reconcilePDB c).
Proof. unfold reconcilePDB. keyed. Qed.
Lemma hpa_keyed c :
  keyed KHPA (cl_Namespace c) (cl_Name c) (reconcileHPA c).
Proof. unfold reconcileHPA. keyed. Qed.
Lemma proxy_service_keyed c :
  keyed KService (cl_Namespace c) (ProxyServiceName c) (reconcile_proxy_service c).
Proof.
  unfold reconcile_proxy_service. cbn zeta. eapply obeys_bind; [by apply (lookup_keyed _ _ _ KService)|].
  keyed.
Qed.
Lemma proxy_deployment_keyed c :
  keyed KDeployment (cl_Namespace c) (ProxyDeploymentName c) (reconcile_proxy_deployment c).
Proof.
  unfold reconcile_proxy_deployment, deployment_with. cbn zeta.
  eapply obeys_bind; [by apply (lookup_keyed _ _ _ KDeployment)|]. keyed.
Qed.

(** The Secrets are built without a write. *)
Lemma off_server_keyed k ns name e : off_server e → only_key k ns name e.
Proof. destruct e; try done; by left. Qed.
Lemma BuildTLS_off c ns n : emits off_server (BuildSelfSignedTLSSecret c ns n).
Proof. unfold BuildSelfSignedTLSSecret. foot. Qed.
Lemma FillAuth_off s : emits off_server (FillAuthSecret s).
Proof. apply fill_keys_emits. repeat constructor; by intros [?|?]. Qed.
Lemma BuildAuth_off c : emits off_server (BuildAuthSecret c).
Proof. unfold BuildAuthSecret. apply emits_bind; [apply FillAuth_off|]. by intros [?|[??]]. Qed.

Lemma BuildTLS_keyed k ns name c n :
  obeys answers_request (only_key k ns name) (BuildSelfSignedTLSSecret c (cl_Namespace c) n)
    (λ r, ∀ s, r = inr s → om_Namespace (sec_Meta s) = cl_Namespace c ∧ om_Name (sec_Meta s) = TLSSecretName c).
Proof.
  eapply obeys_swap; [exact (BuildTLS_home ns name c _ n)|].
  eapply emits_mono; [apply off_server_keyed|apply BuildTLS_off].
Qed.
Lemma FillAuth_keyed k ns name s :
  obeys answers_request (only_key k ns name) (FillAuthSecret s)
    (λ r, ∀ b s', r = inr (b, s') → sec_Meta s' = sec_Meta s).
Proof.
  eapply obeys_swap; [exact (FillAuth_home ns name s)|].
  eapply emits_mono; [apply off_server_keyed|apply FillAuth_off].
Qed.
Lemma BuildAuth_keyed k ns name c :
  obeys answers_request (only_key k ns name) (BuildAuthSecret c)
    (λ r, ∀ s, r = inr s → sec_Meta s = new_meta (AuthSecretName c) (cl_Namespace c) (CommonLabels c)).
Proof.
  eapply obeys_swap; [exact (BuildAuth_home ns name c)|].
  eapply emits_mono; [apply off_server_keyed|apply BuildAuth_off].
Qed.
#[local] Hint Resolve BuildTLS_keyed FillAuth_keyed BuildAuth_keyed : home.

Lemma tls_keyed c n : keyed KSecret (cl_Namespace c) (TLSSecretName c) (reconcileTLS c n).
Proof. unfold reconcileTLS, ensure_self_signed. keyed. Qed.
Lemma auth_keyed c : keyed KSecret (cl_Namespace c) (AuthSecretName c) (reconcileAuthSecret c).
Proof.
  unfold reconcileAuthSecret, create_auth_secret. keyed. use_results.
  split; [destruct (String.eqb _ _); keyed_leaf|keyed].
Qed.
End Keyed.

(** ** One object over time *)

Section Slots.
Context `{Lib}.
Variables (k : Kind) (ns name : string).
Implicit Types (t u : list (entry Ans)) (s : option (obj k)).

(** A call and the object [ns/name] of kind [k] before and after it.  Nobody but the pass
    writes the fields it sets: the server fills in others at any time, a read of the
    object answers what is there, a write that is accepted takes place, and one that
    fails may have. *)
Definition slot_step s (x : entry Ans) s' : Prop :=
  match entry_ev x as e return Ans e → Prop with
  | Get k' ns' name' => λ a,
      reads_on k s s' ∧
      (k' = k → ns' = ns → name' = name →
         match a with
         | inr o => s' = as_kind k k' o
         | inl e => IsNotFound e = true → s' = None
         end)
  | Create k' o | Update k' o => λ a,
      (writes_key k ns name (entry_ev x) ∧ reads_on k (as_kind k k' o) s') ∨
      ((writes_key k ns name (entry_ev x) → ∃ e, a = inl e) ∧ reads_on k s s')
  | Delete _ _ _ _ => λ a,
      (writes_key k ns name (entry_ev x) ∧ s' = None) ∨
      ((writes_key k ns name (entry_ev x) → ∃ e, a = inl e) ∧ reads_on k s s')
  | _ => λ _, reads_on k s s'
  end (entry_ans x).

Fixpoint slots s t s' : Prop :=
  match t with
  | [] => reads_on k s s'
  | x :: t => ∃ s1, slot_step s x s1 ∧ slots s1 t s'
  end.

Lemma agrees_refl (o : obj k) : agrees k o o.
Proof. by destruct k. Qed.
Lemma reads_on_refl s : reads_on k s s.
Proof. destruct s; [apply agrees_refl|done]. Qed.
Lemma agrees_trans (o1 o2 o3 : obj k) : agrees k o1 o2 → agrees k o2 o3 → agrees k o1 o3.
Proof. destruct k; cbn; try congruence; intuition congruence. Qed.
Lemma reads_on_trans s1 s2 s3 : reads_on k s1 s2 → reads_on k s2 s3 → reads_on k s1 s3.
Proof. destruct s1, s2, s3; cbn; try done. apply agrees_trans. Qed.

Lemma slots_app s t1 t2 s' : slots s (t1 ++ t2) s' → ∃ s1, slots s t1 s1 ∧ slots s1 t2 s'.
Proof.
  revert s. induction t1 as [|x t1 IH]; intros s; cbn.
  - intros Ht. exists s. split; [apply reads_on_refl|done].
  - intros (s1 & Hx & (s2 & H1 & H2)%IH). exists s2. split; [by exists s1|done].
Qed.

(** What does not depend on the fields the server fills in. *)
Definition closed (Q : option (obj k) → Prop) : Prop := ∀ s s', Q s → reads_on k s s' → Q s'.

Lemma slot_step_other s x s' :
  ¬ writes_key k ns name (entry_ev x) → slot_step s x s' → reads_on k s s'.
Proof.
  destruct x as [e a]. unfold slot_step. cbn. destruct e; cbn; try done; intuition.
Qed.

(** A run that does not write the object. *)
Lemma slots_frame Q s t s' :
  closed Q → Forall (λ x, ¬ writes_key k ns name (entry_ev x)) t → slots s t s' → Q s → Q s'.
Proof.
  intros Hc Ht. revert s. induction Ht as [|x t Hx _ IH]; intros s; cbn.
  - intros Hs Hq. by eapply Hc.
  - intros (s1 & H1 & H2) Hq. eapply IH; [exact H2|]. eapply Hc; [exact Hq|].
    by eapply slot_step_other.
Qed.

(** A run whose only write is of the object as it is. *)
Lemma slots_kept Q s0 s t s' :
  closed Q → Q s0 → Forall (λ x, keeps k s0 (entry_ev x)) t → slots s t s' → Q s → Q s'.
Proof.
  intros Hc H0 Ht. revert s. induction Ht as [|x t Hx _ IH]; intros s; cbn.
  - intros Hs Hq. by eapply Hc.
  - intros (s1 & H1 & H2) Hq. eapply IH; [exact H2|].
    destruct x as [e a]. unfold slot_step in H1. cbn in *.
    destruct e; cbn in *; try done; try exact (Hc _ _ Hq H1).
    { exact (Hc _ _ Hq (proj1 H1)). }
    destruct Hx as [Ho _]. destruct H1 as [[_ H1]|[_ H1]]; [|exact (Hc _ _ Hq H1)].
    rewrite Ho in H1. exact (Hc _ _ H0 H1).
Qed.

(** The first call of a run reads the object. *)
Class ReadsFirst {A} (p : P A) : Prop :=
  reads_first : ∀ t o, exec p t o → t = [] ∨ ∃ a t', t = @Entry Ev Ans (Get k ns name) a :: t'.

#[export] Instance lookup_reads_first {A} (g : GoErr + option (obj k) → P A) :
  ReadsFirst (lookup_object k ns name ≫= g).
Proof. intros t o (a & t' & -> & _). right. by exists a, t'. Qed.
#[export] Instance pbind_reads_first {A} (g : option (obj k) → P (GoErr + A)) :
  ReadsFirst (pbind (lookup_object k ns name) g).
Proof. apply lookup_reads_first. Qed.
#[export] Instance ret_reads_first {A} (a : A) : ReadsFirst (mret a : P A).
Proof. intros t o [-> _]. by left. Qed.

(** What the read finds is the object. *)
Lemma slots_first_read s a t s' s0 :
  slots s (@Entry Ev Ans (Get k ns name) a :: t) s' →
  first_read k (@Entry Ev Ans (Get k ns name) a :: t) = Some s0 →
  reads_on k s s0 ∧ slots s0 t s'.
Proof.
  intros (s1 & [Hs Hg] & Ht) Hr. specialize (Hg eq_refl eq_refl eq_refl).
  unfold first_read in Hr. cbn in Hr, Hg. destruct a as [e|o].
  - destruct (IsNotFound e); [|done]. injection Hr as <-. specialize (Hg eq_refl). by subst s1.
  - destruct (as_kind k k o) as [o'|] eqn:Ho; [|done]. injection Hr as <-. by subst s1.
Qed.

Section Own.
Context {A} (p : P A) `{!Maintains k p} `{!ReadsFirst p}.

(** A step leaves an object it wants as it is. *)
Lemma own_stable Q t o s s' :
  closed Q → (∀ s, Q s → wanted s) → exec p t o → Forall read_ok t → slots s t s' → Q s → Q s'.
Proof using All.
  intros Hc HW He Hr Hs Hq.
  destruct (reads_first t o He) as [->|(a & t' & ->)]; [by eapply Hc|].
  destruct (begins_reading _ o He Hr) as [?|[s0 H0]]; [done|].
  destruct (slots_first_read _ _ _ _ _ Hs H0) as [Hss0 Hs0].
  assert (Q s0) as Hq0 by by eapply Hc.
  pose proof (wanted_kept _ _ _ He H0 (HW _ Hq0)) as [_ Hk]%Forall_cons.
  by eapply slots_kept.
Qed.

(** A step that ran with nothing refused has the object as it wants it. *)
Lemma effect_slots s0 t s s' :
  Forall (λ x, only_key k ns name (entry_ev x)) t → Forall write_ok t → (∀ o, as_kind k k o = Some o) →
  reads_on k s0 s → slots s t s' → reads_on k (foldl (effect k) s0 t) s'.
Proof using Type.
  intros Hk Hw Hkk. revert s0 s. induction Hk as [|x t Hx _ IH]; intros s0 s Hs; cbn.
  - intros Ht. by eapply reads_on_trans.
  - apply Forall_cons in Hw as [Hwx Hw]. intros (s1 & H1 & H2). eapply (IH Hw); [|exact H2].
    clear IH H2 Hw. destruct x as [e a]. unfold slot_step, effect, write_ok in *. cbn in *.
    destruct e; cbn in *; try exact (reads_on_trans _ _ _ Hs H1);
      destruct Hx as [Hx|Hx]; try done.
    + exact (reads_on_trans _ _ _ Hs (proj1 H1)).
    + destruct Hwx as [[o' ->] _]. destruct H1 as [[_ H1]|[H1 _]]; [done|]. by destruct (H1 Hx).
    + destruct Hwx as [[o' ->] _]. destruct H1 as [[_ H1]|[H1 _]]; [done|]. by destruct (H1 Hx).
    + destruct Hwx as [-> _]. destruct H1 as [[_ ->]|[H1 _]]; [done|]. by destruct (H1 Hx).
Qed.

Lemma own_establishes t a s s' :
  k ≠ KStatefulSet → (∀ o, as_kind k k o = Some o) →
  exec p t (Done a) → Forall (λ x, only_key k ns name (entry_ev x)) t → Forall answered t → t ≠ [] →
  slots s t s' → wanted s'.
Proof using All.
  intros Hk Hkk He Honly Ha Hne Hs.
  destruct (left_wanted k p t a He Ha Hne) as (w & Hl & Hw); [by intros|].
  apply (wanted_agrees w); [done|].
  assert (Forall write_ok t) as Hwr by (eapply Forall_impl; [exact Ha|]; by intros x [? _]).
  destruct (reads_first t _ He) as [->|(b & t' & ->)]; [done|].
  unfold left_by in Hl. destruct (first_read k _) as [s0|] eqn:H0; [|done].
  injection Hl as <-. destruct (slots_first_read _ _ _ _ _ Hs H0) as [_ Hs0].
  apply Forall_cons in Honly as [_ Honly], Hwr as [_ Hwr]. cbn [foldl].
  by eapply effect_slots; [..|apply reads_on_refl|].
Qed.
End Own.
End Slots.
