(* ===== verification/Lasting.v ===== *)
(** What a completed pass has brought about stays: the object of a step, over all the
    passes that follow. *)

From S2P Require Import Prelude GoStrings Lib ApiTypes Image Compat Config K8s StatefulSet Prog Go Client Proxy Auth Controller RollingRestart Resources ScaleDown Members Reconcile ReconcileProofs Demo AuthTheorems Settled Converged Isolation Slots.
#[local] Open Scope string_scope.

(** ** The steps of a pass, and their objects *)

Section Passes.
Context `{Lib}.
Implicit Types (c : HyperbytedbCluster) (ctx : Ctx) (t u : list (entry Ans)).

Definition key_name c (s : Step) : string :=
  match s with
  | StepTLS => TLSSecretName c
  | StepAuth => AuthSecretName c
  | StepConfig => ConfigMapName c
  | StepLegacyPeers => cl_Name c +:+ "-peers"
  | StepHeadless => HeadlessServiceName c
  | StepClient => ClientServiceName c
  | StepStatefulSet => StatefulSetName c
  | StepProxyService => ProxyServiceName c
  | StepProxyDeployment => ProxyDeploymentName c
  | StepMonitor => om_Name (sm_Meta (BuildServiceMonitor c))
  | StepPDB => pdb_name c
  | StepHPA => cl_Name c
  end.

(** A call that writes the object of a step. *)
Definition writes_for c (s : Step) (x : entry Ans) : Prop :=
  writes_key (kind_of s) (cl_Namespace c) (key_name c s) (entry_ev x).

Lemma ran_keyed c s u :
  s ≠ StepStatefulSet → ran c s u → truthful u →
  Forall (λ x, only_key (kind_of s) (cl_Namespace c) (key_name c s) (entry_ev x)) u.
Proof.
  intros Hs Hr Ht. destruct s; try done; cbn [ran] in Hr; destruct Hr as [a Hr];
    refine (proj1 (obeys_exec _ _ _ _ _ _ _ Ht Hr)).
  - apply tls_keyed.
  - apply auth_keyed.
  - apply config_keyed.
  - apply peers_keyed.
  - apply (service_keyed c (BuildHeadlessService c)).
  - apply (service_keyed c (BuildClientService c)).
  - apply proxy_service_keyed.
  - apply proxy_deployment_keyed.
  - apply monitor_keyed.
  - apply pdb_keyed.
  - apply hpa_keyed.
Qed.

(** A name is not another with a suffix. *)
Lemma suffix_ne (a b : string) : b ≠ "" → a +:+ b ≠ a.
Proof.
  intros Hb He. apply (f_equal String.length) in He. rewrite string_length_app in He.
  destruct b; cbn in *; [done|lia].
Qed.
Lemma suffixes_ne (a b b' : string) : b ≠ b' → a +:+ b ≠ a +:+ b'.
Proof. intros Hb He. apply Hb. induction a as [|x a IH]; [done|]. injection He as He. auto. Qed.

(** The login Secret is not the one of the certificates. *)
Definition secrets_apart c : Prop := AuthSecretName c ≠ TLSSecretName c.

Lemma keys_apart c s s' :
  secrets_apart c → s ≠ s' → kind_of s = kind_of s' → key_name c s ≠ key_name c s'.
Proof.
  unfold secrets_apart. intros Ha Hs Hk. destruct s, s'; try done; cbn [key_name];
    unfold ConfigMapName, HeadlessServiceName, ClientServiceName, ProxyServiceName in *;
    first [by apply suffixes_ne|by apply suffix_ne|by apply not_eq_sym, suffix_ne|congruence].
Qed.

(** Clusters that ask for the same have the same keys, and want the same. *)
Lemma key_name_same c c' s : same_request c c' → key_name c' s = key_name c s.
Proof.
  intros (Hs & Hn & Hns & Ha). destruct s; cbn [key_name];
    unfold TLSSecretName, AuthSecretName, ConfigMapName, HeadlessServiceName, ClientServiceName,
      StatefulSetName, ProxyServiceName, ProxyDeploymentName, pdb_name;
      first [by rewrite ?Hs, ?Hn|exact Hn].
Qed.

(** [same_request] is an equivalence the builders respect. *)
#[export] Instance same_request_equiv : Equivalence same_request.
Proof.
  split; [by repeat split| |intros c1 c2 c3; apply same_request_trans].
  intros c c' (? & ? & ? & ?). by repeat split.
Qed.

(** Unfolds what is made of [c], down to its name, namespace, annotations and spec. *)
Ltac expose c :=
  repeat match goal with
  | |- context [?f c] =>
      let h := get_head f in
      lazymatch h with
      | @cl_Spec => fail | @cl_Name => fail | @cl_Namespace => fail | @cl_Meta => fail
      | _ => unfold h
      end
  end.
Ltac respects :=
  let c := fresh "c" in let c' := fresh "c'" in
  intros c c' (Hs & Hn & Hns & Ha); expose c; rewrite ?Hs, ?Hn, ?Hns, ?Ha; reflexivity.

#[export] Instance BuildHeadless_respects : Proper (same_request ==> eq) BuildHeadlessService.
Proof. respects. Qed.
#[export] Instance BuildClient_respects : Proper (same_request ==> eq) BuildClientService.
Proof. respects. Qed.
#[export] Instance BuildProxyService_respects : Proper (same_request ==> eq) BuildProxyService.
Proof. respects. Qed.
#[export] Instance BuildProxyDeployment_respects : Proper (same_request ==> eq) BuildProxyDeployment.
Proof. respects. Qed.
#[export] Instance BuildConfigMap_respects : Proper (same_request ==> eq) BuildConfigMap.
Proof. respects. Qed.
#[export] Instance desired_pdb_respects : Proper (same_request ==> eq) desired_pdb.
Proof. respects. Qed.
#[export] Instance desired_hpa_respects : Proper (same_request ==> eq) desired_hpa.
Proof. respects. Qed.

Lemma wanted_same c c' s o :
  s ≠ StepStatefulSet → same_request c c' → wanted_for c s o → wanted_for c' s o.
Proof.
  intros Hs Hc. destruct s; try done; cbn [wanted_for];
    try rewrite (BuildConfigMap_respects _ _ Hc); try rewrite (BuildHeadless_respects _ _ Hc);
    try rewrite (BuildClient_respects _ _ Hc); try rewrite (BuildProxyService_respects _ _ Hc);
    try rewrite (BuildProxyDeployment_respects _ _ Hc); try rewrite (desired_pdb_respects _ _ Hc);
    try rewrite (desired_hpa_respects _ _ Hc); try done.
  all: destruct Hc as (Hsp & _); unfold spec_replicas, autoscaling_enabled; by rewrite Hsp.
Qed.
End Passes.

(** Kinds none of whose objects is looked after by a step other than the StatefulSet's. *)
Definition foreign (k : Kind) : bool :=
  match k with KCluster | KPod | KPVC | KStatefulSet => true | _ => false end.

Lemma foreign_kinds s ks :
  s ≠ StepStatefulSet → forallb foreign ks = true →
  existsb (λ k, bool_decide (kind_of s = k)) ks = false.
Proof.
  intros Hs. induction ks as [|k ks IH]; cbn; [done|]. intros [Hk Hks]%andb_true_iff.
  rewrite (IH Hks), orb_false_r. apply bool_decide_eq_false_2. by destruct s, k.
Qed.

(** ** A pass and the object of one of its steps *)

Section Walk.
Context `{Lib}.
Implicit Types (c : HyperbytedbCluster) (ctx : Ctx) (t u : list (entry Ans)).

(** The step and the cluster, before and after the step. *)
Variables (c0 : HyperbytedbCluster) (σ : Step) (strict : bool).
Variables (Before After : option (obj (kind_of σ)) → Prop).
Abbreviation slots := (slots (kind_of σ) (cl_Namespace c0) (key_name c0 σ)).

(** Reads are answered, what comes back is the object asked for, the cluster is not
    edited meanwhile; when [strict], no write is refused either. *)
Definition fair (x : entry Ans) : Prop :=
  answers_request (entry_ev x) (entry_ans x) ∧ request_honest x ∧ read_ok x ∧
  (strict = true → answered x).

Hypothesis Hσ : σ ≠ StepStatefulSet.
Hypothesis Hen : enabled c0 σ = true.
Hypothesis Hap : secrets_apart c0.
Hypothesis HB : closed (kind_of σ) Before.
Hypothesis HA : closed (kind_of σ) After.
Hypothesis Hlax : strict = false → ∀ y, Before y → After y.
Hypothesis Hown : ∀ c u x y, same_request c0 c → ran c σ u → Forall fair u → slots x u y →
  Before x → After y.

(** After the steps [L]. *)
Definition phase (L : list Step) (y : option (obj (kind_of σ))) : Prop :=
  if bool_decide (σ ∈ L) then After y else Before y.

Lemma phase_closed L : closed (kind_of σ) (phase L).
Proof using HB HA. unfold phase. by case_bool_decide. Qed.

Lemma fair_truthful u : Forall fair u → truthful u.
Proof. intros Hu. eapply Forall_impl; [exact Hu|]. by intros x (? & _). Qed.
Lemma fair_honest u : Forall fair u → Forall request_honest u.
Proof. intros Hu. eapply Forall_impl; [exact Hu|]. by intros x (_ & ? & _). Qed.

(** The run of a step. *)
Lemma phase_ran c s u x y L :
  same_request c0 c → ran c s u → s ≠ StepStatefulSet → s ∉ L → Forall fair u → slots x u y →
  phase L x → phase (s :: L) y.
Proof using All.
  intros Hc Hr Hs HL Hf Hx Hp. destruct (decide (s = σ)) as [->|Hne].
  - unfold phase in *. rewrite bool_decide_eq_false_2 in Hp by done.
    rewrite bool_decide_eq_true_2 by set_solver. by eapply Hown.
  - assert (phase L y) as Hy.
    { eapply slots_frame; [apply phase_closed| |exact Hx|exact Hp].
      eapply Forall_impl; [exact (ran_keyed c s u Hs Hr (fair_truthful _ Hf))|].
      intros z Hz Hw. pose proof (key_name_same _ _ s Hc) as Hk.
      destruct z as [e a]. cbn in *. destruct Hz as [Hz|Hz]; [by destruct e|].
      destruct e; cbn in *; try done; destruct_and?; subst;
        eapply (keys_apart c0 s σ); try done; congruence. }
    unfold phase in *. by rewrite (bool_decide_ext _ (σ ∈ L)) by set_solver.
Qed.

(** What a step of the pass does: [L] before it, [L'] after it, or the pass ends. *)
Definition ended (y : option (obj (kind_of σ))) : Prop := Before y ∨ After y.

Lemma phase_ended L y : phase L y → ended y.
Proof. unfold phase, ended. case_bool_decide; tauto. Qed.
Lemma ended_closed : closed (kind_of σ) ended.
Proof using HB HA. intros s s' [?|?] Hr; [left|right]; [by eapply HB|by eapply HA]. Qed.

Definition moves (L L' : list Step) {A} (m : CM (Final + A)) c (R : HyperbytedbCluster → A → Prop) : Prop :=
  ∀ t c' r x y, exec (m c) t (Done (c', r)) → Forall fair t → slots x t y → phase L x →
    match r with inl _ => ended y | inr a => phase L' y ∧ R c' a end.

Lemma moves_rbind L L1 L2 {A B} (m : CM (Final + A)) (f : A → CM (Final + B)) c R1 R :
  moves L L1 m c R1 → (∀ c' a, R1 c' a → moves L1 L2 (f a) c' R) → moves L L2 (rbind m f) c R.
Proof using All.
  intros Hm Hf t c' r x y He Ht Hx Hp.
  apply exec_rbind in He as [(t1 & t2 & c1 & a & -> & H1 & H2)|[(c1 & fin & H1 & ?)|[_ ?]]]; [| |done].
  - apply Forall_app in Ht as [Ht1 Ht2]. apply slots_app in Hx as (z & Hx1 & Hx2).
    destruct (Hm _ _ _ _ _ H1 Ht1 Hx1 Hp) as [Hz HR]. by eapply (Hf c1 a HR).
  - simplify_eq. by apply (Hm _ _ _ _ _ H1 Ht Hx Hp).
Qed.

(** Calls that write no object of the kind. *)
Lemma frame_kinds {A} ks (p : P A) t o x y (Q : option (obj (kind_of σ)) → Prop) :
  closed (kind_of σ) Q → emits (writes_only ks) p →
  existsb (λ k, bool_decide (kind_of σ = k)) ks = false →
  exec p t o → slots x t y → Q x → Q y.
Proof using Type.
  intros HQ Hp Hk He. eapply slots_frame; [done|].
  eapply Forall_impl; [exact (emits_exec _ _ _ _ Hp He)|].
  intros [e a] Hw Hwk. cbn in *. unfold writes_only in Hw.
  destruct e; cbn in *; try done; destruct Hwk as [-> _]; congruence.
Qed.

Lemma moves_frame ks L {A} (m : CM (Final + A)) c (R : HyperbytedbCluster → A → Prop) :
  emits (writes_only ks) (m c) → existsb (λ k, bool_decide (kind_of σ = k)) ks = false →
  (∀ t c' a, exec (m c) t (Done (c', inr a)) → Forall request_honest t → R c' a) → moves L L m c R.
Proof using All.
  intros Hw Hk HR t c' r x y He Ht Hx Hp.
  assert (phase L y) as Hy by by (eapply frame_kinds; [apply phase_closed|..]).
  destruct r as [fin|a]; [by eapply phase_ended|]. split; [done|]. by eapply HR, fair_honest.
Qed.

(** A step whose error ends the pass, and one whose error is only logged. *)
Lemma moves_or_fail s reason L {A} (f : HyperbytedbCluster → P (GoErr + A)) c :
  same_request c0 c → s ≠ StepStatefulSet → s ∉ L → (∀ t a, exec (f c) t (Done a) → ran c s t) →
  moves L (s :: L) (or_fail reason (on_cluster f)) c (λ c' _, c' = c).
Proof using All.
  intros Hc Hs HL Hran t c' r x y He Ht Hx Hp. unfold or_fail in He.
  apply exec_m_bind in He as [(t1 & t2 & c1 & b & -> & H1 & H2)|[_ ?]]; [|done].
  apply exec_on_cluster_ok in H1 as [-> H1].
  apply Forall_app in Ht as [Ht1 Ht2]. apply slots_app in Hx as (z & Hx1 & Hx2).
  assert (phase (s :: L) z) as Hz by (eapply phase_ran; eauto).
  destruct b as [e|a].
  - destruct (setFailedStatus_returns _ _ _ _ _ _ H2) as [fin ->]. eapply phase_ended.
    by eapply frame_kinds; [apply phase_closed|apply (setFailedStatus_writes (A := A))| |exact H2|exact Hx2|].
  - destruct H2 as [-> Ho]. simplify_eq. split; [|done]. by eapply phase_closed.
Qed.

Lemma moves_best_effort s L (f : HyperbytedbCluster → P error) c :
  same_request c0 c → s ≠ StepStatefulSet → s ∉ L → (∀ t a, exec (f c) t (Done a) → ran c s t) →
  moves L (s :: L) (best_effort (on_cluster f)) c (λ c' _, c' = c).
Proof using All.
  intros Hc Hs HL Hran t c' r x y He Ht Hx Hp.
  destruct (best_effort_ok _ _ _ _ _ He) as [-> ->].
  apply best_effort_ran in He as [_ [a He]]. split; [|done]. eapply phase_ran; eauto.
Qed.

(** A step the spec turns off. *)
Lemma phase_off s L x : enabled c0 s = false → phase L x → phase (s :: L) x.
Proof using All.
  intros Hs. unfold phase. rewrite (bool_decide_ext (σ ∈ s :: L) (σ ∈ L)); [done|].
  assert (σ ≠ s) by congruence. set_solver.
Qed.

(** A step whose failure is passed over when requests may be refused. *)
Lemma phase_skip s L x : strict = false → phase L x → phase (s :: L) x.
Proof using All.
  intros Hs. unfold phase. repeat case_bool_decide; try done; [set_solver|by apply Hlax].
Qed.

Lemma moves_get L L' {A} (f : HyperbytedbCluster → CM (Final + A)) c R :
  moves L L' (f c) c R → moves L L' (get ≫= f) c R.
Proof using Type.
  intros Hf t c' r x y He. apply exec_m_bind in He as [(t1 & t2 & d & a & -> & [-> [= -> ->]] & He)|[_ ?]];
    [|done]. by apply Hf.
Qed.

Lemma moves_ret L {A} (a : A) c (R : HyperbytedbCluster → A → Prop) :
  R c a → moves L L (pure (inr a)) c R.
Proof using HB HA.
  intros HR t c' r x y [-> [= -> ->]] Ht Hx Hp. split; [|done]. by eapply phase_closed.
Qed.

(** *** Up to the StatefulSet *)

Definition prepared : list Step :=
  [StepClient; StepHeadless; StepLegacyPeers; StepConfig; StepAuth; StepTLS].

Lemma auth_moves ctx c L :
  same_request c0 c → StepAuth ∉ L → moves L (StepAuth :: L) (auth_step ctx) c (λ c' _, c' = c).
Proof using All.
  intros Hc HL. unfold auth_step. apply moves_get. destruct (ClusterAuthEnabled c) eqn:Hauth.
  - eapply moves_rbind; [apply (moves_or_fail StepAuth); [done..|by eexists]|].
    intros c' token ->. by apply moves_ret.
  - intros t c' r x y [-> [= -> ->]] Ht Hx Hp. split; [|done]. eapply phase_closed; [|exact Hx].
    apply phase_off; [|done]. by rewrite <- (enabled_same _ _ _ Hc).
Qed.

Lemma prepare_moves ctx c :
  same_request c0 c → moves [] prepared (prepare ctx) c (λ c' _, same_request c0 c').
Proof using All.
  intros Hc. unfold prepare.
  eapply moves_rbind; [apply (moves_frame []) with (R := λ c' _, same_request c0 c')|].
  { apply pause_check_writes. }
  { done. }
  { intros t c' [] He _. apply pause_check_ok in He as (_ & -> & st & ->). done. }
  intros c1 [] Hc1.
  eapply moves_rbind; [apply (moves_frame [KCluster]) with (R := λ c' _, same_request c0 c')|].
  { apply deletion_writes. }
  { by apply foreign_kinds. }
  { intros t c' [] He _. by apply deletion_ok in He as (_ & _ & ->). }
  intros c2 [] Hc2.
  eapply moves_rbind; [apply (moves_frame [KCluster]) with (R := λ c' _, same_request c0 c')|].
  { apply ensure_finalizer_writes. }
  { by apply foreign_kinds. }
  { intros t c' [] He Hh. eapply same_request_trans; [done|]. by eapply ensure_finalizer_request. }
  intros c3 [] Hc3. apply moves_get.
  eapply moves_rbind; [apply (moves_frame []) with (R := λ c' _, c' = c3)|].
  { apply previous_replicas_writes. }
  { done. }
  { intros t c' n He _. by apply previous_replicas_ok in He as [-> _]. }
  intros c4 prev ->.
  eapply moves_rbind; [apply (moves_or_fail StepTLS); [done..|set_solver|by eexists]|]. intros ? [] ->.
  eapply moves_rbind; [apply auth_moves; [done|set_solver]|]. intros ? ctx' ->.
  eapply moves_rbind; [apply (moves_or_fail StepConfig); [done..|set_solver|by eexists]|]. intros ? [] ->.
  eapply moves_rbind; [apply (moves_best_effort StepLegacyPeers); [done..|set_solver|by eexists]|].
  intros ? [] ->.
  eapply moves_rbind; [apply (moves_or_fail StepHeadless); [done..|set_solver|by eexists]|]. intros ? [] ->.
  eapply moves_rbind; [apply (moves_or_fail StepClient); [done..|set_solver|by eexists]|]. intros ? [] ->.
  by apply moves_ret.
Qed.

(** *** From the StatefulSet on *)

Lemma reconcileStatefulSet_writes c h : emits (writes_only [KStatefulSet]) (reconcileStatefulSet c h).
Proof using Type. unfold reconcileStatefulSet, sts_result. foot. Qed.

Lemma statefulset_step_writes h c : emits (writes_only [KStatefulSet]) (statefulset_step h c).
Proof using Type.
  unfold statefulset_step. apply m_bind_emits; [apply on_cluster_emits, reconcileStatefulSet_writes|].
  intros [e|res] c'; [destruct (IsConflict e); [done|]|by destruct (srr_Recreating res)].
  by eapply emits_writes_mono; [|apply setFailedStatus_writes].
Qed.

Lemma statefulset_step_ok h c t c' res :
  exec (statefulset_step h c) t (Done (c', inr res)) → c' = c.
Proof using Type.
  unfold statefulset_step. intros [(u1 & u2 & d & r & -> & H1 & H2)|[_ ?]]%exec_m_bind; [|done].
  apply exec_on_cluster_ok in H1 as [-> _]. destruct r as [e|res'].
  - destruct (IsConflict e); [by destruct H2 as [_ ?]|]. by apply setFailedStatus_returns in H2 as [? ?].
  - destruct (srr_Recreating res'); by destruct H2 as [_ [= ->]].
Qed.

Lemma proxy_moves c L :
  same_request c0 c → StepProxyService ∉ L → StepProxyDeployment ∉ L →
  moves L (StepProxyDeployment :: StepProxyService :: L) proxy_step c (λ c' _, c' = c).
Proof using All.
  intros Hc HL1 HL2. unfold proxy_step. apply moves_get. destruct (ProxyEnabled c) eqn:Hp.
  - intros t c' r x y He Ht Hx Hph. destruct (best_effort_ok _ _ _ _ _ He) as [-> ->].
    apply best_effort_ran in He as [_ [a He]]. split; [|done].
    apply exec_pbind in He as [(t1 & t2 & [] & -> & H1 & H2)|[(e & H1 & _)|[_ ?]]]; [| |done].
    + apply Forall_app in Ht as [Ht1 Ht2]. apply slots_app in Hx as (z & Hx1 & Hx2).
      eapply (phase_ran c StepProxyDeployment); [done|by eexists|done|set_solver|done..|].
      by eapply (phase_ran c StepProxyService); [|eexists|..].
    + destruct (decide (strict = true)) as [Hs|Hs%not_true_is_false].
      * destruct (proxy_service_fine _ _ _ H1). eapply Forall_impl; [exact Ht|]. intros z Hz. by apply Hz.
      * apply phase_skip; [done|]. by eapply (phase_ran c StepProxyService); [|eexists|..].
  - intros t c' r x y [-> [= -> ->]] Ht Hx Hph. split; [|done]. eapply phase_closed; [|exact Hx].
    rewrite (enabled_same c0 c StepProxyService Hc : ProxyEnabled c = ProxyEnabled c0) in Hp.
    by do 2 (apply phase_off; [done|]).
Qed.

Lemma monitor_moves c L :
  same_request c0 c → StepMonitor ∉ L → moves L (StepMonitor :: L) service_monitor_step c (λ c' _, c' = c).
Proof using All.
  intros Hc HL. unfold service_monitor_step. apply moves_get.
  destruct (mon_ServiceMonitor _) eqn:Hm.
  - by apply (moves_best_effort StepMonitor); [..|by eexists].
  - intros t c' r x y [-> [= -> ->]] Ht Hx Hp. split; [|done]. eapply phase_closed; [|exact Hx].
    apply phase_off; [|done]. by rewrite <- (enabled_same _ _ _ Hc).
Qed.

Definition converged : list Step :=
  [StepHPA; StepPDB; StepMonitor; StepProxyDeployment; StepProxyService] ++ prepared.

Lemma converge_moves ctx sts prev n h c :
  same_request c0 c → moves prepared converged (converge ctx sts prev n h) c (λ _ _, True).
Proof using All.
  intros Hc. unfold converge.
  eapply moves_rbind; [apply (moves_frame [KPod]) with (R := λ c' _, c' = c)|].
  { apply or_fail_emits, on_cluster_emits, deleteStuckDepartedPods_writes. }
  { by apply foreign_kinds. }
  { intros t c' [] He _. by apply or_fail_on_cluster_ok in He as [-> _]. }
  intros ? [] ->.
  eapply moves_rbind; [apply proxy_moves; [done|set_solver..]|]. intros ? [] ->.
  eapply moves_rbind; [apply (moves_frame []) with (R := λ c' _, same_request c0 c')|].
  { apply rolling_restart_step_writes. }
  { done. }
  { intros t c' [] He Hh. eapply same_request_trans; [done|]. by eapply rolling_restart_step_ran. }
  intros c1 [] Hc1.
  eapply moves_rbind; [apply (moves_frame []) with (R := λ c' _, c' = c1)|].
  { apply scaling_step_writes. }
  { done. }
  { intros t c' [] He _. by apply scaling_step_ok in He. }
  intros ? [] ->.
  eapply moves_rbind; [apply (moves_frame [KPVC]) with (R := λ c' _, c' = c1)|].
  { apply orphan_pvc_step_writes. }
  { by apply foreign_kinds. }
  { intros t c' [] He _. by apply orphan_pvc_step_ok in He. }
  intros ? [] ->.
  eapply moves_rbind; [apply monitor_moves; [done|set_solver]|]. intros ? [] ->.
  eapply moves_rbind; [apply (moves_best_effort StepPDB); [done..|set_solver|by eexists]|]. intros ? [] ->.
  eapply moves_rbind; [apply (moves_best_effort StepHPA); [done..|set_solver|by eexists]|]. intros ? [] ->.
  apply (moves_frame [KPod]); [|by apply foreign_kinds|done].
  apply m_bind_emits; [apply observe_writes|]. done.
Qed.

Lemma pass_moves ctx c :
  same_request c0 c → moves [] converged (reconcile_steps ctx) c (λ _ _, True).
Proof using All.
  intros Hc. unfold reconcile_steps.
  eapply moves_rbind; [by apply prepare_moves|]. intros c1 [[[ctx1 prev] n] h] Hc1.
  eapply moves_rbind; [apply (moves_frame []) with (R := λ c' _, c' = c1)|].
  { apply scale_down_step_writes. }
  { done. }
  { intros t c' [] He _. by apply scale_down_step_ok in He as [-> _]. }
  intros ? [] ->.
  eapply moves_rbind; [apply (moves_frame [KStatefulSet]) with (R := λ c' _, c' = c1)|].
  { apply statefulset_step_writes. }
  { by apply foreign_kinds. }
  { intros t c' res He _. by apply statefulset_step_ok in He. }
  intros ? sts ->. by apply converge_moves.
Qed.

(** A pass that comes to its end, and one that ends anywhere. *)
Lemma pass_after ctx c t c' fin x y :
  same_request c0 c → exec (reconcile_steps ctx c) t (Done (c', inr fin)) → Forall fair t → slots x t y →
  Before x → After y.
Proof using All.
  intros Hc He Ht Hx Hp. destruct (pass_moves ctx c Hc _ _ _ _ _ He Ht Hx) as [Hy _]; [by unfold phase|].
  unfold phase in Hy. rewrite bool_decide_eq_true_2 in Hy; [done|]. clear -Hσ. unfold converged, prepared.
  destruct (decide (σ = StepStatefulSet)); [done|]. cbn. rewrite !elem_of_cons.
  revert Hσ. generalize σ. intros []; tauto.
Qed.

Lemma pass_ended ctx c t c' r x y :
  same_request c0 c → exec (reconcile_steps ctx c) t (Done (c', r)) → Forall fair t → slots x t y →
  Before x → ended y.
Proof using All.
  intros Hc He Ht Hx Hp. destruct r as [fin|fin].
  - exact (pass_moves ctx c Hc _ _ _ _ _ He Ht Hx Hp).
  - right. by eapply pass_after.
Qed.
End Walk.

(** ** What lasts *)

Section Lasting.
Context `{Lib}.
Implicit Types (c : HyperbytedbCluster) (ctx : Ctx) (t u : list (entry Ans)).

(** [u] is the run of a program that maintains the object [ns/name], wanted as [W] says. *)
Definition maintained_run (k : Kind) (ns name : string) (W : option (obj k) → Prop) u : Prop :=
  ∃ A (p : P A) (M : Maintains k p) a,
    ReadsFirst k ns name p ∧ exec p u (Done a) ∧ u ≠ [] ∧ ∀ o, W o ↔ wanted o.

Lemma maintained_run_of {A} (p : P A) k ns name u a `{M : !Maintains k p} `{!ReadsFirst k ns name p} :
  exec p u (Done a) → ¬ exec p [] (Done a) → maintained_run k ns name wanted u.
Proof. intros He Hne. exists A, p, M, a. split_and!; [done..|by intros ->|done]. Qed.

Lemma ran_program c s u :
  s ≠ StepStatefulSet → enabled c s = true → ran c s u →
  maintained_run (kind_of s) (cl_Namespace c) (key_name c s) (wanted_for c s) u.
Proof.
  intros Hs Hen Hran. destruct s; try done; destruct Hran as [a He]; cbn [kind_of].
  1: { assert (exec (ensure_self_signed c (spec_replicas c)) u (Done a)) as He'.
       { cbn [enabled] in Hen. unfold self_signed, reconcileTLS in *.
         destruct (srv_TLS _) as [tls|]; [|done].
         apply andb_true_iff in Hen as [Hen H3]. apply andb_true_iff in Hen as [H1 H2].
         rewrite H1, H2 in He. apply negb_true_iff in H3. by rewrite H3 in He. }
       refine (maintained_run_of _ _ _ _ _ _ He' _). by intros (? & ? & ? & _). }
  all: refine (maintained_run_of _ _ _ _ _ _ He _); by intros (? & ? & ? & _).
Qed.

Abbreviation tracks c s := (slots (kind_of s) (cl_Namespace c) (key_name c s)).

Lemma as_kind_self s (o : obj (kind_of s)) : as_kind (kind_of s) (kind_of s) o = Some o.
Proof. by destruct s. Qed.

Lemma tracks_same c c' s x t y : same_request c c' → tracks c s x t y → tracks c' s x t y.
Proof.
  intros Hc Hx. pose proof Hc as (_ & _ & Hns & _). rewrite Hns, (key_name_same c c' s Hc). exact Hx.
Qed.

(** The two ways a step meets its object. *)
Lemma ran_establishes c s u x y :
  s ≠ StepStatefulSet → enabled c s = true → ran c s u → truthful u → Forall answered u →
  tracks c s x u y → wanted_for c s y.
Proof.
  intros Hs Hen Hr Ht Ha Hx. pose proof (ran_keyed c s u Hs Hr Ht) as Hk.
  destruct (ran_program c s u Hs Hen Hr) as (A & p & M & a & HR & He & Hne & HW).
  apply HW. eapply (own_establishes _ _ _ p u a x y); [by destruct s|apply as_kind_self|done..].
Qed.

Lemma ran_stable c s u Q x y :
  s ≠ StepStatefulSet → enabled c s = true → closed (kind_of s) Q → (∀ z, Q z → wanted_for c s z) →
  ran c s u → Forall read_ok u → tracks c s x u y → Q x → Q y.
Proof.
  intros Hs Hen HQ HW' Hr Ha Hx.
  destruct (ran_program c s u Hs Hen Hr) as (A & p & M & a & HR & He & Hne & HW).
  eapply (own_stable _ _ _ p); [done| |exact He|done|exact Hx]. intros z Hz. by apply HW, HW'.
Qed.

(** What is wanted does not depend on the fields the server fills in. *)
Lemma wanted_closed c s : s ≠ StepStatefulSet → closed (kind_of s) (wanted_for c s).
Proof.
  intros Hs x y Hw Hxy. destruct s; try done.
  - exact (wanted_agrees (p := ensure_self_signed c 0) _ _ Hw Hxy).
  - exact (wanted_agrees (p := reconcileAuthSecret c) _ _ Hw Hxy).
  - exact (wanted_agrees (p := reconcileConfigMap c) _ _ Hw Hxy).
  - exact (wanted_agrees (p := cleanupLegacyPeersConfigMap c) _ _ Hw Hxy).
  - exact (wanted_agrees (p := reconcileService c (BuildHeadlessService c)) _ _ Hw Hxy).
  - exact (wanted_agrees (p := reconcileService c (BuildClientService c)) _ _ Hw Hxy).
  - exact (wanted_agrees (p := reconcile_proxy_service c) _ _ Hw Hxy).
  - exact (wanted_agrees (p := reconcile_proxy_deployment c) _ _ Hw Hxy).
  - exact (wanted_agrees (p := reconcileServiceMonitor c) _ _ Hw Hxy).
  - exact (wanted_agrees (p := reconcilePDB c) _ _ Hw Hxy).
  - exact (wanted_agrees (p := reconcileHPA c) _ _ Hw Hxy).
Qed.

(** The passes over a cluster that keeps asking for the same, one after the other; each
    may end early or at its end, with an error or without. *)
Inductive steady_passes c : list (entry Ans) → Prop :=
  | no_pass : steady_passes c []
  | one_more ctx c' t c'' r u :
      same_request c c' → exec (reconcile_steps ctx c') t (Done (c'', r)) → steady_passes c u →
      steady_passes c (t ++ u).

(** What a pass leaves when all its steps ran, and what later passes leave alone. *)
Lemma pass_establishes c ctx t c' fin s x y :
  s ≠ StepStatefulSet → enabled c s = true → secrets_apart c →
  exec (reconcile_steps ctx c) t (Done (c', inr fin)) →
  Forall (fair true) t → tracks c s x t y → wanted_for c s y.
Proof.
  intros Hs Hen Hap He Hf Hx.
  eapply (pass_after c s true (λ _, True) (wanted_for c s));
    [done..|by apply wanted_closed|done| |reflexivity|exact He|exact Hf|exact Hx|done].
  intros c1 u x' y' Hc Hr Hu Hx' _. apply (wanted_same c1 c); [done|by symmetry|].
  eapply ran_establishes; [done|by rewrite (enabled_same c)|done|by eapply fair_truthful| |by eapply tracks_same].
  eapply Forall_impl; [exact Hu|]. intros z Hz. by apply Hz.
Qed.

Lemma pass_preserves c ctx c1 t c' r s Q x y :
  s ≠ StepStatefulSet → enabled c s = true → secrets_apart c → same_request c c1 →
  closed (kind_of s) Q → (∀ z, Q z → wanted_for c s z) →
  exec (reconcile_steps ctx c1) t (Done (c', r)) →
  Forall (fair false) t → tracks c s x t y → Q x → Q y.
Proof.
  intros Hs Hen Hap Hc HQ HW He Hf Hx Hq.
  enough (ended s Q Q y) as [?|?] by done.
  eapply (pass_ended c s false Q Q); [done..| |exact Hc|exact He|exact Hf|exact Hx|done].
  intros c2 u x' y' Hc2 Hr Hu Hx' Hx0.
  eapply (ran_stable c2 s u Q x'); [done|by rewrite (enabled_same c)|done| |done| |by eapply tracks_same|done].
  - intros z Hz. apply (wanted_same c c2); auto.
  - eapply Forall_impl; [exact Hu|]. by intros z (_ & _ & ? & _).
Qed.

Lemma passes_preserve c u s Q x y :
  s ≠ StepStatefulSet → enabled c s = true → secrets_apart c →
  closed (kind_of s) Q → (∀ z, Q z → wanted_for c s z) →
  steady_passes c u → Forall (fair false) u → tracks c s x u y → Q x → Q y.
Proof.
  intros Hs Hen Hap HQ HW Hp. revert x.
  induction Hp as [|ctx c1 t c2 r u Hc He _ IH]; intros x Hf Hx Hq; [by eapply HQ|].
  apply Forall_app in Hf as [Hf1 Hf2]. apply slots_app in Hx as (z & Hx1 & Hx2).
  eapply IH; [done|exact Hx2|]. by eapply pass_preserves.
Qed.

(** C12: what a completed pass has brought about lasts.  Take an object a step of the
    operator looks after, the StatefulSet apart, that the spec turns on, of a cluster whose
    login Secret is not the one of its certificates.  A pass that comes to its end with no
    request refused leaves the object as the spec wants it; and after any number of further
    passes over a cluster that asks for the same - ending early or at their end, every read
    answered, but writes refused or failing after they took effect, and with the server
    filling in its fields at any time - the object is still what that first pass left, and
    still as wanted: no step of the operator undoes another's work. *)
Theorem convergence_lasts c s ctx t c' fin u x y z :
  s ≠ StepStatefulSet → enabled c s = true → secrets_apart c →
  exec (reconcile_steps ctx c) t (Done (c', inr fin)) →
  Forall (fair true) t → tracks c s x t y →
  steady_passes c u → Forall (fair false) u → tracks c s y u z →
  wanted_for c s z ∧ reads_on (kind_of s) y z.
Proof.
  intros Hs Hen Hap He Hft Hx Hp Hfu Hy.
  assert (wanted_for c s y) as Hw by by eapply pass_establishes.
  eapply (passes_preserve c u s (λ o, wanted_for c s o ∧ reads_on (kind_of s) y o));
    [done..| |by intros ? []|done|done|exact Hy|].
  - intros o o' [H1 H2] Ho. split; [by eapply wanted_closed|by eapply reads_on_trans].
  - split; [done|apply reads_on_refl].
Qed.
End Lasting.

(** ** Witness *)

(** A run in which every request succeeds, the object is touched through its key only
    and the server fills in nothing: [s] before it, [s'] after it. *)
Section Follow.
Variables (k : Kind) (ns name : string).

Definition hits (k' : Kind) (ns' name' : string) : bool :=
  bool_decide (k' = k) && String.eqb ns' ns && String.eqb name' name.

Fixpoint follows (s : option (obj k)) (t : list (entry Ans)) (s' : option (obj k)) : Prop :=
  match t with
  | [] => s = s'
  | x :: t =>
      match entry_ev x as e return Ans e → Prop with
      | Get k' ns' name' => λ a,
          (if hits k' ns' name'
           then match a with inr o => s = as_kind k k' o | inl _ => s = None end else True) ∧
          follows s t s'
      | Create k' o | Update k' o => λ _,
          if hits k' (om_Namespace (meta_of k' o)) (om_Name (meta_of k' o))
          then follows (as_kind k k' o) t s' else follows s t s'
      | Delete k' ns' name' _ => λ _,
          if hits k' ns' name' then follows None t s' else follows s t s'
      | _ => λ _, follows s t s'
      end (entry_ans x)
  end.

Lemma hits_spec k' ns' name' :
  if hits k' ns' name' then k' = k ∧ ns' = ns ∧ name' = name
  else ¬ (k' = k ∧ ns' = ns ∧ name' = name).
Proof.
  unfold hits. case_bool_decide; cbn; [|by intros (? & _)].
  destruct (String.eqb_spec ns' ns), (String.eqb_spec name' name); cbn; naive_solver.
Qed.

Lemma follows_slots s t s' : follows s t s' → slots k ns name s t s'.
Proof.
  revert s. induction t as [|[e a] t IH]; intros s; cbn [follows slots entry_ev entry_ans].
  { intros ->. apply reads_on_refl. }
  destruct e as [| | |k' ns' name'|k' o|k' o|k' o|k' ns' name' b| | | |];
    try (intros Hf; exists s; split; [apply reads_on_refl|by apply IH]).
  { intros [Hh Hf]. exists s. split; [|by apply IH]. split; [apply reads_on_refl|]. cbn.
    pose proof (hits_spec k' ns' name') as Hs. destruct (hits _ _ _); [|tauto]. by destruct a. }
  all: match goal with |- context [hits ?k' ?n ?m] => pose proof (hits_spec k' n m) as Hs end.
  all: destruct (hits _ _ _); intros Hf; eexists; (split; [|by apply IH]).
  all: first [left; split; [exact Hs|first [apply reads_on_refl|done]]
             |right; split; [intros Hx; by destruct (Hs Hx)|apply reads_on_refl]].
Qed.
End Follow.

(** The first pass makes the ConfigMap; in the second, the cluster has a phase and the
    ConfigMap is there. *)
Definition lasting_config : ConfigMap :=
  let d := BuildConfigMap fresh_cluster in
  mkConfigMap (owned (cl_Name fresh_cluster) (cm_Meta d)) (cm_Data d).
Definition lasting_cluster : HyperbytedbCluster :=
  with_status fresh_cluster (set_phase (cl_Status fresh_cluster) ClusterPhaseRunning).
Definition lasting_world : World :=
  mkWorld 0%Z
    (λ k name, match k with
               | KStatefulSet => Some (settled_sts fresh_cluster)
               | KConfigMap => if String.eqb name (ConfigMapName fresh_cluster) then Some lasting_config else None
               | _ => None
               end) [] (w_http (fresh_world fresh_cluster)).

Lemma world_fair {A} b w (p : prog Ans A) :
  forallb truthful_entry (trace_of w p) = true → Forall (fair b) (trace_of w p).
Proof.
  intros Ht%truthful_check. pose proof (world_request_honest w p) as Hh.
  pose proof (world_answered w p) as Ha. unfold truthful in Ht. rewrite Forall_forall in *.
  intros x Hx. split_and!; [by apply Ht|by apply Hh|by apply Ha|by intros _; apply Ha].
Qed.

Lemma convergence_lasts_witness :
  wanted_for fresh_cluster StepConfig (Some lasting_config) ∧
  reads_on KConfigMap (Some lasting_config) (Some lasting_config).
Proof.
  assert (∃ t c' fin, exec (reconcile_steps "" fresh_cluster) t (Done (c', inr fin)) ∧ Forall (fair true) t ∧
    slots KConfigMap "ns" "db-config" None t (Some lasting_config)) as (t & c' & fin & He & Hf & Hs).
  { exists (trace_of (fresh_world fresh_cluster) (reconcile_steps "" fresh_cluster)).
    assert (match result_of (fresh_world fresh_cluster) (reconcile_steps "" fresh_cluster) with
            | Done (_, inr _) => true | _ => false end = true) as Hr by (vm_compute; reflexivity).
    destruct (result_of (fresh_world _) _) as [[c' [|fin]]|] eqn:Ho; [discriminate| |discriminate].
    exists c', fin. split; [exact (world_done _ _ _ Ho)|]. split.
    - apply world_fair. vm_compute. reflexivity.
    - apply follows_slots. vm_compute. repeat split. }
  assert (∃ u, steady_passes fresh_cluster u ∧ Forall (fair false) u ∧
    slots KConfigMap "ns" "db-config" (Some lasting_config) u (Some lasting_config)) as (u & Hp & Hfu & Hsu).
  { exists (trace_of lasting_world (reconcile_steps "" lasting_cluster) ++ [])%list.
    assert (match result_of lasting_world (reconcile_steps "" lasting_cluster) with
            | Done _ => true | _ => false end = true) as Hr by (vm_compute; reflexivity).
    destruct (result_of lasting_world _) as [[c'' r]|] eqn:Ho; [|discriminate]. split.
    - eapply one_more; [|exact (world_done _ _ _ Ho)|constructor]. repeat split.
    - rewrite app_nil_r. split.
      + apply world_fair. vm_compute. reflexivity.
      + apply follows_slots. vm_compute. repeat split. }
  refine (convergence_lasts fresh_cluster StepConfig "" t c' fin u None (Some lasting_config)
            (Some lasting_config) _ eq_refl _ He Hf Hs Hp Hfu Hsu).
  - discriminate.
  - vm_compute. discriminate.
Defined.
